(** * india-vehicle-stats: the data aggregation layer of the explorer

    A shallow embedding of [viz/src/lib/data-loader.ts] and the properties
    its specification states about it.

    Conventions of the embedding.
    - Counts, years and months are JavaScript numbers that hold integers
      (the data dictionary types them int64); they are modelled by [Z].
      The aggregator is embedded twice.  The definitions of the first part
      add the counts as integers.  The module [Binary64] embeds the
      functions that add on IEEE 754 binary64 values ([spec_float] at
      precision 53), as the program runs them, and the two agree while the
      counts of a document stay, added up without their signs, below 2^53
      (the lemmas named [_exact]).  The statements that compare sums
      formed in different groupings are about [Binary64] and carry that
      range as a hypothesis.  The formatter divides, so it works on
      binary64 values throughout.
    - A JavaScript object is the list of its [Object.entries], in
      enumeration order.  Property names are unique in an object, and an
      assignment adds a property under every name but [__proto__]; the
      theorems that depend on it assume the models [wf_metrics].
    - A JavaScript [Map] is the list of its entries in insertion order.
    - A thrown exception is the [Throw] outcome of [result]. *)

From Stdlib Require Import ZArith List String Ascii Bool Lia.
From Stdlib Require Import Permutation Sorted OrderedTypeEx.
From Stdlib Require Import Decimal DecimalString DecimalPos DecimalZ.
From Stdlib Require Import SpecFloat.
Import ListNotations.

Local Open Scope string_scope.
Local Open Scope list_scope.
Local Open Scope Z_scope.

(** ** The JavaScript values and built-ins the module relies on *)

Module JS.

(** Exceptions: a [TypeError] raised by the runtime, or an [Error] object
    created by the program with its message. *)
Inductive exn :=
| TypeError
| Error (message : string).

Inductive result (A : Type) :=
| Ok (a : A)
| Throw (e : exn).
Arguments Ok {A} a.
Arguments Throw {A} e.

Definition bind {A B} (r : result A) (k : A -> result B) : result B :=
  match r with
  | Ok a => k a
  | Throw e => Throw e
  end.

(** *** Objects *)

Definition Object (V : Type) := list (string * V).

Definition Object_entries {V} (o : Object V) : list (string * V) := o.
Definition Object_keys {V} (o : Object V) : list string := map fst o.
Definition Object_values {V} (o : Object V) : list V := map snd o.

(** [o[k]]: the own property, [None] standing for [undefined].  (Under a
    name that [Object.prototype] defines, JavaScript answers an inherited
    function or object; none has entries of its own, and the loader's
    results on it are those on [undefined].) *)
Fixpoint Object_get {V} (o : Object V) (k : string) : option V :=
  match o with
  | [] => None
  | (k', v) :: o' => if String.eqb k' k then Some v else Object_get o' k
  end.

(** [o[k] = v]: an existing property keeps its place, a new one is
    enumerated last. *)
Fixpoint Object_set {V} (o : Object V) (k : string) (v : V) : Object V :=
  match o with
  | [] => [(k, v)]
  | (k', v') :: o' =>
      if String.eqb k' k then (k', v) :: o' else (k', v') :: Object_set o' k v
  end.

(** [delete o[k]] *)
Fixpoint Object_delete {V} (o : Object V) (k : string) : Object V :=
  match o with
  | [] => []
  | (k', v') :: o' =>
      if String.eqb k' k then o' else (k', v') :: Object_delete o' k
  end.

(** *** Maps ([new Map<string, V>()]) *)

Definition Map (V : Type) := list (string * V).

Fixpoint Map_get {V} (m : Map V) (k : string) : option V :=
  match m with
  | [] => None
  | (k', v) :: m' => if String.eqb k' k then Some v else Map_get m' k
  end.

Definition Map_has {V} (m : Map V) (k : string) : bool :=
  match Map_get m k with
  | Some _ => true
  | None => false
  end.

Fixpoint Map_set {V} (m : Map V) (k : string) (v : V) : Map V :=
  match m with
  | [] => [(k, v)]
  | (k', v') :: m' =>
      if String.eqb k' k then (k', v) :: m' else (k', v') :: Map_set m' k v
  end.

Definition Map_entries {V} (m : Map V) : list (string * V) := m.

(** *** [Array.prototype.sort]

    The sort is stable, and for a consistent comparator its result is
    determined: the elements in comparator order, equal ones in their
    original order.  Insertion from the right computes exactly that. *)

Section Sort.
Context {A : Type} (compareFn : A -> A -> Z).

Fixpoint sort_insert (x : A) (l : list A) : list A :=
  match l with
  | [] => [x]
  | y :: l' =>
      if compareFn x y <=? 0 then x :: y :: l' else y :: sort_insert x l'
  end.

Definition Array_sort (l : list A) : list A :=
  fold_right sort_insert [] l.
End Sort.

(** *** Strings and numbers *)

(** [String(n)] for an integer [n] (no exponent below 10^21). *)
Definition String_of_int (n : Z) : string :=
  NilZero.string_of_int (Z.to_int n).

(** [s.split(sep)] for a one-character separator. *)
Fixpoint String_split (sep : ascii) (s : string) : list string :=
  match s with
  | EmptyString => [EmptyString]
  | String c s' =>
      if Ascii.eqb c sep then EmptyString :: String_split sep s'
      else match String_split sep s' with
           | [] => [String c EmptyString]
           | piece :: pieces => String c piece :: pieces
           end
  end.

(** [Number(s)] on the strings that occur here: a run of decimal digits
    is its value and the empty string is 0.  [Number] reads [NaN] from the
    strings that are not numeric; the pieces of the keys of a trend map
    are all numeric in the sense of [is_numeric] (lemma
    [trend_map_keys_numeric] below), and on the others the model answers
    0. *)
Definition Number_of_string (s : string) : Z :=
  match NilEmpty.uint_of_string s with
  | Some d => Z.of_uint d
  | None => 0
  end.

Definition is_numeric (s : string) : bool :=
  match NilEmpty.uint_of_string s with
  | Some _ => true
  | None => false
  end.

End JS.

Import JS.

Notation "x <- e ;; k" := (bind e (fun x => k))
  (at level 61, e at next level, right associativity).

(** ** The data model ([types.ts]) *)

(** Modelled from the spec: the type [MonthlyDataPoint], declared in
    [types.ts], which is not among the sources: "MonthlyDataPoint:
    { year: int, month: int(1..12), count: int >= 0 }", one observation of
    a metric and a name in a month.  The loader reads the fields [year],
    [month] and [count] of it. *)
Record MonthlyDataPoint := {
  year : Z;
  month : Z;
  count : Z
}.

(** Modelled from the spec: the series of [OptimizedMetrics], declared in
    [types.ts]: "series may be encoded three ways: an ordered sequence of
    MonthlyDataPoint, a mapping from a month-key string to a count, or a
    single scalar count".  These are the shapes the loader tests for with
    [Array.isArray], [typeof] object and not null, and [typeof] number;
    [OtherShape] is a value of none of them (null, a string, a boolean),
    on which every test falls through. *)
Inductive Series :=
| TimeSeries (points : list MonthlyDataPoint)
| MonthTotals (counts : Object Z)
| Scalar (n : Z)
| OtherShape.

(** Modelled from the spec: the type [OptimizedMetrics], declared in
    [types.ts]: "mapping metric -> name -> series". *)
Definition OptimizedMetrics := Object (Object Series).

(** An optional string argument ([name?: string]); [!name] holds when it is
    left out and when it is the empty string. *)
Definition not_given (name : option string) : bool :=
  match name with
  | None => true
  | Some s => String.eqb s ""
  end.

Definition same_name (currentName : string) (name : option string) : bool :=
  match name with
  | None => false
  | Some s => String.eqb currentName s
  end.

(** ** Aggregator *)

(** [monthlyData.reduce((sum, data) => sum + data.count, 0)] *)
Definition reduce_counts (monthlyData : list MonthlyDataPoint) : Z :=
  fold_left (fun sum data => sum + count data) monthlyData 0.

(** [Object.values(monthlyData).reduce((sum, count) => sum + count, 0)] *)
Definition reduce_values (monthlyData : Object Z) : Z :=
  fold_left (fun sum count => sum + count) (Object_values monthlyData) 0.

Definition calculateTotalRecords (optimizedMetrics : OptimizedMetrics) : Z :=
  fold_left
    (fun total names =>
       fold_left
         (fun total monthlyData =>
            match monthlyData with
            | TimeSeries a => total + reduce_counts a
            | MonthTotals o => total + reduce_values o
            | Scalar n => total + n
            | OtherShape => total
            end)
         (Object_values names) total)
    (Object_values optimizedMetrics) 0.

Definition calculateTotalsByMetric
  (optimizedMetrics : OptimizedMetrics) (metric : string)
  (name : option string) : Z :=
  match Object_get optimizedMetrics metric with
  | None => 0
  | Some names =>
      fold_left
        (fun total '(currentName, monthlyData) =>
           if not_given name || same_name currentName name then
             match monthlyData with
             | TimeSeries a => total + reduce_counts a
             | MonthTotals o => total + reduce_values o
             | Scalar n => total + n
             | OtherShape => total
             end
           else total)
        (Object_entries names) 0
  end.

(** *** Monthly trends *)

Record MonthlyTrend := {
  trend_year : Z;
  trend_month : Z;
  total_count : Z
}.

(** The template literal [`${data.year}-${data.month}`]. *)
Definition trend_key (data : MonthlyDataPoint) : string :=
  (String_of_int (year data) ++ "-" ++ String_of_int (month data))%string.

(** [trendsMap.set(key, (trendsMap.get(key) || 0) + data.count)] *)
Definition add_to_trends (trendsMap : Map Z) (data : MonthlyDataPoint) : Map Z :=
  let key := trend_key data in
  Map_set trendsMap key
    (match Map_get trendsMap key with
     | Some v => v
     | None => 0
     end + count data).

(** [const [year, month] = key.split('-').map(Number)] and the object
    literal built from it.  A key has at least two pieces (lemma
    [trend_map_keys_numeric]), so neither variable is [undefined]. *)
Definition trend_of_entry (entry : string * Z) : MonthlyTrend :=
  let '(key, total_count) := entry in
  let pieces := map Number_of_string (String_split "-"%char key) in
  {| trend_year := nth 0 pieces 0;
     trend_month := nth 1 pieces 0;
     total_count := total_count |}.

(** [(a, b) => a.year - b.year || a.month - b.month] *)
Definition compare_trends (a b : MonthlyTrend) : Z :=
  if negb (trend_year a - trend_year b =? 0)
  then trend_year a - trend_year b
  else trend_month a - trend_month b.

Definition getMonthlyTrendsByMetric
  (optimizedMetrics : OptimizedMetrics) (metric : string)
  (name : option string) : list MonthlyTrend :=
  match Object_get optimizedMetrics metric with
  | None => []
  | Some names =>
      let trendsMap :=
        fold_left
          (fun trendsMap '(currentName, monthlyData) =>
             if not_given name || same_name currentName name then
               match monthlyData with
               | TimeSeries a => fold_left add_to_trends a trendsMap
               | MonthTotals _ => trendsMap
               | Scalar _ => trendsMap
               | OtherShape => trendsMap
               end
             else trendsMap)
          (Object_entries names) [] in
      Array_sort compare_trends (map trend_of_entry (Map_entries trendsMap))
  end.

(** *** Ranking of the names of a metric *)

Section Ranking.

(** [String.prototype.localeCompare]: the collation of the host's locale, a
    built-in the repository does not define.  It is a parameter of the
    ranking; the theorems say what they need of it. *)
Variable localeCompare : string -> string -> Z.



End Ranking.

(** ** Filter *)

(** [monthlyData.filter(callback)]: only an array has the method, a call on
    any other series value raises a [TypeError]. *)
Definition Array_filter (callback : MonthlyDataPoint -> bool)
  (monthlyData : Series) : result (list MonthlyDataPoint) :=
  match monthlyData with
  | TimeSeries a => Ok (List.filter callback a)
  | MonthTotals _ => Throw TypeError
  | Scalar _ => Throw TypeError
  | OtherShape => Throw TypeError
  end.

(** [filtered[metric][name] = data] *)
Definition set_series (filtered : OptimizedMetrics) (metric name : string)
  (data : list MonthlyDataPoint) : result OptimizedMetrics :=
  match Object_get filtered metric with
  | Some inner =>
      Ok (Object_set filtered metric (Object_set inner name (TimeSeries data)))
  | None => Throw TypeError
  end.

(** [if (Object.keys(filtered[metric]).length === 0) delete filtered[metric]] *)
Definition remove_if_empty (filtered : OptimizedMetrics) (metric : string)
  : result OptimizedMetrics :=
  match Object_get filtered metric with
  | Some inner =>
      if (List.length (Object_keys inner) =? 0)%nat
      then Ok (Object_delete filtered metric)
      else Ok filtered
  | None => Throw TypeError
  end.

Definition filterMetricsByYear
  (optimizedMetrics : OptimizedMetrics) (year' : Z)
  : result OptimizedMetrics :=
  fold_left
    (fun acc '(metric, names) =>
       filtered <- acc ;;
       let filtered := Object_set filtered metric [] in
       filtered <-
         fold_left
           (fun acc '(name, monthlyData) =>
              filtered <- acc ;;
              yearData <-
                Array_filter (fun data => year data =? year') monthlyData ;;
              if (0 <? List.length yearData)%nat
              then set_series filtered metric name yearData
              else Ok filtered)
           (Object_entries names) (Ok filtered) ;;
       remove_if_empty filtered metric)
    (Object_entries optimizedMetrics) (Ok []).

Definition filterMetricsByYearMonth
  (optimizedMetrics : OptimizedMetrics) (year' month' : Z)
  : result OptimizedMetrics :=
  fold_left
    (fun acc '(metric, names) =>
       filtered <- acc ;;
       let filtered := Object_set filtered metric [] in
       filtered <-
         fold_left
           (fun acc '(name, monthlyData) =>
              filtered <- acc ;;
              monthData <-
                Array_filter
                  (fun data => (year data =? year') && (month data =? month'))
                  monthlyData ;;
              if (0 <? List.length monthData)%nat
              then set_series filtered metric name monthData
              else Ok filtered)
           (Object_entries names) (Ok filtered) ;;
       remove_if_empty filtered metric)
    (Object_entries optimizedMetrics) (Ok []).

(** ** Formatter *)

(** A formatter argument, of type [number | undefined | null].  A number is
    an IEEE 754 binary64 value. *)
Inductive NumberArg :=
| undefined
| null
| number (x : spec_float).

Definition Number_of_Z (z : Z) : spec_float :=
  binary_normalize 53 1024 z 0 false.

(** [x >= y] on numbers; false as soon as one of them is [NaN]. *)
Definition Number_ge (x y : spec_float) : bool :=
  match SFcompare x y with
  | Some Gt => true
  | Some Eq => true
  | Some Lt => false
  | None => false
  end.

Definition Number_div (x y : spec_float) : spec_float := SFdiv 53 1024 x y.

Definition Number_isNaN (x : spec_float) : bool :=
  match x with
  | S754_nan => true
  | _ => false
  end.

(** The integer a finite number [m * 2^e] is equal to, if it is one. *)
Definition integer_value (m : positive) (e : Z) : option Z :=
  if 0 <=? e then Some (Z.pos m * 2 ^ e)
  else if Z.pos m mod 2 ^ (- e) =? 0 then Some (Z.pos m / 2 ^ (- e))
  else None.

(** [10^21 <= m * 2^e] *)
Definition at_least_1e21 (m : positive) (e : Z) : bool :=
  if 0 <=? e then 10 ^ 21 <=? Z.pos m * 2 ^ e
  else 10 ^ 21 * 2 ^ (- e) <=? Z.pos m.

(** The integer [n] for which [n / 10 - m * 2^e] is closest to zero, the
    larger one if there are two. *)
Definition nearest_tenths (m : positive) (e : Z) : Z :=
  if 0 <=? e then 10 * Z.pos m * 2 ^ e
  else (20 * Z.pos m + 2 ^ (- e)) / 2 ^ (1 - e).

Section NumberToString.

(** [Number::toString] writes the shortest decimal that reads back as the
    number and leaves the choice of its last digit to the engine.  On the
    integers up to 2^53 that is the integer's decimal expansion; on every
    other finite number it is this parameter. *)
Variable shortest_decimal : spec_float -> string.

Definition Number_toString (x : spec_float) : string :=
  match x with
  | S754_nan => "NaN"
  | S754_infinity false => "Infinity"
  | S754_infinity true => "-Infinity"
  | S754_zero _ => "0"
  | S754_finite s m e =>
      match integer_value m e with
      | Some z =>
          if z <=? 2 ^ 53 then String_of_int (if s then - z else z)
          else shortest_decimal x
      | None => shortest_decimal x
      end
  end.

(** [x.toFixed(1)].  The digits of [n] with a point before the last one are
    the digits of [n / 10], a point, and the digit [n mod 10]. *)
Definition toFixed1 (x : spec_float) : string :=
  match x with
  | S754_nan => "NaN"
  | S754_infinity false => "Infinity"
  | S754_infinity true => "-Infinity"
  | S754_zero _ => "0.0"
  | S754_finite s m e =>
      ((if s then "-" else "") ++
       (if at_least_1e21 m e then Number_toString (S754_finite false m e)
        else
          let n := nearest_tenths m e in
          String_of_int (n / 10) ++ "." ++ String_of_int (n mod 10)))%string
  end.

Definition formatNumber (num : NumberArg) : string :=
  match num with
  | undefined => "0"
  | null => "0"
  | number num =>
      if Number_isNaN num then "0"
      else if Number_ge num (Number_of_Z 10000000) then
        (toFixed1 (Number_div num (Number_of_Z 10000000)) ++ " Cr")%string
      else if Number_ge num (Number_of_Z 100000) then
        (toFixed1 (Number_div num (Number_of_Z 100000)) ++ " L")%string
      else if Number_ge num (Number_of_Z 1000) then
        (toFixed1 (Number_div num (Number_of_Z 1000)) ++ "K")%string
      else Number_toString num
  end.

Definition formatCurrency (num : NumberArg) : string :=
  match num with
  | undefined => "₹0"
  | null => "₹0"
  | number num =>
      if Number_isNaN num then "₹0"
      else if Number_ge num (Number_of_Z 10000000) then
        ("₹" ++ toFixed1 (Number_div num (Number_of_Z 10000000)) ++ " Cr")%string
      else if Number_ge num (Number_of_Z 100000) then
        ("₹" ++ toFixed1 (Number_div num (Number_of_Z 100000)) ++ " L")%string
      else if Number_ge num (Number_of_Z 1000) then
        ("₹" ++ toFixed1 (Number_div num (Number_of_Z 1000)) ++ "K")%string
      else ("₹" ++ Number_toString num)%string
  end.

Definition formatCount (num : NumberArg) : string :=
  match num with
  | undefined => "0"
  | null => "0"
  | number num =>
      if Number_isNaN num then "0"
      else if Number_ge num (Number_of_Z 10000000) then
        (toFixed1 (Number_div num (Number_of_Z 10000000)) ++ " Cr")%string
      else if Number_ge num (Number_of_Z 100000) then
        (toFixed1 (Number_div num (Number_of_Z 100000)) ++ " L")%string
      else if Number_ge num (Number_of_Z 1000) then
        (toFixed1 (Number_div num (Number_of_Z 1000)) ++ "K")%string
      else Number_toString num
  end.

End NumberToString.

(** ** Document cache and loader *)

Section Loader.

(** A parsed JSON document (the cache is a [Map<string, any>]). *)
Variable Document : Type.

(** What the program reads of a [Response]: [ok], [status], and the outcome
    of [json()], which rejects on a body that does not parse. *)
Record Response := {
  ok : bool;
  status : Z;
  json : result Document
}.

(** The state a call runs in: the module-level [dataCache], the requests
    issued so far, oldest first, and the lines written by [console.error]. *)
Record World := {
  dataCache : Map Document;
  requests : list string;
  console : list (string * exn)
}.

(** The network: the outcome of [fetch(url)] given the requests issued
    before it.  [Throw] is a rejected promise. *)
Variable network : list string -> string -> result Response.

(** An [async] function, run by one caller at a time: every [await] is
    sequential composition. *)
Definition Async (A : Type) := World -> result A * World.

Definition ret {A} (a : A) : Async A := fun w => (Ok a, w).

Definition throw {A} (e : exn) : Async A := fun w => (Throw e, w).

Definition await {A B} (c : Async A) (k : A -> Async B) : Async B :=
  fun w =>
    match c w with
    | (Ok a, w') => k a w'
    | (Throw e, w') => (Throw e, w')
    end.

Definition try_catch {A} (c : Async A) (handler : exn -> Async A) : Async A :=
  fun w =>
    match c w with
    | (Ok a, w') => (Ok a, w')
    | (Throw e, w') => handler e w'
    end.

Definition fetch (url : string) : Async Response :=
  fun w =>
    (network (requests w) url,
     {| dataCache := dataCache w;
        requests := requests w ++ [url];
        console := console w |}).

Definition response_json (response : Response) : Async Document :=
  fun w => (json response, w).

Definition dataCache_set (key : string) (data : Document) : Async unit :=
  fun w =>
    (Ok tt,
     {| dataCache := Map_set (dataCache w) key data;
        requests := requests w;
        console := console w |}).

Definition console_error (label : string) (error : exn) : Async unit :=
  fun w =>
    (Ok tt,
     {| dataCache := dataCache w;
        requests := requests w;
        console := console w ++ [(label, error)] |}).

(** [if (dataCache.has(key)) return dataCache.get(key)]: a stored document
    is never [undefined], so [has] holds exactly when [get] finds one. *)
Definition cached_or (key : string) (load : Async Document) : Async Document :=
  fun w =>
    match Map_get (dataCache w) key with
    | Some data => (Ok data, w)
    | None => load w
    end.

(** What the year and month loaders read of a document and build from it.
    Documents are untyped in the cache; [metrics_of] is [fullData.metrics],
    absent when the document has no metrics to enumerate, and the views are
    the object literals [{ ...fullData, metrics, states: [] }] and
    [{ ...fullData, metrics, rtos: [] }]. *)
Variable metrics_of : Document -> option OptimizedMetrics.
Variable country_view : Document -> OptimizedMetrics -> Document.
Variable state_view : Document -> OptimizedMetrics -> Document.

(** A synchronous computation inside an [async] function; its exception
    rejects the promise. *)
Definition sync {A} (r : result A) : Async A := fun w => (r, w).

Definition document_metrics (fullData : Document) : result OptimizedMetrics :=
  match metrics_of fullData with
  | Some metrics => Ok metrics
  | None => Throw TypeError
  end.

Definition loadCountryData : Async Document :=
  cached_or "country"
    (try_catch
       (await (fetch "/data/country.json") (fun response =>
        if negb (ok response) then
          throw (Error ("Failed to load country data: " ++
                        String_of_int (status response))%string)
        else
          await (response_json response) (fun data =>
          await (dataCache_set "country" data) (fun _ =>
          ret data))))
       (fun error =>
          await (console_error "Error loading country data:" error) (fun _ =>
          throw error))).

Definition loadCountryYearData (year' : Z) : Async Document :=
  let cacheKey := ("country-year-" ++ String_of_int year')%string in
  cached_or cacheKey
    (try_catch
       (await loadCountryData (fun fullData =>
        await (sync (metrics <- document_metrics fullData ;;
                     filterMetricsByYear metrics year'))
          (fun filteredMetrics =>
        let yearData := country_view fullData filteredMetrics in
        await (dataCache_set cacheKey yearData) (fun _ =>
        ret yearData))))
       (fun error =>
          await (console_error
                   ("Error loading country year data for " ++
                    String_of_int year' ++ ":")%string
                   error) (fun _ =>
          throw error))).

Definition loadCountryMonthData (year' month' : Z) : Async Document :=
  let cacheKey :=
    ("country-month-" ++ String_of_int year' ++ "-" ++
     String_of_int month')%string in
  cached_or cacheKey
    (try_catch
       (await loadCountryData (fun fullData =>
        await (sync (metrics <- document_metrics fullData ;;
                     filterMetricsByYearMonth metrics year' month'))
          (fun filteredMetrics =>
        let monthData := country_view fullData filteredMetrics in
        await (dataCache_set cacheKey monthData) (fun _ =>
        ret monthData))))
       (fun error =>
          await (console_error
                   ("Error loading country month data for " ++
                    String_of_int year' ++ "-" ++ String_of_int month' ++
                    ":")%string
                   error) (fun _ =>
          throw error))).

Definition loadStatesIndex : Async Document :=
  cached_or "states-index"
    (try_catch
       (await (fetch "/data/states.json") (fun response =>
        if negb (ok response) then
          throw (Error ("Failed to load states index: " ++
                        String_of_int (status response))%string)
        else
          await (response_json response) (fun data =>
          await (dataCache_set "states-index" data) (fun _ =>
          ret data))))
       (fun error =>
          await (console_error "Error loading states index:" error) (fun _ =>
          throw error))).

Definition loadStateData (state : string) : Async Document :=
  let cacheKey := ("state-" ++ state)%string in
  cached_or cacheKey
    (try_catch
       (await (fetch ("/data/state_" ++ state ++ ".json")%string)
          (fun response =>
        if negb (ok response) then
          throw (Error ("Failed to load state data for " ++ state ++ ": " ++
                        String_of_int (status response))%string)
        else
          await (response_json response) (fun data =>
          await (dataCache_set cacheKey data) (fun _ =>
          ret data))))
       (fun error =>
          await (console_error
                   ("Error loading state data for " ++ state ++ ":")%string
                   error) (fun _ =>
          throw error))).

Definition loadStateYearData (state : string) (year' : Z)
  : Async Document :=
  let cacheKey :=
    ("state-year-" ++ state ++ "-" ++ String_of_int year')%string in
  cached_or cacheKey
    (try_catch
       (await (loadStateData state) (fun fullData =>
        await (sync (metrics <- document_metrics fullData ;;
                     filterMetricsByYear metrics year'))
          (fun filteredMetrics =>
        let yearData := state_view fullData filteredMetrics in
        await (dataCache_set cacheKey yearData) (fun _ =>
        ret yearData))))
       (fun error =>
          await (console_error
                   ("Error loading state year data for " ++ state ++ "-" ++
                    String_of_int year' ++ ":")%string
                   error) (fun _ =>
          throw error))).

Definition loadStateMonthData (state : string) (year' month' : Z)
  : Async Document :=
  let cacheKey :=
    ("state-month-" ++ state ++ "-" ++ String_of_int year' ++ "-" ++
     String_of_int month')%string in
  cached_or cacheKey
    (try_catch
       (await (loadStateData state) (fun fullData =>
        await (sync (metrics <- document_metrics fullData ;;
                     filterMetricsByYearMonth metrics year' month'))
          (fun filteredMetrics =>
        let monthData := state_view fullData filteredMetrics in
        await (dataCache_set cacheKey monthData) (fun _ =>
        ret monthData))))
       (fun error =>
          await (console_error
                   ("Error loading state month data for " ++ state ++ "-" ++
                    String_of_int year' ++ "-" ++ String_of_int month' ++
                    ":")%string
                   error) (fun _ =>
          throw error))).

Definition loadRTOData (state rto : string) : Async Document :=
  let cacheKey := ("rto-" ++ state ++ "-" ++ rto)%string in
  cached_or cacheKey
    (try_catch
       (await (fetch ("/data/rto_" ++ state ++ "_" ++ rto ++ ".json")%string)
          (fun response =>
        if negb (ok response) then
          throw (Error ("Failed to load RTO data for " ++ state ++ "-" ++
                        rto ++ ": " ++ String_of_int (status response))%string)
        else
          await (response_json response) (fun data =>
          await (dataCache_set cacheKey data) (fun _ =>
          ret data))))
       (fun error =>
          await (console_error
                   ("Error loading RTO data for " ++ state ++ "-" ++ rto ++
                    ":")%string
                   error) (fun _ =>
          throw error))).

End Loader.

(** ** Notions used in the statements *)

(** Property names are unique within an object. *)
Definition unique_keys {V} (o : Object V) : Prop := NoDup (Object_keys o).

(** An object whose properties are all plain data properties: besides
    being unique, none of its names is [__proto__], which an assignment
    [o[k] = v] does not store as a property of [o]. *)
Definition plain_object {V} (o : Object V) : Prop :=
  unique_keys o /\ ~ In "__proto__"%string (Object_keys o).

Definition wf_metrics (m : OptimizedMetrics) : Prop :=
  plain_object m /\ Forall plain_object (Object_values m).

Definition is_array (s : Series) : bool :=
  match s with
  | TimeSeries _ => true
  | _ => false
  end.

(** Every series of the model is an array of monthly points. *)
Definition all_arrays (m : OptimizedMetrics) : bool :=
  forallb (fun names => forallb is_array (Object_values names))
    (Object_values m).

Definition sum_list (l : list Z) : Z := fold_right Z.add 0 l.

(** The count a series stands for, whatever its encoding. *)
Definition series_total (s : Series) : Z :=
  match s with
  | TimeSeries a => sum_list (map count a)
  | MonthTotals o => sum_list (Object_values o)
  | Scalar n => n
  | OtherShape => 0
  end.

Definition names_total (names : Object Series) : Z :=
  sum_list (map series_total (Object_values names)).

(** The names an optional [name] argument selects. *)
Definition selected (name : option string) (currentName : string) : bool :=
  not_given name || same_name currentName name.


(** The loop the two filters share; they differ in the callback only. *)
Definition names_step (callback : MonthlyDataPoint -> bool) (metric : string)
  (acc : result OptimizedMetrics) (entry : string * Series)
  : result OptimizedMetrics :=
  let '(name, monthlyData) := entry in
  filtered <- acc ;;
  kept <- Array_filter callback monthlyData ;;
  if (0 <? List.length kept)%nat
  then set_series filtered metric name kept
  else Ok filtered.

Definition metrics_step (callback : MonthlyDataPoint -> bool)
  (acc : result OptimizedMetrics) (entry : string * Object Series)
  : result OptimizedMetrics :=
  let '(metric, names) := entry in
  filtered <- acc ;;
  let filtered := Object_set filtered metric [] in
  filtered <-
    fold_left (names_step callback metric) (Object_entries names)
      (Ok filtered) ;;
  remove_if_empty filtered metric.

Definition filter_loop (callback : MonthlyDataPoint -> bool)
  (optimizedMetrics : OptimizedMetrics) : result OptimizedMetrics :=
  fold_left (metrics_step callback) (Object_entries optimizedMetrics) (Ok []).

(** What the specification asks of a filter, in its words: for every
    (metric, name) keep only the points that match, drop the name if none
    is left, drop the metric if all its names are dropped. *)
Definition keep_names (callback : MonthlyDataPoint -> bool)
  (names : Object Series) : Object Series :=
  flat_map
    (fun '(name, monthlyData) =>
       match monthlyData with
       | TimeSeries a =>
           match List.filter callback a with
           | [] => []
           | kept => [(name, TimeSeries kept)]
           end
       | _ => []
       end)
    names.

Definition keep_metrics (callback : MonthlyDataPoint -> bool)
  (m : OptimizedMetrics) : OptimizedMetrics :=
  flat_map
    (fun '(metric, names) =>
       match keep_names callback names with
       | [] => []
       | inner => [(metric, inner)]
       end)
    m.

Definition in_year (y : Z) (data : MonthlyDataPoint) : bool :=
  year data =? y.

Definition in_year_month (y mo : Z) (data : MonthlyDataPoint) : bool :=
  (year data =? y) && (month data =? mo).

(** The monthly points an optional [name] selects under a metric: those of
    the array series of the selected names, in enumeration order. *)
Definition selected_points (name : option string) (names : Object Series)
  : list MonthlyDataPoint :=
  flat_map
    (fun '(currentName, monthlyData) =>
       if selected name currentName then
         match monthlyData with
         | TimeSeries a => a
         | _ => []
         end
       else [])
    names.

Definition metric_points (m : OptimizedMetrics) (metric : string)
  (name : option string) : list MonthlyDataPoint :=
  match Object_get m metric with
  | Some names => selected_points name names
  | None => []
  end.

(** The order of the trend list: by year, then by month. *)
Definition trend_le (a b : MonthlyTrend) : Prop :=
  trend_year a < trend_year b \/
  (trend_year a = trend_year b /\ trend_month a <= trend_month b).

Definition year_month (t : MonthlyTrend) : Z * Z :=
  (trend_year t, trend_month t).

(** The sum of the values whose key satisfies [f]. *)
Definition sum_where (f : string -> bool) (m : Map Z) : Z :=
  sum_list (map snd (List.filter (fun e => f (fst e)) m)).


(** Years and months that are written without a sign. *)
Definition unsigned_dates (points : list MonthlyDataPoint) : Prop :=
  Forall (fun p => 0 <= year p /\ 0 <= month p) points.

Definition unsigned_years (points : list MonthlyDataPoint) : Prop :=
  Forall (fun p => 0 <= year p) points.

(** A point written as a triple, for the examples. *)
Definition point (y mo c : Z) : MonthlyDataPoint :=
  {| year := y; month := mo; count := c |}.


(** The scenario of the specification: the metric "Transaction" with the
    name "X" and three monthly points. *)
Definition scenario : OptimizedMetrics :=
  [("Transaction",
    [("X", TimeSeries [point 2022 1 10; point 2022 2 20; point 2023 1 5])])].

(** The same metric with a second name that carries a bare number, and
    with one that carries a month-key map. *)
Definition scenario_with_scalar : OptimizedMetrics :=
  [("Transaction",
    [("X", TimeSeries [point 2022 1 10; point 2022 2 20; point 2023 1 5]);
     ("Y", Scalar 5)])].

Definition scenario_with_month_totals : OptimizedMetrics :=
  [("Transaction",
    [("X", TimeSeries [point 2022 1 10; point 2022 2 20; point 2023 1 5]);
     ("Y", MonthTotals [("2022-1", 3); ("2022-2", 4)])])].







Section LoaderNotions.

Variable Document : Type.
Variable network : list string -> string -> result (Response Document).

(** A load with none of [keys] in the cache whose request is answered with
    a response that is not [ok]: the call raises the [Error] with
    [message status], the cache is as before, one request went out, and the
    next call sends a request again. *)
Definition fails_without_caching (load : Async Document Document)
  (keys : list string) (url : string) (message : Z -> string) : Prop :=
  forall (w : World Document) (response : Response Document),
    (forall key, In key keys -> Map_get (dataCache _ w) key = None) ->
    network (requests _ w) url = Ok response ->
    ok _ response = false ->
    exists w',
      load w = (Throw (Error (message (status _ response))), w') /\
      dataCache _ w' = dataCache _ w /\
      requests _ w' = requests _ w ++ [url] /\
      requests _ (snd (load w')) = requests _ w' ++ [url].

(** A load of an uncached [key] whose request is answered with an [ok]
    response holding [data]: the call returns [data] after one request and
    stores it under [key]; a second call returns the stored document and
    leaves the state, the list of requests included, as it is. *)
Definition loads_once (load : Async Document Document)
  (key url : string) : Prop :=
  forall (w : World Document) (response : Response Document)
         (data : Document),
    Map_get (dataCache _ w) key = None ->
    network (requests _ w) url = Ok response ->
    ok _ response = true ->
    json _ response = Ok data ->
    exists w',
      load w = (Ok data, w') /\
      dataCache _ w' = Map_set (dataCache _ w) key data /\
      Map_get (dataCache _ w') key = Some data /\
      requests _ w' = requests _ w ++ [url] /\
      load w' = (Ok data, w').

(** The same for a year or month loader, which caches under [key] the
    [view] it builds of the document it loads under [base]. *)
Definition loads_view_once (load : Async Document Document)
  (key base url : string) (view : Document -> result Document) : Prop :=
  forall (w : World Document) (response : Response Document)
         (data viewed : Document),
    Map_get (dataCache _ w) key = None ->
    Map_get (dataCache _ w) base = None ->
    network (requests _ w) url = Ok response ->
    ok _ response = true ->
    json _ response = Ok data ->
    view data = Ok viewed ->
    exists w',
      load w = (Ok viewed, w') /\
      dataCache _ w' = Map_set (Map_set (dataCache _ w) base data) key viewed /\
      Map_get (dataCache _ w') key = Some viewed /\
      requests _ w' = requests _ w ++ [url] /\
      load w' = (Ok viewed, w').

End LoaderNotions.

(** A network for the examples: the first request is answered 404, every
    later one 200 with the document 42. *)
Definition flaky_network (history : list string) (url : string)
  : result (Response Z) :=
  match history with
  | [] => Ok {| ok := false; status := 404; json := Throw (Error "no body") |}
  | _ => Ok {| ok := true; status := 200; json := Ok 42 |}
  end.

Definition empty_world : World Z :=
  {| dataCache := []; requests := []; console := [] |}.

(** A model that holds the three encodings side by side. *)
Definition mixed_model : OptimizedMetrics :=
  [("Transaction",
    [("X", TimeSeries [point 2022 1 10; point 2022 2 20; point 2023 1 5]);
     ("Y", Scalar 5);
     ("Z", MonthTotals [("2022-1", 3); ("2022-2", 4)])]);
   ("Revenue (Tax)",
    [("MV Tax", Scalar 1000); ("Cess", OtherShape)])].





(** ** The filters on the object graph *)

(** The filters build their result by allocating objects and arrays and
    assigning to them.  To tell what they allocate and what they write to,
    this section runs the same loops on a store of mutable cells.  The
    store keeps the three kinds of cells apart: the point objects, the
    arrays of (references to) points, and the plain objects used as maps.
    A reference is the index of a cell among those of its kind. *)

Module Store.

Inductive value :=
| ArrayRef (a : nat)
| ObjectRef (o : nat)
| Num (n : Z)
| Other.

Record store := {
  points : list MonthlyDataPoint;
  arrays : list (list nat);
  objects : list (Object value)
}.

(** [{}] *)
Definition new_object (s : store) : store * nat :=
  ({| points := points s;
      arrays := arrays s;
      objects := objects s ++ [[]] |},
   List.length (objects s)).

(** A new array with the given elements. *)
Definition new_array (s : store) (elements : list nat) : store * nat :=
  ({| points := points s;
      arrays := arrays s ++ [elements];
      objects := objects s |},
   List.length (arrays s)).

Fixpoint update {A} (l : list A) (i : nat) (x : A) : list A :=
  match l, i with
  | [], _ => []
  | _ :: l', O => x :: l'
  | y :: l', S i' => y :: update l' i' x
  end.

(** [Object.entries(o)] *)
Definition get_entries (s : store) (o : nat) : result (Object value) :=
  match nth_error (objects s) o with
  | Some properties => Ok properties
  | None => Throw TypeError
  end.

(** [o[k]], where the program goes on to use it as an object *)
Definition get_property (s : store) (o : nat) (k : string) : result value :=
  properties <- get_entries s o ;;
  match Object_get properties k with
  | Some v => Ok v
  | None => Throw TypeError
  end.

(** [o[k] = v] *)
Definition set_property (s : store) (o : nat) (k : string) (v : value)
  : result store :=
  properties <- get_entries s o ;;
  Ok {| points := points s;
        arrays := arrays s;
        objects := update (objects s) o (Object_set properties k v) |}.

(** [delete o[k]] *)
Definition delete_property (s : store) (o : nat) (k : string)
  : result store :=
  properties <- get_entries s o ;;
  Ok {| points := points s;
        arrays := arrays s;
        objects := update (objects s) o (Object_delete properties k) |}.

(** [callback(data)] on the point an element refers to. *)
Definition test_element (callback : MonthlyDataPoint -> bool) (s : store)
  (element : nat) : bool :=
  match nth_error (points s) element with
  | Some data => callback data
  | None => false
  end.

Section Filter.

Variable callback : MonthlyDataPoint -> bool.

(** The body of the loop over the names of [metric]. *)
Definition names_step (filtered : nat) (metric : string)
  (acc : result store) (entry : string * value) : result store :=
  let '(name, monthlyData) := entry in
  s <- acc ;;
  match monthlyData with
  | ArrayRef a =>
      match nth_error (arrays s) a with
      | Some elements =>
          let kept := List.filter (test_element callback s) elements in
          let '(s, monthData) := new_array s kept in
          if (0 <? List.length kept)%nat
          then
            inner <- get_property s filtered metric ;;
            match inner with
            | ObjectRef i => set_property s i name (ArrayRef monthData)
            | _ => Throw TypeError
            end
          else Ok s
      | None => Throw TypeError
      end
  | _ => Throw TypeError
  end.

(** The body of the loop over the metrics. *)
Definition metrics_step (filtered : nat)
  (acc : result store) (entry : string * value) : result store :=
  let '(metric, names) := entry in
  s <- acc ;;
  let '(s, fresh) := new_object s in
  s <- set_property s filtered metric (ObjectRef fresh) ;;
  nameEntries <-
    match names with
    | ObjectRef n => get_entries s n
    | _ => Throw TypeError
    end ;;
  s <- fold_left (names_step filtered metric) nameEntries (Ok s) ;;
  inner <- get_property s filtered metric ;;
  match inner with
  | ObjectRef i =>
      keys <- get_entries s i ;;
      if (List.length keys =? 0)%nat
      then delete_property s filtered metric
      else Ok s
  | _ => Throw TypeError
  end.

Definition filter_loop (s : store) (optimizedMetrics : nat)
  : result (store * nat) :=
  let '(s, filtered) := new_object s in
  metrics <- get_entries s optimizedMetrics ;;
  s <- fold_left (metrics_step filtered) metrics (Ok s) ;;
  Ok (s, filtered).

End Filter.

Definition filterMetricsByYear (s : store) (optimizedMetrics : nat)
  (year' : Z) : result (store * nat) :=
  filter_loop (fun data => year data =? year') s optimizedMetrics.

Definition filterMetricsByYearMonth (s : store) (optimizedMetrics : nat)
  (year' month' : Z) : result (store * nat) :=
  filter_loop (fun data => (year data =? year') && (month data =? month'))
    s optimizedMetrics.

(** *** The model a reference stands for *)

Fixpoint all_some {A} (l : list (option A)) : option (list A) :=
  match l with
  | [] => Some []
  | None :: _ => None
  | Some x :: l' =>
      match all_some l' with
      | Some xs => Some (x :: xs)
      | None => None
      end
  end.

Definition read_points (s : store) (elements : list nat)
  : option (list MonthlyDataPoint) :=
  all_some (map (nth_error (points s)) elements).

Definition read_total (entry : string * value) : option (string * Z) :=
  match entry with
  | (k, Num n) => Some (k, n)
  | _ => None
  end.

(** The readers take the numbers of arrays and objects [from] which to
    accept a reference: [read_metrics (0, 0)] reads any model, and
    [read_metrics (a, o)] only one whose arrays and objects, the root
    included, were allocated at or after [a] and [o]. *)
Definition read_series (from : nat * nat) (s : store) (v : value)
  : option Series :=
  match v with
  | ArrayRef a =>
      if (fst from <=? a)%nat then
        match nth_error (arrays s) a with
        | Some elements => option_map TimeSeries (read_points s elements)
        | None => None
        end
      else None
  | ObjectRef o =>
      if (snd from <=? o)%nat then
        match nth_error (objects s) o with
        | Some properties =>
            option_map MonthTotals (all_some (map read_total properties))
        | None => None
        end
      else None
  | Num n => Some (Scalar n)
  | Other => Some OtherShape
  end.

Definition read_entry {V} (read : value -> option V) (entry : string * value)
  : option (string * V) :=
  option_map (pair (fst entry)) (read (snd entry)).

Definition read_names (from : nat * nat) (s : store) (v : value)
  : option (Object Series) :=
  match v with
  | ObjectRef o =>
      if (snd from <=? o)%nat then
        match nth_error (objects s) o with
        | Some properties =>
            all_some (map (read_entry (read_series from s)) properties)
        | None => None
        end
      else None
  | _ => None
  end.

Definition read_metrics (from : nat * nat) (s : store) (root : nat)
  : option OptimizedMetrics :=
  if (snd from <=? root)%nat then
    match nth_error (objects s) root with
    | Some properties =>
        all_some (map (read_entry (read_names from s)) properties)
    | None => None
    end
  else None.

(** Every cell of [s] is a cell of [s'], with the same content, except
    for the objects listed in [changed]. *)
Definition keeps (changed : list nat) (s s' : store) : Prop :=
  points s' = points s /\
  (forall a elements,
     nth_error (arrays s) a = Some elements ->
     nth_error (arrays s') a = Some elements) /\
  (forall o properties,
     ~ In o changed ->
     nth_error (objects s) o = Some properties ->
     nth_error (objects s') o = Some properties).

(** Every cell of [s] is a cell of [s'], with the same content. *)
Definition preserved (s s' : store) : Prop := keeps [] s s'.

(** The scenario of the specification laid out in a store. *)
Definition scenario_store : store :=
  {| points := [point 2022 1 10; point 2022 2 20; point 2023 1 5];
     arrays := [[0; 1; 2]%nat];
     objects := [[("X", ArrayRef 0)]; [("Transaction", ObjectRef 0)]] |}.

End Store.

(** ** Tables for display *)

(** A row of the flat table, the object literal
    [{ Metric: metric, Name: name, total_count }]. *)
Module MetricData.
Record t := {
  Metric : string;
  Name : string;
  total_count : Z
}.
End MetricData.

Definition flattenMetrics (optimizedMetrics : OptimizedMetrics)
  : list MetricData.t :=
  let flattened :=
    fold_left
      (fun flattened '(metric, names) =>
         fold_left
           (fun flattened '(name, monthlyData) =>
              let total_count :=
                match monthlyData with
                | TimeSeries a => reduce_counts a
                | MonthTotals o => reduce_values o
                | Scalar n => n
                | OtherShape => 0
                end in
              flattened ++
              [{| MetricData.Metric := metric;
                  MetricData.Name := name;
                  MetricData.total_count := total_count |}])
           (Object_entries names) flattened)
      (Object_entries optimizedMetrics) [] in
  Array_sort
    (fun a b => MetricData.total_count b - MetricData.total_count a)
    flattened.

(** A row of the summary table, [{ Metric, total_count }]. *)
Module MetricSummary.
Record t := {
  Metric : string;
  total_count : Z
}.
End MetricSummary.

Definition calculateMetricSummaries (optimizedMetrics : OptimizedMetrics)
  : list MetricSummary.t :=
  let summaries :=
    fold_left
      (fun summaries '(metric, names) =>
         let metricTotal :=
           fold_left
             (fun metricTotal monthlyData =>
                match monthlyData with
                | TimeSeries a => metricTotal + reduce_counts a
                | MonthTotals o => metricTotal + reduce_values o
                | Scalar n => metricTotal + n
                | OtherShape => metricTotal
                end)
             (Object_values names) 0 in
         Map_set summaries metric metricTotal)
      (Object_entries optimizedMetrics) [] in
  Array_sort
    (fun a b => MetricSummary.total_count b - MetricSummary.total_count a)
    (map (fun '(Metric, total_count) =>
            {| MetricSummary.Metric := Metric;
               MetricSummary.total_count := total_count |})
       (Map_entries summaries)).

(** [array.includes(x)] and [array.indexOf(x)] on an array of strings. *)
Definition Array_includes (array : list string) (x : string) : bool :=
  existsb (String.eqb x) array.

Fixpoint indexOf_from (i : Z) (array : list string) (x : string) : Z :=
  match array with
  | [] => -1
  | y :: array' => if String.eqb y x then i else indexOf_from (i + 1) array' x
  end.

Definition Array_indexOf (array : list string) (x : string) : Z :=
  indexOf_from 0 array x.

(** [value || fallback] where [value] is a string or [undefined]: the
    empty string is falsy as well. *)
Definition or_string (value : option string) (fallback : string) : string :=
  match value with
  | Some s => if String.eqb s "" then fallback else s
  | None => fallback
  end.

(** A row of the summary cards,
    [{ Metric, total_count, formatted_value }]. *)
Module FilteredSummary.
Record t := {
  Metric : string;
  total_count : Z;
  formatted_value : string
}.
End FilteredSummary.

Section Summaries.

Variable shortest_decimal : spec_float -> string.

Definition formatMetricValue (value : spec_float) (metric : string)
  : string :=
  if String.prefix "Revenue" metric
  then formatCurrency shortest_decimal (number value)
  else formatCount shortest_decimal (number value).

(** The title is looked up under a metric that [targetMetrics] includes,
    all four of which are own properties of [metricTitleMap]. *)
Definition getFilteredMetricSummaries (optimizedMetrics : OptimizedMetrics)
  : list FilteredSummary.t :=
  let targetMetrics :=
    ["Revenue (Tax)"; "Revenue (Fee)"; "Transaction";
     "Vehicle Manufacturer"] in
  let metricTitleMap : Object string :=
    [("Revenue (Tax)", "Revenue Collection (Tax)");
     ("Revenue (Fee)", "Revenue Collection (Fees)");
     ("Transaction", "Number of Transactions");
     ("Vehicle Manufacturer", "Vehicles Registered")] in
  let summaries :=
    fold_left
      (fun summaries '(metric, names) =>
         if Array_includes targetMetrics metric then
           let metricTotal :=
             fold_left
               (fun metricTotal monthlyData =>
                  match monthlyData with
                  | TimeSeries a => metricTotal + reduce_counts a
                  | MonthTotals o => metricTotal + reduce_values o
                  | Scalar n => metricTotal + n
                  | OtherShape => metricTotal
                  end)
               (Object_values names) 0 in
           Map_set summaries metric metricTotal
         else summaries)
      (Object_entries optimizedMetrics) [] in
  let displayOrder :=
    ["Vehicles Registered"; "Number of Transactions";
     "Revenue Collection (Tax)"; "Revenue Collection (Fees)"] in
  Array_sort
    (fun a b =>
       let indexA := Array_indexOf displayOrder (FilteredSummary.Metric a) in
       let indexB := Array_indexOf displayOrder (FilteredSummary.Metric b) in
       if negb (indexA =? -1) && negb (indexB =? -1) then indexA - indexB
       else if negb (indexA =? -1) then -1
       else if negb (indexB =? -1) then 1
       else 0)
    (map (fun '(originalMetric, total_count) =>
            {| FilteredSummary.Metric :=
                 or_string (Object_get metricTitleMap originalMetric)
                   originalMetric;
               FilteredSummary.total_count := total_count;
               FilteredSummary.formatted_value :=
                 if String.prefix "Revenue" originalMetric
                 then formatCurrency shortest_decimal
                        (number (Number_of_Z total_count))
                 else formatCount shortest_decimal
                        (number (Number_of_Z total_count)) |})
       (Map_entries summaries)).

End Summaries.

(** Modelled from the spec: the type [SimpleMetrics], declared in
    [types.ts]: "mapping metric -> name -> total count (no time
    dimension)", the summary a document carries of each of its children. *)
Definition SimpleMetrics := Object (Object Z).

Definition calculateTotalsByMetricSimple
  (simpleMetrics : SimpleMetrics) (metric : string) (name : option string)
  : Z :=
  match Object_get simpleMetrics metric with
  | None => 0
  | Some names =>
      fold_left
        (fun total '(currentName, count) =>
           if not_given name || same_name currentName name
           then total + count
           else total)
        (Object_entries names) 0
  end.

(** ** Months and breadcrumbs *)

(** [array[i]] for a number [i]: an element at the integers from 0 below
    the length, [undefined] elsewhere. *)
Definition Array_get {A} (array : list A) (i : Z) : option A :=
  if 0 <=? i then nth_error array (Z.to_nat i) else None.

(** The argument is a number: [Some n] when it is the integer [n], and
    [None] when it is not an integer ([NaN], which [parseInt] answers on a
    text without digits, an infinity, a fraction); no element of an array
    is found under such an index. *)
Definition getMonthName (month : option Z) : string :=
  let months :=
    ["Jan"; "Feb"; "Mar"; "Apr"; "May"; "Jun";
     "Jul"; "Aug"; "Sep"; "Oct"; "Nov"; "Dec"] in
  or_string
    (match month with
     | Some month => Array_get months (month - 1)
     | None => None
     end)
    "".

Record Breadcrumb := {
  label : string;
  href : string;
  current : bool
}.

(** An optional string argument that is truthy: given, and not empty. *)
Definition truthy (s : option string) : option string :=
  match s with
  | Some s => if String.eqb s "" then None else Some s
  | None => None
  end.

(** [breadcrumbs[breadcrumbs.length - 1].current = true] *)
Fixpoint mark_last (breadcrumbs : list Breadcrumb) : list Breadcrumb :=
  match breadcrumbs with
  | [] => []
  | [b] => [{| label := label b; href := href b; current := true |}]
  | b :: rest => b :: mark_last rest
  end.

Section Breadcrumbs.

(** [parseInt], a built-in: the integer a text begins with, in the
    convention of [getMonthName] for its answer. *)
Variable parseInt : string -> option Z.

Definition generateBreadcrumbs (level : string)
  (state rto year month : option string) : list Breadcrumb :=
  let breadcrumbs := [{| label := "India"; href := "/"; current := false |}] in
  let breadcrumbs :=
    match truthy state, truthy year with
    | None, Some year =>
        let breadcrumbs :=
          breadcrumbs ++
          [{| label := year;
              href := ("/ALL/" ++ year)%string;
              current := false |}] in
        match truthy month with
        | Some month =>
            breadcrumbs ++
            [{| label := getMonthName (parseInt month);
                href := ("/ALL/" ++ year ++ "/" ++ month)%string;
                current := true |}]
        | None => breadcrumbs
        end
    | None, None => breadcrumbs
    | Some state, year =>
        let breadcrumbs :=
          breadcrumbs ++
          [{| label := state;
              href := ("/" ++ state)%string;
              current := false |}] in
        match year, truthy rto with
        | Some year, None =>
            let breadcrumbs :=
              breadcrumbs ++
              [{| label := year;
                  href := ("/" ++ state ++ "/ALL/" ++ year)%string;
                  current := false |}] in
            match truthy month with
            | Some month =>
                breadcrumbs ++
                [{| label := getMonthName (parseInt month);
                    href :=
                      ("/" ++ state ++ "/ALL/" ++ year ++ "/" ++ month)%string;
                    current := true |}]
            | None => breadcrumbs
            end
        | None, None => breadcrumbs
        | _, Some rto =>
            let breadcrumbs :=
              breadcrumbs ++
              [{| label := ("RTO " ++ rto)%string;
                  href := ("/" ++ state ++ "/" ++ rto)%string;
                  current := false |}] in
            let breadcrumbs :=
              match year with
              | Some year =>
                  breadcrumbs ++
                  [{| label := year;
                      href := ("/" ++ state ++ "/" ++ rto ++ "/" ++ year)%string;
                      current := false |}]
              | None => breadcrumbs
              end in
            match year, truthy month with
            | Some year, Some month =>
                breadcrumbs ++
                [{| label := getMonthName (parseInt month);
                    href :=
                      ("/" ++ state ++ "/" ++ rto ++ "/" ++ year ++ "/" ++
                       month)%string;
                    current := true |}]
            | _, _ => breadcrumbs
            end
        end
    end in
  if (0 <? List.length breadcrumbs)%nat && negb (existsb current breadcrumbs)
  then mark_last breadcrumbs
  else breadcrumbs.

End Breadcrumbs.

(** ** Years, months and trends of a whole model *)

(** [set.add(value)] on a [Set<number>], kept in insertion order. *)
Definition Set_add (set : list Z) (value : Z) : list Z :=
  if existsb (Z.eqb value) set then set else set ++ [value].

(** [for (const data of monthlyData) state = body(state, data)]: the loop
    runs over the points of an array.  A number and a plain object are not
    iterable, the loop raises a [TypeError] on them.  On a value of no
    known shape the outcome depends on the value ([null] and a boolean are
    not iterable, a string is, by its characters), which the model does not
    hold: there the outcome is left open, [None]. *)
Definition for_of {S : Type} (monthlyData : Series)
  (body : S -> MonthlyDataPoint -> S) (state : S) : option (result S) :=
  match monthlyData with
  | TimeSeries a => Some (Ok (fold_left body a state))
  | MonthTotals _ => Some (Throw TypeError)
  | Scalar _ => Some (Throw TypeError)
  | OtherShape => None
  end.

(** The rest of a loop after an iteration: it goes on from a state, and
    stops at an exception and where the outcome is open. *)
Definition and_then {A B : Type} (outcome : option (result A))
  (rest : A -> option (result B)) : option (result B) :=
  match outcome with
  | Some (Ok a) => rest a
  | Some (Throw e) => Some (Throw e)
  | None => None
  end.

Definition getAvailableYears (optimizedMetrics : OptimizedMetrics)
  : option (result (list Z)) :=
  and_then
    (fold_left
       (fun outcome names =>
          fold_left
            (fun outcome monthlyData =>
               and_then outcome
                 (for_of monthlyData
                    (fun years data => Set_add years (year data))))
            (Object_values names) outcome)
       (Object_values optimizedMetrics) (Some (Ok [])))
    (fun years => Some (Ok (Array_sort (fun a b => b - a) years))).

Definition getAvailableMonths (optimizedMetrics : OptimizedMetrics)
  (year' : Z) : option (result (list Z)) :=
  and_then
    (fold_left
       (fun outcome names =>
          fold_left
            (fun outcome monthlyData =>
               and_then outcome
                 (for_of monthlyData
                    (fun months data =>
                       if year data =? year'
                       then Set_add months (month data)
                       else months)))
            (Object_values names) outcome)
       (Object_values optimizedMetrics) (Some (Ok [])))
    (fun months => Some (Ok (Array_sort (fun a b => a - b) months))).

Definition getAllMonthlyTrends (optimizedMetrics : OptimizedMetrics)
  : option (result (list MonthlyTrend)) :=
  and_then
    (fold_left
       (fun outcome names =>
          fold_left
            (fun outcome monthlyData =>
               and_then outcome (for_of monthlyData add_to_trends))
            (Object_values names) outcome)
       (Object_values optimizedMetrics) (Some (Ok [])))
    (fun trendsMap =>
       Some (Ok (Array_sort compare_trends
                   (map trend_of_entry (Map_entries trendsMap))))).

(** ** Notions used in the statements on the tables *)

(** The rows of the flat table in the enumeration order of the model:
    one for every name of every metric, with the count its series stands
    for. *)
Definition metric_rows (m : OptimizedMetrics) : list MetricData.t :=
  flat_map
    (fun '(metric, names) =>
       map (fun '(name, monthlyData) =>
              {| MetricData.Metric := metric;
                 MetricData.Name := name;
                 MetricData.total_count := series_total monthlyData |})
         names)
    m.



(** The rows of the summary table in the enumeration order of the model:
    one for every metric, with its total over all names. *)
Definition metric_summaries (m : OptimizedMetrics) : list MetricSummary.t :=
  map (fun metric =>
         {| MetricSummary.Metric := metric;
            MetricSummary.total_count :=
              calculateTotalsByMetric m metric None |})
    (Object_keys m).

(** The summary card of [metric], shown under [title]: none if the model
    does not have the metric, and else its total over all names, written
    as an amount of money or as a count. *)
Definition summary_card (shortest_decimal : spec_float -> string)
  (m : OptimizedMetrics) (metric title : string) (currency : bool)
  : list FilteredSummary.t :=
  match Object_get m metric with
  | Some _ =>
      let total := calculateTotalsByMetric m metric None in
      [{| FilteredSummary.Metric := title;
          FilteredSummary.total_count := total;
          FilteredSummary.formatted_value :=
            if currency
            then formatCurrency shortest_decimal (number (Number_of_Z total))
            else formatCount shortest_decimal (number (Number_of_Z total)) |}]
  | None => []
  end.

(** The place of a card in the display order, 4 for a title that is not
    in it. *)
Definition display_rank (card : FilteredSummary.t) : Z :=
  let index :=
    Array_indexOf
      ["Vehicles Registered"; "Number of Transactions";
       "Revenue Collection (Tax)"; "Revenue Collection (Fees)"]
      (FilteredSummary.Metric card) in
  if index =? -1 then 4 else index.

(** The model whose series are the bare numbers of a child summary. *)
Definition scalar_metrics (simpleMetrics : SimpleMetrics) : OptimizedMetrics :=
  map (fun '(metric, names) =>
         (metric, map (fun '(name, count) => (name, Scalar count)) names))
    simpleMetrics.

(** ** Notions used in the statements on the filters *)

(** A model as a filter leaves it: no metric without a name, and under
    every name an array that is not empty and holds matching points
    only. *)
Definition filtered_model (callback : MonthlyDataPoint -> bool)
  (r : OptimizedMetrics) : Prop :=
  forall metric names,
    In (metric, names) r ->
    names <> [] /\
    forall name monthlyData,
      In (name, monthlyData) names ->
      exists a,
        monthlyData = TimeSeries a /\ a <> [] /\
        forallb callback a = true.

(** ** Notions used in the statements on years and months *)

(** The monthly points of all the array series of a model, in enumeration
    order. *)
Definition all_points (m : OptimizedMetrics) : list MonthlyDataPoint :=
  flat_map (fun '(_, names) => selected_points None names) m.

(** The order of a list of years: strictly falling. *)
Definition falling (a b : Z) : Prop := b < a.

Definition is_known (monthlyData : Series) : bool :=
  match monthlyData with
  | OtherShape => false
  | _ => true
  end.

(** Every series of the model has one of the three encodings: an array, a
    month-key map or a number. *)
Definition known_shapes (m : OptimizedMetrics) : bool :=
  forallb (fun names => forallb is_known (Object_values names))
    (Object_values m).

(** ** Notions used in the statements on the breadcrumbs *)

(** Every text of the list begins with the texts before it. *)
Definition nested (texts : list string) : Prop :=
  StronglySorted (fun a b => String.prefix a b = true) texts.

(** ** Notions used in the statements on the loaders *)

Section LoaderShapes.

Variable Document : Type.
Variable network : list string -> string -> result (Response Document).
Variable metrics_of : Document -> option OptimizedMetrics.

(** The shape the four loaders that fetch share: they differ in the key,
    the address, the label of the console line and the message of the
    error. *)
Definition fetching_loader (cacheKey url label : string)
  (message : Z -> string) : Async Document Document :=
  cached_or Document cacheKey
    (try_catch Document
       (await Document (fetch Document network url) (fun response =>
        if negb (ok Document response) then
          throw Document (Error (message (status Document response)))
        else
          await Document (response_json Document response) (fun data =>
          await Document (dataCache_set Document cacheKey data) (fun _ =>
          ret Document data))))
       (fun error =>
          await Document (console_error Document label error) (fun _ =>
          throw Document error))).

(** The shape the year and month loaders share: they differ in the
    loader of the full document, the key, the label, the filter and the
    view they build. *)
Definition viewing_loader (base_load : Async Document Document)
  (cacheKey label : string)
  (filter : OptimizedMetrics -> result OptimizedMetrics)
  (view : Document -> OptimizedMetrics -> Document)
  : Async Document Document :=
  cached_or Document cacheKey
    (try_catch Document
       (await Document base_load (fun fullData =>
        await Document
          (sync Document
             (metrics <- document_metrics Document metrics_of fullData ;;
              filter metrics))
          (fun filteredMetrics =>
        let viewData := view fullData filteredMetrics in
        await Document (dataCache_set Document cacheKey viewData) (fun _ =>
        ret Document viewData))))
       (fun error =>
          await Document (console_error Document label error) (fun _ =>
          throw Document error))).

(** From [w] to [w'] no document has left the cache or changed, at most
    one request has been sent, and the console has only gained lines. *)
Definition grows (w w' : World Document) : Prop :=
  (forall key data,
     Map_get (dataCache _ w) key = Some data ->
     Map_get (dataCache _ w') key = Some data) /\
  (exists sent,
     requests _ w' = requests _ w ++ sent /\ (List.length sent <= 1)%nat) /\
  (exists lines, console _ w' = console _ w ++ lines).

Definition never_evicts (load : Async Document Document) : Prop :=
  forall w, grows w (snd (load w)).

(** A document that [load] returns is in the cache under [key], and the
    next call returns it again and changes nothing. *)
Definition returns_cached (load : Async Document Document) (key : string)
  : Prop :=
  forall w data w',
    load w = (Ok data, w') ->
    Map_get (dataCache _ w') key = Some data /\
    load w' = (Ok data, w').

(** An exception that [load] raises is the last line of the console,
    under [label], and nothing is in the cache under [key]. *)
Definition raises_logged (load : Async Document Document)
  (key label : string) : Prop :=
  forall w e w',
    load w = (Throw e, w') ->
    Map_get (dataCache _ w') key = None /\
    exists lines, console _ w' = console _ w ++ lines ++ [(label, e)].

(** A view of a document that is in the cache under [base] is built
    without a request: it is stored under [key] and returned, or the
    exception of the filter is written to the console and raised. *)
Definition views_cached_base (load : Async Document Document)
  (key base label : string) (view : Document -> result Document) : Prop :=
  forall w data,
    Map_get (dataCache _ w) key = None ->
    Map_get (dataCache _ w) base = Some data ->
    load w
    = match view data with
      | Ok viewed =>
          (Ok viewed,
           {| dataCache := Map_set (dataCache _ w) key viewed;
              requests := requests _ w;
              console := console _ w |})
      | Throw e =>
          (Throw e,
           {| dataCache := dataCache _ w;
              requests := requests _ w;
              console := console _ w ++ [(label, e)] |})
      end.

End LoaderShapes.

(** A code without the character that separates the parts of a key. *)
Fixpoint no_hyphen (code : string) : bool :=
  match code with
  | EmptyString => true
  | String c rest => negb (Ascii.eqb c "-") && no_hyphen rest
  end.

(** A network that answers every request with the address asked for. *)
Definition echo_network (history : list string) (url : string)
  : result (Response string) :=
  Ok {| ok := true; status := 200; json := Ok url |}.

Definition empty_cache : World string :=
  {| dataCache := []; requests := []; console := [] |}.

(** A country whose document is its metrics, the scenario of the
    specification, served on every request. *)
Definition scenario_network (history : list string) (url : string)
  : result (Response OptimizedMetrics) :=
  Ok {| ok := true; status := 200; json := Ok scenario |}.

Definition no_documents : World OptimizedMetrics :=
  {| dataCache := []; requests := []; console := [] |}.

Definition country_cached : World OptimizedMetrics :=
  {| dataCache := [("country", scenario)]; requests := []; console := [] |}.

(** ** The totals as JavaScript numbers

    The aggregator above adds the counts as integers.  The program adds
    them as JavaScript numbers, which are IEEE 754 binary64 values and
    round from 2^53 on.  [Binary64] embeds the functions that add, on such
    values: a count [c] of the document is the number [Number_of_Z c] that
    [JSON.parse] reads from its literal, and [+] and [-] are the
    operations of [spec_float] at precision 53.  Years and months are not
    added and stay integers. *)

Module Binary64.

Definition Number_add (x y : spec_float) : spec_float := SFadd 53 1024 x y.

Definition Number_sub (x y : spec_float) : spec_float := SFsub 53 1024 x y.

(** The literal [0]. *)
Definition zero : spec_float := S754_zero false.

(** [value || 0] where [value] is a number or [undefined]: the zeros and
    [NaN] are falsy as well. *)
Definition or_zero (value : option spec_float) : spec_float :=
  match value with
  | Some (S754_zero _) => zero
  | Some S754_nan => zero
  | Some v => v
  | None => zero
  end.

(** What [sort] reads of the number its comparator returns: whether it is
    below zero, above zero, or neither ([NaN] counts as zero). *)
Definition comparator_sign (v : spec_float) : Z :=
  match v with
  | S754_zero _ => 0
  | S754_nan => 0
  | S754_infinity s => if s then -1 else 1
  | S754_finite s _ _ => if s then -1 else 1
  end.

(** [monthlyData.reduce((sum, data) => sum + data.count, 0)] *)
Definition reduce_counts (monthlyData : list MonthlyDataPoint) : spec_float :=
  fold_left (fun sum data => Number_add sum (Number_of_Z (count data)))
    monthlyData zero.

(** [Object.values(monthlyData).reduce((sum, count) => sum + count, 0)] *)
Definition reduce_values (monthlyData : Object Z) : spec_float :=
  fold_left (fun sum count => Number_add sum (Number_of_Z count))
    (Object_values monthlyData) zero.

Definition calculateTotalRecords (optimizedMetrics : OptimizedMetrics)
  : spec_float :=
  fold_left
    (fun total names =>
       fold_left
         (fun total monthlyData =>
            match monthlyData with
            | TimeSeries a => Number_add total (reduce_counts a)
            | MonthTotals o => Number_add total (reduce_values o)
            | Scalar n => Number_add total (Number_of_Z n)
            | OtherShape => total
            end)
         (Object_values names) total)
    (Object_values optimizedMetrics) zero.

Definition calculateTotalsByMetric
  (optimizedMetrics : OptimizedMetrics) (metric : string)
  (name : option string) : spec_float :=
  match Object_get optimizedMetrics metric with
  | None => zero
  | Some names =>
      fold_left
        (fun total '(currentName, monthlyData) =>
           if not_given name || same_name currentName name then
             match monthlyData with
             | TimeSeries a => Number_add total (reduce_counts a)
             | MonthTotals o => Number_add total (reduce_values o)
             | Scalar n => Number_add total (Number_of_Z n)
             | OtherShape => total
             end
           else total)
        (Object_entries names) zero
  end.

(** *** Monthly trends *)

Record MonthlyTrend := {
  trend_year : Z;
  trend_month : Z;
  total_count : spec_float
}.

(** [trendsMap.set(key, (trendsMap.get(key) || 0) + data.count)] *)
Definition add_to_trends (trendsMap : Map spec_float)
  (data : MonthlyDataPoint) : Map spec_float :=
  let key := trend_key data in
  Map_set trendsMap key
    (Number_add (or_zero (Map_get trendsMap key))
       (Number_of_Z (count data))).

(** [const [year, month] = key.split('-').map(Number)] and the object
    literal built from it. *)
Definition trend_of_entry (entry : string * spec_float) : MonthlyTrend :=
  let '(key, total_count) := entry in
  let pieces := map Number_of_string (String_split "-"%char key) in
  {| trend_year := nth 0 pieces 0;
     trend_month := nth 1 pieces 0;
     total_count := total_count |}.

(** [(a, b) => a.year - b.year || a.month - b.month] *)
Definition compare_trends (a b : MonthlyTrend) : Z :=
  if negb (trend_year a - trend_year b =? 0)
  then trend_year a - trend_year b
  else trend_month a - trend_month b.

Definition getMonthlyTrendsByMetric
  (optimizedMetrics : OptimizedMetrics) (metric : string)
  (name : option string) : list MonthlyTrend :=
  match Object_get optimizedMetrics metric with
  | None => []
  | Some names =>
      let trendsMap :=
        fold_left
          (fun trendsMap '(currentName, monthlyData) =>
             if not_given name || same_name currentName name then
               match monthlyData with
               | TimeSeries a => fold_left add_to_trends a trendsMap
               | MonthTotals _ => trendsMap
               | Scalar _ => trendsMap
               | OtherShape => trendsMap
               end
             else trendsMap)
          (Object_entries names) [] in
      Array_sort compare_trends (map trend_of_entry (Map_entries trendsMap))
  end.

Definition getAllMonthlyTrends (optimizedMetrics : OptimizedMetrics)
  : option (result (list MonthlyTrend)) :=
  and_then
    (fold_left
       (fun outcome names =>
          fold_left
            (fun outcome monthlyData =>
               and_then outcome (for_of monthlyData add_to_trends))
            (Object_values names) outcome)
       (Object_values optimizedMetrics) (Some (Ok [])))
    (fun trendsMap =>
       Some (Ok (Array_sort compare_trends
                   (map trend_of_entry (Map_entries trendsMap))))).

(** *** Tables for display *)

(** A row of the flat table, [{ Metric: metric, Name: name, total_count }]. *)
Module MetricData.
Record t := {
  Metric : string;
  Name : string;
  total_count : spec_float
}.
End MetricData.

Definition flattenMetrics (optimizedMetrics : OptimizedMetrics)
  : list MetricData.t :=
  let flattened :=
    fold_left
      (fun flattened '(metric, names) =>
         fold_left
           (fun flattened '(name, monthlyData) =>
              let total_count :=
                match monthlyData with
                | TimeSeries a => reduce_counts a
                | MonthTotals o => reduce_values o
                | Scalar n => Number_of_Z n
                | OtherShape => zero
                end in
              flattened ++
              [{| MetricData.Metric := metric;
                  MetricData.Name := name;
                  MetricData.total_count := total_count |}])
           (Object_entries names) flattened)
      (Object_entries optimizedMetrics) [] in
  Array_sort
    (fun a b =>
       comparator_sign
         (Number_sub (MetricData.total_count b) (MetricData.total_count a)))
    flattened.

(** A row of the summary table, [{ Metric, total_count }]. *)
Module MetricSummary.
Record t := {
  Metric : string;
  total_count : spec_float
}.
End MetricSummary.

Definition calculateMetricSummaries (optimizedMetrics : OptimizedMetrics)
  : list MetricSummary.t :=
  let summaries :=
    fold_left
      (fun summaries '(metric, names) =>
         let metricTotal :=
           fold_left
             (fun metricTotal monthlyData =>
                match monthlyData with
                | TimeSeries a => Number_add metricTotal (reduce_counts a)
                | MonthTotals o => Number_add metricTotal (reduce_values o)
                | Scalar n => Number_add metricTotal (Number_of_Z n)
                | OtherShape => metricTotal
                end)
             (Object_values names) zero in
         Map_set summaries metric metricTotal)
      (Object_entries optimizedMetrics) [] in
  Array_sort
    (fun a b =>
       comparator_sign
         (Number_sub (MetricSummary.total_count b)
            (MetricSummary.total_count a)))
    (map (fun '(Metric, total_count) =>
            {| MetricSummary.Metric := Metric;
               MetricSummary.total_count := total_count |})
       (Map_entries summaries)).

End Binary64.

(** ** Notions used in the statements on numbers *)

(** An integer that a number holds exactly, with every integer between it
    and zero. *)
Definition safe_integer (z : Z) : Prop := - 2 ^ 53 < z < 2 ^ 53.

(** The numbers [numbers] are the integers [values], each held exactly. *)
Definition integers (numbers : list spec_float) (values : list Z) : Prop :=
  numbers = map Number_of_Z values /\ Forall safe_integer values.

Definition integer (x : spec_float) (value : Z) : Prop :=
  x = Number_of_Z value /\ safe_integer value.

(** The counts of a series added up without their signs. *)
Definition magnitude (monthlyData : Series) : Z :=
  match monthlyData with
  | TimeSeries a => sum_list (map (fun data => Z.abs (count data)) a)
  | MonthTotals o => sum_list (map Z.abs (Object_values o))
  | Scalar n => Z.abs n
  | OtherShape => 0
  end.

Definition names_magnitude (names : Object Series) : Z :=
  sum_list (map magnitude (Object_values names)).

Definition model_magnitude (m : OptimizedMetrics) : Z :=
  sum_list (map names_magnitude (Object_values m)).

(** The counts of the document stay, added up without their signs, below
    2^53: whatever the program adds of them, in whatever order, is an
    integer that a number holds exactly. *)
Definition safe_counts (m : OptimizedMetrics) : Prop :=
  model_magnitude m < 2 ^ 53.

(** A document whose counts pass 2^53: the metric A with one count of
    2^53, the metric B with two counts of 1. *)
Definition beyond_safe_counts : OptimizedMetrics :=
  [("A", [("x", Scalar (2 ^ 53))]);
   ("B", [("y", Scalar 1); ("z", Scalar 1)])].

(** A row, an entry and a map of integers with every integer written as
    the number that holds it. *)
Definition number_trend (t : MonthlyTrend) : Binary64.MonthlyTrend :=
  {| Binary64.trend_year := trend_year t;
     Binary64.trend_month := trend_month t;
     Binary64.total_count := Number_of_Z (total_count t) |}.

Definition number_row (row : MetricData.t) : Binary64.MetricData.t :=
  {| Binary64.MetricData.Metric := MetricData.Metric row;
     Binary64.MetricData.Name := MetricData.Name row;
     Binary64.MetricData.total_count :=
       Number_of_Z (MetricData.total_count row) |}.

Definition number_summary (row : MetricSummary.t) : Binary64.MetricSummary.t :=
  {| Binary64.MetricSummary.Metric := MetricSummary.Metric row;
     Binary64.MetricSummary.total_count :=
       Number_of_Z (MetricSummary.total_count row) |}.

Definition number_map (trendsMap : Map Z) : Map spec_float :=
  map (fun '(key, total) => (key, Number_of_Z total)) trendsMap.

(** The values of a map added up without their signs. *)
Definition map_magnitude (trendsMap : Map Z) : Z :=
  sum_list (map (fun entry => Z.abs (snd entry)) trendsMap).

Definition points_magnitude (points : list MonthlyDataPoint) : Z :=
  sum_list (map (fun data => Z.abs (count data)) points).

(** Numbers added one after the other, from 0. *)
Definition Number_sum (numbers : list spec_float) : spec_float :=
  fold_left Binary64.Number_add numbers Binary64.zero.

(** The order of a trend list: by year, then by month. *)
Definition number_trend_le (a b : Binary64.MonthlyTrend) : Prop :=
  Binary64.trend_year a < Binary64.trend_year b \/
  (Binary64.trend_year a = Binary64.trend_year b /\
   Binary64.trend_month a <= Binary64.trend_month b).

(** A metric whose counts pass 2^53 within one year: 2^53 in March under
    one name, 1 in January and 1 in February under two others. *)
Definition beyond_safe_year : OptimizedMetrics :=
  [("A",
    [("x", TimeSeries [point 2022 3 (2 ^ 53)]);
     ("y", TimeSeries [point 2022 1 1]);
     ("z", TimeSeries [point 2022 2 1])])].
(** * Properties *)

(** ** Sums *)

Lemma fold_left_add {A} (f : A -> Z) (l : list A) (a : Z) :
  fold_left (fun sum x => sum + f x) l a = a + sum_list (map f l).
Proof.
  revert a. induction l as [|x l IH]; intros a; simpl.
  - lia.
  - rewrite IH. lia.
Qed.

Lemma sum_list_cons (x : Z) (l : list Z) :
  sum_list (x :: l) = x + sum_list l.
Proof. reflexivity. Qed.

Lemma sum_list_app (l1 l2 : list Z) :
  sum_list (l1 ++ l2) = sum_list l1 + sum_list l2.
Proof. induction l1; simpl; lia. Qed.

Lemma sum_list_perm (l1 l2 : list Z) :
  Permutation l1 l2 -> sum_list l1 = sum_list l2.
Proof. induction 1; simpl; lia. Qed.

Lemma reduce_counts_sum a : reduce_counts a = sum_list (map count a).
Proof. unfold reduce_counts. rewrite fold_left_add. lia. Qed.

Lemma reduce_values_sum o : reduce_values o = sum_list (Object_values o).
Proof.
  unfold reduce_values.
  rewrite (fold_left_add (fun c => c)), map_id. lia.
Qed.

Lemma fold_series_total (l : list Series) (total : Z) :
  fold_left
    (fun total monthlyData =>
       match monthlyData with
       | TimeSeries a => total + reduce_counts a
       | MonthTotals o => total + reduce_values o
       | Scalar n => total + n
       | OtherShape => total
       end) l total
  = total + sum_list (map series_total l).
Proof.
  revert total. induction l as [|s l IH]; intros total; simpl.
  - lia.
  - rewrite IH. destruct s; simpl;
      rewrite ?reduce_counts_sum, ?reduce_values_sum; lia.
Qed.

Lemma calculateTotalRecords_sum m :
  calculateTotalRecords m = sum_list (map names_total (Object_values m)).
Proof.
  unfold calculateTotalRecords.
  assert (forall l total,
    fold_left
      (fun total names =>
         fold_left
           (fun total monthlyData =>
              match monthlyData with
              | TimeSeries a => total + reduce_counts a
              | MonthTotals o => total + reduce_values o
              | Scalar n => total + n
              | OtherShape => total
              end) (Object_values names) total) l total
    = total + sum_list (map names_total l)) as H.
  { induction l as [|names l IH]; intros total; simpl.
    - lia.
    - rewrite IH, fold_series_total. unfold names_total. lia. }
  rewrite H. reflexivity.
Qed.

Lemma String_eqb_refl' (s : string) : String.eqb s s = true.
Proof. apply String.eqb_eq. reflexivity. Qed.

Lemma Object_get_notin {V} (o : Object V) k :
  ~ In k (Object_keys o) -> Object_get o k = None.
Proof.
  induction o as [|[k' v] o IH]; simpl; intros H.
  - reflexivity.
  - destruct (String.eqb_spec k' k) as [->|Hne].
    + exfalso. apply H. now left.
    + apply IH. intros Hin. apply H. now right.
Qed.

Lemma fold_selected_total (sel : string -> bool)
  (l : list (string * Series)) (total : Z) :
  fold_left
    (fun total '(currentName, monthlyData) =>
       if sel currentName then
         match monthlyData with
         | TimeSeries a => total + reduce_counts a
         | MonthTotals o => total + reduce_values o
         | Scalar n => total + n
         | OtherShape => total
         end
       else total) l total
  = total +
    sum_list (map (fun e => series_total (snd e))
                (List.filter (fun e => sel (fst e)) l)).
Proof.
  revert total. induction l as [|[k s] l IH]; intros total; simpl.
  - lia.
  - rewrite IH. destruct (sel k); simpl; [|lia].
    destruct s; simpl; rewrite ?reduce_counts_sum, ?reduce_values_sum; lia.
Qed.

Lemma calculateTotalsByMetric_selected m metric name :
  calculateTotalsByMetric m metric name =
  match Object_get m metric with
  | None => 0
  | Some names =>
      sum_list (map (fun e => series_total (snd e))
                  (List.filter (fun e => selected name (fst e)) names))
  end.
Proof.
  unfold calculateTotalsByMetric.
  destruct (Object_get m metric) as [names|]; [|reflexivity].
  exact (fold_selected_total (selected name) names 0).
Qed.

Lemma filter_true {A} (l : list A) : List.filter (fun _ => true) l = l.
Proof. induction l; simpl; congruence. Qed.

Lemma calculateTotalsByMetric_all m metric :
  calculateTotalsByMetric m metric None =
  match Object_get m metric with
  | None => 0
  | Some names => names_total names
  end.
Proof.
  rewrite calculateTotalsByMetric_selected.
  destruct (Object_get m metric) as [names|]; [|reflexivity].
  unfold selected. simpl. rewrite filter_true.
  unfold names_total, Object_values. now rewrite map_map.
Qed.

Lemma metric_totals_of_keys (m : OptimizedMetrics) :
  unique_keys m ->
  map (fun metric => calculateTotalsByMetric m metric None) (Object_keys m)
  = map names_total (Object_values m).
Proof.
  unfold unique_keys.
  induction m as [|[k names] m IH]; simpl; intros Hnd.
  - reflexivity.
  - inversion Hnd as [|? ? Hnotin Hnd']; subst.
    f_equal.
    + rewrite calculateTotalsByMetric_all. simpl.
      now rewrite String_eqb_refl'.
    + rewrite <- IH by assumption.
      apply map_ext_in. intros k' Hin.
      rewrite !calculateTotalsByMetric_all. simpl.
      destruct (String.eqb_spec k k') as [->|Hne]; [contradiction|].
      reflexivity.
Qed.

(** On integers: the record total of a model is the sum, over the metrics
    of the model, of the total of each metric taken without a name
    restriction, for every encoding of the series. *)
Lemma record_total_sum (m : OptimizedMetrics) :
  unique_keys m ->
  calculateTotalRecords m =
  sum_list
    (map (fun metric => calculateTotalsByMetric m metric None)
       (Object_keys m)).
Proof.
  intros Hu. rewrite calculateTotalRecords_sum.
  now rewrite metric_totals_of_keys.
Qed.

Example record_total_of_mixed_model :
  calculateTotalRecords mixed_model = 1047 /\
  calculateTotalsByMetric mixed_model "Transaction" None = 47 /\
  calculateTotalsByMetric mixed_model "Revenue (Tax)" None = 1000.
Proof. repeat split. Qed.

(** ** Objects *)

Lemma Object_get_app_last {V} (pre : Object V) k v :
  ~ In k (Object_keys pre) -> Object_get (pre ++ [(k, v)]) k = Some v.
Proof.
  induction pre as [|[k' v'] pre IH]; simpl; intros H.
  - now rewrite String_eqb_refl'.
  - destruct (String.eqb_spec k' k) as [->|Hne].
    + exfalso. apply H. now left.
    + apply IH. intros Hin. apply H. now right.
Qed.

Lemma Object_set_notin {V} (o : Object V) k v :
  ~ In k (Object_keys o) -> Object_set o k v = o ++ [(k, v)].
Proof.
  induction o as [|[k' v'] o IH]; simpl; intros H.
  - reflexivity.
  - destruct (String.eqb_spec k' k) as [->|Hne].
    + exfalso. apply H. now left.
    + f_equal. apply IH. intros Hin. apply H. now right.
Qed.

Lemma Object_set_app_last {V} (pre : Object V) k v v' :
  ~ In k (Object_keys pre) ->
  Object_set (pre ++ [(k, v)]) k v' = pre ++ [(k, v')].
Proof.
  induction pre as [|[k0 v0] pre IH]; simpl; intros H.
  - now rewrite String_eqb_refl'.
  - destruct (String.eqb_spec k0 k) as [->|Hne].
    + exfalso. apply H. now left.
    + f_equal. apply IH. intros Hin. apply H. now right.
Qed.

Lemma Object_delete_app_last {V} (pre : Object V) k v :
  ~ In k (Object_keys pre) -> Object_delete (pre ++ [(k, v)]) k = pre.
Proof.
  induction pre as [|[k0 v0] pre IH]; simpl; intros H.
  - now rewrite String_eqb_refl'.
  - destruct (String.eqb_spec k0 k) as [->|Hne].
    + exfalso. apply H. now left.
    + f_equal. apply IH. intros Hin. apply H. now right.
Qed.

Lemma Object_keys_app {V} (o1 o2 : Object V) :
  Object_keys (o1 ++ o2) = Object_keys o1 ++ Object_keys o2.
Proof. apply map_app. Qed.

Lemma wf_metrics_unique (m : OptimizedMetrics) :
  wf_metrics m -> unique_keys m /\ Forall unique_keys (Object_values m).
Proof.
  intros [[Hu _] Hall]. split; [exact Hu|].
  eapply Forall_impl; [|exact Hall]. now intros names [H _].
Qed.

(** ** Filter *)

Lemma filterMetricsByYear_loop m y :
  filterMetricsByYear m y = filter_loop (in_year y) m.
Proof. reflexivity. Qed.

Lemma filterMetricsByYearMonth_loop m y mo :
  filterMetricsByYearMonth m y mo = filter_loop (in_year_month y mo) m.
Proof. reflexivity. Qed.

Lemma keep_names_keys callback names k :
  In k (Object_keys (keep_names callback names)) -> In k (Object_keys names).
Proof.
  induction names as [|[name s] names IH]; simpl; [tauto|].
  rewrite Object_keys_app, in_app_iff. intros [H|H].
  - left. destruct s; simpl in H; try tauto.
    destruct (List.filter callback points); simpl in H; tauto.
  - right. now apply IH.
Qed.

Lemma keep_metrics_keys callback m k :
  In k (Object_keys (keep_metrics callback m)) -> In k (Object_keys m).
Proof.
  induction m as [|[metric names] m IH]; simpl; [tauto|].
  rewrite Object_keys_app, in_app_iff. intros [H|H].
  - left. destruct (keep_names callback names); simpl in H; tauto.
  - right. now apply IH.
Qed.

Section FilterLoop.

Variable callback : MonthlyDataPoint -> bool.

(** The loop over the names of one metric, started with the object under
    construction for that metric at the end of [filtered]. *)
Lemma names_loop (metric : string) (pre : OptimizedMetrics) :
  ~ In metric (Object_keys pre) ->
  forall (names inner : Object Series),
  unique_keys names ->
  (forall k, In k (Object_keys names) -> ~ In k (Object_keys inner)) ->
  fold_left (names_step callback metric) names
    (Ok (pre ++ [(metric, inner)]))
  = if forallb is_array (Object_values names)
    then Ok (pre ++ [(metric, inner ++ keep_names callback names)])
    else Throw TypeError.
Proof.
  intros Hpre names.
  induction names as [|[name s] names IH]; intros inner Hu Hdisj.
  - simpl. now rewrite List.app_nil_r.
  - inversion Hu as [|? ? Hnotin Hu']; subst.
    cbn [fold_left names_step bind Object_values map snd forallb].
    destruct s as [a| | |]; cbn [Array_filter bind is_array andb].
    2-4: clear; induction names as [|[? ?] names IH]; simpl; auto.
    assert (Hname : ~ In name (Object_keys inner)).
    { apply Hdisj. now left. }
    destruct (List.filter callback a) as [|p kept] eqn:Hk.
    + cbn [List.length Nat.ltb Nat.leb]. simpl keep_names. rewrite Hk.
      apply IH; [assumption|]. intros k Hin. apply Hdisj. now right.
    + cbn [List.length]. replace (0 <? S (List.length kept))%nat with true
        by reflexivity.
      unfold set_series. rewrite Object_get_app_last by assumption.
      rewrite Object_set_app_last by assumption.
      rewrite Object_set_notin by assumption.
      rewrite IH; [|assumption|].
      * simpl keep_names. rewrite Hk. simpl. now rewrite <- List.app_assoc.
      * intros k Hin. rewrite Object_keys_app, in_app_iff.
        intros [Hi|[<-|[]]]; [|contradiction].
        revert Hi. apply Hdisj. now right.
Qed.

Lemma throw_loop (l : list (string * Object Series)) e :
  fold_left (metrics_step callback) l (Throw e) = Throw e.
Proof. induction l as [|[? ?] l IH]; simpl; auto. Qed.

Lemma metrics_loop (m acc : OptimizedMetrics) :
  unique_keys m ->
  Forall unique_keys (Object_values m) ->
  (forall k, In k (Object_keys m) -> ~ In k (Object_keys acc)) ->
  fold_left (metrics_step callback) m (Ok acc)
  = if all_arrays m then Ok (acc ++ keep_metrics callback m)
    else Throw TypeError.
Proof.
  revert acc.
  induction m as [|[metric names] m IH]; intros acc Hu Hall Hdisj.
  - simpl. now rewrite List.app_nil_r.
  - inversion Hu as [|? ? Hnotin Hu']; subst.
    inversion Hall as [|? ? Hnames Hall']; subst.
    assert (Hacc : ~ In metric (Object_keys acc)).
    { apply Hdisj. now left. }
    cbn [fold_left]. unfold metrics_step at 2. cbn [bind].
    rewrite Object_set_notin by assumption.
    unfold Object_entries.
    match goal with
    | |- context [fold_left (names_step callback metric) names ?init] =>
        set (r := fold_left (names_step callback metric) names init)
    end.
    assert (E : r = if forallb is_array (Object_values names)
                    then Ok (acc ++ [(metric, keep_names callback names)])
                    else Throw TypeError).
    { subst r. apply (names_loop metric acc Hacc names []); auto. }
    rewrite E. clear r E.
    unfold all_arrays. cbn [Object_values map snd forallb].
    fold (Object_values names). fold (Object_values m).
    destruct (forallb is_array (Object_values names)); cbn [bind andb].
    2: apply throw_loop.
    unfold remove_if_empty. rewrite Object_get_app_last by assumption.
    cbn [List.app keep_metrics flat_map].
    destruct (keep_names callback names) as [|e inner] eqn:Hk.
    + cbn [Object_keys map List.length Nat.eqb].
      rewrite Object_delete_app_last by assumption.
      apply IH; [assumption|assumption|].
      intros k Hin. apply Hdisj. now right.
    + cbn [Object_keys map List.length Nat.eqb].
      fold (all_arrays m).
      rewrite IH; [|assumption|assumption|].
      * cbn [List.app]. now rewrite <- List.app_assoc.
      * intros k Hin. rewrite Object_keys_app, in_app_iff.
        intros [Hi|[<-|[]]]; [|contradiction].
        revert Hi. apply Hdisj. now right.
Qed.

(** On a well-formed model the loop computes what the specification asks
    when every series is an array, and raises a [TypeError] otherwise. *)
Lemma filter_loop_keep (m : OptimizedMetrics) :
  wf_metrics m ->
  filter_loop callback m
  = if all_arrays m then Ok (keep_metrics callback m) else Throw TypeError.
Proof.
  intros Hwf. destruct (wf_metrics_unique m Hwf) as [Hu Hall].
  unfold filter_loop, Object_entries.
  exact (metrics_loop m [] Hu Hall (fun _ _ H => H)).
Qed.

End FilterLoop.

(** *** What the kept part of a model looks like *)

Lemma filter_filter_implied {A} (f g : A -> bool) (l : list A) :
  (forall x, g x = true -> f x = true) ->
  List.filter g (List.filter f l) = List.filter g l.
Proof.
  intros Himp. induction l as [|x l IH]; simpl; [reflexivity|].
  destruct (f x) eqn:Hf; simpl.
  - now rewrite IH.
  - destruct (g x) eqn:Hg; [|assumption].
    apply Himp in Hg. congruence.
Qed.

Lemma filter_nil_implied {A} (f g : A -> bool) (l : list A) :
  (forall x, g x = true -> f x = true) ->
  List.filter f l = [] -> List.filter g l = [].
Proof.
  intros Himp Hf. rewrite <- (filter_filter_implied f g l Himp).
  now rewrite Hf.
Qed.

Lemma keep_names_app callback (n1 n2 : Object Series) :
  keep_names callback (n1 ++ n2)
  = keep_names callback n1 ++ keep_names callback n2.
Proof. apply flat_map_app. Qed.

Lemma keep_metrics_app callback (m1 m2 : OptimizedMetrics) :
  keep_metrics callback (m1 ++ m2)
  = keep_metrics callback m1 ++ keep_metrics callback m2.
Proof. apply flat_map_app. Qed.

Lemma keep_names_one callback name s :
  keep_names callback [(name, s)] =
  match s with
  | TimeSeries a =>
      match List.filter callback a with
      | [] => []
      | kept => [(name, TimeSeries kept)]
      end
  | _ => []
  end.
Proof.
  unfold keep_names. cbn [flat_map]. rewrite List.app_nil_r. reflexivity.
Qed.

Lemma keep_metrics_one callback metric names :
  keep_metrics callback [(metric, names)] =
  match keep_names callback names with
  | [] => []
  | inner => [(metric, inner)]
  end.
Proof.
  unfold keep_metrics. cbn [flat_map]. rewrite List.app_nil_r. reflexivity.
Qed.

Lemma keep_names_twice (f g : MonthlyDataPoint -> bool) names :
  (forall x, g x = true -> f x = true) ->
  keep_names g (keep_names f names) = keep_names g names.
Proof.
  intros Himp. induction names as [|[name s] names IH]; [reflexivity|].
  change ((name, s) :: names) with ([(name, s)] ++ names).
  rewrite !keep_names_app, IH. f_equal.
  rewrite !keep_names_one.
  destruct s as [a| | |]; try reflexivity.
  pose proof (filter_filter_implied f g a Himp) as Hfg.
  destruct (List.filter f a) as [|p kept].
  - simpl in Hfg. now rewrite <- Hfg.
  - rewrite keep_names_one, Hfg. reflexivity.
Qed.

Lemma keep_metrics_twice (f g : MonthlyDataPoint -> bool) m :
  (forall x, g x = true -> f x = true) ->
  keep_metrics g (keep_metrics f m) = keep_metrics g m.
Proof.
  intros Himp. induction m as [|[metric names] m IH]; [reflexivity|].
  change ((metric, names) :: m) with ([(metric, names)] ++ m).
  rewrite !keep_metrics_app, IH. f_equal.
  rewrite !keep_metrics_one.
  pose proof (keep_names_twice f g names Himp) as Hfg.
  destruct (keep_names f names) as [|e inner].
  - simpl in Hfg. now rewrite <- Hfg.
  - rewrite keep_metrics_one, Hfg. reflexivity.
Qed.

Lemma keep_names_unique callback names :
  unique_keys names -> unique_keys (keep_names callback names).
Proof.
  unfold unique_keys.
  induction names as [|[name s] names IH]; simpl; intros Hu.
  - constructor.
  - inversion Hu as [|? ? Hnotin Hu']; subst.
    specialize (IH Hu').
    assert (Hin : ~ In name (Object_keys (keep_names callback names))).
    { intros Hin. apply Hnotin. eapply keep_names_keys; eauto. }
    destruct s as [a| | |]; simpl; try assumption.
    destruct (List.filter callback a); simpl; [assumption|].
    now constructor.
Qed.

Lemma keep_names_plain callback names :
  plain_object names -> plain_object (keep_names callback names).
Proof.
  intros [Hu Hp]. split; [now apply keep_names_unique|].
  intros Hin. apply Hp. eapply keep_names_keys; eauto.
Qed.

Lemma keep_metrics_unique callback (m : OptimizedMetrics) :
  unique_keys m -> unique_keys (keep_metrics callback m).
Proof.
  unfold unique_keys.
  induction m as [|[metric names] m IH]; simpl; intros Hu.
  - constructor.
  - inversion Hu as [|? ? Hnotin Hu']; subst.
    specialize (IH Hu').
    assert (Hin : ~ In metric (Object_keys (keep_metrics callback m))).
    { intros Hin. apply Hnotin. eapply keep_metrics_keys; eauto. }
    destruct (keep_names callback names) as [|e inner]; simpl;
      [assumption|]. now constructor.
Qed.

Lemma keep_metrics_values callback (m : OptimizedMetrics) :
  Forall plain_object (Object_values m) ->
  Forall plain_object (Object_values (keep_metrics callback m)).
Proof.
  induction m as [|[metric names] m IH]; simpl; intros Hall.
  - constructor.
  - inversion Hall as [|? ? Hnames Hall']; subst.
    specialize (IH Hall').
    pose proof (keep_names_plain callback names Hnames) as Hk.
    destruct (keep_names callback names) as [|e inner]; simpl;
      [assumption|]. now constructor.
Qed.

Lemma keep_metrics_wf callback m :
  wf_metrics m -> wf_metrics (keep_metrics callback m).
Proof.
  intros [[Hu Hp] Hall]. split; [split|].
  - now apply keep_metrics_unique.
  - intros Hin. apply Hp. eapply keep_metrics_keys; eauto.
  - now apply keep_metrics_values.
Qed.

Lemma keep_names_arrays callback names :
  forallb is_array (Object_values (keep_names callback names)) = true.
Proof.
  unfold Object_values.
  induction names as [|[name s] names IH]; [reflexivity|].
  change ((name, s) :: names) with ([(name, s)] ++ names).
  rewrite keep_names_app, map_app, forallb_app, IH, andb_true_r.
  rewrite keep_names_one.
  destruct s as [a| | |]; try reflexivity.
  now destruct (List.filter callback a).
Qed.

Lemma keep_metrics_arrays callback m :
  all_arrays (keep_metrics callback m) = true.
Proof.
  unfold all_arrays, Object_values.
  induction m as [|[metric names] m IH]; [reflexivity|].
  change ((metric, names) :: m) with ([(metric, names)] ++ m).
  rewrite keep_metrics_app, map_app, forallb_app, IH, andb_true_r.
  rewrite keep_metrics_one.
  pose proof (keep_names_arrays callback names) as Hk.
  unfold Object_values in Hk.
  destruct (keep_names callback names); [reflexivity|].
  cbn [map snd forallb] in *. apply andb_true_iff. now split.
Qed.

Lemma in_year_month_in_year y mo data :
  in_year_month y mo data = true -> in_year y data = true.
Proof.
  unfold in_year_month, in_year. intros H.
  now apply andb_true_iff in H.
Qed.

(** Filtering twice, the second callback at least as strict as the first,
    is filtering once with the second. *)
Lemma filter_loop_twice (f g : MonthlyDataPoint -> bool) m :
  (forall x, g x = true -> f x = true) ->
  wf_metrics m ->
  (r <- filter_loop f m ;; filter_loop g r) = filter_loop g m.
Proof.
  intros Himp Hwf.
  rewrite (filter_loop_keep f m Hwf), (filter_loop_keep g m Hwf).
  destruct (all_arrays m); [|reflexivity].
  cbn [bind].
  rewrite filter_loop_keep by now apply keep_metrics_wf.
  now rewrite keep_metrics_arrays, keep_metrics_twice.
Qed.

(** ** Strings: the keys of the trend map *)

Lemma String_split_nonempty sep s : String_split sep s <> [].
Proof.
  destruct s as [|c s]; simpl; [discriminate|].
  destruct (Ascii.eqb c sep); [discriminate|].
  destruct (String_split sep s); discriminate.
Qed.

(** A run of digits in front of a string stays in front of its first
    piece. *)
Lemma String_split_digits (s rest : string) d :
  NilEmpty.uint_of_string s = Some d ->
  String_split "-" (s ++ rest)%string =
  match String_split "-" rest with
  | piece :: pieces => (s ++ piece)%string :: pieces
  | [] => [s]
  end.
Proof.
  revert d. induction s as [|c s IH]; intros d Hd.
  - cbn [String.append].
    destruct (String_split "-" rest) eqn:Hr; [|reflexivity].
    now apply String_split_nonempty in Hr.
  - cbn [NilEmpty.uint_of_string] in Hd.
    destruct (NilEmpty.uint_of_string s) as [d'|] eqn:Hs; [|discriminate].
    specialize (IH d' eq_refl).
    cbn [String.append String_split].
    assert (Hc : Ascii.eqb c "-" = false).
    { apply uint_of_char_spec in Hd.
      destruct Hd as [[-> _]|[[-> _]|[[-> _]|[[-> _]|[[-> _]|[[-> _]|
        [[-> _]|[[-> _]|[[-> _]|[-> _]]]]]]]]]]; reflexivity. }
    rewrite Hc, IH.
    destruct (String_split "-" rest) as [|piece pieces] eqn:Hr.
    + now apply String_split_nonempty in Hr.
    + reflexivity.
Qed.

Lemma append_empty_r (s : string) : (s ++ "")%string = s.
Proof. induction s; simpl; congruence. Qed.

(** The decimal writing of an integer: its digits, after a minus sign when
    it is negative. *)
Lemma String_of_int_shape (z : Z) :
  exists ds d,
    NilEmpty.uint_of_string ds = Some d /\
    Z.of_uint d = Z.abs z /\
    String_of_int z = if z <? 0 then String "-" ds else ds.
Proof.
  unfold String_of_int. destruct z as [|p|p]; cbn [Z.to_int Z.ltb Z.compare].
  - exists "0"%string, (D0 Nil). repeat split.
  - exists (NilEmpty.string_of_uint (Pos.to_uint p)), (Pos.to_uint p).
    split; [apply NilEmpty.usu|]. split.
    + unfold Z.of_uint. now rewrite DecimalPos.Unsigned.of_to.
    + cbn [NilZero.string_of_int]. unfold NilZero.string_of_uint.
      pose proof (DecimalPos.Unsigned.to_uint_nonnil p).
      now destruct (Pos.to_uint p).
  - exists (NilEmpty.string_of_uint (Pos.to_uint p)), (Pos.to_uint p).
    split; [apply NilEmpty.usu|]. split.
    + unfold Z.of_uint. now rewrite DecimalPos.Unsigned.of_to.
    + cbn [NilZero.string_of_int]. unfold NilZero.string_of_uint.
      pose proof (DecimalPos.Unsigned.to_uint_nonnil p).
      now destruct (Pos.to_uint p).
Qed.

Lemma Number_of_digits ds d :
  NilEmpty.uint_of_string ds = Some d -> Number_of_string ds = Z.of_uint d.
Proof. unfold Number_of_string. now intros ->. Qed.

(** The pieces of a key: the year's digits first when the year is not
    negative, then the pieces of the month's writing. *)
Lemma trend_key_split (data : MonthlyDataPoint) :
  0 <= year data ->
  String_split "-" (trend_key data) =
  String_of_int (year data) :: String_split "-" (String_of_int (month data)).
Proof.
  intros Hy. unfold trend_key.
  destruct (String_of_int_shape (year data)) as (ds & d & Hd & _ & Hs).
  destruct (Z.ltb_spec (year data) 0) as [Hneg|_]; [lia|].
  rewrite Hs, (String_split_digits ds _ d Hd).
  cbn [String.append String_split Ascii.eqb Bool.eqb].
  now rewrite append_empty_r.
Qed.

Lemma trend_key_year (data : MonthlyDataPoint) v :
  0 <= year data ->
  trend_year (trend_of_entry (trend_key data, v)) = year data.
Proof.
  intros Hy. unfold trend_of_entry. cbn [trend_year].
  rewrite (trend_key_split data Hy). cbn [map nth].
  destruct (String_of_int_shape (year data)) as (ds & d & Hd & Habs & Hs).
  destruct (Z.ltb_spec (year data) 0) as [Hneg|_]; [lia|].
  rewrite Hs, (Number_of_digits ds d Hd). lia.
Qed.

Lemma trend_key_month (data : MonthlyDataPoint) v :
  0 <= year data -> 0 <= month data ->
  trend_month (trend_of_entry (trend_key data, v)) = month data.
Proof.
  intros Hy Hm. unfold trend_of_entry. cbn [trend_month].
  rewrite (trend_key_split data Hy).
  destruct (String_of_int_shape (month data)) as (ds & d & Hd & Habs & Hs).
  destruct (Z.ltb_spec (month data) 0) as [Hneg|_]; [lia|].
  rewrite Hs. rewrite <- (append_empty_r ds) at 1.
  rewrite (String_split_digits ds "" d Hd).
  cbn [String_split map nth]. rewrite append_empty_r.
  rewrite (Number_of_digits ds d Hd). lia.
Qed.

(** Whatever the signs, each piece of a key is empty or a run of digits:
    [Number] never reads [NaN] from it. *)
Lemma String_of_int_pieces_numeric (z : Z) :
  forallb is_numeric (String_split "-" (String_of_int z)) = true.
Proof.
  destruct (String_of_int_shape z) as (ds & d & Hd & _ & Hs).
  rewrite Hs. rewrite <- (append_empty_r ds).
  destruct (z <? 0).
  - cbn [String_split Ascii.eqb Bool.eqb].
    rewrite (String_split_digits ds "" d Hd).
    cbn [String_split forallb]. rewrite append_empty_r.
    unfold is_numeric. now rewrite Hd.
  - rewrite (String_split_digits ds "" d Hd).
    cbn [String_split forallb]. rewrite append_empty_r.
    unfold is_numeric. now rewrite Hd.
Qed.

Lemma trend_key_pieces_numeric (data : MonthlyDataPoint) :
  forallb is_numeric (String_split "-" (trend_key data)) = true /\
  (2 <= List.length (String_split "-" (trend_key data)))%nat.
Proof.
  unfold trend_key.
  destruct (String_of_int_shape (year data)) as (ds & d & Hd & _ & Hs).
  pose proof (String_of_int_pieces_numeric (month data)) as Hm.
  assert (Hlen : (1 <= List.length
                    (String_split "-" (String_of_int (month data))))%nat).
  { pose proof (String_split_nonempty "-" (String_of_int (month data))).
    destruct (String_split "-" (String_of_int (month data)));
      [congruence|simpl; lia]. }
  rewrite Hs. destruct (year data <? 0).
  - cbn [String.append String_split Ascii.eqb Bool.eqb].
    rewrite (String_split_digits ds _ d Hd).
    cbn [String.append String_split Ascii.eqb Bool.eqb].
    rewrite append_empty_r. cbn [forallb List.length].
    split; [|lia].
    rewrite Hm. unfold is_numeric. now rewrite Hd.
  - rewrite (String_split_digits ds _ d Hd).
    cbn [String.append String_split Ascii.eqb Bool.eqb].
    rewrite append_empty_r. cbn [forallb List.length].
    split; [|lia].
    rewrite Hm. unfold is_numeric. now rewrite Hd.
Qed.

(** ** [Array.prototype.sort] *)

Section SortFacts.

Context {A : Type} (compareFn : A -> A -> Z).

Lemma sort_insert_perm x l : Permutation (sort_insert compareFn x l) (x :: l).
Proof.
  induction l as [|y l IH]; simpl.
  - apply Permutation_refl.
  - destruct (compareFn x y <=? 0).
    + apply Permutation_refl.
    + eapply Permutation_trans; [apply perm_skip, IH|apply perm_swap].
Qed.

Lemma Array_sort_perm l : Permutation (Array_sort compareFn l) l.
Proof.
  induction l as [|x l IH]; simpl.
  - constructor.
  - eapply Permutation_trans; [apply sort_insert_perm|].
    now apply perm_skip.
Qed.



(** A consistent comparator: any two elements compare one way or the
    other, and the order it induces is transitive. *)
Hypothesis compare_total :
  forall a b, compareFn a b <= 0 \/ compareFn b a <= 0.
Hypothesis compare_trans :
  forall a b c, compareFn a b <= 0 -> compareFn b c <= 0 -> compareFn a c <= 0.

Let before (a b : A) : Prop := compareFn a b <= 0.

Lemma sort_insert_sorted x l :
  StronglySorted before l -> StronglySorted before (sort_insert compareFn x l).
Proof.
  induction 1 as [|y l Hs IH Hy]; simpl.
  - repeat constructor.
  - destruct (Z.leb_spec (compareFn x y) 0) as [Hxy|Hxy].
    + constructor; [now constructor|].
      constructor; [assumption|].
      eapply Forall_impl; [|exact Hy].
      intros z Hz. eapply compare_trans; eassumption.
    + constructor; [assumption|].
      assert (Hyx : before y x).
      { destruct (compare_total x y); [lia|assumption]. }
      eapply Permutation_Forall.
      * apply Permutation_sym, sort_insert_perm.
      * now constructor.
Qed.

Lemma Array_sort_sorted l : StronglySorted before (Array_sort compareFn l).
Proof.
  induction l as [|x l IH]; simpl.
  - constructor.
  - now apply sort_insert_sorted.
Qed.

End SortFacts.

(** Two sorted lists with the same elements are the same list, when no two
    different elements stand both ways in the order. *)
Lemma sorted_perm_unique {A} (R : A -> A -> Prop) :
  forall l1 l2,
  (forall a b, In a l1 -> In b l1 -> R a b -> R b a -> a = b) ->
  StronglySorted R l1 -> StronglySorted R l2 -> Permutation l1 l2 ->
  l1 = l2.
Proof.
  intros l1.
  induction l1 as [|a l1 IH]; intros l2 Hanti H1 H2 Hp.
  - apply Permutation_nil in Hp. now subst.
  - destruct l2 as [|b l2].
    + apply Permutation_sym, Permutation_nil in Hp. discriminate.
    + apply StronglySorted_inv in H1 as [H1 Ha].
      apply StronglySorted_inv in H2 as [H2 Hb].
      assert (Hinb : In b (a :: l1)).
      { eapply Permutation_in; [apply Permutation_sym, Hp|now left]. }
      assert (Hab : a = b).
      { assert (Hina : In a (b :: l2)).
        { eapply Permutation_in; [exact Hp|now left]. }
        destruct Hina as [Heq|Hina]; [now subst|].
        destruct Hinb as [Heq|Hinb']; [now subst|].
        rewrite Forall_forall in Ha, Hb.
        apply Hanti; auto; [now left|now right]. }
      subst b. f_equal. apply IH; try assumption.
      * intros x y Hx Hy. apply Hanti; now right.
      * eapply Permutation_cons_inv; eassumption.
Qed.

Lemma filter_perm {A} (f : A -> bool) (l1 l2 : list A) :
  Permutation l1 l2 -> Permutation (List.filter f l1) (List.filter f l2).
Proof.
  induction 1 as [|x l1 l2 H IH|x y l|l1 l2 l3 H1 IH1 H2 IH2]; simpl.
  - constructor.
  - destruct (f x); [now constructor|assumption].
  - destruct (f x), (f y); try apply Permutation_refl. apply perm_swap.
  - eapply Permutation_trans; eassumption.
Qed.

(** ** Monthly trends *)

Lemma Map_set_keys {V} (m : Map V) k v k' :
  In k' (map fst (Map_set m k v)) <-> In k' (map fst m) \/ k' = k.
Proof.
  induction m as [|[k0 v0] m IH]; simpl.
  - intuition.
  - destruct (String.eqb_spec k0 k) as [->|Hne]; simpl.
    + intuition.
    + rewrite IH. intuition.
Qed.

Lemma Map_set_unique {V} (m : Map V) k v :
  NoDup (map fst m) -> NoDup (map fst (Map_set m k v)).
Proof.
  induction m as [|[k0 v0] m IH]; simpl; intros Hnd.
  - repeat constructor. intros [].
  - inversion Hnd as [|? ? Hnotin Hnd']; subst.
    destruct (String.eqb_spec k0 k) as [->|Hne]; simpl.
    + now constructor.
    + constructor; [|now apply IH].
      rewrite Map_set_keys. intros [Hin|Heq]; [contradiction|congruence].
Qed.

Lemma sum_where_add (f : string -> bool) (m : Map Z) k c :
  sum_where f
    (Map_set m k (match Map_get m k with Some v => v | None => 0 end + c))
  = sum_where f m + (if f k then c else 0).
Proof.
  unfold sum_where.
  induction m as [|[k0 v0] m IH]; simpl.
  - destruct (f k); simpl; lia.
  - destruct (String.eqb_spec k0 k) as [->|Hne]; simpl.
    + destruct (f k); simpl; lia.
    + destruct (f k0); simpl; rewrite IH; lia.
Qed.

Lemma trends_sum (f : string -> bool) points (trendsMap : Map Z) :
  sum_where f (fold_left add_to_trends points trendsMap)
  = sum_where f trendsMap +
    sum_list (map count (List.filter (fun p => f (trend_key p)) points)).
Proof.
  revert trendsMap. induction points as [|p points IH]; intros tm; simpl.
  - lia.
  - rewrite IH. unfold add_to_trends. rewrite sum_where_add.
    destruct (f (trend_key p)); simpl; lia.
Qed.

Lemma trends_unique points (trendsMap : Map Z) :
  NoDup (map fst trendsMap) ->
  NoDup (map fst (fold_left add_to_trends points trendsMap)).
Proof.
  revert trendsMap. induction points as [|p points IH]; intros tm H; simpl.
  - assumption.
  - apply IH. now apply Map_set_unique.
Qed.

Lemma trends_keys points (trendsMap : Map Z) k :
  In k (map fst (fold_left add_to_trends points trendsMap)) ->
  In k (map fst trendsMap) \/ exists p, In p points /\ k = trend_key p.
Proof.
  revert trendsMap. induction points as [|p points IH]; intros tm; simpl.
  - now left.
  - intros H. apply IH in H as [H|(q & Hq & ->)].
    + unfold add_to_trends in H. apply Map_set_keys in H as [H| ->].
      * now left.
      * right. exists p. now split; [left|].
    + right. exists q. now split; [right|].
Qed.

(** The keys of a trend map split into at least two pieces, each empty
    or a run of digits. *)
Lemma trend_map_keys_numeric points k :
  In k (map fst (fold_left add_to_trends points [])) ->
  forallb is_numeric (String_split "-" k) = true /\
  (2 <= List.length (String_split "-" k))%nat.
Proof.
  intros H. apply trends_keys in H as [[]|(p & _ & ->)].
  apply trend_key_pieces_numeric.
Qed.

(** The map the loop over the names builds: the selected points added one
    by one. *)
Lemma trends_loop (name : option string) (names : Object Series)
  (trendsMap : Map Z) :
  fold_left
    (fun trendsMap '(currentName, monthlyData) =>
       if not_given name || same_name currentName name then
         match monthlyData with
         | TimeSeries a => fold_left add_to_trends a trendsMap
         | MonthTotals _ => trendsMap
         | Scalar _ => trendsMap
         | OtherShape => trendsMap
         end
       else trendsMap)
    names trendsMap
  = fold_left add_to_trends (selected_points name names) trendsMap.
Proof.
  revert trendsMap.
  induction names as [|[currentName s] names IH]; intros tm.
  - reflexivity.
  - cbn [fold_left selected_points flat_map]. rewrite fold_left_app.
    rewrite IH. f_equal. unfold selected.
    destruct (not_given name || same_name currentName name);
      [destruct s|]; reflexivity.
Qed.

Lemma getMonthlyTrendsByMetric_points m metric name :
  getMonthlyTrendsByMetric m metric name =
  match Object_get m metric with
  | None => []
  | Some _ =>
      Array_sort compare_trends
        (map trend_of_entry
           (fold_left add_to_trends (metric_points m metric name) []))
  end.
Proof.
  unfold getMonthlyTrendsByMetric, metric_points.
  destruct (Object_get m metric) as [names|]; [|reflexivity].
  unfold Object_entries, Map_entries. now rewrite trends_loop.
Qed.

Lemma compare_trends_le a b : compare_trends a b <= 0 <-> trend_le a b.
Proof.
  unfold compare_trends, trend_le.
  destruct (Z.eqb_spec (trend_year a - trend_year b) 0); simpl; lia.
Qed.

Lemma StronglySorted_impl {A} (R S : A -> A -> Prop) l :
  (forall a b, R a b -> S a b) -> StronglySorted R l -> StronglySorted S l.
Proof.
  intros Himp. induction 1 as [|a l Hs IH Ha]; constructor; auto.
  eapply Forall_impl; [|exact Ha]. auto.
Qed.

Lemma trends_sorted l : StronglySorted trend_le (Array_sort compare_trends l).
Proof.
  apply StronglySorted_impl with (R := fun a b => compare_trends a b <= 0).
  - intros a b. apply compare_trends_le.
  - apply Array_sort_sorted.
    + intros a b. rewrite !compare_trends_le. unfold trend_le. lia.
    + intros a b c. rewrite !compare_trends_le. unfold trend_le. lia.
Qed.

Lemma NoDup_map_keys {K V B} (g : K * V -> B) (l : list (K * V)) :
  NoDup (map fst l) ->
  (forall e1 e2, In e1 l -> In e2 l -> g e1 = g e2 -> fst e1 = fst e2) ->
  NoDup (map g l).
Proof.
  induction l as [|e l IH]; simpl; intros Hnd Hinj.
  - constructor.
  - inversion Hnd as [|? ? Hnotin Hnd']; subst. constructor.
    + intros Hin. apply in_map_iff in Hin as (e' & Heq & Hin').
      apply Hnotin. rewrite <- (Hinj e' e); auto.
      now apply in_map.
    + apply IH; auto.
Qed.

Lemma trend_key_dates p q :
  year p = year q -> month p = month q -> trend_key p = trend_key q.
Proof. unfold trend_key. now intros -> ->. Qed.

Lemma trends_distinct points :
  unsigned_dates points ->
  NoDup (map year_month
           (map trend_of_entry (fold_left add_to_trends points []))).
Proof.
  intros Hpos. rewrite map_map. apply NoDup_map_keys.
  - apply trends_unique. constructor.
  - intros [k1 v1] [k2 v2] H1 H2 Heq. cbn [fst].
    assert (Hk : forall k v,
      In (k, v) (fold_left add_to_trends points []) ->
      exists p, In p points /\ k = trend_key p).
    { intros k v Hin.
      destruct (trends_keys points [] k) as [[]|Hp]; [|exact Hp].
      change k with (fst (k, v)). now apply in_map. }
    destruct (Hk _ _ H1) as (p1 & Hp1 & ->).
    destruct (Hk _ _ H2) as (p2 & Hp2 & ->).
    unfold unsigned_dates in Hpos. rewrite Forall_forall in Hpos.
    destruct (Hpos _ Hp1) as [Hy1 Hm1], (Hpos _ Hp2) as [Hy2 Hm2].
    unfold year_month in Heq.
    rewrite !trend_key_year, !trend_key_month in Heq by assumption.
    injection Heq as Hy Hm. now apply trend_key_dates.
Qed.

(** The trend list is sorted by year and, within a year, by month, and it
    is empty when the model has no such metric.  Its (year, month) pairs
    are pairwise distinct when every key is read back as the year and the
    month it was made of, as the keys of unsigned years and months are. *)
Lemma trends_sorted_and_distinct
  (m : OptimizedMetrics) (metric : string) (name : option string) :
  StronglySorted trend_le (getMonthlyTrendsByMetric m metric name) /\
  (Object_get m metric = None -> getMonthlyTrendsByMetric m metric name = []) /\
  (unsigned_dates (metric_points m metric name) ->
   NoDup (map year_month (getMonthlyTrendsByMetric m metric name))).
Proof.
  rewrite getMonthlyTrendsByMetric_points.
  destruct (Object_get m metric) as [names|] eqn:Hget.
  - split; [apply trends_sorted|]. split; [discriminate|].
    intros Hpos.
    eapply Permutation_NoDup.
    + apply Permutation_map, Permutation_sym, Array_sort_perm.
    + now apply trends_distinct.
  - split; [constructor|]. split; [reflexivity|]. constructor.
Qed.

(** ** Totals of a filtered model *)

Lemma Object_get_keep_metrics callback (m : OptimizedMetrics) metric :
  unique_keys m ->
  Object_get (keep_metrics callback m) metric =
  match Object_get m metric with
  | None => None
  | Some names =>
      match keep_names callback names with
      | [] => None
      | inner => Some inner
      end
  end.
Proof.
  unfold unique_keys.
  induction m as [|[k names] m IH]; intros Hu; [reflexivity|].
  inversion Hu as [|? ? Hnotin Hu']; subst.
  replace (keep_metrics callback ((k, names) :: m))
    with (keep_metrics callback [(k, names)] ++ keep_metrics callback m)
    by (symmetry; apply (keep_metrics_app callback [(k, names)] m)).
  rewrite keep_metrics_one.
  simpl (Object_get ((k, names) :: m) metric).
  destruct (String.eqb_spec k metric) as [->|Hne].
  - destruct (keep_names callback names) as [|e inner].
    + cbn [List.app]. apply Object_get_notin.
      intros Hin. apply Hnotin. eapply keep_metrics_keys; eauto.
    + cbn [List.app Object_get]. now rewrite String_eqb_refl'.
  - destruct (keep_names callback names) as [|e inner].
    + cbn [List.app]. now apply IH.
    + cbn [List.app Object_get].
      destruct (String.eqb_spec k metric); [contradiction|]. now apply IH.
Qed.

Lemma names_total_app (n1 n2 : Object Series) :
  names_total (n1 ++ n2) = names_total n1 + names_total n2.
Proof.
  unfold names_total, Object_values. now rewrite !map_app, sum_list_app.
Qed.

Lemma selected_points_app name (n1 n2 : Object Series) :
  selected_points name (n1 ++ n2)
  = selected_points name n1 ++ selected_points name n2.
Proof. apply flat_map_app. Qed.

Lemma names_total_keep callback (names : Object Series) :
  names_total (keep_names callback names)
  = sum_list (map count (List.filter callback (selected_points None names))).
Proof.
  induction names as [|[name s] names IH]; [reflexivity|].
  change ((name, s) :: names) with ([(name, s)] ++ names).
  rewrite keep_names_app, names_total_app, selected_points_app.
  rewrite filter_app, map_app, sum_list_app, IH. f_equal.
  rewrite keep_names_one. unfold selected_points.
  cbn [flat_map selected not_given orb]. rewrite List.app_nil_r.
  destruct s as [a| | |]; try reflexivity.
  destruct (List.filter callback a) as [|p kept]; [reflexivity|].
  unfold names_total. cbn [Object_values map snd series_total].
  unfold sum_list at 1. cbn [fold_right]. lia.
Qed.

Lemma calculateTotalsByMetric_keep callback (m : OptimizedMetrics) metric :
  unique_keys m ->
  calculateTotalsByMetric (keep_metrics callback m) metric None
  = sum_list (map count (List.filter callback (metric_points m metric None))).
Proof.
  intros Hu. rewrite calculateTotalsByMetric_all.
  rewrite (Object_get_keep_metrics callback m metric Hu).
  unfold metric_points.
  destruct (Object_get m metric) as [names|]; [|reflexivity].
  rewrite <- names_total_keep.
  now destruct (keep_names callback names).
Qed.

(** The year a key is read back as. *)
Lemma trend_entries_sum (f : Z -> bool) (trendsMap : Map Z) :
  sum_list
    (map total_count
       (List.filter (fun t => f (trend_year t))
          (map trend_of_entry trendsMap)))
  = sum_where (fun k => f (trend_year (trend_of_entry (k, 0)))) trendsMap.
Proof.
  unfold sum_where.
  induction trendsMap as [|[k v] tm IH]; [reflexivity|].
  cbn [map List.filter fst].
  assert (Hy : trend_year (trend_of_entry (k, v))
               = trend_year (trend_of_entry (k, 0))) by reflexivity.
  rewrite Hy.
  destruct (f (trend_year (trend_of_entry (k, 0)))); [|exact IH].
  cbn [map snd]. rewrite !sum_list_cons, IH. reflexivity.
Qed.

Lemma trends_year_sum (m : OptimizedMetrics) metric name (y : Z) :
  unsigned_years (metric_points m metric name) ->
  sum_list
    (map total_count
       (List.filter (fun t => trend_year t =? y)
          (getMonthlyTrendsByMetric m metric name)))
  = sum_list
      (map count (List.filter (in_year y) (metric_points m metric name))).
Proof.
  intros Hpos. rewrite getMonthlyTrendsByMetric_points.
  unfold metric_points in *.
  destruct (Object_get m metric) as [names|]; [|reflexivity].
  set (points := selected_points name names) in *.
  rewrite (sum_list_perm _
    (map total_count
       (List.filter (fun t => trend_year t =? y)
          (map trend_of_entry (fold_left add_to_trends points []))))).
  2: { apply Permutation_map, filter_perm, Array_sort_perm. }
  rewrite (trend_entries_sum (fun z => z =? y)), trends_sum.
  change (sum_where (fun k => trend_year (trend_of_entry (k, 0)) =? y) [])
    with 0.
  rewrite Z.add_0_l. f_equal. f_equal. apply filter_ext_in.
  intros p Hp. unfold unsigned_years in Hpos.
  rewrite Forall_forall in Hpos.
  now rewrite trend_key_year by auto.
Qed.

(** On integers: on a model whose series are all arrays, filtering by
    a year succeeds and the metric's total in the filtered model is the sum
    of the metric's monthly trend entries of that year, when the keys of
    the points are read back under their own years. *)
Lemma year_total_sum
  (m : OptimizedMetrics) (y : Z) (metric : string) :
  wf_metrics m ->
  all_arrays m = true ->
  unsigned_years (metric_points m metric None) ->
  filterMetricsByYear m y = Ok (keep_metrics (in_year y) m) /\
  calculateTotalsByMetric (keep_metrics (in_year y) m) metric None =
  sum_list
    (map total_count
       (List.filter (fun t => trend_year t =? y)
          (getMonthlyTrendsByMetric m metric None))).
Proof.
  intros Hwf Harr Hpos. split.
  - rewrite filterMetricsByYear_loop, filter_loop_keep by assumption.
    now rewrite Harr.
  - rewrite calculateTotalsByMetric_keep by apply Hwf.
    symmetry. now apply trends_year_sum.
Qed.

Ltac solve_unique :=
  unfold wf_metrics, plain_object, unique_keys; simpl;
  repeat first
    [ split
    | apply NoDup_nil
    | apply Forall_nil
    | apply NoDup_cons; [simpl; intuition discriminate|]
    | apply Forall_cons
    | solve [simpl; intuition discriminate] ].

Lemma scenario_wf : wf_metrics scenario.
Proof. solve_unique. Qed.

(** ** The filters and the encodings *)

(** C2 (amended).  On a model whose series are all arrays both filters
    return the model restricted as the specification words it: the points
    of the year (of the year and month) under every name, without the names
    left empty and the metrics left without a name.  On a model that holds
    a series of another encoding both raise a [TypeError]. *)
Theorem filters_defined_on_array_models
  (m : OptimizedMetrics) (y mo : Z) :
  wf_metrics m ->
  filterMetricsByYear m y =
    (if all_arrays m then Ok (keep_metrics (in_year y) m)
     else Throw TypeError) /\
  filterMetricsByYearMonth m y mo =
    (if all_arrays m then Ok (keep_metrics (in_year_month y mo) m)
     else Throw TypeError).
Proof.
  intros Hwf.
  rewrite filterMetricsByYear_loop, filterMetricsByYearMonth_loop.
  now rewrite !filter_loop_keep.
Qed.

Lemma filters_defined_on_array_models_witness :
  wf_metrics scenario /\
  filterMetricsByYear scenario 2022 =
    Ok [("Transaction",
         [("X", TimeSeries [point 2022 1 10; point 2022 2 20])])] /\
  filterMetricsByYearMonth scenario 2022 2 =
    Ok [("Transaction", [("X", TimeSeries [point 2022 2 20])])].
Proof.
  split; [exact scenario_wf|].
  exact (filters_defined_on_array_models scenario 2022 2 scenario_wf).
Defined.

(** C2, as stated, fails: a bare number or a month-key map under a name is
    not dropped, the call raises. *)
Lemma filters_raise_on_other_encodings :
  filterMetricsByYear scenario_with_scalar 2022 = Throw TypeError /\
  filterMetricsByYearMonth scenario_with_scalar 2022 1 = Throw TypeError /\
  filterMetricsByYear scenario_with_month_totals 2022 = Throw TypeError /\
  filterMetricsByYearMonth scenario_with_month_totals 2022 1
    = Throw TypeError /\
  ~ (exists r, filterMetricsByYear scenario_with_scalar 2022 = Ok r).
Proof.
  repeat split; try reflexivity.
  intros [r Hr]. discriminate Hr.
Qed.

(** C4.  Filtering by year and then by year and month has the outcome of
    filtering by year and month at once: the same model, or the same
    exception when the model holds a series that is not an array. *)
Theorem filter_year_then_month (m : OptimizedMetrics) (y mo : Z) :
  wf_metrics m ->
  (r <- filterMetricsByYear m y ;; filterMetricsByYearMonth r y mo)
  = filterMetricsByYearMonth m y mo.
Proof.
  intros Hwf.
  rewrite filterMetricsByYear_loop.
  apply (filter_loop_twice (in_year y) (in_year_month y mo)); [|assumption].
  apply in_year_month_in_year.
Qed.

Lemma filter_year_then_month_witness :
  wf_metrics scenario /\
  (r <- filterMetricsByYear scenario 2022 ;;
   filterMetricsByYearMonth r 2022 2)
  = Ok [("Transaction", [("X", TimeSeries [point 2022 2 20])])].
Proof.
  split; [exact scenario_wf|].
  rewrite (filter_year_then_month scenario 2022 2 scenario_wf).
  reflexivity.
Defined.

(** ** Ranking *)

Section RankingFacts.

Variable localeCompare : string -> string -> Z.

(** [localeCompare] is a consistent comparator: any two strings compare
    one way or the other, and the order is transitive.  It need not tell
    all strings apart (it answers 0 on canonically equivalent spellings);
    where that matters the statements ask that it tells apart the names of
    the metric at hand. *)
Hypothesis collation_total :
  forall a b, localeCompare a b <= 0 \/ localeCompare b a <= 0.
Hypothesis collation_trans :
  forall a b c,
    localeCompare a b <= 0 -> localeCompare b c <= 0 ->
    localeCompare a c <= 0.











End RankingFacts.







(** ** Formatter *)

(** [nearest_tenths m e] is the integer nearest to ten times [m * 2^e],
    the upper one of two that are equally near. *)
Lemma nearest_tenths_spec (m : positive) (e : Z) :
  let n := nearest_tenths m e in
  if 0 <=? e then n = 10 * (Z.pos m * 2 ^ e)
  else
    2 ^ (- e) * (2 * n - 1) <= 2 * (10 * Z.pos m) < 2 ^ (- e) * (2 * n + 1).
Proof.
  unfold nearest_tenths. destruct (Z.leb_spec 0 e) as [He|He]; cbv zeta.
  - lia.
  - replace (1 - e) with (1 + - e) by lia.
    rewrite Z.pow_add_r by lia. change (2 ^ 1) with 2.
    assert (Hd : 0 < 2 ^ (- e)) by (apply Z.pow_pos_nonneg; lia).
    set (d := 2 ^ (- e)) in *.
    pose proof (Z.div_mod (20 * Z.pos m + d) (2 * d) ltac:(lia)) as Hdm.
    pose proof (Z.mod_pos_bound (20 * Z.pos m + d) (2 * d) ltac:(lia)) as Hb.
    nia.
Qed.

(** The scenario of the specification: the total of the metric, the total
    of the year 2022, and the monthly trend. *)
Example scenario_totals :
  calculateTotalsByMetric scenario "Transaction" None = 35 /\
  (r <- filterMetricsByYear scenario 2022 ;;
   Ok (calculateTotalsByMetric r "Transaction" None)) = Ok 30 /\
  getMonthlyTrendsByMetric scenario "Transaction" None =
    [ {| trend_year := 2022; trend_month := 1; total_count := 10 |};
      {| trend_year := 2022; trend_month := 2; total_count := 20 |};
      {| trend_year := 2023; trend_month := 1; total_count := 5 |} ].
Proof. repeat split. Qed.

(** C7.  The boundary values of the three-tier scale. *)
Theorem formatNumber_boundaries (shortest_decimal : spec_float -> string) :
  formatNumber shortest_decimal (number (Number_of_Z 999)) = "999" /\
  formatNumber shortest_decimal (number (Number_of_Z 1000)) = "1.0K" /\
  formatNumber shortest_decimal (number (Number_of_Z 99999)) = "100.0K" /\
  formatNumber shortest_decimal (number (Number_of_Z 100000)) = "1.0 L" /\
  formatNumber shortest_decimal (number (Number_of_Z 9999999)) = "100.0 L" /\
  formatNumber shortest_decimal (number (Number_of_Z 10000000)) = "1.0 Cr".
Proof. repeat split; vm_compute; reflexivity. Qed.

(** C8.  A missing or invalid number is written as the zero of the
    variant. *)
Theorem formatters_zero_on_invalid (shortest_decimal : spec_float -> string) :
  (formatNumber shortest_decimal null = "0" /\
   formatNumber shortest_decimal undefined = "0" /\
   formatNumber shortest_decimal (number S754_nan) = "0") /\
  (formatCount shortest_decimal null = "0" /\
   formatCount shortest_decimal undefined = "0" /\
   formatCount shortest_decimal (number S754_nan) = "0") /\
  (formatCurrency shortest_decimal null = "₹0" /\
   formatCurrency shortest_decimal undefined = "₹0" /\
   formatCurrency shortest_decimal (number S754_nan) = "₹0").
Proof. repeat split; reflexivity. Qed.

(** ** Document cache and loader *)

Lemma Map_get_set_same {V} (m : Map V) k v :
  Map_get (Map_set m k v) k = Some v.
Proof.
  induction m as [|[k' v'] m IH]; simpl.
  - now rewrite String_eqb_refl'.
  - destruct (String.eqb_spec k' k) as [->|Hne]; simpl.
    + now rewrite String_eqb_refl'.
    + destruct (String.eqb_spec k' k); [contradiction|]. exact IH.
Qed.

Section LoaderFacts.

Variable Document : Type.
Variable network : list string -> string -> result (Response Document).
Variable metrics_of : Document -> option OptimizedMetrics.
Variable country_view : Document -> OptimizedMetrics -> Document.
Variable state_view : Document -> OptimizedMetrics -> Document.

Ltac run_load :=
  unfold cached_or, try_catch, await, fetch, throw, ret, response_json,
    dataCache_set, console_error, sync;
  cbn [dataCache requests console fst snd].

Ltac failing_load load url :=
  intros w response Hkeys Hnet Hok;
  pose proof (Hkeys _ (or_introl eq_refl)) as Hmiss;
  eexists; unfold load; run_load;
  rewrite Hmiss, Hnet, Hok; cbn [negb];
  split; [reflexivity|]; cbn [dataCache requests console];
  split; [reflexivity|]; split; [reflexivity|];
  rewrite Hmiss; cbn [dataCache requests console];
  destruct (network (requests Document w ++ [url]) url) as [again|e];
  [destruct (ok Document again); cbn [negb];
   [destruct (json Document again)|]|];
  reflexivity.

Ltac successful_load load :=
  intros w response data Hmiss Hnet Hok Hjson;
  eexists; unfold load; run_load;
  rewrite Hmiss, Hnet, Hok, Hjson; cbn [negb];
  split; [reflexivity|]; cbn [dataCache requests console];
  split; [reflexivity|]; split; [apply Map_get_set_same|];
  split; [reflexivity|];
  now rewrite Map_get_set_same.

(** A year or month loader: [base_load] is the loader of the full
    document. *)
Ltac failing_view load base_load url filter :=
  intros w response Hkeys Hnet Hok;
  pose proof (Hkeys _ (or_introl eq_refl)) as Hmiss;
  pose proof (Hkeys _ (or_intror (or_introl eq_refl))) as Hbase;
  eexists; unfold load, base_load; run_load;
  rewrite Hmiss, Hbase, Hnet, Hok; cbn [negb];
  split; [reflexivity|]; cbn [dataCache requests console];
  split; [reflexivity|]; split; [reflexivity|];
  rewrite Hmiss, Hbase; cbn [dataCache requests console];
  destruct (network (requests Document w ++ [url]) url) as [again|e];
  [destruct (ok Document again); cbn [negb];
   [destruct (json Document again) as [data|e];
    [unfold document_metrics; destruct (metrics_of data) as [metrics|];
     cbn [bind];
     [let run := eval cbv beta in (filter metrics) in destruct run|]|]|]|];
  reflexivity.

Ltac successful_view load base_load :=
  intros w response data viewed Hmiss Hbase Hnet Hok Hjson Hview;
  unfold document_metrics in Hview;
  destruct (metrics_of data) as [metrics|] eqn:Hmetrics; [|discriminate];
  cbn [bind] in Hview;
  match type of Hview with
  | context [bind ?f _] => destruct f eqn:?; [|discriminate]
  end;
  cbn [bind] in Hview; injection Hview as <-;
  eexists; unfold load, base_load; run_load;
  rewrite Hmiss, Hbase, Hnet, Hok, Hjson; cbn [negb];
  unfold document_metrics; rewrite Hmetrics; cbn [bind];
  match goal with
  | H : ?f = Ok _ |- context [match ?f with _ => _ end] => rewrite H
  end;
  cbn [bind dataCache requests console];
  split; [reflexivity|]; cbn [dataCache requests console];
  split; [reflexivity|]; split; [apply Map_get_set_same|];
  split; [reflexivity|];
  now rewrite Map_get_set_same.

(** C9.  A response that is not [ok] makes the loader raise an error that
    names the request and the status, and nothing is stored, so that the
    next call fetches again; a successful load stores the document, and the
    next call returns it without a request.  This holds of the loaders that
    fetch a document and of the year and month loaders, which go through
    them and cache the filtered view under a key of their own. *)
Theorem loaders_cache_successes_only (state rto : string) (y mo : Z) :
  (fails_without_caching Document network
     (loadCountryData Document network) ["country"] "/data/country.json"
     (fun status =>
        "Failed to load country data: " ++ String_of_int status)%string /\
   loads_once Document network
     (loadCountryData Document network) "country" "/data/country.json") /\
  (fails_without_caching Document network
     (loadStateData Document network state)
     ["state-" ++ state]%string ("/data/state_" ++ state ++ ".json")%string
     (fun status =>
        "Failed to load state data for " ++ state ++ ": " ++
        String_of_int status)%string /\
   loads_once Document network
     (loadStateData Document network state)
     ("state-" ++ state)%string ("/data/state_" ++ state ++ ".json")%string) /\
  (fails_without_caching Document network
     (loadStatesIndex Document network) ["states-index"] "/data/states.json"
     (fun status =>
        "Failed to load states index: " ++ String_of_int status)%string /\
   loads_once Document network
     (loadStatesIndex Document network) "states-index" "/data/states.json") /\
  (fails_without_caching Document network
     (loadRTOData Document network state rto)
     ["rto-" ++ state ++ "-" ++ rto]%string
     ("/data/rto_" ++ state ++ "_" ++ rto ++ ".json")%string
     (fun status =>
        "Failed to load RTO data for " ++ state ++ "-" ++ rto ++ ": " ++
        String_of_int status)%string /\
   loads_once Document network
     (loadRTOData Document network state rto)
     ("rto-" ++ state ++ "-" ++ rto)%string
     ("/data/rto_" ++ state ++ "_" ++ rto ++ ".json")%string) /\
  (fails_without_caching Document network
     (loadCountryYearData Document network metrics_of country_view y)
     ["country-year-" ++ String_of_int y; "country"]%string
     "/data/country.json"
     (fun status =>
        "Failed to load country data: " ++ String_of_int status)%string /\
   loads_view_once Document network
     (loadCountryYearData Document network metrics_of country_view y)
     ("country-year-" ++ String_of_int y)%string "country"
     "/data/country.json"
     (fun data =>
        metrics <- document_metrics Document metrics_of data ;;
        filtered <- filterMetricsByYear metrics y ;;
        Ok (country_view data filtered))) /\
  (fails_without_caching Document network
     (loadCountryMonthData Document network metrics_of country_view y mo)
     ["country-month-" ++ String_of_int y ++ "-" ++ String_of_int mo;
      "country"]%string
     "/data/country.json"
     (fun status =>
        "Failed to load country data: " ++ String_of_int status)%string /\
   loads_view_once Document network
     (loadCountryMonthData Document network metrics_of country_view y mo)
     ("country-month-" ++ String_of_int y ++ "-" ++ String_of_int mo)%string
     "country" "/data/country.json"
     (fun data =>
        metrics <- document_metrics Document metrics_of data ;;
        filtered <- filterMetricsByYearMonth metrics y mo ;;
        Ok (country_view data filtered))) /\
  (fails_without_caching Document network
     (loadStateYearData Document network metrics_of state_view state y)
     ["state-year-" ++ state ++ "-" ++ String_of_int y;
      "state-" ++ state]%string
     ("/data/state_" ++ state ++ ".json")%string
     (fun status =>
        "Failed to load state data for " ++ state ++ ": " ++
        String_of_int status)%string /\
   loads_view_once Document network
     (loadStateYearData Document network metrics_of state_view state y)
     ("state-year-" ++ state ++ "-" ++ String_of_int y)%string
     ("state-" ++ state)%string
     ("/data/state_" ++ state ++ ".json")%string
     (fun data =>
        metrics <- document_metrics Document metrics_of data ;;
        filtered <- filterMetricsByYear metrics y ;;
        Ok (state_view data filtered))) /\
  (fails_without_caching Document network
     (loadStateMonthData Document network metrics_of state_view state y mo)
     ["state-month-" ++ state ++ "-" ++ String_of_int y ++ "-" ++
      String_of_int mo;
      "state-" ++ state]%string
     ("/data/state_" ++ state ++ ".json")%string
     (fun status =>
        "Failed to load state data for " ++ state ++ ": " ++
        String_of_int status)%string /\
   loads_view_once Document network
     (loadStateMonthData Document network metrics_of state_view state y mo)
     ("state-month-" ++ state ++ "-" ++ String_of_int y ++ "-" ++
      String_of_int mo)%string
     ("state-" ++ state)%string
     ("/data/state_" ++ state ++ ".json")%string
     (fun data =>
        metrics <- document_metrics Document metrics_of data ;;
        filtered <- filterMetricsByYearMonth metrics y mo ;;
        Ok (state_view data filtered))).
Proof.
  repeat split.
  - failing_load loadCountryData "/data/country.json"%string.
  - successful_load loadCountryData.
  - failing_load loadStateData ("/data/state_" ++ state ++ ".json")%string.
  - successful_load loadStateData.
  - failing_load loadStatesIndex "/data/states.json"%string.
  - successful_load loadStatesIndex.
  - failing_load loadRTOData
      ("/data/rto_" ++ state ++ "_" ++ rto ++ ".json")%string.
  - successful_load loadRTOData.
  - failing_view loadCountryYearData loadCountryData
      "/data/country.json"%string (fun m => filterMetricsByYear m y).
  - successful_view loadCountryYearData loadCountryData.
  - failing_view loadCountryMonthData loadCountryData
      "/data/country.json"%string
      (fun m => filterMetricsByYearMonth m y mo).
  - successful_view loadCountryMonthData loadCountryData.
  - failing_view loadStateYearData loadStateData
      ("/data/state_" ++ state ++ ".json")%string
      (fun m => filterMetricsByYear m y).
  - successful_view loadStateYearData loadStateData.
  - failing_view loadStateMonthData loadStateData
      ("/data/state_" ++ state ++ ".json")%string
      (fun m => filterMetricsByYearMonth m y mo).
  - successful_view loadStateMonthData loadStateData.
Qed.

End LoaderFacts.

Lemma loaders_cache_successes_only_witness :
  let failed :=
    {| ok := false; status := 404; json := Throw (Error "no body") |} in
  ((forall key, In key ["state-KA"%string] ->
      Map_get (dataCache Z empty_world) key = None) /\
   flaky_network (requests Z empty_world) "/data/state_KA.json" = Ok failed /\
   ok Z failed = false) /\
  exists w',
    loadStateData Z flaky_network "KA" empty_world
    = (Throw (Error "Failed to load state data for KA: 404"), w') /\
    dataCache Z w' = dataCache Z empty_world /\
    requests Z w' = ["/data/state_KA.json"]%string /\
    requests Z (snd (loadStateData Z flaky_network "KA" w'))
    = requests Z w' ++ ["/data/state_KA.json"]%string.
Proof.
  intros failed.
  split; [split; [intros key [<-|[]]; reflexivity|split; reflexivity]|].
  refine (proj1 (proj1 (proj2
    (loaders_cache_successes_only Z flaky_network (fun _ => None)
       (fun d _ => d) (fun d _ => d) "KA" "1" 2022 1)))
    empty_world failed _ eq_refl eq_refl).
  intros key [<-|[]]. reflexivity.
Defined.

(** The same three calls run: the first fails and stores nothing, the
    second fetches again and stores the document, the third is served from
    the cache. *)
Example load_fail_then_succeed_then_cached :
  let '(r1, w1) := loadStateData Z flaky_network "KA" empty_world in
  let '(r2, w2) := loadStateData Z flaky_network "KA" w1 in
  let '(r3, w3) := loadStateData Z flaky_network "KA" w2 in
  r1 = Throw (Error "Failed to load state data for KA: 404") /\
  dataCache Z w1 = [] /\
  r2 = Ok 42 /\
  dataCache Z w2 = [("state-KA"%string, 42)] /\
  r3 = Ok 42 /\
  requests Z w3 = ["/data/state_KA.json"; "/data/state_KA.json"]%string.
Proof. vm_compute. repeat split. Qed.

(** ** The filters on the object graph *)

Module StoreFacts.

Import Store.

Lemma nth_error_update_same {A} (l : list A) i x :
  (i < List.length l)%nat -> nth_error (update l i x) i = Some x.
Proof.
  revert i. induction l as [|y l IH]; intros [|i] H; simpl in *;
    try lia; [reflexivity|]. apply IH. lia.
Qed.

Lemma nth_error_update_other {A} (l : list A) i j x :
  i <> j -> nth_error (update l i x) j = nth_error l j.
Proof.
  revert i j. induction l as [|y l IH]; intros [|i] [|j] H; simpl;
    try reflexivity; try congruence. apply IH. congruence.
Qed.

Lemma nth_error_some_lt {A} (l : list A) i x :
  nth_error l i = Some x -> (i < List.length l)%nat.
Proof. intros H. apply nth_error_Some. congruence. Qed.

Lemma nth_error_length {A} (l : list A) : nth_error l (List.length l) = None.
Proof. apply nth_error_None. lia. Qed.

Lemma nth_error_snoc {A} (l : list A) x :
  nth_error (l ++ [x]) (List.length l) = Some x.
Proof. rewrite nth_error_app2, Nat.sub_diag by lia. reflexivity. Qed.

Lemma nth_error_app_some {A} (l ext : list A) i x :
  nth_error l i = Some x -> nth_error (l ++ ext) i = Some x.
Proof.
  intros H. rewrite nth_error_app1; [assumption|].
  eapply nth_error_some_lt; eauto.
Qed.

(** *** Reading lists of options *)

Lemma all_some_app {A} (l1 l2 : list (option A)) x1 x2 :
  all_some l1 = Some x1 -> all_some l2 = Some x2 ->
  all_some (l1 ++ l2) = Some (x1 ++ x2).
Proof.
  revert x1. induction l1 as [|[a|] l1 IH]; simpl; intros x1 H1 H2.
  - now injection H1 as <-.
  - destruct (all_some l1) as [xs|]; [|discriminate].
    injection H1 as <-. now rewrite (IH xs eq_refl H2).
  - discriminate.
Qed.

Lemma all_some_cons {A} (o : option A) l xs :
  all_some (o :: l) = Some xs ->
  exists x xs', o = Some x /\ all_some l = Some xs' /\ xs = x :: xs'.
Proof.
  simpl. destruct o as [x|]; [|discriminate].
  destruct (all_some l) as [xs'|]; [|discriminate].
  intros [= <-]. eauto.
Qed.

Lemma all_some_map_ext {A B} (f g : A -> option B) (l : list A) xs :
  all_some (map f l) = Some xs ->
  (forall a b, In a l -> f a = Some b -> g a = Some b) ->
  all_some (map g l) = Some xs.
Proof.
  revert xs. induction l as [|a l IH]; intros xs H Hfg.
  - assumption.
  - cbn [map] in *. apply all_some_cons in H as (x & xs' & Hx & Hl & ->).
    simpl. rewrite (Hfg a x (or_introl eq_refl) Hx).
    rewrite (IH xs' Hl); [reflexivity|].
    intros a' b Hin. apply Hfg. now right.
Qed.

Lemma all_some_length {A} (l : list (option A)) xs :
  all_some l = Some xs -> List.length xs = List.length l.
Proof.
  revert xs. induction l as [|o l IH]; intros xs H.
  - injection H as <-. reflexivity.
  - apply all_some_cons in H as (x & xs' & _ & Hl & ->).
    simpl. f_equal. now apply IH.
Qed.


(** *** Stores that keep the cells of another *)

Lemma keeps_refl C s : keeps C s s.
Proof. unfold keeps. auto. Qed.

Lemma keeps_trans C1 C2 s1 s2 s3 :
  keeps C1 s1 s2 -> keeps C2 s2 s3 -> keeps (C1 ++ C2) s1 s3.
Proof.
  intros (Hp1 & Ha1 & Ho1) (Hp2 & Ha2 & Ho2). split; [congruence|].
  split; [auto|].
  intros o props Hnotin Ho. apply Ho2, Ho1; auto;
    intros Hin; apply Hnotin, in_or_app; auto.
Qed.

Lemma keeps_weaken C C' s s' :
  keeps C s s' ->
  (forall o, In o C -> In o C' \/ nth_error (objects s) o = None) ->
  keeps C' s s'.
Proof.
  intros (Hp & Ha & Ho) Hsub. split; [assumption|]. split; [assumption|].
  intros o props Hnotin Hget. apply Ho; [|assumption].
  intros Hin. destruct (Hsub o Hin) as [H|H]; [contradiction|congruence].
Qed.

Lemma keeps_new_object s : keeps [] s (fst (new_object s)).
Proof.
  split; [reflexivity|]. split; [auto|].
  intros o props _ H. simpl. now apply nth_error_app_some.
Qed.

Lemma keeps_new_array s elements : keeps [] s (fst (new_array s elements)).
Proof.
  split; [reflexivity|]. split; [|auto].
  intros a els H. simpl. now apply nth_error_app_some.
Qed.

Lemma keeps_set_property s o k v s' :
  set_property s o k v = Ok s' -> keeps [o] s s'.
Proof.
  unfold set_property, get_entries.
  destruct (nth_error (objects s) o) as [props|]; [|discriminate].
  cbn [bind]. intros [= <-]. split; [reflexivity|]. split; [auto|].
  intros o' props' Hnotin H. cbn [objects].
  rewrite nth_error_update_other; [assumption|].
  intros ->. apply Hnotin. now left.
Qed.

Lemma keeps_delete_property s o k s' :
  delete_property s o k = Ok s' -> keeps [o] s s'.
Proof.
  unfold delete_property, get_entries.
  destruct (nth_error (objects s) o) as [props|]; [|discriminate].
  cbn [bind]. intros [= <-]. split; [reflexivity|]. split; [auto|].
  intros o' props' Hnotin H. cbn [objects].
  rewrite nth_error_update_other; [assumption|].
  intros ->. apply Hnotin. now left.
Qed.

Lemma set_property_cell s o k v props :
  nth_error (objects s) o = Some props ->
  exists s',
    set_property s o k v = Ok s' /\
    nth_error (objects s') o = Some (Object_set props k v) /\
    arrays s' = arrays s.
Proof.
  intros H. unfold set_property, get_entries. rewrite H. cbn [bind].
  eexists. split; [reflexivity|]. split; [|reflexivity]. cbn [objects].
  apply nth_error_update_same. eapply nth_error_some_lt; eauto.
Qed.

Lemma delete_property_cell s o k props :
  nth_error (objects s) o = Some props ->
  exists s',
    delete_property s o k = Ok s' /\
    nth_error (objects s') o = Some (Object_delete props k) /\
    arrays s' = arrays s.
Proof.
  intros H. unfold delete_property, get_entries. rewrite H. cbn [bind].
  eexists. split; [reflexivity|]. split; [|reflexivity]. cbn [objects].
  apply nth_error_update_same. eapply nth_error_some_lt; eauto.
Qed.

(** *** Reading a store that keeps the cells read *)

Lemma read_points_keeps C s s' elements :
  keeps C s s' -> read_points s' elements = read_points s elements.
Proof. intros (Hp & _). unfold read_points. now rewrite Hp. Qed.

(** An array series reads the same in a store that keeps the arrays. *)
Lemma read_array_keeps C from s s' v x :
  keeps C s s' ->
  read_series from s v = Some x -> is_array x = true ->
  read_series from s' v = Some x.
Proof.
  intros Hk Hr Harr. destruct v as [a|o|n|]; cbn [read_series] in *.
  - destruct (fst from <=? a)%nat; [|discriminate].
    destruct (nth_error (arrays s) a) as [els|] eqn:Ha; [|discriminate].
    destruct Hk as (Hp & Hka & _). rewrite (Hka a els Ha).
    unfold read_points in *. now rewrite Hp.
  - destruct (snd from <=? o)%nat; [|discriminate].
    destruct (nth_error (objects s) o); [|discriminate].
    destruct (all_some (map read_total o0)); [|discriminate].
    injection Hr as <-. discriminate.
  - injection Hr as <-. discriminate.
  - injection Hr as <-. discriminate.
Qed.

(** Any series reads the same in a store that keeps every cell. *)
Lemma read_series_preserved from s s' v x :
  preserved s s' ->
  read_series from s v = Some x -> read_series from s' v = Some x.
Proof.
  intros (Hp & Hka & Hko) Hr. destruct v as [a|o|n|]; cbn [read_series] in *.
  - destruct (fst from <=? a)%nat; [|discriminate].
    destruct (nth_error (arrays s) a) as [els|] eqn:Ha; [|discriminate].
    rewrite (Hka a els Ha). unfold read_points in *. now rewrite Hp.
  - destruct (snd from <=? o)%nat; [|discriminate].
    destruct (nth_error (objects s) o) as [props|] eqn:Ho; [|discriminate].
    now rewrite (Hko o props (fun H => H) Ho).
  - assumption.
  - assumption.
Qed.

Lemma read_entries_arrays {V} (read : value -> option V) props
  (xs : Object V) (P : V -> bool) :
  all_some (map (read_entry read) props) = Some xs ->
  forallb P (Object_values xs) = true ->
  forall e x, In e props -> read_entry read e = Some x -> P (snd x) = true.
Proof.
  revert xs. induction props as [|e0 props IH]; intros xs H HP e x Hin He.
  - destruct Hin.
  - cbn [map] in H. apply all_some_cons in H as (x0 & xs' & Hx0 & Hl & ->).
    cbn [Object_values map forallb] in HP.
    apply andb_true_iff in HP as [HP0 HP'].
    destruct Hin as [<-|Hin].
    + rewrite Hx0 in He. now injection He as <-.
    + eapply IH; eauto.
Qed.

Lemma read_entry_some {V} (read : value -> option V) e x :
  read_entry read e = Some x ->
  fst x = fst e /\ read (snd e) = Some (snd x).
Proof.
  unfold read_entry. destruct (read (snd e)) as [y|]; [|discriminate].
  intros [= <-]. auto.
Qed.

Lemma read_entry_ext {V} (read read' : value -> option V) e x :
  read_entry read e = Some x ->
  read' (snd e) = Some (snd x) ->
  read_entry read' e = Some x.
Proof.
  intros H H'. apply read_entry_some in H as [Hk _].
  unfold read_entry. rewrite H'. simpl. rewrite <- Hk. now destruct x.
Qed.

(** The names of a finished metric read the same after the later steps,
    which leave its object alone. *)
Lemma read_names_keeps C from s s' o names :
  keeps C s s' -> ~ In o C ->
  read_names from s (ObjectRef o) = Some names ->
  forallb is_array (Object_values names) = true ->
  read_names from s' (ObjectRef o) = Some names.
Proof.
  intros Hk Hnotin Hr Harr. cbn [read_names] in *.
  destruct (snd from <=? o)%nat; [|discriminate].
  destruct (nth_error (objects s) o) as [props|] eqn:Ho; [|discriminate].
  pose proof Hk as (Hp & Hka & Hko). rewrite (Hko o props Hnotin Ho).
  eapply all_some_map_ext; [exact Hr|].
  intros e x Hin He.
  eapply read_entry_ext; [exact He|].
  eapply (read_array_keeps C); [exact Hk| |].
  - now apply read_entry_some in He.
  - eapply (read_entries_arrays (read_series from s)); eauto.
Qed.

Lemma read_names_preserved from s s' v names :
  preserved s s' ->
  read_names from s v = Some names -> read_names from s' v = Some names.
Proof.
  intros Hk Hr. destruct v as [|o| |]; try discriminate.
  cbn [read_names] in *.
  destruct (snd from <=? o)%nat; [|discriminate].
  destruct (nth_error (objects s) o) as [props|] eqn:Ho; [|discriminate].
  pose proof Hk as (Hp & Hka & Hko). rewrite (Hko o props (fun H => H) Ho).
  eapply all_some_map_ext; [exact Hr|].
  intros e x Hin He.
  eapply read_entry_ext; [exact He|].
  eapply read_series_preserved; [exact Hk|].
  now apply read_entry_some in He.
Qed.

Lemma read_metrics_preserved from s s' root m :
  preserved s s' ->
  read_metrics from s root = Some m -> read_metrics from s' root = Some m.
Proof.
  intros Hk Hr. unfold read_metrics in *.
  destruct (snd from <=? root)%nat; [|discriminate].
  destruct (nth_error (objects s) root) as [props|] eqn:Ho; [|discriminate].
  pose proof Hk as (Hp & Hka & Hko). rewrite (Hko root props (fun H => H) Ho).
  eapply all_some_map_ext; [exact Hr|].
  intros e x Hin He.
  eapply read_entry_ext; [exact He|].
  eapply read_names_preserved; [exact Hk|].
  now apply read_entry_some in He.
Qed.

(** An array series accepted from some bound on is accepted from any
    lower one. *)
Lemma read_array_from (from from' : nat * nat) s v x :
  read_series from s v = Some x -> is_array x = true ->
  (fst from' <= fst from)%nat ->
  read_series from' s v = Some x.
Proof.
  intros Hr Harr Hle. destruct v as [a|o|n|]; cbn [read_series] in *.
  - destruct (Nat.leb_spec (fst from) a); [|discriminate].
    destruct (Nat.leb_spec (fst from') a); [assumption|lia].
  - destruct (snd from <=? o)%nat; [|discriminate].
    destruct (nth_error (objects s) o); [|discriminate].
    destruct (all_some (map read_total o0)); [|discriminate].
    injection Hr as <-. discriminate.
  - assumption.
  - assumption.
Qed.


Lemma read_array_entries_keeps C from s s' props (xs : Object Series) :
  keeps C s s' ->
  all_some (map (read_entry (read_series from s)) props) = Some xs ->
  forallb is_array (Object_values xs) = true ->
  all_some (map (read_entry (read_series from s')) props) = Some xs.
Proof.
  intros Hk Hr Harr. eapply all_some_map_ext; [exact Hr|].
  intros e x Hin He. eapply read_entry_ext; [exact He|].
  eapply (read_array_keeps C); [exact Hk| |].
  - now apply read_entry_some in He.
  - eapply (read_entries_arrays (read_series from s)); eauto.
Qed.

Lemma read_array_entries_from (from from' : nat * nat) s props
  (xs : Object Series) :
  all_some (map (read_entry (read_series from s)) props) = Some xs ->
  forallb is_array (Object_values xs) = true ->
  (fst from' <= fst from)%nat ->
  all_some (map (read_entry (read_series from' s)) props) = Some xs.
Proof.
  intros Hr Harr Hle. eapply all_some_map_ext; [exact Hr|].
  intros e x Hin He. eapply read_entry_ext; [exact He|].
  eapply (read_array_from from from'); [| |exact Hle].
  - now apply read_entry_some in He.
  - eapply (read_entries_arrays (read_series from s)); eauto.
Qed.

(** *** The loops *)

Section StoreLoops.

Variable callback : MonthlyDataPoint -> bool.

Lemma read_points_filter s elements pts :
  read_points s elements = Some pts ->
  read_points s (List.filter (test_element callback s) elements)
  = Some (List.filter callback pts).
Proof.
  unfold read_points. revert pts.
  induction elements as [|e elements IH]; intros pts H.
  - injection H as <-. reflexivity.
  - cbn [map] in H. apply all_some_cons in H as (x & xs & Hx & Hl & ->).
    cbn [List.filter]. unfold test_element at 1. rewrite Hx.
    destruct (callback x); cbn [map all_some].
    + now rewrite Hx, (IH xs Hl).
    + now apply IH.
Qed.

Lemma names_step_array filtered metric s name a elements :
  nth_error (arrays s) a = Some elements ->
  names_step callback filtered metric (Ok s) (name, ArrayRef a) =
  let kept := List.filter (test_element callback s) elements in
  let s1 := fst (new_array s kept) in
  if (0 <? List.length kept)%nat then
    inner <- get_property s1 filtered metric ;;
    match inner with
    | ObjectRef i =>
        set_property s1 i name (ArrayRef (List.length (arrays s)))
    | _ => Throw TypeError
    end
  else Ok s1.
Proof. intros H. unfold names_step. cbn [bind]. now rewrite H. Qed.

(** An entry that reads as an array series is a reference to an array of
    the store. *)
Lemma read_array_entry from s e (x : string * Series) :
  read_entry (read_series from s) e = Some x ->
  is_array (snd x) = true ->
  exists a elements pts,
    e = (fst x, ArrayRef a) /\ snd x = TimeSeries pts /\
    nth_error (arrays s) a = Some elements /\
    read_points s elements = Some pts.
Proof.
  intros He Harr. apply read_entry_some in He as [Hk Hr].
  destruct e as [k v], x as [k' ser]. cbn [fst snd] in *. subst k'.
  destruct v as [a|o|n|]; cbn [read_series] in Hr.
  - destruct (fst from <=? a)%nat; [|discriminate].
    destruct (nth_error (arrays s) a) as [els|] eqn:Ha; [|discriminate].
    destruct (read_points s els) as [pts|] eqn:Hp; [|discriminate].
    injection Hr as <-. exists a, els, pts. auto.
  - destruct (snd from <=? o)%nat; [|discriminate].
    destruct (nth_error (objects s) o); [|discriminate].
    destruct (all_some (map read_total o0)); [|discriminate].
    injection Hr as <-. discriminate.
  - injection Hr as <-. discriminate.
  - injection Hr as <-. discriminate.
Qed.

Lemma store_names_loop (filtered i : nat) (metric : string)
  (Fprops : Object value) :
  filtered <> i ->
  Object_get Fprops metric = Some (ObjectRef i) ->
  forall (entries : Object value) (names : Object Series) (s : store)
         (N : Object value),
  all_some (map (read_entry (read_series (0, 0)%nat s)) entries)
    = Some names ->
  forallb is_array (Object_values names) = true ->
  unique_keys names ->
  nth_error (objects s) filtered = Some Fprops ->
  nth_error (objects s) i = Some N ->
  (forall k, In k (Object_keys names) -> ~ In k (Object_keys N)) ->
  exists s' Nnew,
    fold_left (names_step callback filtered metric) entries (Ok s) = Ok s' /\
    keeps [i] s s' /\
    nth_error (objects s') filtered = Some Fprops /\
    nth_error (objects s') i = Some (N ++ Nnew) /\
    all_some
      (map (read_entry (read_series (List.length (arrays s), 0%nat) s')) Nnew)
    = Some (keep_names callback names).
Proof.
  intros Hfi Hget entries.
  induction entries as [|e entries IH];
    intros names s N Hread Harr Hu HF HN Hdisj.
  - injection Hread as <-. exists s, []. rewrite List.app_nil_r.
    repeat split; auto.
  - cbn [map] in Hread.
    apply all_some_cons in Hread as (x & names' & Hx & Hrest & ->).
    cbn [Object_values map forallb] in Harr.
    apply andb_true_iff in Harr as [Harr0 Harr'].
    fold (Object_values names') in Harr'.
    inversion Hu as [|? ? Hnotin Hu']; subst.
    destruct (read_array_entry _ _ _ _ Hx Harr0)
      as (a & els & pts & -> & Hser & Ha & Hpts).
    destruct x as [name ser]. cbn [fst snd] in *. subst ser.
    cbn [fold_left]. rewrite (names_step_array _ _ _ _ _ _ Ha). cbv zeta.
    pose proof (read_points_filter s els pts Hpts) as Hkept.
    set (kept := List.filter (test_element callback s) els) in *.
    assert (Hlen : List.length kept = List.length (List.filter callback pts)).
    { apply all_some_length in Hkept. unfold kept.
      rewrite Hkept, length_map. reflexivity. }
    set (s1 := fst (new_array s kept)).
    assert (Hk1 : keeps [] s s1) by apply keeps_new_array.
    assert (HF1 : nth_error (objects s1) filtered = Some Fprops) by exact HF.
    assert (HN1 : nth_error (objects s1) i = Some N) by exact HN.
    assert (Hrest1 :
      all_some (map (read_entry (read_series (0, 0)%nat s1)) entries)
      = Some names').
    { eapply read_array_entries_keeps; eauto. }
    assert (Hdisj' : forall k, In k (Object_keys names') ->
                               ~ In k (Object_keys N)).
    { intros k Hin. apply Hdisj. now right. }
    assert (Hidx : nth_error (arrays s1) (List.length (arrays s)) = Some kept)
      by apply nth_error_snoc.
    rewrite Hlen.
    destruct (List.filter callback pts) as [|p kept'] eqn:Hf.
    + cbn [List.length Nat.ltb Nat.leb].
      destruct (IH names' s1 N Hrest1 Harr' Hu' HF1 HN1 Hdisj')
        as (s' & Nnew & Hfold & Hk & HF' & HN' & Hr').
      exists s', Nnew. split; [exact Hfold|]. split.
      { exact (keeps_trans [] [i] s s1 s' Hk1 Hk). }
      split; [exact HF'|]. split; [exact HN'|].
      replace (keep_names callback ((name, TimeSeries pts) :: names'))
        with (keep_names callback names').
      2: { unfold keep_names. cbn [flat_map]. now rewrite Hf. }
      eapply read_array_entries_from; [exact Hr'|apply keep_names_arrays|].
      unfold s1. cbn [new_array fst arrays snd]. rewrite length_app. lia.
    + replace (0 <? List.length (p :: kept'))%nat with true by reflexivity.
      unfold get_property, get_entries. rewrite HF1. cbn [bind].
      rewrite Hget.
      destruct (set_property_cell s1 i name
                  (ArrayRef (List.length (arrays s))) N HN1)
        as (s2 & Hset & HN2 & Harr2).
      cbn [bind]. rewrite Hset.
      assert (Hk2 : keeps [i] s1 s2) by (eapply keeps_set_property; eauto).
      rewrite Object_set_notin in HN2 by (apply Hdisj; now left).
      assert (HF2 : nth_error (objects s2) filtered = Some Fprops).
      { destruct Hk2 as (_ & _ & Hko). apply Hko; [|exact HF1].
        intros [H|[]]. congruence. }
      assert (Hrest2 :
        all_some (map (read_entry (read_series (0, 0)%nat s2)) entries)
        = Some names').
      { eapply read_array_entries_keeps; eauto. }
      assert (Hdisj2 : forall k, In k (Object_keys names') ->
                ~ In k (Object_keys
                          (N ++ [(name, ArrayRef (List.length (arrays s)))]))).
      { intros k Hin. rewrite Object_keys_app, in_app_iff.
        intros [H|[<-|[]]]; [|contradiction].
        revert H. now apply Hdisj'. }
      destruct (IH names' s2 _ Hrest2 Harr' Hu' HF2 HN2 Hdisj2)
        as (s' & Nnew & Hfold & Hk & HF' & HN' & Hr').
      exists s', ((name, ArrayRef (List.length (arrays s))) :: Nnew).
      split; [exact Hfold|]. split.
      { eapply keeps_weaken.
        - exact (keeps_trans _ _ _ _ _ Hk1 (keeps_trans _ _ _ _ _ Hk2 Hk)).
        - intros o Hin. left. simpl in Hin. simpl. tauto. }
      split; [exact HF'|]. split.
      { rewrite HN', <- List.app_assoc. reflexivity. }
      replace (keep_names callback ((name, TimeSeries pts) :: names'))
        with ((name, TimeSeries (p :: kept')) :: keep_names callback names').
      2: { unfold keep_names. cbn [flat_map]. now rewrite Hf. }
      cbn [map all_some].
      assert (Hhead :
        read_entry (read_series (List.length (arrays s), 0%nat) s')
          (name, ArrayRef (List.length (arrays s)))
        = Some (name, TimeSeries (p :: kept'))).
      { unfold read_entry. cbn [fst snd read_series].
        rewrite Nat.leb_refl.
        assert (Hk12 : keeps ([i] ++ [i]) s1 s')
          by exact (keeps_trans _ _ _ _ _ Hk2 Hk).
        destruct Hk12 as (Hp' & Hka' & _).
        rewrite (Hka' _ _ Hidx).
        unfold read_points in *. rewrite Hp'.
        change (points s1) with (points s). now rewrite Hkept. }
      rewrite Hhead.
      erewrite read_array_entries_from;
        [reflexivity|exact Hr'|apply keep_names_arrays|].
      rewrite Harr2. unfold s1. cbn [new_array fst arrays snd].
      rewrite length_app. lia.
Qed.


Lemma read_entries_keys {V} (read : value -> option V) props (xs : Object V) :
  all_some (map (read_entry read) props) = Some xs ->
  Object_keys xs = Object_keys props.
Proof.
  revert xs. induction props as [|e props IH]; intros xs H.
  - injection H as <-. reflexivity.
  - cbn [map] in H. apply all_some_cons in H as (x & xs' & Hx & Hl & ->).
    apply read_entry_some in Hx as [Hk _].
    unfold Object_keys in *. cbn [map]. now rewrite Hk, (IH xs' Hl).
Qed.

Lemma keeps_arrays_length C s s' :
  keeps C s s' -> (List.length (arrays s) <= List.length (arrays s'))%nat.
Proof.
  intros (_ & Hka & _).
  destruct (Nat.eq_dec (List.length (arrays s)) 0) as [->|Hne]; [lia|].
  destruct (nth_error (arrays s) (List.length (arrays s) - 1)) eqn:Hn.
  - apply Hka, nth_error_some_lt in Hn. lia.
  - apply nth_error_None in Hn. lia.
Qed.

Lemma read_names_object from s v (names : Object Series) :
  read_names from s v = Some names ->
  exists o props,
    v = ObjectRef o /\ (snd from <= o)%nat /\
    nth_error (objects s) o = Some props /\
    all_some (map (read_entry (read_series from s)) props) = Some names.
Proof.
  destruct v as [|o| |]; try discriminate. cbn [read_names].
  destruct (Nat.leb_spec (snd from) o) as [Hle|Hlt]; [|discriminate].
  destruct (nth_error (objects s) o) as [props|] eqn:Ho; [|discriminate].
  intros Hr. exists o, props. auto.
Qed.

(** The metrics filtered so far read the same after a step that changes
    only the root and objects allocated later. *)
Lemma read_metric_entries_keeps C from s s' props (xs : OptimizedMetrics) :
  keeps C s s' ->
  all_some (map (read_entry (read_names from s)) props) = Some xs ->
  all_arrays xs = true ->
  (forall o, In o C ->
     (o < snd from)%nat \/ (List.length (objects s) <= o)%nat) ->
  all_some (map (read_entry (read_names from s')) props) = Some xs.
Proof.
  intros Hk Hr Harr HC. eapply all_some_map_ext; [exact Hr|].
  intros e x Hin He. eapply read_entry_ext; [exact He|].
  pose proof (read_entries_arrays (read_names from s) props xs
                (fun names => forallb is_array (Object_values names))
                Hr Harr e x Hin He) as Hx.
  apply read_entry_some in He as [_ He].
  destruct (read_names_object _ _ _ _ He) as (o & oprops & Hv & Hle & Ho & _).
  rewrite Hv in *. eapply (read_names_keeps C); eauto.
  intros HinC. apply nth_error_some_lt in Ho.
  destruct (HC o HinC); lia.
Qed.

Lemma read_names_from (from from' : nat * nat) s v (names : Object Series) :
  read_names from s v = Some names ->
  forallb is_array (Object_values names) = true ->
  (fst from' <= fst from)%nat -> (snd from' <= snd from)%nat ->
  read_names from' s v = Some names.
Proof.
  intros Hr Harr Hle1 Hle2.
  destruct (read_names_object _ _ _ _ Hr) as (o & props & -> & Hle & Ho & He).
  cbn [read_names]. destruct (Nat.leb_spec (snd from') o); [|lia].
  rewrite Ho. eapply read_array_entries_from; eauto.
Qed.

Lemma metrics_step_object filtered s metric n :
  metrics_step callback filtered (Ok s) (metric, ObjectRef n) =
  let s1 := fst (new_object s) in
  s2 <- set_property s1 filtered metric (ObjectRef (List.length (objects s))) ;;
  nameEntries <- get_entries s2 n ;;
  s3 <- fold_left (names_step callback filtered metric) nameEntries (Ok s2) ;;
  inner <- get_property s3 filtered metric ;;
  match inner with
  | ObjectRef i =>
      keys <- get_entries s3 i ;;
      if (List.length keys =? 0)%nat
      then delete_property s3 filtered metric
      else Ok s3
  | _ => Throw TypeError
  end.
Proof. reflexivity. Qed.

Lemma store_metrics_loop (s0 : store) :
  forall (entries : Object value) (m : OptimizedMetrics) (s : store)
         (Fprops : Object value) (acc : OptimizedMetrics),
  all_some (map (read_entry (read_names (0, 0)%nat s0)) entries) = Some m ->
  all_arrays m = true ->
  unique_keys m ->
  Forall unique_keys (Object_values m) ->
  preserved s0 s ->
  nth_error (objects s) (List.length (objects s0)) = Some Fprops ->
  all_some
    (map (read_entry
            (read_names (List.length (arrays s0),
                         S (List.length (objects s0))) s)) Fprops)
  = Some acc ->
  all_arrays acc = true ->
  (forall k, In k (Object_keys m) -> ~ In k (Object_keys acc)) ->
  exists s' Fprops',
    fold_left (metrics_step callback (List.length (objects s0))) entries
      (Ok s) = Ok s' /\
    preserved s0 s' /\
    nth_error (objects s') (List.length (objects s0)) = Some Fprops' /\
    all_some
      (map (read_entry
              (read_names (List.length (arrays s0),
                           S (List.length (objects s0))) s')) Fprops')
    = Some (acc ++ keep_metrics callback m).
Proof.
  set (F := List.length (objects s0)). set (nA := List.length (arrays s0)).
  intros entries.
  induction entries as [|e entries IH];
    intros m s Fprops acc Hread Harr Hu Hall Hpres HF Hacc Haccarr Hdisj.
  - injection Hread as <-. exists s, Fprops.
    cbn [keep_metrics flat_map]. rewrite List.app_nil_r. auto.
  - cbn [map] in Hread.
    apply all_some_cons in Hread as (x & m' & Hx & Hrest & ->).
    destruct x as [metric names].
    unfold all_arrays in Harr. cbn [Object_values map snd forallb] in Harr.
    apply andb_true_iff in Harr as [Harr0 Harr']. fold (Object_values m') in Harr'.
    fold (Object_values names) in Harr0. fold (all_arrays m') in Harr'.
    inversion Hu as [|? ? Hnotin Hu']; subst.
    inversion Hall as [|? ? Hnames Hall']; subst.
    apply read_entry_some in Hx as [Hk Hnm]. cbn [fst snd] in Hk, Hnm.
    destruct e as [k v]. cbn [fst snd] in Hk, Hnm. subst k.
    destruct (read_names_object _ _ _ _ Hnm)
      as (n & nprops & -> & _ & Hn & Hnread).
    assert (HFlt : (F < List.length (objects s))%nat)
      by (eapply nth_error_some_lt; eauto).
    set (i := List.length (objects s)) in *.
    assert (Hkeys : Object_keys acc = Object_keys Fprops)
      by (eapply read_entries_keys; eauto).
    assert (Hmetric : ~ In metric (Object_keys Fprops)).
    { rewrite <- Hkeys. apply Hdisj. now left. }
    cbn [fold_left]. rewrite metrics_step_object. cbv zeta. fold i.
    set (sa := fst (new_object s)).
    assert (Hka : keeps [] s sa) by apply keeps_new_object.
    assert (HFa : nth_error (objects sa) F = Some Fprops).
    { destruct Hka as (_ & _ & Hko). now apply Hko. }
    assert (Hia : nth_error (objects sa) i = Some []) by apply nth_error_snoc.
    destruct (set_property_cell sa F metric (ObjectRef i) Fprops HFa)
      as (sb & Hset & HFb & Harrb).
    rewrite Hset. cbn [bind].
    rewrite Object_set_notin in HFb by assumption.
    assert (Hkb : keeps [F] sa sb) by (eapply keeps_set_property; eauto).
    assert (Hsb : keeps [F] s sb)
      by exact (keeps_trans [] [F] s sa sb Hka Hkb).
    assert (Hn0 : nth_error (objects s0) F = None) by apply nth_error_length.
    assert (Hpresb : preserved s0 sb).
    { eapply keeps_weaken.
      - exact (keeps_trans [] [F] s0 s sb Hpres Hsb).
      - intros o [<-|[]]. now right. }
    assert (Hnb : nth_error (objects sb) n = Some nprops).
    { destruct Hpresb as (_ & _ & Hko). now apply Hko. }
    unfold get_entries at 1. rewrite Hnb. cbn [bind].
    assert (Hib : nth_error (objects sb) i = Some []).
    { destruct Hkb as (_ & _ & Hko). apply Hko; [|exact Hia].
      intros [H|[]]. lia. }
    assert (Hnreadb :
      all_some (map (read_entry (read_series (0, 0)%nat sb)) nprops)
      = Some names).
    { eapply read_array_entries_keeps; eauto. }
    assert (Hgetb : Object_get (Fprops ++ [(metric, ObjectRef i)]) metric
                    = Some (ObjectRef i))
      by now apply Object_get_app_last.
    assert (HFi : F <> i) by lia.
    destruct (store_names_loop F i metric _ HFi Hgetb nprops names sb []
                Hnreadb Harr0 Hnames HFb Hib (fun _ _ H => H))
      as (sc & Nnew & Hfold & Hkc & HFc & Hic & Hnew).
    rewrite Hfold. cbn [bind List.app] in *.
    unfold get_property, get_entries at 1. rewrite HFc. cbn [bind].
    rewrite Hgetb. cbn [bind]. unfold get_entries at 1. rewrite Hic.
    cbn [bind].
    assert (Hlen : List.length Nnew
                   = List.length (keep_names callback names)).
    { apply all_some_length in Hnew. now rewrite length_map in Hnew. }
    rewrite Hlen.
    assert (Hsc : keeps [F; i] s sc)
      by exact (keeps_trans [F] [i] s sb sc Hsb Hkc).
    assert (Hside : forall o, In o [F; i] ->
              (o < snd (nA, S F))%nat \/ (List.length (objects s) <= o)%nat).
    { intros o [<-|[<-|[]]]; cbn [snd]; fold i; lia. }
    assert (Hdisj' : forall k, In k (Object_keys m') ->
                               ~ In k (Object_keys acc)).
    { intros k' Hin. apply Hdisj. now right. }
    destruct (keep_names callback names) as [|e0 kn] eqn:Hkn.
    + cbn [List.length Nat.eqb].
      destruct (delete_property_cell sc F metric _ HFc)
        as (sd & Hdel & HFd & Harrd).
      rewrite Hdel.
      rewrite Object_delete_app_last in HFd by assumption.
      assert (Hkd : keeps [F] sc sd) by (eapply keeps_delete_property; eauto).
      assert (Hsd : keeps [F; i] s sd).
      { eapply keeps_weaken.
        - exact (keeps_trans [F; i] [F] s sc sd Hsc Hkd).
        - intros o Hin. left. simpl in *. tauto. }
      assert (Hpresd : preserved s0 sd).
      { eapply keeps_weaken.
        - exact (keeps_trans [] [F; i] s0 s sd Hpres Hsd).
        - intros o [<-|[<-|[]]]; right; [exact Hn0|].
          apply nth_error_None. fold F. lia. }
      assert (Haccd :
        all_some (map (read_entry (read_names (nA, S F) sd)) Fprops)
        = Some acc).
      { exact (read_metric_entries_keeps [F; i] (nA, S F) s sd Fprops acc
                 Hsd Hacc Haccarr Hside). }
      destruct (IH m' sd Fprops acc Hrest Harr' Hu' Hall' Hpresd HFd Haccd
                  Haccarr Hdisj')
        as (s' & Fprops' & Hfold' & Hpres' & HF' & Hread').
      exists s', Fprops'. split; [exact Hfold'|]. split; [exact Hpres'|].
      split; [exact HF'|].
      rewrite Hread'. f_equal. f_equal.
      change ((metric, names) :: m') with ([(metric, names)] ++ m').
      now rewrite keep_metrics_app, keep_metrics_one, Hkn.
    + cbn [List.length Nat.eqb].
      assert (Hpresc : preserved s0 sc).
      { eapply keeps_weaken.
        - exact (keeps_trans [] [F; i] s0 s sc Hpres Hsc).
        - intros o [<-|[<-|[]]]; right; [exact Hn0|].
          apply nth_error_None. fold F. lia. }
      assert (Hkarr : forallb is_array (Object_values (e0 :: kn)) = true).
      { rewrite <- Hkn. apply keep_names_arrays. }
      assert (Haccc :
        all_some
          (map (read_entry (read_names (nA, S F) sc))
             (Fprops ++ [(metric, ObjectRef i)]))
        = Some (acc ++ [(metric, e0 :: kn)])).
      { rewrite map_app. apply all_some_app.
        - exact (read_metric_entries_keeps [F; i] (nA, S F) s sc Fprops acc
                   Hsc Hacc Haccarr Hside).
        - cbn [map all_some]. unfold read_entry. cbn [fst snd read_names].
          destruct (Nat.leb_spec (S F) i); [|lia]. rewrite Hic.
          erewrite read_array_entries_from;
            [reflexivity|exact Hnew|exact Hkarr|].
          cbn [fst]. rewrite Harrb. change (arrays sa) with (arrays s).
          fold nA. apply (keeps_arrays_length [] s0 s Hpres). }
      assert (Haccarr' : all_arrays (acc ++ [(metric, e0 :: kn)]) = true).
      { unfold all_arrays, Object_values in *.
        rewrite map_app, forallb_app, Haccarr.
        cbn [map snd forallb andb] in *. now rewrite Hkarr. }
      assert (Hdisj2 : forall k, In k (Object_keys m') ->
                ~ In k (Object_keys (acc ++ [(metric, e0 :: kn)]))).
      { intros k' Hin. rewrite Object_keys_app, in_app_iff.
        intros [H|[<-|[]]]; [|contradiction].
        revert H. now apply Hdisj'. }
      destruct (IH m' sc _ _ Hrest Harr' Hu' Hall' Hpresc HFc Haccc
                  Haccarr' Hdisj2)
        as (s' & Fprops' & Hfold' & Hpres' & HF' & Hread').
      exists s', Fprops'. split; [exact Hfold'|]. split; [exact Hpres'|].
      split; [exact HF'|].
      rewrite Hread'. f_equal. rewrite <- List.app_assoc. f_equal.
      change ((metric, names) :: m') with ([(metric, names)] ++ m').
      now rewrite keep_metrics_app, keep_metrics_one, Hkn.
Qed.

(** The filter run on a store that holds the model [m] at [root]: it
    returns a new root; every cell of the store is still there with its
    content; and the model at the new root, read from newly allocated
    arrays and objects only, is the kept part of [m]. *)
Lemma store_filter_loop (s : store) (root : nat) (m : OptimizedMetrics) :
  read_metrics (0, 0)%nat s root = Some m ->
  wf_metrics m ->
  all_arrays m = true ->
  exists s',
    filter_loop callback s root = Ok (s', List.length (objects s)) /\
    preserved s s' /\
    read_metrics (List.length (arrays s), List.length (objects s)) s'
      (List.length (objects s))
    = Some (keep_metrics callback m).
Proof.
  intros Hread Hwf Harr. destruct (wf_metrics_unique m Hwf) as [Hu Hall].
  unfold read_metrics in Hread. cbn [snd Nat.leb] in Hread.
  destruct (nth_error (objects s) root) as [props|] eqn:Hroot;
    [|discriminate].
  unfold filter_loop.
  set (s1 := fst (new_object s)).
  change (new_object s) with (s1, List.length (objects s)). cbv iota.
  assert (Hk1 : preserved s s1) by apply keeps_new_object.
  assert (Hroot1 : nth_error (objects s1) root = Some props).
  { destruct Hk1 as (_ & _ & Hko). now apply Hko. }
  unfold get_entries. rewrite Hroot1. cbn [bind].
  destruct (store_metrics_loop s props m s1 [] [] Hread Harr Hu Hall Hk1
              (nth_error_snoc _ _) eq_refl eq_refl (fun _ _ H => H))
    as (s' & Fprops' & Hfold & Hpres & HF & Hres).
  rewrite Hfold. cbn [bind]. exists s'. split; [reflexivity|].
  split; [exact Hpres|].
  unfold read_metrics. cbn [snd]. rewrite Nat.leb_refl, HF.
  cbn [List.app] in Hres.
  eapply all_some_map_ext; [exact Hres|].
  intros e x Hin He. eapply read_entry_ext; [exact He|].
  pose proof (read_entries_arrays _ _ _
                (fun names => forallb is_array (Object_values names))
                Hres (keep_metrics_arrays callback m) e x Hin He) as Hx.
  apply read_entry_some in He as [_ He].
  eapply read_names_from; [exact He|exact Hx| |]; cbn [fst snd]; lia.
Qed.

End StoreLoops.

End StoreFacts.

(** ** Idempotence and freshness of the month filter *)

(** C3.  Filtering by year and month a second time has the outcome of the
    first time, and on a model of arrays that outcome is a model.  Run on
    a store that holds the model, the filter returns a root that did not
    exist before; it leaves every cell of the store with its content, so
    the input reads as before; and the result reads, from arrays and
    objects allocated by the call only, as the filtered model. *)
Theorem filter_year_month_idempotent_and_fresh
  (m : OptimizedMetrics) (y mo : Z) :
  wf_metrics m ->
  (r <- filterMetricsByYearMonth m y mo ;; filterMetricsByYearMonth r y mo)
    = filterMetricsByYearMonth m y mo /\
  (all_arrays m = true ->
   exists r,
     filterMetricsByYearMonth m y mo = Ok r /\
     filterMetricsByYearMonth r y mo = Ok r) /\
  (forall (s : Store.store) (root : nat) (r : OptimizedMetrics),
     Store.read_metrics (0, 0)%nat s root = Some m ->
     filterMetricsByYearMonth m y mo = Ok r ->
     exists s' root',
       Store.filterMetricsByYearMonth s root y mo = Ok (s', root') /\
       Store.preserved s s' /\
       Store.read_metrics (0, 0)%nat s' root = Some m /\
       (List.length (Store.objects s) <= root')%nat /\
       Store.read_metrics
         (List.length (Store.arrays s), List.length (Store.objects s))
         s' root' = Some r).
Proof.
  intros Hwf.
  assert (Hidem :
    (r <- filterMetricsByYearMonth m y mo ;; filterMetricsByYearMonth r y mo)
    = filterMetricsByYearMonth m y mo).
  { rewrite filterMetricsByYearMonth_loop.
    apply (filter_loop_twice (in_year_month y mo) (in_year_month y mo));
      auto. }
  split; [exact Hidem|]. split.
  - intros Harr.
    pose proof (filter_loop_keep (in_year_month y mo) m Hwf) as Hk.
    rewrite Harr in Hk. rewrite <- filterMetricsByYearMonth_loop in Hk.
    exists (keep_metrics (in_year_month y mo) m). split; [exact Hk|].
    rewrite Hk in Hidem. exact Hidem.
  - intros s root r Hread Hr.
    rewrite filterMetricsByYearMonth_loop, filter_loop_keep in Hr
      by assumption.
    destruct (all_arrays m) eqn:Harr; [|discriminate].
    injection Hr as <-.
    destruct (StoreFacts.store_filter_loop (in_year_month y mo) s root m
                Hread Hwf Harr) as (s' & Hrun & Hpres & Hres).
    exists s', (List.length (Store.objects s)).
    split; [exact Hrun|]. split; [exact Hpres|].
    split; [|split; [lia|exact Hres]].
    eapply StoreFacts.read_metrics_preserved; eauto.
Qed.

Lemma filter_year_month_idempotent_and_fresh_witness :
  wf_metrics scenario /\
  Store.read_metrics (0, 0)%nat Store.scenario_store 1 = Some scenario /\
  filterMetricsByYearMonth scenario 2022 2
    = Ok [("Transaction", [("X", TimeSeries [point 2022 2 20])])] /\
  (r <- filterMetricsByYearMonth scenario 2022 2 ;;
   filterMetricsByYearMonth r 2022 2)
    = filterMetricsByYearMonth scenario 2022 2 /\
  exists s' root',
    Store.filterMetricsByYearMonth Store.scenario_store 1 2022 2
      = Ok (s', root') /\
    Store.preserved Store.scenario_store s' /\
    Store.read_metrics (0, 0)%nat s' 1 = Some scenario /\
    (2 <= root')%nat /\
    Store.read_metrics (1, 2)%nat s' root'
      = Some [("Transaction", [("X", TimeSeries [point 2022 2 20])])].
Proof.
  pose proof (filter_year_month_idempotent_and_fresh scenario 2022 2
                scenario_wf) as (Hidem & _ & Hstore).
  split; [exact scenario_wf|]. split; [reflexivity|].
  split; [reflexivity|]. split; [exact Hidem|].
  exact (Hstore Store.scenario_store 1%nat _ eq_refl eq_refl).
Defined.

(** * Further properties of the loader module *)

(** ** Sorting a table by total *)



(** ** The flat table *)

Lemma series_total_reduce (monthlyData : Series) :
  match monthlyData with
  | TimeSeries a => reduce_counts a
  | MonthTotals o => reduce_values o
  | Scalar n => n
  | OtherShape => 0
  end = series_total monthlyData.
Proof.
  destruct monthlyData; cbn [series_total];
    [apply reduce_counts_sum|apply reduce_values_sum|reflexivity|reflexivity].
Qed.

Lemma flattened_rows (m : OptimizedMetrics) :
  flattenMetrics m
  = Array_sort
      (fun a b => MetricData.total_count b - MetricData.total_count a)
      (metric_rows m).
Proof.
  unfold flattenMetrics. f_equal.
  unfold Object_entries.
  assert (Hin : forall metric (names : Object Series) acc,
    fold_left
      (fun flattened '(name, monthlyData) =>
         let total_count :=
           match monthlyData with
           | TimeSeries a => reduce_counts a
           | MonthTotals o => reduce_values o
           | Scalar n => n
           | OtherShape => 0
           end in
         flattened ++
         [{| MetricData.Metric := metric;
             MetricData.Name := name;
             MetricData.total_count := total_count |}])
      names acc
    = acc ++
      map (fun '(name, monthlyData) =>
             {| MetricData.Metric := metric;
                MetricData.Name := name;
                MetricData.total_count := series_total monthlyData |})
        names).
  { intros metric names. induction names as [|[name s] names IH]; intros acc.
    - cbn. now rewrite List.app_nil_r.
    - cbn [fold_left map]. rewrite IH. cbv zeta.
      rewrite series_total_reduce, <- List.app_assoc. reflexivity. }
  assert (Hout : forall (m' : OptimizedMetrics) acc,
    fold_left
      (fun flattened '(metric, names) =>
         fold_left
           (fun flattened '(name, monthlyData) =>
              let total_count :=
                match monthlyData with
                | TimeSeries a => reduce_counts a
                | MonthTotals o => reduce_values o
                | Scalar n => n
                | OtherShape => 0
                end in
              flattened ++
              [{| MetricData.Metric := metric;
                  MetricData.Name := name;
                  MetricData.total_count := total_count |}])
           names flattened)
      m' acc
    = acc ++ metric_rows m').
  { intros m'. induction m' as [|[metric names] m' IH]; intros acc.
    - cbn. now rewrite List.app_nil_r.
    - cbn [fold_left metric_rows flat_map]. rewrite Hin, IH.
      now rewrite <- List.app_assoc. }
  exact (Hout m []).
Qed.

Lemma metric_rows_sum (m : OptimizedMetrics) :
  sum_list (map MetricData.total_count (metric_rows m))
  = sum_list (map names_total (Object_values m)).
Proof.
  induction m as [|[metric names] m IH]; [reflexivity|].
  cbn [metric_rows flat_map Object_values map].
  rewrite map_app, sum_list_app, sum_list_cons.
  unfold metric_rows in IH. rewrite IH. f_equal.
  unfold names_total, Object_values. rewrite !map_map.
  f_equal. apply map_ext. now intros [name s].
Qed.

(** On integers: the totals of the rows of the flat table add up to the
    record total of the model, whatever the encodings of its series. *)
Lemma flattened_totals_sum (m : OptimizedMetrics) :
  sum_list (map MetricData.total_count (flattenMetrics m))
  = calculateTotalRecords m.
Proof.
  rewrite flattened_rows, calculateTotalRecords_sum, <- metric_rows_sum.
  apply sum_list_perm, Permutation_map, Array_sort_perm.
Qed.


(** ** The summary table *)

Lemma Map_set_notin {V} (m : Map V) k v :
  ~ In k (map fst m) -> Map_set m k v = m ++ [(k, v)].
Proof. exact (Object_set_notin m k v). Qed.

(** A map filled from the entries of an object with unique names holds
    them in enumeration order. *)
Lemma fold_Map_set {V W} (keep : string -> bool) (f : V -> W)
  (o : Object V) (acc : Map W) :
  NoDup (map fst acc ++ Object_keys o) ->
  fold_left
    (fun summaries '(k, v) =>
       if keep k then Map_set summaries k (f v) else summaries)
    o acc
  = acc ++ map (fun e => (fst e, f (snd e)))
             (List.filter (fun e => keep (fst e)) o).
Proof.
  revert acc. induction o as [|[k v] o IH]; intros acc Hnd.
  - cbn. now rewrite List.app_nil_r.
  - cbn [fold_left List.filter fst snd].
    assert (Hk : ~ In k (map fst acc)).
    { cbn in Hnd. apply NoDup_remove_2 in Hnd.
      intros Hin. apply Hnd, in_or_app. now left. }
    assert (Hrest : NoDup (map fst acc ++ Object_keys o)).
    { cbn in Hnd. now apply NoDup_remove_1 in Hnd. }
    destruct (keep k).
    + rewrite Map_set_notin by assumption.
      rewrite IH.
      * cbn [map fst snd]. now rewrite <- List.app_assoc.
      * rewrite map_app. cbn [map fst]. rewrite <- List.app_assoc.
        cbn [List.app]. exact Hnd.
    + now apply IH.
Qed.

Lemma metric_total_fold (names : Object Series) :
  fold_left
    (fun metricTotal monthlyData =>
       match monthlyData with
       | TimeSeries a => metricTotal + reduce_counts a
       | MonthTotals o => metricTotal + reduce_values o
       | Scalar n => metricTotal + n
       | OtherShape => metricTotal
       end)
    (Object_values names) 0
  = names_total names.
Proof. now rewrite fold_series_total. Qed.

Lemma summaries_rows (m : OptimizedMetrics) :
  unique_keys m ->
  calculateMetricSummaries m
  = Array_sort
      (fun a b => MetricSummary.total_count b - MetricSummary.total_count a)
      (metric_summaries m).
Proof.
  intros Hu. unfold calculateMetricSummaries, Map_entries, Object_entries.
  f_equal.
  pose proof (fold_Map_set (fun _ => true) names_total m [] Hu) as Hfold.
  cbn [List.app] in Hfold. rewrite filter_true in Hfold.
  assert (Hstep :
    forall (l : OptimizedMetrics) acc,
    fold_left
      (fun summaries '(metric, names) =>
         let metricTotal :=
           fold_left
             (fun metricTotal monthlyData =>
                match monthlyData with
                | TimeSeries a => metricTotal + reduce_counts a
                | MonthTotals o => metricTotal + reduce_values o
                | Scalar n => metricTotal + n
                | OtherShape => metricTotal
                end)
             (Object_values names) 0 in
         Map_set summaries metric metricTotal)
      l acc
    = fold_left
        (fun summaries '(k, v) =>
           if true then Map_set summaries k (names_total v) else summaries)
        l acc).
  { induction l as [|[metric names] l IH]; intros acc; [reflexivity|].
    cbn [fold_left]. cbv zeta. rewrite metric_total_fold. apply IH. }
  rewrite Hstep, Hfold. clear Hstep Hfold.
  pose proof (metric_totals_of_keys m Hu) as Heq.
  unfold metric_summaries.
  assert (Hgen : forall (g : string -> Z) (l : OptimizedMetrics),
    map g (Object_keys l) = map names_total (Object_values l) ->
    map (fun '(Metric, total_count) =>
           {| MetricSummary.Metric := Metric;
              MetricSummary.total_count := total_count |})
      (map (fun e => (fst e, names_total (snd e))) l)
    = map (fun metric =>
             {| MetricSummary.Metric := metric;
                MetricSummary.total_count := g metric |})
        (Object_keys l)).
  { intros g l. induction l as [|[metric names] l IH]; [reflexivity|].
    cbn [map fst snd Object_keys Object_values]. intros Hg.
    injection Hg as H1 H2. rewrite H1. f_equal. now apply IH. }
  exact (Hgen _ m Heq).
Qed.

Lemma mixed_model_unique : unique_keys mixed_model.
Proof.
  unfold unique_keys. simpl.
  repeat (apply NoDup_cons; [simpl; intuition discriminate|]).
  apply NoDup_nil.
Qed.

(** On integers: the totals of the rows of the summary table add up to
    the record total. *)
Lemma summaries_totals_sum (m : OptimizedMetrics) :
  unique_keys m ->
  sum_list (map MetricSummary.total_count (calculateMetricSummaries m))
  = calculateTotalRecords m.
Proof.
  intros Hu. rewrite (summaries_rows m Hu).
  rewrite (sum_list_perm _ _
             (Permutation_map _ (Array_sort_perm _ (metric_summaries m)))).
  unfold metric_summaries. rewrite map_map. cbn [MetricSummary.total_count].
  rewrite (metric_totals_of_keys m Hu). symmetry.
  apply calculateTotalRecords_sum.
Qed.



(** ** The summary cards *)

Lemma In_Object_get {V} (o : Object V) k v :
  unique_keys o -> (In (k, v) o <-> Object_get o k = Some v).
Proof.
  unfold unique_keys, Object_keys.
  induction o as [|[k' v'] o IH]; intros Hu.
  - cbn. split; [contradiction|discriminate].
  - cbn [Object_get In]. cbn in Hu. inversion Hu as [|? ? Hk Hu']; subst.
    destruct (String.eqb_spec k' k) as [->|Hne].
    + split.
      * intros [Heq|Hin]; [now injection Heq as ->|].
        exfalso. apply Hk. apply (in_map fst) in Hin. exact Hin.
      * intros Heq. left. now injection Heq as ->.
    + rewrite <- (IH Hu'). split.
      * intros [Heq|Hin]; [|exact Hin].
        injection Heq as Hk' _. contradiction.
      * now right.
Qed.

Lemma NoDup_entries {K V} (l : list (K * V)) :
  NoDup (map fst l) -> NoDup l.
Proof.
  induction l as [|[k v] l IH]; intros H; [constructor|].
  cbn in H. inversion H as [|? ? Hk H']; subst.
  constructor; [|now apply IH].
  intros Hin. apply Hk. apply (in_map fst) in Hin. exact Hin.
Qed.

(** The entries of an object under the names of a list are those that
    looking up each name finds. *)
Lemma filter_keys_perm {V} (o : Object V) (ks : list string) :
  unique_keys o -> NoDup ks ->
  Permutation
    (List.filter (fun e => existsb (String.eqb (fst e)) ks) o)
    (flat_map
       (fun k =>
          match Object_get o k with
          | Some v => [(k, v)]
          | None => []
          end)
       ks).
Proof.
  intros Hu Hks.
  apply NoDup_Permutation.
  - apply NoDup_filter, NoDup_entries, Hu.
  - clear Hu. induction ks as [|k ks IH]; [constructor|].
    inversion Hks as [|? ? Hk Hks']; subst.
    cbn [flat_map]. destruct (Object_get o k) as [v|]; [|now apply IH].
    cbn [List.app]. constructor; [|now apply IH].
    intros Hin. apply in_flat_map in Hin as (k' & Hk' & Hin).
    destruct (Object_get o k') as [v'|]; [|contradiction].
    destruct Hin as [Heq|[]]. injection Heq as -> _. contradiction.
  - intros [k v]. rewrite filter_In, in_flat_map. cbn [fst]. split.
    + intros [Hin Hex]. exists k. split.
      * apply existsb_exists in Hex as (k' & Hk' & Heq).
        apply String.eqb_eq in Heq. now subst.
      * apply (In_Object_get o k v Hu) in Hin. rewrite Hin. now left.
    + intros (k' & Hk' & Hin).
      destruct (Object_get o k') as [v'|] eqn:Hget; [|contradiction].
      destruct Hin as [Heq|[]]. injection Heq as -> ->.
      split; [now apply (In_Object_get o k v Hu)|].
      apply existsb_exists. exists k. split; [exact Hk'|].
      apply String.eqb_refl.
Qed.

Lemma indexOf_from_range (i : Z) (array : list string) (x : string) :
  indexOf_from i array x = -1 \/
  i <= indexOf_from i array x < i + Z.of_nat (List.length array).
Proof.
  revert i. induction array as [|y array IH]; intros i; [now left|].
  cbn [indexOf_from List.length]. destruct (String.eqb y x).
  - right. lia.
  - destruct (IH (i + 1)) as [H|H]; [now left|right; lia].
Qed.

(** The comparator of the cards orders them by their place in the display
    order. *)
Lemma compare_cards_rank (a b : FilteredSummary.t) :
  (let indexA :=
     Array_indexOf
       ["Vehicles Registered"; "Number of Transactions";
        "Revenue Collection (Tax)"; "Revenue Collection (Fees)"]
       (FilteredSummary.Metric a) in
   let indexB :=
     Array_indexOf
       ["Vehicles Registered"; "Number of Transactions";
        "Revenue Collection (Tax)"; "Revenue Collection (Fees)"]
       (FilteredSummary.Metric b) in
   if negb (indexA =? -1) && negb (indexB =? -1) then indexA - indexB
   else if negb (indexA =? -1) then -1
   else if negb (indexB =? -1) then 1
   else 0) <= 0
  <-> display_rank a <= display_rank b.
Proof.
  cbv zeta. unfold display_rank, Array_indexOf.
  match goal with
  | |- context [indexOf_from 0 ?l (FilteredSummary.Metric a)] =>
      pose proof (indexOf_from_range 0 l (FilteredSummary.Metric a)) as Ha;
      pose proof (indexOf_from_range 0 l (FilteredSummary.Metric b)) as Hb;
      cbn [List.length] in Ha, Hb;
      destruct (Z.eqb_spec (indexOf_from 0 l (FilteredSummary.Metric a)) (-1));
      destruct (Z.eqb_spec (indexOf_from 0 l (FilteredSummary.Metric b)) (-1))
  end; cbn [negb andb]; lia.
Qed.

Lemma strictly_sorted_injective {A} (rank : A -> Z) (l : list A) :
  StronglySorted (fun a b => rank a < rank b) l ->
  forall a b, In a l -> In b l -> rank a = rank b -> a = b.
Proof.
  induction 1 as [|x l Hs IH Hx]; intros a b Ha Hb Heq; [contradiction|].
  rewrite Forall_forall in Hx.
  destruct Ha as [<-|Ha], Hb as [<-|Hb].
  - reflexivity.
  - specialize (Hx _ Hb). lia.
  - specialize (Hx _ Ha). lia.
  - now apply IH.
Qed.

(** Cards that stand in the display order are what the sort returns, in
    whatever order they were before. *)
Lemma sort_cards (compareFn : FilteredSummary.t -> FilteredSummary.t -> Z)
  (l cards : list FilteredSummary.t) :
  (forall a b, compareFn a b <= 0 <-> display_rank a <= display_rank b) ->
  Permutation l cards ->
  StronglySorted (fun a b => display_rank a < display_rank b) cards ->
  Array_sort compareFn l = cards.
Proof.
  intros Hcmp Hperm Hsorted.
  apply (sorted_perm_unique (fun a b => compareFn a b <= 0)).
  - intros a b Ha Hb Hab Hba.
    apply (strictly_sorted_injective display_rank cards Hsorted).
    + eapply Permutation_in; [|exact Ha].
      eapply Permutation_trans; [apply Array_sort_perm|exact Hperm].
    + eapply Permutation_in; [|exact Hb].
      eapply Permutation_trans; [apply Array_sort_perm|exact Hperm].
    + apply Hcmp in Hab, Hba. lia.
  - apply Array_sort_sorted.
    + intros a b. rewrite !Hcmp. lia.
    + intros a b c. rewrite !Hcmp. lia.
  - apply (StronglySorted_impl
             (fun a b => display_rank a < display_rank b));
      [|exact Hsorted].
    intros a b Hlt. apply Hcmp. lia.
  - eapply Permutation_trans; [apply Array_sort_perm|exact Hperm].
Qed.

Lemma totals_fold (keep : string -> bool) (l : OptimizedMetrics)
  (acc : Map Z) :
  fold_left
    (fun summaries '(metric, names) =>
       if keep metric then
         let metricTotal :=
           fold_left
             (fun metricTotal monthlyData =>
                match monthlyData with
                | TimeSeries a => metricTotal + reduce_counts a
                | MonthTotals o => metricTotal + reduce_values o
                | Scalar n => metricTotal + n
                | OtherShape => metricTotal
                end)
             (Object_values names) 0 in
         Map_set summaries metric metricTotal
       else summaries)
    l acc
  = fold_left
      (fun summaries '(k, v) =>
         if keep k then Map_set summaries k (names_total v) else summaries)
      l acc.
Proof.
  revert acc. induction l as [|[metric names] l IH]; intros acc;
    [reflexivity|].
  cbn [fold_left]. cbv zeta. rewrite metric_total_fold. apply IH.
Qed.

Lemma Permutation_display_order {A} (tax fee transaction vehicles : list A) :
  Permutation (tax ++ fee ++ transaction ++ vehicles ++ [])
    (vehicles ++ transaction ++ tax ++ fee).
Proof.
  rewrite List.app_nil_r.
  rewrite (List.app_assoc tax fee (transaction ++ vehicles)).
  rewrite (List.app_assoc vehicles transaction (tax ++ fee)).
  eapply Permutation_trans; [apply Permutation_app_comm|].
  apply Permutation_app_tail, Permutation_app_comm.
Qed.

Section SummaryFacts.

Variable shortest_decimal : spec_float -> string.

(** X4.  The summary cards are those of the four metrics "Vehicle
    Manufacturer", "Transaction", "Revenue (Tax)" and "Revenue (Fee)" that
    the model has, in this order, each under its display title, with the
    total of the metric over all names, written as an amount of money for
    the two revenues and as a count for the others.  Every other metric
    of the model is left out. *)
Theorem getFilteredMetricSummaries_cards (m : OptimizedMetrics) :
  unique_keys m ->
  getFilteredMetricSummaries shortest_decimal m
  = summary_card shortest_decimal m
      "Vehicle Manufacturer" "Vehicles Registered" false ++
    summary_card shortest_decimal m
      "Transaction" "Number of Transactions" false ++
    summary_card shortest_decimal m
      "Revenue (Tax)" "Revenue Collection (Tax)" true ++
    summary_card shortest_decimal m
      "Revenue (Fee)" "Revenue Collection (Fees)" true.
Proof.
  intros Hu. unfold getFilteredMetricSummaries. cbv zeta.
  unfold Object_entries, Map_entries.
  rewrite totals_fold, fold_Map_set by exact Hu.
  cbn [List.app]. rewrite map_map.
  apply sort_cards.
  - intros a b. apply compare_cards_rank.
  - eapply Permutation_trans.
    + apply Permutation_map.
      apply (filter_keys_perm m
               ["Revenue (Tax)"; "Revenue (Fee)"; "Transaction";
                "Vehicle Manufacturer"] Hu).
      repeat (apply NoDup_cons; [simpl; intuition discriminate|]).
      apply NoDup_nil.
    + cbn [flat_map]. rewrite !map_app. cbn [map].
      eapply Permutation_trans; [apply Permutation_display_order|].
      unfold summary_card. rewrite !calculateTotalsByMetric_all.
      destruct (Object_get m "Vehicle Manufacturer");
        destruct (Object_get m "Transaction");
        destruct (Object_get m "Revenue (Tax)");
        destruct (Object_get m "Revenue (Fee)");
        apply Permutation_refl.
  - unfold summary_card.
    destruct (Object_get m "Vehicle Manufacturer");
      destruct (Object_get m "Transaction");
      destruct (Object_get m "Revenue (Tax)");
      destruct (Object_get m "Revenue (Fee)");
      cbn [List.app];
      repeat first
        [ apply SSorted_nil
        | apply SSorted_cons
        | apply Forall_nil
        | apply Forall_cons ];
      unfold display_rank; cbn [FilteredSummary.Metric];
      vm_compute; reflexivity.
Qed.

End SummaryFacts.

Lemma getFilteredMetricSummaries_cards_witness :
  unique_keys mixed_model /\
  getFilteredMetricSummaries (fun _ => "") mixed_model
  = [{| FilteredSummary.Metric := "Number of Transactions";
        FilteredSummary.total_count := 47;
        FilteredSummary.formatted_value := "47" |};
     {| FilteredSummary.Metric := "Revenue Collection (Tax)";
        FilteredSummary.total_count := 1000;
        FilteredSummary.formatted_value := "₹1.0K" |}].
Proof.
  split; [exact mixed_model_unique|].
  rewrite (getFilteredMetricSummaries_cards (fun _ => "") mixed_model
             mixed_model_unique).
  reflexivity.
Defined.

(** ** Totals of a metric and of its names *)

Lemma Object_get_map {V W} (f : V -> W) (o : Object V) k :
  Object_get (map (fun e => (fst e, f (snd e))) o) k
  = option_map f (Object_get o k).
Proof.
  induction o as [|[k' v] o IH]; [reflexivity|].
  cbn [map Object_get fst snd]. destruct (String.eqb k' k); [reflexivity|].
  exact IH.
Qed.

(** X5.  The total of a child summary is the total the model of bare
    numbers has: [calculateTotalsByMetricSimple] and
    [calculateTotalsByMetric] agree for every metric and every choice of
    name. *)
Theorem calculateTotalsByMetricSimple_agrees
  (simpleMetrics : SimpleMetrics) (metric : string) (name : option string) :
  calculateTotalsByMetricSimple simpleMetrics metric name
  = calculateTotalsByMetric (scalar_metrics simpleMetrics) metric name.
Proof.
  unfold calculateTotalsByMetricSimple, calculateTotalsByMetric,
    scalar_metrics.
  assert (Hmap :
    map (fun '(metric, names) =>
           (metric,
            map (fun '(name, count) => (name, Scalar count)) names))
      simpleMetrics
    = map (fun e =>
             (fst e,
              map (fun '(name, count) => (name, Scalar count))
                (snd e : Object Z)))
        simpleMetrics).
  { apply map_ext. now intros [k v]. }
  rewrite Hmap, Object_get_map.
  destruct (Object_get simpleMetrics metric) as [names|]; [|reflexivity].
  cbn [option_map]. unfold Object_entries.
  assert (Hfold : forall (l : Object Z) (total : Z),
    fold_left
      (fun total '(currentName, count) =>
         if not_given name || same_name currentName name
         then total + count
         else total)
      l total
    = fold_left
        (fun total '(currentName, monthlyData) =>
           if not_given name || same_name currentName name then
             match monthlyData with
             | TimeSeries a => total + reduce_counts a
             | MonthTotals o => total + reduce_values o
             | Scalar n => total + n
             | OtherShape => total
             end
           else total)
        (map (fun '(name, count) => (name, Scalar count)) l) total).
  { induction l as [|[currentName count] l IH]; intros total;
      [reflexivity|].
    cbn [fold_left map].
    destruct (not_given name || same_name currentName name); apply IH. }
  apply Hfold.
Qed.

Lemma filter_selected_none (names : Object Series) (name : string) :
  ~ In name (Object_keys names) ->
  List.filter (fun e => String.eqb (fst e) name) names = [].
Proof.
  induction names as [|[k s] names IH]; intros Hnot; [reflexivity|].
  cbn [List.filter fst]. cbn in Hnot.
  destruct (String.eqb_spec k name) as [->|Hne].
  - exfalso. apply Hnot. now left.
  - apply IH. intros Hin. apply Hnot. now right.
Qed.

Lemma filter_selected_name (names : Object Series) (name : string) :
  unique_keys names ->
  List.filter (fun e => String.eqb (fst e) name) names
  = match Object_get names name with
    | Some s => [(name, s)]
    | None => []
    end.
Proof.
  unfold unique_keys, Object_keys.
  induction names as [|[k s] names IH]; intros Hu; [reflexivity|].
  cbn in Hu. inversion Hu as [|? ? Hk Hu']; subst.
  cbn [List.filter Object_get fst].
  destruct (String.eqb_spec k name) as [->|Hne].
  - now rewrite filter_selected_none.
  - now apply IH.
Qed.

Lemma selected_some (name currentName : string) :
  selected (Some name) currentName
  = if String.eqb name "" then true else String.eqb currentName name.
Proof.
  unfold selected, not_given, same_name.
  now destruct (String.eqb name "").
Qed.

Lemma calculateTotalsByMetric_name (m : OptimizedMetrics)
  (metric name : string) (names : Object Series) :
  Object_get m metric = Some names ->
  unique_keys names ->
  calculateTotalsByMetric m metric (Some name)
  = if String.eqb name "" then names_total names
    else match Object_get names name with
         | Some monthlyData => series_total monthlyData
         | None => 0
         end.
Proof.
  intros Hget Hu. rewrite calculateTotalsByMetric_selected, Hget.
  destruct (String.eqb name "") eqn:Hempty.
  - rewrite (filter_ext _ (fun _ => true)), filter_true.
    + unfold names_total, Object_values. now rewrite map_map.
    + intros e. now rewrite selected_some, Hempty.
  - rewrite (filter_ext _ (fun e => String.eqb (fst e) name)).
    + rewrite (filter_selected_name names name Hu).
      destruct (Object_get names name); cbn; lia.
    + intros e. now rewrite selected_some, Hempty.
Qed.

(** X6.  With a name, the total of a metric is the count that the series
    of this name stands for, and 0 if the metric has no such name; the
    empty string is no name, and selects all the names of the metric. *)
Theorem calculateTotalsByMetric_of_name (m : OptimizedMetrics)
  (metric name : string) (names : Object Series) :
  Object_get m metric = Some names ->
  unique_keys names ->
  calculateTotalsByMetric m metric (Some name)
  = if String.eqb name "" then calculateTotalsByMetric m metric None
    else match Object_get names name with
         | Some monthlyData => series_total monthlyData
         | None => 0
         end.
Proof.
  intros Hget Hu.
  rewrite (calculateTotalsByMetric_name m metric name names Hget Hu).
  now rewrite calculateTotalsByMetric_all, Hget.
Qed.

Lemma calculateTotalsByMetric_of_name_witness :
  Object_get mixed_model "Transaction"
  = Some [("X", TimeSeries [point 2022 1 10; point 2022 2 20;
                            point 2023 1 5]);
          ("Y", Scalar 5);
          ("Z", MonthTotals [("2022-1", 3); ("2022-2", 4)])] /\
  calculateTotalsByMetric mixed_model "Transaction" (Some "Z") = 7 /\
  calculateTotalsByMetric mixed_model "Transaction" (Some "W") = 0 /\
  calculateTotalsByMetric mixed_model "Transaction" (Some "") = 47.
Proof.
  assert (Hu : unique_keys
    [("X", TimeSeries [point 2022 1 10; point 2022 2 20; point 2023 1 5]);
     ("Y", Scalar 5);
     ("Z", MonthTotals [("2022-1", 3); ("2022-2", 4)])]).
  { unfold unique_keys. simpl.
    repeat (apply NoDup_cons; [simpl; intuition discriminate|]).
    apply NoDup_nil. }
  split; [reflexivity|]. split; [|split].
  - now rewrite (calculateTotalsByMetric_of_name mixed_model
                   "Transaction" "Z" _ eq_refl Hu).
  - now rewrite (calculateTotalsByMetric_of_name mixed_model
                   "Transaction" "W" _ eq_refl Hu).
  - now rewrite (calculateTotalsByMetric_of_name mixed_model
                   "Transaction" "" _ eq_refl Hu).
Defined.

(** On integers: the totals of the names of a metric add up to the total
    of the metric, when no name is the empty string. *)
Lemma name_totals_sum (m : OptimizedMetrics)
  (metric : string) (names : Object Series) :
  Object_get m metric = Some names ->
  unique_keys names ->
  ~ In "" (Object_keys names) ->
  sum_list
    (map (fun name => calculateTotalsByMetric m metric (Some name))
       (Object_keys names))
  = calculateTotalsByMetric m metric None.
Proof.
  intros Hget Hu Hne.
  rewrite calculateTotalsByMetric_all, Hget.
  assert (Heach : forall name, In name (Object_keys names) ->
    calculateTotalsByMetric m metric (Some name)
    = match Object_get names name with
      | Some monthlyData => series_total monthlyData
      | None => 0
      end).
  { intros name Hin.
    rewrite (calculateTotalsByMetric_name m metric name names Hget Hu).
    destruct (String.eqb_spec name "") as [->|_]; [contradiction|].
    reflexivity. }
  rewrite (map_ext_in _ _ _ Heach). clear Heach Hget Hne.
  unfold names_total, Object_values, Object_keys, unique_keys in *.
  induction names as [|[k s] names IH]; [reflexivity|].
  cbn in Hu. inversion Hu as [|? ? Hk Hu']; subst.
  cbn [map fst snd Object_get]. rewrite String_eqb_refl', !sum_list_cons.
  f_equal. rewrite <- (IH Hu'). f_equal.
  apply map_ext_in. intros name Hin.
  destruct (String.eqb_spec k name) as [->|_]; [contradiction|reflexivity].
Qed.

(** ** Monthly trends of a metric *)

Lemma total_count_of_entry (e : string * Z) :
  total_count (trend_of_entry e) = snd e.
Proof. now destruct e. Qed.

Lemma trend_entries_total (trendsMap : Map Z) :
  sum_list (map total_count (map trend_of_entry trendsMap))
  = sum_list (map snd trendsMap).
Proof.
  rewrite map_map. f_equal. apply map_ext, total_count_of_entry.
Qed.

Lemma trends_total (points : list MonthlyDataPoint) :
  sum_list (map snd (fold_left add_to_trends points []))
  = sum_list (map count points).
Proof.
  pose proof (trends_sum (fun _ => true) points []) as H.
  unfold sum_where in H. rewrite !filter_true in H. exact H.
Qed.

Lemma all_arrays_get (m : OptimizedMetrics) metric names :
  all_arrays m = true -> Object_get m metric = Some names ->
  forallb is_array (Object_values names) = true.
Proof.
  unfold all_arrays, Object_values.
  induction m as [|[k v] m IH]; [discriminate|].
  cbn [map snd forallb Object_get]. intros Hall Hget.
  apply andb_true_iff in Hall as [Hv Hall].
  destruct (String.eqb k metric).
  - injection Hget as <-. exact Hv.
  - now apply IH.
Qed.

Lemma selected_total_points (name : option string)
  (names : Object Series) :
  forallb is_array (Object_values names) = true ->
  sum_list
    (map (fun e => series_total (snd e))
       (List.filter (fun e => selected name (fst e)) names))
  = sum_list (map count (selected_points name names)).
Proof.
  unfold Object_values.
  induction names as [|[k s] names IH]; [reflexivity|].
  cbn [map snd forallb List.filter fst selected_points flat_map].
  intros Hall. apply andb_true_iff in Hall as [Hs Hall].
  rewrite map_app, sum_list_app.
  fold (selected_points name names). rewrite <- (IH Hall).
  destruct (selected name k).
  - cbn [map snd]. rewrite sum_list_cons. f_equal.
    destruct s; try discriminate. reflexivity.
  - reflexivity.
Qed.

Lemma trends_sum_points (m : OptimizedMetrics) metric name :
  sum_list (map total_count (getMonthlyTrendsByMetric m metric name))
  = sum_list (map count (metric_points m metric name)).
Proof.
  rewrite getMonthlyTrendsByMetric_points. unfold metric_points.
  destruct (Object_get m metric) as [names|]; [|reflexivity].
  rewrite (sum_list_perm _ _
             (Permutation_map total_count (Array_sort_perm _ _))).
  now rewrite trend_entries_total, trends_total.
Qed.

(** On integers: on a model of arrays the totals of the monthly trends
    of a metric add up to the total of the metric, for every choice of
    name. *)
Lemma trend_totals_sum (m : OptimizedMetrics) (metric : string)
  (name : option string) :
  all_arrays m = true ->
  sum_list (map total_count (getMonthlyTrendsByMetric m metric name))
  = calculateTotalsByMetric m metric name.
Proof.
  intros Harr.
  rewrite trends_sum_points, calculateTotalsByMetric_selected.
  unfold metric_points.
  destruct (Object_get m metric) as [names|] eqn:Hget; [|reflexivity].
  symmetry. apply selected_total_points.
  now apply (all_arrays_get m metric).
Qed.

Lemma trends_keys_complete points (trendsMap : Map Z) k :
  In k (map fst trendsMap) \/ (exists p, In p points /\ k = trend_key p) ->
  In k (map fst (fold_left add_to_trends points trendsMap)).
Proof.
  revert trendsMap. induction points as [|p points IH]; intros tm; simpl.
  - intros [H|(q & [] & _)]. exact H.
  - intros H. apply IH. destruct H as [H|(q & [<-|Hq] & ->)].
    + left. unfold add_to_trends. apply Map_set_keys. now left.
    + left. unfold add_to_trends. apply Map_set_keys. now right.
    + right. exists q. now split.
Qed.

Lemma sum_where_key (trendsMap : Map Z) k v :
  NoDup (map fst trendsMap) -> In (k, v) trendsMap ->
  sum_where (String.eqb k) trendsMap = v.
Proof.
  unfold sum_where.
  induction trendsMap as [|[k0 v0] tm IH]; [contradiction|].
  cbn [map fst]. intros Hnd Hin.
  inversion Hnd as [|? ? Hk Hnd']; subst.
  cbn [List.filter fst].
  destruct Hin as [Heq|Hin].
  - injection Heq as -> ->. rewrite String_eqb_refl'.
    cbn [map snd]. rewrite sum_list_cons.
    assert (Hnone : List.filter (fun e => String.eqb k (fst e)) tm = []).
    { clear IH Hnd Hnd'. induction tm as [|[k1 v1] tm IH]; [reflexivity|].
      cbn [List.filter fst]. cbn in Hk.
      destruct (String.eqb_spec k k1) as [->|_].
      - exfalso. apply Hk. now left.
      - apply IH. intros Hin. apply Hk. now right. }
    rewrite Hnone. cbn. lia.
  - destruct (String.eqb_spec k k0) as [->|_].
    + exfalso. apply Hk. apply (in_map fst) in Hin. exact Hin.
    + now apply IH.
Qed.

Lemma trend_key_injective (p q : MonthlyDataPoint) :
  0 <= year p -> 0 <= month p -> 0 <= year q -> 0 <= month q ->
  trend_key p = trend_key q -> year p = year q /\ month p = month q.
Proof.
  intros Hyp Hmp Hyq Hmq Heq.
  split.
  - rewrite <- (trend_key_year p 0 Hyp), <- (trend_key_year q 0 Hyq).
    now rewrite Heq.
  - rewrite <- (trend_key_month p 0 Hyp Hmp),
      <- (trend_key_month q 0 Hyq Hmq).
    now rewrite Heq.
Qed.

Lemma trend_of_key (p : MonthlyDataPoint) (v : Z) :
  0 <= year p -> 0 <= month p ->
  trend_of_entry (trend_key p, v)
  = {| trend_year := year p; trend_month := month p; total_count := v |}.
Proof.
  intros Hy Hm.
  pose proof (trend_key_year p v Hy) as H1.
  pose proof (trend_key_month p v Hy Hm) as H2.
  pose proof (total_count_of_entry (trend_key p, v)) as H3.
  destruct (trend_of_entry (trend_key p, v)) as [ty tm tc].
  cbn in H1, H2, H3. now subst.
Qed.

(** The entries of a trend map, for points of unsigned dates. *)
Lemma trend_map_entries (points : list MonthlyDataPoint) (t : MonthlyTrend) :
  unsigned_dates points ->
  (In t (map trend_of_entry (fold_left add_to_trends points []))
   <->
   exists p,
     In p points /\
     trend_year t = year p /\ trend_month t = month p /\
     total_count t
     = sum_list
         (map count
            (List.filter (in_year_month (year p) (month p)) points))).
Proof.
  intros Hpos. unfold unsigned_dates in Hpos. rewrite Forall_forall in Hpos.
  assert (Hvalue : forall p v,
    In p points ->
    In (trend_key p, v) (fold_left add_to_trends points []) ->
    v = sum_list
          (map count
             (List.filter (in_year_month (year p) (month p)) points))).
  { intros p v Hp Hin.
    rewrite <- (sum_where_key _ _ _ (trends_unique points [] (NoDup_nil _))
                  Hin).
    rewrite trends_sum. unfold sum_where. cbn [List.filter map sum_list].
    rewrite Z.add_0_l. f_equal. f_equal.
    apply filter_ext_in. intros q Hq.
    destruct (Hpos _ Hp) as [Hyp Hmp], (Hpos _ Hq) as [Hyq Hmq].
    unfold in_year_month.
    destruct (String.eqb_spec (trend_key p) (trend_key q)) as [Heq|Hne].
    - apply trend_key_injective in Heq as [-> ->]; try assumption.
      now rewrite !Z.eqb_refl.
    - destruct (Z.eqb_spec (year q) (year p)) as [Hy|Hy];
        destruct (Z.eqb_spec (month q) (month p)) as [Hm|Hm];
        try reflexivity.
      exfalso. apply Hne. now apply trend_key_dates. }
  split.
  - intros Hin. apply in_map_iff in Hin as ([k v] & <- & Hin).
    destruct (trends_keys points [] k) as [[]|(p & Hp & ->)].
    { change k with (fst (k, v)). now apply in_map. }
    destruct (Hpos _ Hp) as [Hy Hm].
    exists p. rewrite (trend_of_key p v Hy Hm). cbn.
    split; [exact Hp|]. split; [reflexivity|]. split; [reflexivity|].
    now apply Hvalue.
  - intros (p & Hp & Hy & Hm & Hc).
    destruct (Hpos _ Hp) as [Hyp Hmp].
    assert (Hkey : In (trend_key p)
                     (map fst (fold_left add_to_trends points []))).
    { apply trends_keys_complete. right. now exists p. }
    apply in_map_iff in Hkey as ([k v] & Hk & Hin). cbn in Hk. subst k.
    apply in_map_iff. exists (trend_key p, v). split; [|exact Hin].
    rewrite (trend_of_key p v Hyp Hmp).
    rewrite (Hvalue p v Hp Hin).
    destruct t as [ty tm tc]. cbn in Hy, Hm, Hc. now subst.
Qed.

(** X9.  The monthly trends of a metric hold an entry for a month exactly
    when a selected point lies in that month, and the entry carries the
    sum of the counts of the selected points of the month; this for
    points whose years and months are not negative. *)
Theorem monthly_trends_entries (m : OptimizedMetrics) (metric : string)
  (name : option string) (t : MonthlyTrend) :
  unsigned_dates (metric_points m metric name) ->
  (In t (getMonthlyTrendsByMetric m metric name)
   <->
   exists p,
     In p (metric_points m metric name) /\
     trend_year t = year p /\ trend_month t = month p /\
     total_count t
     = sum_list
         (map count
            (List.filter (in_year_month (year p) (month p))
               (metric_points m metric name)))).
Proof.
  intros Hpos.
  rewrite <- (trend_map_entries _ t Hpos).
  rewrite getMonthlyTrendsByMetric_points. unfold metric_points.
  destruct (Object_get m metric).
  - split; apply Permutation_in;
      [apply Array_sort_perm|apply Permutation_sym, Array_sort_perm].
  - reflexivity.
Qed.

Lemma monthly_trends_entries_witness :
  let m := [("Transaction",
             [("X", TimeSeries [point 2022 1 10; point 2022 2 20;
                                point 2023 1 5]);
              ("Y", TimeSeries [point 2022 2 7])])] in
  unsigned_dates (metric_points m "Transaction" None) /\
  In {| trend_year := 2022; trend_month := 2; total_count := 27 |}
    (getMonthlyTrendsByMetric m "Transaction" None).
Proof.
  intros m.
  assert (H : unsigned_dates (metric_points m "Transaction" None)).
  { repeat constructor; simpl; lia. }
  split; [exact H|].
  apply (proj2 (monthly_trends_entries m "Transaction" None _ H)).
  exists (point 2022 2 20). split; [simpl; tauto|].
  repeat split.
Defined.

(** ** The filters *)

Lemma forallb_filter {A} (f : A -> bool) (l : list A) :
  forallb f (List.filter f l) = true.
Proof.
  induction l as [|x l IH]; [reflexivity|].
  cbn [List.filter]. destruct (f x) eqn:Hf; [|exact IH].
  cbn [forallb]. now rewrite Hf.
Qed.

Lemma keep_names_filtered callback (names : Object Series) name monthlyData :
  In (name, monthlyData) (keep_names callback names) ->
  exists a,
    monthlyData = TimeSeries a /\ a <> [] /\ forallb callback a = true.
Proof.
  unfold keep_names. intros Hin.
  apply in_flat_map in Hin as ([name' s] & _ & Hin).
  destruct s as [a| | |]; try contradiction.
  destruct (List.filter callback a) as [|p kept] eqn:Hkept; [contradiction|].
  destruct Hin as [Heq|[]]. injection Heq as _ <-.
  exists (p :: kept). split; [reflexivity|]. split; [discriminate|].
  rewrite <- Hkept. apply forallb_filter.
Qed.

Lemma keep_metrics_filtered callback (m : OptimizedMetrics) :
  filtered_model callback (keep_metrics callback m).
Proof.
  intros metric names Hin. unfold keep_metrics in Hin.
  apply in_flat_map in Hin as ([metric' names'] & _ & Hin).
  destruct (keep_names callback names') as [|e inner] eqn:Hkeep;
    [contradiction|].
  destruct Hin as [Heq|[]]. injection Heq as _ <-.
  split; [discriminate|].
  intros name monthlyData Hin. rewrite <- Hkeep in Hin.
  now apply (keep_names_filtered callback names' name).
Qed.

Lemma filtered_model_tail callback e (r : OptimizedMetrics) :
  filtered_model callback (e :: r) -> filtered_model callback r.
Proof. intros H metric names Hin. apply (H metric names). now right. Qed.

Lemma filter_all {A} (f : A -> bool) (l : list A) :
  forallb f l = true -> List.filter f l = l.
Proof.
  induction l as [|x l IH]; [reflexivity|].
  cbn [forallb List.filter]. intros H.
  apply andb_true_iff in H as [Hx Hl]. now rewrite Hx, IH.
Qed.

Lemma filter_none {A} (f : A -> bool) (l : list A) :
  forallb (fun x => negb (f x)) l = true -> List.filter f l = [].
Proof.
  induction l as [|x l IH]; [reflexivity|].
  cbn [forallb List.filter]. intros H.
  apply andb_true_iff in H as [Hx Hl].
  destruct (f x); [discriminate|]. now apply IH.
Qed.

Lemma forallb_impl {A} (f g : A -> bool) (l : list A) :
  (forall x, f x = true -> g x = true) ->
  forallb f l = true -> forallb g l = true.
Proof.
  intros Himp. rewrite !forallb_forall. intros H x Hx. apply Himp, H, Hx.
Qed.

(** A second filter that every kept point passes changes nothing. *)
Lemma keep_names_all (g : MonthlyDataPoint -> bool) (names : Object Series) :
  (forall name monthlyData,
     In (name, monthlyData) names ->
     exists a, monthlyData = TimeSeries a /\ a <> [] /\
               forallb g a = true) ->
  keep_names g names = names.
Proof.
  induction names as [|[name s] names IH]; intros H; [reflexivity|].
  cbn [keep_names flat_map].
  destruct (H name s (or_introl eq_refl)) as (a & -> & Hne & Hall).
  rewrite (filter_all g a Hall).
  destruct a as [|p a]; [contradiction|].
  cbn [List.app]. f_equal. apply IH.
  intros name' s' Hin. apply (H name' s'). now right.
Qed.

Lemma keep_metrics_all (g : MonthlyDataPoint -> bool) (r : OptimizedMetrics) :
  filtered_model g r -> keep_metrics g r = r.
Proof.
  induction r as [|[metric names] r IH]; intros H; [reflexivity|].
  cbn [keep_metrics flat_map].
  destruct (H metric names (or_introl eq_refl)) as [Hne Hnames].
  rewrite (keep_names_all g names Hnames).
  destruct names as [|e names]; [contradiction|].
  cbn [List.app]. f_equal. apply IH. now apply filtered_model_tail in H.
Qed.

(** A second filter that no kept point passes leaves nothing. *)
Lemma keep_names_none (g : MonthlyDataPoint -> bool) (names : Object Series) :
  (forall name monthlyData,
     In (name, monthlyData) names ->
     exists a, monthlyData = TimeSeries a /\ a <> [] /\
               forallb (fun x => negb (g x)) a = true) ->
  keep_names g names = [].
Proof.
  induction names as [|[name s] names IH]; intros H; [reflexivity|].
  cbn [keep_names flat_map].
  destruct (H name s (or_introl eq_refl)) as (a & -> & Hne & Hall).
  rewrite (filter_none g a Hall). cbn [List.app]. apply IH.
  intros name' s' Hin. apply (H name' s'). now right.
Qed.

Lemma keep_metrics_none (g : MonthlyDataPoint -> bool) (r : OptimizedMetrics) :
  filtered_model (fun x => negb (g x)) r -> keep_metrics g r = [].
Proof.
  induction r as [|[metric names] r IH]; intros H; [reflexivity|].
  cbn [keep_metrics flat_map].
  destruct (H metric names (or_introl eq_refl)) as [Hne Hnames].
  rewrite (keep_names_none g names Hnames). cbn [List.app].
  apply IH. now apply filtered_model_tail in H.
Qed.

Lemma filtered_model_impl (f g : MonthlyDataPoint -> bool)
  (r : OptimizedMetrics) :
  (forall x, f x = true -> g x = true) ->
  filtered_model f r -> filtered_model g r.
Proof.
  intros Himp H metric names Hin.
  destruct (H metric names Hin) as [Hne Hnames]. split; [exact Hne|].
  intros name s Hs. destruct (Hnames name s Hs) as (a & -> & Ha & Hall).
  exists a. split; [reflexivity|]. split; [exact Ha|].
  now apply (forallb_impl f g).
Qed.

(** Filtering twice, every point the first callback keeps passing the
    second: the second filter changes nothing. *)
Lemma filter_loop_then_weaker (f g : MonthlyDataPoint -> bool) m :
  (forall x, f x = true -> g x = true) ->
  wf_metrics m ->
  (r <- filter_loop f m ;; filter_loop g r) = filter_loop f m.
Proof.
  intros Himp Hwf. rewrite (filter_loop_keep f m Hwf).
  destruct (all_arrays m); [|reflexivity].
  cbn [bind].
  rewrite filter_loop_keep by now apply keep_metrics_wf.
  rewrite keep_metrics_arrays, keep_metrics_all; [reflexivity|].
  apply (filtered_model_impl f g); [exact Himp|].
  apply keep_metrics_filtered.
Qed.

(** Filtering twice, no point passing both callbacks: nothing is left. *)
Lemma filter_loop_then_disjoint (f g : MonthlyDataPoint -> bool) m :
  (forall x, f x = true -> g x = false) ->
  wf_metrics m ->
  (r <- filter_loop f m ;; filter_loop g r)
  = (r <- filter_loop f m ;; Ok []).
Proof.
  intros Himp Hwf. rewrite (filter_loop_keep f m Hwf).
  destruct (all_arrays m); [|reflexivity].
  cbn [bind].
  rewrite filter_loop_keep by now apply keep_metrics_wf.
  rewrite keep_metrics_arrays, keep_metrics_none; [reflexivity|].
  apply (filtered_model_impl f (fun x => negb (g x))).
  - intros x Hx. now rewrite (Himp x Hx).
  - apply keep_metrics_filtered.
Qed.

(** X10.  What a filter returns is a model of arrays again, with unique
    names; it has no metric without a name, no name without a point, and
    no point of another year (of another year or month). *)
Theorem filters_return_filtered_models (m r : OptimizedMetrics) (y mo : Z) :
  wf_metrics m ->
  (filterMetricsByYear m y = Ok r ->
   wf_metrics r /\ all_arrays r = true /\ filtered_model (in_year y) r) /\
  (filterMetricsByYearMonth m y mo = Ok r ->
   wf_metrics r /\ all_arrays r = true /\
   filtered_model (in_year_month y mo) r).
Proof.
  intros Hwf.
  rewrite filterMetricsByYear_loop, filterMetricsByYearMonth_loop.
  rewrite !filter_loop_keep by assumption.
  destruct (all_arrays m); [|split; discriminate].
  split; intros Hr; injection Hr as <-;
    (split; [now apply keep_metrics_wf|];
     split; [apply keep_metrics_arrays|apply keep_metrics_filtered]).
Qed.

Lemma filters_return_filtered_models_witness :
  wf_metrics scenario /\
  filterMetricsByYear scenario 2022
  = Ok [("Transaction",
         [("X", TimeSeries [point 2022 1 10; point 2022 2 20])])] /\
  filtered_model (in_year 2022)
    [("Transaction",
      [("X", TimeSeries [point 2022 1 10; point 2022 2 20])])].
Proof.
  split; [exact scenario_wf|]. split; [reflexivity|].
  exact (proj2 (proj2
    (proj1 (filters_return_filtered_models scenario _ 2022 1 scenario_wf)
       eq_refl))).
Defined.

(** X11.  Filtering by year is idempotent, and filtering a month view by
    its year changes nothing: in both cases the outcome is that of the
    first filter, the same model or the same exception. *)
Theorem filter_year_idempotent_and_after_month
  (m : OptimizedMetrics) (y mo : Z) :
  wf_metrics m ->
  (r <- filterMetricsByYear m y ;; filterMetricsByYear r y)
  = filterMetricsByYear m y /\
  (r <- filterMetricsByYearMonth m y mo ;; filterMetricsByYear r y)
  = filterMetricsByYearMonth m y mo.
Proof.
  intros Hwf. split.
  - exact (filter_loop_then_weaker (in_year y) (in_year y) m
             (fun x Hx => Hx) Hwf).
  - exact (filter_loop_then_weaker (in_year_month y mo) (in_year y) m
             (in_year_month_in_year y mo) Hwf).
Qed.

Lemma filter_year_idempotent_and_after_month_witness :
  wf_metrics scenario /\
  (r <- filterMetricsByYear scenario 2022 ;; filterMetricsByYear r 2022)
  = Ok [("Transaction",
         [("X", TimeSeries [point 2022 1 10; point 2022 2 20])])] /\
  (r <- filterMetricsByYearMonth scenario 2022 2 ;;
   filterMetricsByYear r 2022)
  = Ok [("Transaction", [("X", TimeSeries [point 2022 2 20])])].
Proof.
  split; [exact scenario_wf|].
  destruct (filter_year_idempotent_and_after_month scenario 2022 2
              scenario_wf) as [H1 H2].
  rewrite H1, H2. split; reflexivity.
Defined.

(** X12.  A year view holds nothing of another year: filtering it by
    another year, or by a month of another year, returns the empty model
    (after a first filter that raised, the exception is the outcome). *)
Theorem filter_other_year_is_empty (m : OptimizedMetrics) (y y' mo : Z) :
  wf_metrics m ->
  y <> y' ->
  (r <- filterMetricsByYear m y ;; filterMetricsByYear r y')
  = (r <- filterMetricsByYear m y ;; Ok []) /\
  (r <- filterMetricsByYear m y ;; filterMetricsByYearMonth r y' mo)
  = (r <- filterMetricsByYear m y ;; Ok []).
Proof.
  intros Hwf Hne. split.
  - refine (filter_loop_then_disjoint (in_year y) (in_year y') m _ Hwf).
    unfold in_year. intros x Hx. apply Z.eqb_eq in Hx.
    apply Z.eqb_neq. congruence.
  - refine (filter_loop_then_disjoint (in_year y) (in_year_month y' mo) m
              _ Hwf).
    unfold in_year, in_year_month. intros x Hx. apply Z.eqb_eq in Hx.
    apply andb_false_iff. left. apply Z.eqb_neq. congruence.
Qed.

Lemma filter_other_year_is_empty_witness :
  wf_metrics scenario /\ 2022 <> 2023 /\
  (r <- filterMetricsByYear scenario 2022 ;; filterMetricsByYear r 2023)
  = Ok [] /\
  (r <- filterMetricsByYear scenario 2022 ;;
   filterMetricsByYearMonth r 2023 1)
  = Ok [].
Proof.
  split; [exact scenario_wf|]. split; [lia|].
  assert (Hne : 2022 <> 2023) by lia.
  destruct (filter_other_year_is_empty scenario 2022 2023 1 scenario_wf Hne)
    as [H1 H2].
  rewrite H1, H2. split; reflexivity.
Defined.

(** X13.  Run on a store that holds the model, the year filter returns a
    root that did not exist before and leaves every cell of the store with
    its content, so that the input reads as before; the result reads, from
    arrays and objects allocated by the call only, as the filtered
    model. *)
Theorem filter_year_fresh (m r : OptimizedMetrics) (y : Z)
  (s : Store.store) (root : nat) :
  wf_metrics m ->
  Store.read_metrics (0, 0)%nat s root = Some m ->
  filterMetricsByYear m y = Ok r ->
  exists s' root',
    Store.filterMetricsByYear s root y = Ok (s', root') /\
    Store.preserved s s' /\
    Store.read_metrics (0, 0)%nat s' root = Some m /\
    (List.length (Store.objects s) <= root')%nat /\
    Store.read_metrics
      (List.length (Store.arrays s), List.length (Store.objects s))
      s' root' = Some r.
Proof.
  intros Hwf Hread Hr.
  rewrite filterMetricsByYear_loop, filter_loop_keep in Hr by assumption.
  destruct (all_arrays m) eqn:Harr; [|discriminate].
  injection Hr as <-.
  destruct (StoreFacts.store_filter_loop (in_year y) s root m
              Hread Hwf Harr) as (s' & Hrun & Hpres & Hres).
  exists s', (List.length (Store.objects s)).
  split; [exact Hrun|]. split; [exact Hpres|].
  split; [|split; [lia|exact Hres]].
  eapply StoreFacts.read_metrics_preserved; eauto.
Qed.

Lemma filter_year_fresh_witness :
  wf_metrics scenario /\
  Store.read_metrics (0, 0)%nat Store.scenario_store 1 = Some scenario /\
  filterMetricsByYear scenario 2022
  = Ok [("Transaction",
         [("X", TimeSeries [point 2022 1 10; point 2022 2 20])])] /\
  exists s' root',
    Store.filterMetricsByYear Store.scenario_store 1 2022 = Ok (s', root') /\
    Store.preserved Store.scenario_store s' /\
    Store.read_metrics (0, 0)%nat s' 1 = Some scenario /\
    (2 <= root')%nat /\
    Store.read_metrics (1, 2)%nat s' root'
    = Some [("Transaction",
             [("X", TimeSeries [point 2022 1 10; point 2022 2 20])])].
Proof.
  split; [exact scenario_wf|]. split; [reflexivity|].
  split; [reflexivity|].
  exact (filter_year_fresh scenario _ 2022 Store.scenario_store 1%nat
           scenario_wf eq_refl eq_refl).
Defined.

(** ** Years, months and trends of a whole model *)

Section Loops.

Context {S : Type} (body : S -> MonthlyDataPoint -> S).

Lemma and_then_raised (l : list Series) (e : exn) :
  fold_left (fun outcome monthlyData =>
               and_then outcome (for_of monthlyData body))
    l (Some (Throw e))
  = Some (Throw e).
Proof. induction l as [|s l IH]; [reflexivity|exact IH]. Qed.

Lemma names_loop_arrays (names : Object Series) (state : S) :
  forallb is_array (Object_values names) = true ->
  fold_left (fun outcome monthlyData =>
               and_then outcome (for_of monthlyData body))
    (Object_values names) (Some (Ok state))
  = Some (Ok (fold_left body (selected_points None names) state)).
Proof.
  unfold Object_values. revert state.
  induction names as [|[name s] names IH]; intros state; [reflexivity|].
  cbn [map snd forallb fold_left selected_points flat_map].
  intros Hall. apply andb_true_iff in Hall as [Hs Hall].
  destruct s as [a| | |]; try discriminate.
  cbn [and_then for_of selected]. rewrite IH by exact Hall.
  now rewrite fold_left_app.
Qed.

Lemma names_loop_raises (names : Object Series) (state : S) :
  forallb is_array (Object_values names) = false ->
  forallb is_known (Object_values names) = true ->
  fold_left (fun outcome monthlyData =>
               and_then outcome (for_of monthlyData body))
    (Object_values names) (Some (Ok state))
  = Some (Throw TypeError).
Proof.
  unfold Object_values. revert state.
  induction names as [|[name s] names IH]; intros state; [discriminate|].
  cbn [map snd forallb fold_left]. intros Hall Hknown.
  apply andb_true_iff in Hknown as [Hs Hknown].
  destruct s as [a| | |]; cbn [is_array andb and_then for_of] in *;
    [now apply IH|apply and_then_raised..|discriminate].
Qed.

(** The loops over a model of arrays run the body over all its points. *)
Lemma model_loop_arrays (m : OptimizedMetrics) (state : S) :
  all_arrays m = true ->
  fold_left
    (fun outcome names =>
       fold_left (fun outcome monthlyData =>
                    and_then outcome (for_of monthlyData body))
         (Object_values names) outcome)
    (Object_values m) (Some (Ok state))
  = Some (Ok (fold_left body (all_points m) state)).
Proof.
  unfold all_arrays, Object_values at 2 4. revert state.
  induction m as [|[metric names] m IH]; intros state; [reflexivity|].
  cbn [map snd forallb fold_left all_points flat_map].
  intros Hall. apply andb_true_iff in Hall as [Hnames Hall].
  rewrite names_loop_arrays by exact Hnames.
  rewrite IH by exact Hall. now rewrite fold_left_app.
Qed.

(** On a model that holds, besides arrays, month-key maps or numbers, they
    raise. *)
Lemma model_loop_raises (m : OptimizedMetrics) (state : S) :
  all_arrays m = false ->
  known_shapes m = true ->
  fold_left
    (fun outcome names =>
       fold_left (fun outcome monthlyData =>
                    and_then outcome (for_of monthlyData body))
         (Object_values names) outcome)
    (Object_values m) (Some (Ok state))
  = Some (Throw TypeError).
Proof.
  assert (Hraised : forall (l : list (Object Series)),
    fold_left
      (fun outcome names =>
         fold_left (fun outcome monthlyData =>
                      and_then outcome (for_of monthlyData body))
           (Object_values names) outcome)
      l (Some (Throw TypeError))
    = Some (Throw TypeError)).
  { induction l as [|names l IH]; [reflexivity|].
    cbn [fold_left]. now rewrite and_then_raised. }
  unfold all_arrays, known_shapes, Object_values at 2 4 6. revert state.
  induction m as [|[metric names] m IH]; intros state; [discriminate|].
  cbn [map snd forallb fold_left]. intros Hall Hknown.
  apply andb_true_iff in Hknown as [Hnames Hknown].
  destruct (forallb is_array (Object_values names)) eqn:Harr.
  - rewrite names_loop_arrays by exact Harr. now apply IH.
  - rewrite names_loop_raises by assumption. apply Hraised.
Qed.

End Loops.

Lemma Set_add_In (set : list Z) (value x : Z) :
  In x (Set_add set value) <-> In x set \/ x = value.
Proof.
  unfold Set_add. destruct (existsb (Z.eqb value) set) eqn:Hex.
  - apply existsb_exists in Hex as (v & Hv & Heq).
    apply Z.eqb_eq in Heq. subst v. split; [now left|].
    intros [H| ->]; assumption.
  - rewrite in_app_iff. cbn [In]. intuition.
Qed.

Lemma Set_add_NoDup (set : list Z) (value : Z) :
  NoDup set -> NoDup (Set_add set value).
Proof.
  unfold Set_add. intros Hnd.
  destruct (existsb (Z.eqb value) set) eqn:Hex; [exact Hnd|].
  apply NoDup_app; [exact Hnd|repeat constructor; intros []|].
  intros x Hx [Heq|[]]. subst x.
  assert (Htrue : existsb (Z.eqb value) set = true).
  { apply existsb_exists. exists value.
    split; [exact Hx|apply Z.eqb_refl]. }
  congruence.
Qed.

(** The set a loop collects: the values of the points that pass a test,
    each once. *)
Lemma collected_set (test : MonthlyDataPoint -> bool)
  (value : MonthlyDataPoint -> Z) (points : list MonthlyDataPoint)
  (set : list Z) :
  NoDup set ->
  NoDup
    (fold_left
       (fun set data => if test data then Set_add set (value data) else set)
       points set) /\
  forall x,
    In x
      (fold_left
         (fun set data => if test data then Set_add set (value data) else set)
         points set)
    <-> In x set \/
        exists p, In p points /\ test p = true /\ value p = x.
Proof.
  revert set. induction points as [|p points IH]; intros set Hnd.
  - cbn. split; [exact Hnd|]. intros x. split; [now left|].
    intros [H|(p & [] & _)]. exact H.
  - cbn [fold_left].
    destruct (test p) eqn:Htest.
    + destruct (IH (Set_add set (value p)) (Set_add_NoDup _ _ Hnd))
        as [Hnd' Hin].
      split; [exact Hnd'|]. intros x. rewrite Hin, Set_add_In. split.
      * intros [[H| ->]|(q & Hq & Hqt & Hqv)].
        -- now left.
        -- right. exists p. split; [now left|now split].
        -- right. exists q. split; [now right|now split].
      * intros [H|(q & [<-|Hq] & Hqt & Hqv)].
        -- left. now left.
        -- left. right. now symmetry.
        -- right. exists q. now split.
    + destruct (IH set Hnd) as [Hnd' Hin].
      split; [exact Hnd'|]. intros x. rewrite Hin. split.
      * intros [H|(q & Hq & Hqt & Hqv)]; [now left|].
        right. exists q. split; [now right|now split].
      * intros [H|(q & [<-|Hq] & Hqt & Hqv)]; [now left|congruence|].
        right. exists q. now split.
Qed.

Lemma sorted_strictly (R : Z -> Z -> Prop) (l : list Z) :
  (forall a b, R a b -> a <> b -> a < b \/ b < a) ->
  StronglySorted R l -> NoDup l ->
  StronglySorted (fun a b => R a b /\ a <> b) l.
Proof.
  intros _. induction 1 as [|x l Hs IH Hx]; intros Hnd; constructor.
  - apply IH. now inversion Hnd.
  - inversion Hnd as [|? ? Hnotin _]; subst.
    rewrite Forall_forall in *. intros y Hy. split; [now apply Hx|].
    intros ->. contradiction.
Qed.

Lemma sort_falling (l : list Z) :
  NoDup l -> StronglySorted falling (Array_sort (fun a b => b - a) l).
Proof.
  intros Hnd.
  apply (StronglySorted_impl (fun a b => (b - a <= 0) /\ a <> b)).
  - unfold falling. intros a b. lia.
  - apply sorted_strictly.
    + intros a b. lia.
    + apply (Array_sort_sorted (fun a b => b - a)); intros; lia.
    + eapply Permutation_NoDup; [|exact Hnd].
      apply Permutation_sym, Array_sort_perm.
Qed.

Lemma sort_rising (l : list Z) :
  NoDup l -> StronglySorted Z.lt (Array_sort (fun a b => a - b) l).
Proof.
  intros Hnd.
  apply (StronglySorted_impl (fun a b => (a - b <= 0) /\ a <> b)).
  - intros a b. lia.
  - apply sorted_strictly.
    + intros a b. lia.
    + apply (Array_sort_sorted (fun a b => a - b)); intros; lia.
    + eapply Permutation_NoDup; [|exact Hnd].
      apply Permutation_sym, Array_sort_perm.
Qed.

Lemma keep_names_nil callback (names : Object Series) :
  keep_names callback names = [] <->
  List.filter callback (selected_points None names) = [].
Proof.
  induction names as [|[name s] names IH]; [now split|].
  change ((name, s) :: names) with ([(name, s)] ++ names).
  rewrite keep_names_app, selected_points_app, filter_app, keep_names_one.
  assert (Hone :
    List.filter callback (selected_points None [(name, s)])
    = match s with
      | TimeSeries a => List.filter callback a
      | _ => []
      end).
  { cbn. destruct s; [now rewrite List.app_nil_r|reflexivity..]. }
  rewrite Hone.
  split; intros H; apply app_eq_nil in H as [H1 H2];
    apply IH in H2; rewrite H2, List.app_nil_r.
  - destruct s as [a| | |]; try reflexivity.
    now destruct (List.filter callback a).
  - destruct s as [a| | |]; try reflexivity. now rewrite H1.
Qed.

Lemma keep_metrics_nil callback (m : OptimizedMetrics) :
  keep_metrics callback m = [] <->
  List.filter callback (all_points m) = [].
Proof.
  induction m as [|[metric names] m IH]; [now split|].
  change ((metric, names) :: m) with ([(metric, names)] ++ m).
  rewrite keep_metrics_app, keep_metrics_one.
  unfold all_points in *. rewrite flat_map_app, filter_app.
  cbn [flat_map]. rewrite List.app_nil_r.
  split; intros H; apply app_eq_nil in H as [H1 H2];
    apply IH in H2; rewrite H2, List.app_nil_r.
  - apply keep_names_nil. now destruct (keep_names callback names).
  - apply keep_names_nil in H1. now rewrite H1.
Qed.

Lemma filter_not_nil {A} (f : A -> bool) (l : list A) :
  List.filter f l <> [] <-> exists x, In x l /\ f x = true.
Proof.
  split.
  - destruct (List.filter f l) as [|x kept] eqn:Hf; [contradiction|].
    intros _. exists x. apply filter_In. rewrite Hf. now left.
  - intros (x & Hx & Hfx) Hnil.
    assert (Hin : In x (List.filter f l)) by now apply filter_In.
    now rewrite Hnil in Hin.
Qed.

(** X14.  On a model of arrays [getAvailableYears] returns the years in
    falling order, each once, and a year is among them exactly when the
    view of the model for that year is not empty. *)
Theorem getAvailableYears_of_views (m : OptimizedMetrics) :
  wf_metrics m ->
  all_arrays m = true ->
  exists years,
    getAvailableYears m = Some (Ok years) /\
    StronglySorted falling years /\
    forall y,
      In y years <->
      exists r, filterMetricsByYear m y = Ok r /\ r <> [].
Proof.
  intros Hwf Harr.
  destruct (collected_set (fun _ => true) year (all_points m) []
              (NoDup_nil _)) as [Hnd Hin].
  eexists. split; [|split].
  - unfold getAvailableYears.
    rewrite (model_loop_arrays
               (fun years data => Set_add years (year data)) m [] Harr).
    reflexivity.
  - now apply sort_falling.
  - intros y.
    rewrite filterMetricsByYear_loop, filter_loop_keep, Harr by assumption.
    split.
    + intros Hy.
      eapply Permutation_in in Hy; [|apply Array_sort_perm].
      apply Hin in Hy as [[]|(p & Hp & _ & Hpy)].
      eexists. split; [reflexivity|].
      rewrite keep_metrics_nil. apply filter_not_nil.
      exists p. split; [exact Hp|]. unfold in_year. now apply Z.eqb_eq.
    + intros (r & Hr & Hne). injection Hr as <-.
      rewrite keep_metrics_nil in Hne.
      apply filter_not_nil in Hne as (p & Hp & Hpy).
      eapply Permutation_in; [apply Permutation_sym, Array_sort_perm|].
      apply Hin. right. exists p. split; [exact Hp|]. split; [reflexivity|].
      unfold in_year in Hpy. now apply Z.eqb_eq.
Qed.

Lemma getAvailableYears_of_views_witness :
  wf_metrics scenario /\ all_arrays scenario = true /\
  getAvailableYears scenario = Some (Ok [2023; 2022]) /\
  exists years,
    getAvailableYears scenario = Some (Ok years) /\
    StronglySorted falling years /\
    forall y,
      In y years <->
      exists r, filterMetricsByYear scenario y = Ok r /\ r <> [].
Proof.
  split; [exact scenario_wf|]. split; [reflexivity|].
  split; [reflexivity|].
  exact (getAvailableYears_of_views scenario scenario_wf eq_refl).
Defined.

(** X15.  On a model of arrays [getAvailableMonths] returns the months of
    the year in rising order, each once, and a month is among them exactly
    when the view of the model for that year and month is not empty. *)
Theorem getAvailableMonths_of_views (m : OptimizedMetrics) (y : Z) :
  wf_metrics m ->
  all_arrays m = true ->
  exists months,
    getAvailableMonths m y = Some (Ok months) /\
    StronglySorted Z.lt months /\
    forall mo,
      In mo months <->
      exists r, filterMetricsByYearMonth m y mo = Ok r /\ r <> [].
Proof.
  intros Hwf Harr.
  destruct (collected_set (in_year y) month (all_points m) []
              (NoDup_nil _)) as [Hnd Hin].
  eexists. split; [|split].
  - unfold getAvailableMonths.
    rewrite (model_loop_arrays
               (fun months data =>
                  if year data =? y then Set_add months (month data)
                  else months) m [] Harr).
    reflexivity.
  - now apply sort_rising.
  - intros mo.
    rewrite filterMetricsByYearMonth_loop, filter_loop_keep, Harr
      by assumption.
    split.
    + intros Hmo.
      eapply Permutation_in in Hmo; [|apply Array_sort_perm].
      apply Hin in Hmo as [[]|(p & Hp & Hpy & Hpm)].
      eexists. split; [reflexivity|].
      rewrite keep_metrics_nil. apply filter_not_nil.
      exists p. split; [exact Hp|]. unfold in_year_month.
      unfold in_year in Hpy. rewrite Hpy. now apply Z.eqb_eq.
    + intros (r & Hr & Hne). injection Hr as <-.
      rewrite keep_metrics_nil in Hne.
      apply filter_not_nil in Hne as (p & Hp & Hpy).
      eapply Permutation_in; [apply Permutation_sym, Array_sort_perm|].
      apply Hin. right. exists p. split; [exact Hp|].
      unfold in_year_month in Hpy.
      apply andb_true_iff in Hpy as [Hy Hm].
      split; [exact Hy|now apply Z.eqb_eq].
Qed.

Lemma getAvailableMonths_of_views_witness :
  wf_metrics scenario /\ all_arrays scenario = true /\
  getAvailableMonths scenario 2022 = Some (Ok [1; 2]) /\
  exists months,
    getAvailableMonths scenario 2022 = Some (Ok months) /\
    StronglySorted Z.lt months /\
    forall mo,
      In mo months <->
      exists r, filterMetricsByYearMonth scenario 2022 mo = Ok r /\ r <> [].
Proof.
  split; [exact scenario_wf|]. split; [reflexivity|].
  split; [reflexivity|].
  exact (getAvailableMonths_of_views scenario 2022 scenario_wf eq_refl).
Defined.

(** *** Views and totals *)

Lemma total_of_kept callback (m : OptimizedMetrics) :
  calculateTotalRecords (keep_metrics callback m)
  = sum_list (map count (List.filter callback (all_points m))).
Proof.
  rewrite calculateTotalRecords_sum.
  induction m as [|[metric names] m IH]; [reflexivity|].
  change ((metric, names) :: m) with ([(metric, names)] ++ m).
  rewrite keep_metrics_app, keep_metrics_one.
  unfold all_points in *. rewrite flat_map_app, filter_app.
  cbn [flat_map]. rewrite List.app_nil_r.
  unfold Object_values in *. rewrite !map_app, !sum_list_app, IH.
  f_equal. rewrite <- names_total_keep.
  destruct (keep_names callback names) as [|e inner]; [reflexivity|].
  change (sum_list (map names_total (map snd [(metric, e :: inner)])))
    with (names_total (e :: inner) + 0).
  lia.
Qed.

Lemma total_of_arrays (m : OptimizedMetrics) :
  all_arrays m = true ->
  calculateTotalRecords m = sum_list (map count (all_points m)).
Proof.
  rewrite calculateTotalRecords_sum.
  unfold all_arrays, all_points, Object_values at 1 3.
  induction m as [|[metric names] m IH]; [reflexivity|].
  cbn [map snd forallb flat_map]. intros Hall.
  apply andb_true_iff in Hall as [Hnames Hall].
  rewrite map_app, sum_list_app, sum_list_cons, (IH Hall). f_equal.
  rewrite <- (selected_total_points None names Hnames).
  rewrite (filter_ext _ (fun _ => true)) by reflexivity.
  rewrite filter_true. unfold names_total, Object_values.
  now rewrite map_map.
Qed.

Lemma sum_list_add {A} (f g : A -> Z) (l : list A) :
  sum_list (map (fun x => f x + g x) l)
  = sum_list (map f l) + sum_list (map g l).
Proof.
  induction l as [|x l IH]; [reflexivity|].
  cbn [map]. rewrite !sum_list_cons, IH. lia.
Qed.

Lemma sum_list_once (k c : Z) (keys : list Z) :
  NoDup keys -> In k keys ->
  sum_list (map (fun x => if k =? x then c else 0) keys) = c.
Proof.
  induction keys as [|x keys IH]; [contradiction|].
  intros Hnd Hin. inversion Hnd as [|? ? Hx Hnd']; subst.
  cbn [map]. rewrite sum_list_cons.
  assert (Hzero : forall l, ~ In k l ->
    sum_list (map (fun x => if k =? x then c else 0) l) = 0).
  { induction l as [|z l IHl]; [reflexivity|].
    intros Hnot. cbn [map]. rewrite sum_list_cons.
    destruct (Z.eqb_spec k z) as [->|_].
    - exfalso. apply Hnot. now left.
    - rewrite IHl; [lia|]. intros H. apply Hnot. now right. }
  destruct Hin as [->|Hin].
  - rewrite Z.eqb_refl, (Hzero keys Hx). lia.
  - destruct (Z.eqb_spec k x) as [->|_]; [contradiction|].
    rewrite (IH Hnd' Hin). lia.
Qed.

(** The counts of a list of points, split by a key that takes each of its
    values in a list without repetition. *)
Lemma partition_sum (key : MonthlyDataPoint -> Z)
  (points : list MonthlyDataPoint) (keys : list Z) :
  NoDup keys ->
  (forall p, In p points -> In (key p) keys) ->
  sum_list
    (map (fun x =>
            sum_list (map count (List.filter (fun p => key p =? x) points)))
       keys)
  = sum_list (map count points).
Proof.
  intros Hnd. induction points as [|p points IH]; intros Hin.
  - assert (Hzero : forall l : list Z,
      sum_list (map (fun _ => 0) l) = 0).
    { induction l as [|x l IHl]; [reflexivity|].
      cbn [map]. now rewrite sum_list_cons, IHl. }
    exact (Hzero keys).
  - cbn [map]. rewrite sum_list_cons.
    rewrite <- IH by (intros q Hq; apply Hin; now right).
    rewrite <- (sum_list_once (key p) (count p) keys Hnd
                  (Hin p (or_introl eq_refl))) at 1.
    rewrite <- sum_list_add. f_equal. apply map_ext. intros x.
    cbn [List.filter]. destruct (key p =? x); [|lia].
    cbn [map]. now rewrite sum_list_cons.
Qed.

Lemma filter_twice {A} (f g : A -> bool) (l : list A) :
  List.filter f (List.filter g l) = List.filter (fun x => g x && f x) l.
Proof.
  induction l as [|x l IH]; [reflexivity|].
  cbn [List.filter]. destruct (g x); cbn [andb List.filter];
    [destruct (f x)|]; now rewrite IH.
Qed.

Lemma Forall2_map_r {A B} (R : A -> B -> Prop) (f : A -> B) (l : list A) :
  (forall x, In x l -> R x (f x)) -> Forall2 R l (map f l).
Proof.
  induction l as [|x l IH]; intros H; constructor.
  - apply H. now left.
  - apply IH. intros y Hy. apply H. now right.
Qed.

(** On integers: the year views of a model of arrays, taken for the
    years that [getAvailableYears] returns, share out its records, and the
    month views of a year those of the year view. *)
Lemma views_partition_records (m : OptimizedMetrics) (y : Z) :
  wf_metrics m ->
  all_arrays m = true ->
  (exists years views,
     getAvailableYears m = Some (Ok years) /\
     Forall2 (fun y r => filterMetricsByYear m y = Ok r) years views /\
     sum_list (map calculateTotalRecords views) = calculateTotalRecords m) /\
  (exists months views r,
     getAvailableMonths m y = Some (Ok months) /\
     Forall2 (fun mo r => filterMetricsByYearMonth m y mo = Ok r)
       months views /\
     filterMetricsByYear m y = Ok r /\
     sum_list (map calculateTotalRecords views) = calculateTotalRecords r).
Proof.
  intros Hwf Harr. split.
  - destruct (collected_set (fun _ => true) year (all_points m) []
                (NoDup_nil _)) as [Hnd Hin].
    eexists.
    exists (map (fun y => keep_metrics (in_year y) m)
              (Array_sort (fun a b => b - a)
                 (fold_left (fun years data => Set_add years (year data))
                    (all_points m) []))).
    split; [|split].
    + unfold getAvailableYears.
      rewrite (model_loop_arrays
                 (fun years data => Set_add years (year data)) m [] Harr).
      reflexivity.
    + apply Forall2_map_r. intros y' _.
      now rewrite filterMetricsByYear_loop, filter_loop_keep, Harr.
    + rewrite map_map.
      rewrite (map_ext _ _ (fun y => total_of_kept (in_year y) m)).
      rewrite (total_of_arrays m Harr).
      apply (partition_sum year).
      * eapply Permutation_NoDup; [|exact Hnd].
        apply Permutation_sym, Array_sort_perm.
      * intros p Hp.
        eapply Permutation_in; [apply Permutation_sym, Array_sort_perm|].
        apply Hin. right. now exists p.
  - destruct (collected_set (in_year y) month (all_points m) []
                (NoDup_nil _)) as [Hnd Hin].
    eexists.
    exists (map (fun mo => keep_metrics (in_year_month y mo) m)
              (Array_sort (fun a b => a - b)
                 (fold_left
                    (fun months data =>
                       if year data =? y then Set_add months (month data)
                       else months)
                    (all_points m) []))).
    exists (keep_metrics (in_year y) m).
    split; [|split; [|split]].
    + unfold getAvailableMonths.
      rewrite (model_loop_arrays
                 (fun months data =>
                    if year data =? y then Set_add months (month data)
                    else months) m [] Harr).
      reflexivity.
    + apply Forall2_map_r. intros mo _.
      now rewrite filterMetricsByYearMonth_loop, filter_loop_keep, Harr.
    + now rewrite filterMetricsByYear_loop, filter_loop_keep, Harr.
    + rewrite map_map.
      rewrite (map_ext _ _ (fun mo => total_of_kept (in_year_month y mo) m)).
      rewrite total_of_kept.
      rewrite <- (partition_sum month
                    (List.filter (in_year y) (all_points m))
                    (Array_sort (fun a b => a - b)
                       (fold_left
                          (fun months data =>
                             if year data =? y
                             then Set_add months (month data)
                             else months)
                          (all_points m) []))).
      * f_equal. apply map_ext. intros mo. f_equal. f_equal.
        rewrite filter_twice. reflexivity.
      * eapply Permutation_NoDup; [|exact Hnd].
        apply Permutation_sym, Array_sort_perm.
      * intros p Hp. apply filter_In in Hp as [Hp Hy].
        eapply Permutation_in; [apply Permutation_sym, Array_sort_perm|].
        apply Hin. right. now exists p.
Qed.

(** On integers: on a model of arrays [getAllMonthlyTrends] returns a
    list sorted by year and month whose totals add up to the record total
    of the model; and when the keys are read back as the dates they were
    made of, it holds an entry for a month exactly when the model has a
    point in that month, with the sum of the counts of the points of the
    month. *)
Lemma all_trends_of_arrays (m : OptimizedMetrics) :
  all_arrays m = true ->
  exists trends,
    getAllMonthlyTrends m = Some (Ok trends) /\
    StronglySorted trend_le trends /\
    sum_list (map total_count trends) = calculateTotalRecords m /\
    (unsigned_dates (all_points m) ->
     forall t,
       In t trends <->
       exists p,
         In p (all_points m) /\
         trend_year t = year p /\ trend_month t = month p /\
         total_count t
         = sum_list
             (map count
                (List.filter (in_year_month (year p) (month p))
                   (all_points m)))).
Proof.
  intros Harr. eexists. split; [|split; [|split]].
  - unfold getAllMonthlyTrends.
    match goal with
    | |- and_then ?loop _ = _ =>
        replace loop
          with (Some (Ok (fold_left add_to_trends (all_points m) [])))
          by (symmetry; exact (model_loop_arrays add_to_trends m [] Harr))
    end.
    reflexivity.
  - apply trends_sorted.
  - unfold Map_entries.
    rewrite (sum_list_perm _ _
               (Permutation_map total_count (Array_sort_perm _ _))).
    rewrite trend_entries_total, trends_total. symmetry.
    now apply total_of_arrays.
  - intros Hpos t. rewrite <- (trend_map_entries _ t Hpos).
    unfold Map_entries.
    split; apply Permutation_in;
      [apply Array_sort_perm|apply Permutation_sym, Array_sort_perm].
Qed.

(** X18.  On a model that holds a number or a month-key map in the place
    of a series, the three functions that loop over the points raise a
    [TypeError], where the totals count such a series. *)
Theorem point_loops_raise_on_other_encodings (m : OptimizedMetrics) (y : Z) :
  all_arrays m = false ->
  known_shapes m = true ->
  getAvailableYears m = Some (Throw TypeError) /\
  getAvailableMonths m y = Some (Throw TypeError) /\
  getAllMonthlyTrends m = Some (Throw TypeError).
Proof.
  intros Harr Hknown.
  unfold getAvailableYears, getAvailableMonths, getAllMonthlyTrends.
  now rewrite !model_loop_raises by assumption.
Qed.

Lemma point_loops_raise_on_other_encodings_witness :
  all_arrays scenario_with_month_totals = false /\
  known_shapes scenario_with_month_totals = true /\
  getAvailableYears scenario_with_month_totals = Some (Throw TypeError) /\
  getAvailableMonths scenario_with_month_totals 2022
  = Some (Throw TypeError) /\
  getAllMonthlyTrends scenario_with_month_totals = Some (Throw TypeError) /\
  calculateTotalRecords scenario_with_month_totals = 42.
Proof.
  split; [reflexivity|]. split; [reflexivity|].
  destruct (point_loops_raise_on_other_encodings
              scenario_with_month_totals 2022 eq_refl eq_refl)
    as (H1 & H2 & H3).
  repeat split; assumption || reflexivity.
Defined.

(** ** Months and breadcrumbs *)

(** X19.  [getMonthName] names the months 1 to 12, each with a name of its
    own, and answers the empty string for every other number. *)
Theorem getMonthName_bounds (month : option Z) :
  (getMonthName month <> "" <->
   exists n, month = Some n /\ 1 <= n <= 12) /\
  (forall a b,
     1 <= a <= 12 -> 1 <= b <= 12 ->
     getMonthName (Some a) = getMonthName (Some b) -> a = b).
Proof.
  assert (Hout : forall n, ~ (1 <= n <= 12) -> getMonthName (Some n) = "").
  { intros n Hn. unfold getMonthName, Array_get.
    destruct (Z.leb_spec 0 (n - 1)) as [Hle|Hlt]; [|reflexivity].
    match goal with
    | |- or_string (nth_error ?l ?i) _ = _ =>
        assert (Hnone : nth_error l i = None)
          by (apply nth_error_None; cbn [List.length]; lia)
    end.
    now rewrite Hnone. }
  assert (Hin : forall n, 1 <= n <= 12 ->
    n = 1 \/ n = 2 \/ n = 3 \/ n = 4 \/ n = 5 \/ n = 6 \/
    n = 7 \/ n = 8 \/ n = 9 \/ n = 10 \/ n = 11 \/ n = 12) by (intros; lia).
  split.
  - split.
    + intros Hname. destruct month as [n|]; [|now destruct Hname].
      exists n. split; [reflexivity|].
      destruct (Z.le_gt_cases 1 n) as [H1|H1];
        [destruct (Z.le_gt_cases n 12) as [H2|H2]; [lia|]|];
        exfalso; apply Hname, Hout; lia.
    + intros (n & -> & Hn).
      destruct (Hin n Hn)
        as [->|[->|[->|[->|[->|[->|[->|[->|[->|[->|[->| ->]]]]]]]]]]];
        discriminate.
  - intros a b Ha Hb.
    destruct (Hin a Ha)
      as [->|[->|[->|[->|[->|[->|[->|[->|[->|[->|[->| ->]]]]]]]]]]];
      destruct (Hin b Hb)
        as [->|[->|[->|[->|[->|[->|[->|[->|[->|[->|[->| ->]]]]]]]]]]];
      intros H; try reflexivity; discriminate H.
Qed.

Lemma prefix_append (s r : string) : String.prefix s (s ++ r) = true.
Proof.
  induction s as [|c s IH]; cbn.
  - now destruct r.
  - destruct (ascii_dec c c) as [_|Hne]; [exact IH|now destruct Hne].
Qed.

Lemma prefix_append_same (s a b : string) :
  String.prefix (s ++ a) (s ++ b) = String.prefix a b.
Proof.
  induction s as [|c s IH]; [reflexivity|].
  cbn. destruct (ascii_dec c c) as [_|Hne]; [exact IH|now destruct Hne].
Qed.

Lemma prefix_cons_same (c : ascii) (a b : string) :
  String.prefix (String c a) (String c b) = String.prefix a b.
Proof.
  cbn. destruct (ascii_dec c c) as [_|Hne]; [reflexivity|now destruct Hne].
Qed.

Lemma prefix_empty (s : string) : String.prefix "" s = true.
Proof. now destruct s. Qed.

Lemma prefix_self (s : string) : String.prefix s s = true.
Proof.
  induction s as [|c s IH]; [reflexivity|].
  now rewrite prefix_cons_same.
Qed.

Ltac solve_prefix :=
  cbn [append];
  repeat first
    [ rewrite prefix_cons_same
    | rewrite prefix_append_same
    | apply prefix_empty
    | apply prefix_self
    | apply prefix_append ].

Section BreadcrumbFacts.

Variable parseInt : string -> option Z.

(** X20.  The trail begins with India at the root, and exactly one of its
    items is marked current, the last one; this on every page, whichever
    of the arguments are given. *)
Theorem generateBreadcrumbs_current_is_last
  (level : string) (state rto year month : option string) :
  let breadcrumbs :=
    generateBreadcrumbs parseInt level state rto year month in
  option_map (fun b => (label b, href b)) (hd_error breadcrumbs)
  = Some ("India", "/") /\
  map current breadcrumbs
  = repeat false (List.length breadcrumbs - 1) ++ [true].
Proof.
  unfold generateBreadcrumbs, truthy.
  destruct state as [state|]; [destruct (String.eqb state "")|];
    (destruct rto as [rto|]; [destruct (String.eqb rto "")|]);
    (destruct year as [year|]; [destruct (String.eqb year "")|]);
    (destruct month as [month|]; [destruct (String.eqb month "")|]);
    split; reflexivity.
Qed.

(** X21.  The links of the trail are nested: every item links to a path
    that the paths of all the items after it begin with. *)
Theorem generateBreadcrumbs_links_nested
  (level : string) (state rto year month : option string) :
  nested
    (map href (generateBreadcrumbs parseInt level state rto year month)).
Proof.
  unfold nested, generateBreadcrumbs, truthy.
  destruct state as [state|]; [destruct (String.eqb state "")|];
    (destruct rto as [rto|]; [destruct (String.eqb rto "")|]);
    (destruct year as [year|]; [destruct (String.eqb year "")|]);
    (destruct month as [month|]; [destruct (String.eqb month "")|]);
    cbn [List.app List.length Nat.ltb Nat.leb existsb current orb negb andb
         mark_last map href];
    repeat first
      [ apply SSorted_nil
      | apply SSorted_cons
      | apply Forall_nil
      | apply Forall_cons ];
    solve_prefix.
Qed.

End BreadcrumbFacts.

(** ** Formatters *)

Section FormatterFacts.

Variable shortest_decimal : spec_float -> string.

(** X22.  The three formatters write the same number: [formatCount] is
    [formatNumber], and [formatCurrency] puts the rupee sign before what
    they write, on every argument; [formatMetricValue] chooses the rupee
    sign for the metrics whose name begins with "Revenue". *)
Theorem formatters_agree (num : NumberArg) (value : spec_float)
  (metric : string) :
  formatCount shortest_decimal num = formatNumber shortest_decimal num /\
  formatCurrency shortest_decimal num
  = ("₹" ++ formatNumber shortest_decimal num)%string /\
  formatMetricValue shortest_decimal value metric
  = ((if String.prefix "Revenue" metric then "₹" else "") ++
     formatNumber shortest_decimal (number value))%string.
Proof.
  assert (Hcurrency : forall num,
    formatCurrency shortest_decimal num
    = ("₹" ++ formatNumber shortest_decimal num)%string).
  { intros [| |x]; try reflexivity.
    unfold formatCurrency, formatNumber.
    destruct (Number_isNaN x); [reflexivity|].
    destruct (Number_ge x (Number_of_Z 10000000)); [reflexivity|].
    destruct (Number_ge x (Number_of_Z 100000)); [reflexivity|].
    destruct (Number_ge x (Number_of_Z 1000)); reflexivity. }
  split; [reflexivity|]. split; [apply Hcurrency|].
  unfold formatMetricValue.
  destruct (String.prefix "Revenue" metric); [apply Hcurrency|reflexivity].
Qed.

End FormatterFacts.

(** *** Integers as numbers *)

Lemma digits2_bounds (p : positive) :
  2 ^ (Z.pos (digits2_pos p) - 1) <= Z.pos p < 2 ^ Z.pos (digits2_pos p).
Proof.
  induction p as [p IH|p IH|]; cbn [digits2_pos].
  - rewrite Pos2Z.inj_succ.
    replace (Z.succ (Z.pos (digits2_pos p)) - 1)
      with (Z.succ (Z.pos (digits2_pos p) - 1)) by lia.
    rewrite !Z.pow_succ_r by lia.
    change (Z.pos p~1) with (2 * Z.pos p + 1).
    revert IH. generalize (2 ^ (Z.pos (digits2_pos p) - 1)).
    generalize (2 ^ Z.pos (digits2_pos p)). intros a b. lia.
  - rewrite Pos2Z.inj_succ.
    replace (Z.succ (Z.pos (digits2_pos p)) - 1)
      with (Z.succ (Z.pos (digits2_pos p) - 1)) by lia.
    rewrite !Z.pow_succ_r by lia.
    change (Z.pos p~0) with (2 * Z.pos p).
    revert IH. generalize (2 ^ (Z.pos (digits2_pos p) - 1)).
    generalize (2 ^ Z.pos (digits2_pos p)). intros a b. lia.
  - cbn. lia.
Qed.

Lemma iter_xO_value (p k : positive) :
  Z.pos (Pos.iter xO p k) = Z.pos p * 2 ^ Z.pos k.
Proof.
  induction k as [|k IH] using Pos.peano_ind.
  - cbn [Pos.iter]. change (2 ^ 1) with 2. lia.
  - rewrite Pos.iter_succ, Pos2Z.inj_succ, Z.pow_succ_r by lia.
    change (Z.pos (Pos.iter xO p k)~0) with (2 * Z.pos (Pos.iter xO p k)).
    rewrite IH. lia.
Qed.

Lemma iter_xO_digits (p k : positive) :
  digits2_pos (Pos.iter xO p k) = (digits2_pos p + k)%positive.
Proof.
  induction k as [|k IH] using Pos.peano_ind.
  - cbn [Pos.iter digits2_pos]. lia.
  - rewrite Pos.iter_succ. cbn [digits2_pos]. rewrite IH. lia.
Qed.

Lemma safe_digits (p : positive) :
  Z.pos p < 2 ^ 53 -> Z.pos (digits2_pos p) <= 53.
Proof.
  intros Hp. destruct (digits2_bounds p) as [Hlow _].
  destruct (Z.le_gt_cases (Z.pos (digits2_pos p)) 53) as [H|H]; [exact H|].
  exfalso.
  assert (2 ^ 53 <= 2 ^ (Z.pos (digits2_pos p) - 1))
    by (apply Z.pow_le_mono_r; lia).
  lia.
Qed.

Lemma binary_round_aux_exact (s : bool) (m : positive) (e : Z) :
  Z.pos (digits2_pos m) = 53 -> -1074 <= e <= 971 ->
  binary_round_aux 53 1024 s (Z.pos m) e loc_Exact = S754_finite s m e.
Proof.
  intros Hm He.
  assert (Hshift : fexp 53 1024 (Z.pos (digits2_pos m) + e) - e = 0).
  { unfold fexp, emin. rewrite Hm. lia. }
  unfold binary_round_aux, shr_fexp.
  cbn [Zdigits2 shr_record_of_loc]. rewrite Hshift.
  cbn [shr shr_m loc_of_shr_record round_nearest_even Zdigits2
       shr_record_of_loc].
  rewrite Hshift. cbn [shr shr_m].
  destruct (Z.leb_spec e (1024 - 53)); [reflexivity|lia].
Qed.

(** An integer below 2^53 is a number: its mantissa is the integer
    shifted to 53 digits. *)
Lemma binary_round_integer (s : bool) (p : positive) :
  Z.pos p < 2 ^ 53 ->
  exists m e,
    binary_round 53 1024 s p 0 = S754_finite s m e /\
    e = Z.pos (digits2_pos p) - 53 /\
    Z.pos m = Z.pos p * 2 ^ (- e).
Proof.
  intros Hp. pose proof (safe_digits p Hp) as Hd.
  unfold binary_round, shl_align.
  assert (Hexp : fexp 53 1024 (Z.pos (digits2_pos p) + 0)
                 = Z.pos (digits2_pos p) - 53).
  { unfold fexp, emin. lia. }
  rewrite Hexp.
  destruct (Z.pos (digits2_pos p) - 53 - 0) as [|q|q] eqn:Hshift.
  - exists p, 0. split; [|split; [lia|cbn; lia]].
    apply binary_round_aux_exact; lia.
  - lia.
  - exists (Pos.iter xO p q), (Z.pos (digits2_pos p) - 53).
    split; [|split; [lia|]].
    + apply binary_round_aux_exact; [|lia].
      rewrite iter_xO_digits. lia.
    + rewrite iter_xO_value. f_equal. f_equal. lia.
Qed.

Lemma integer_value_shifted (m p : positive) (e : Z) :
  e <= 0 -> Z.pos m = Z.pos p * 2 ^ (- e) ->
  integer_value m e = Some (Z.pos p).
Proof.
  intros He Hm. unfold integer_value.
  assert (Hpow : 0 < 2 ^ (- e)) by (apply Z.pow_pos_nonneg; lia).
  destruct (Z.leb_spec 0 e) as [H0|H0].
  - assert (e = 0) by lia. subst e. f_equal. rewrite Hm. cbn. lia.
  - rewrite Hm, Z.mod_mul by lia. cbn [Z.eqb].
    now rewrite Z.div_mul by lia.
Qed.

Lemma Number_of_Z_shape (z : Z) :
  - 2 ^ 53 < z < 2 ^ 53 ->
  match z with
  | 0 => Number_of_Z z = S754_zero false
  | Z.pos p | Z.neg p =>
      exists m e,
        Number_of_Z z = S754_finite (z <? 0) m e /\
        e = Z.pos (digits2_pos p) - 53 /\
        Z.pos m = Z.pos p * 2 ^ (- e)
  end.
Proof.
  intros Hz. destruct z as [|p|p]; [reflexivity| |];
    apply binary_round_integer; lia.
Qed.

Section IntegerFormat.

Variable shortest_decimal : spec_float -> string.

Lemma Number_toString_integer (z : Z) :
  - 2 ^ 53 < z < 2 ^ 53 ->
  Number_toString shortest_decimal (Number_of_Z z) = String_of_int z.
Proof.
  intros Hz. pose proof (Number_of_Z_shape z Hz) as Hshape.
  destruct z as [|p|p].
  - now rewrite Hshape.
  - destruct Hshape as (m & e & -> & He & Hm).
    pose proof (safe_digits p ltac:(lia)) as Hd.
    cbn [Number_toString].
    rewrite (integer_value_shifted m p e) by (assumption || lia).
    destruct (Z.leb_spec (Z.pos p) (2 ^ 53)); [reflexivity|lia].
  - destruct Hshape as (m & e & -> & He & Hm).
    pose proof (safe_digits p ltac:(lia)) as Hd.
    cbn [Number_toString].
    rewrite (integer_value_shifted m p e) by (assumption || lia).
    destruct (Z.leb_spec (Z.pos p) (2 ^ 53)); [reflexivity|lia].
Qed.

Lemma Number_ge_integer (z : Z) (k : positive) :
  - 2 ^ 53 < z < 2 ^ 53 -> Z.pos k < 2 ^ 53 ->
  Number_ge (Number_of_Z z) (Number_of_Z (Z.pos k)) = (Z.pos k <=? z).
Proof.
  intros Hz Hk.
  pose proof (Number_of_Z_shape z Hz) as Hshape.
  pose proof (Number_of_Z_shape (Z.pos k) ltac:(lia)) as Hkshape.
  destruct Hkshape as (mk & ek & -> & Hek & Hmk).
  destruct z as [|p|p].
  - rewrite Hshape. reflexivity.
  - destruct Hshape as (m & e & -> & He & Hm).
    unfold Number_ge, SFcompare. cbn [Z.ltb Z.compare].
    destruct (digits2_bounds p) as [Hp1 Hp2].
    destruct (digits2_bounds k) as [Hk1 Hk2].
    pose proof (safe_digits p ltac:(lia)) as Hdp.
    destruct (Z.compare_spec e ek) as [Heq|Hlt|Hgt].
    + subst ek.
      change (PosDef.Pos.compare_cont Eq m mk) with (Pos.compare m mk).
      rewrite Pos2Z.inj_compare, Hm, Hmk, <- Heq.
      assert (Hpow : 0 < 2 ^ (- e)) by (apply Z.pow_pos_nonneg; lia).
      revert Hpow. generalize (2 ^ (- e)). intros c Hc.
      destruct (Z.compare_spec (Z.pos p * c) (Z.pos k * c));
        destruct (Z.leb_spec (Z.pos k) (Z.pos p)); try reflexivity; nia.
    + assert (Hle : 2 ^ Z.pos (digits2_pos p)
                    <= 2 ^ (Z.pos (digits2_pos k) - 1))
        by (apply Z.pow_le_mono_r; lia).
      destruct (Z.leb_spec (Z.pos k) (Z.pos p)); [lia|reflexivity].
    + assert (Hle : 2 ^ Z.pos (digits2_pos k)
                    <= 2 ^ (Z.pos (digits2_pos p) - 1))
        by (apply Z.pow_le_mono_r; lia).
      destruct (Z.leb_spec (Z.pos k) (Z.pos p)); [reflexivity|lia].
  - destruct Hshape as (m & e & -> & He & Hm). reflexivity.
Qed.

Lemma Number_isNaN_integer (z : Z) :
  - 2 ^ 53 < z < 2 ^ 53 -> Number_isNaN (Number_of_Z z) = false.
Proof.
  intros Hz. pose proof (Number_of_Z_shape z Hz) as Hshape.
  destruct z as [|p|p]; [now rewrite Hshape| |];
    destruct Hshape as (m & e & -> & _); reflexivity.
Qed.

(** X23.  A count below one thousand is written out as the integer it
    is, and so is every negative number, however large: neither gets a
    unit.  This for the integers that a number holds exactly. *)
Theorem formatNumber_below_thousand (n : Z) :
  - 2 ^ 53 < n < 1000 ->
  formatNumber shortest_decimal (number (Number_of_Z n)) = String_of_int n /\
  formatCount shortest_decimal (number (Number_of_Z n)) = String_of_int n /\
  formatCurrency shortest_decimal (number (Number_of_Z n))
  = ("₹" ++ String_of_int n)%string.
Proof.
  intros Hn.
  assert (Hsafe : - 2 ^ 53 < n < 2 ^ 53) by lia.
  unfold formatNumber, formatCount, formatCurrency.
  rewrite (Number_isNaN_integer n Hsafe).
  rewrite !Number_ge_integer by (assumption || reflexivity).
  destruct (Z.leb_spec 10000000 n); [lia|].
  destruct (Z.leb_spec 100000 n); [lia|].
  destruct (Z.leb_spec 1000 n); [lia|].
  now rewrite (Number_toString_integer n Hsafe).
Qed.

End IntegerFormat.

Lemma formatNumber_below_thousand_witness :
  (- 2 ^ 53 < -5000000 < 1000) /\
  formatNumber (fun _ => "") (number (Number_of_Z (-5000000))) = "-5000000" /\
  formatCount (fun _ => "") (number (Number_of_Z (-5000000))) = "-5000000" /\
  formatCurrency (fun _ => "") (number (Number_of_Z (-5000000)))
  = "₹-5000000".
Proof.
  assert (H : - 2 ^ 53 < -5000000 < 1000) by lia.
  split; [exact H|].
  exact (formatNumber_below_thousand (fun _ => "") (-5000000) H).
Defined.

(** ** Document cache and loader, in every state *)

Lemma Map_get_set_other {V} (m : Map V) k k' v :
  k' <> k -> Map_get (Map_set m k v) k' = Map_get m k'.
Proof.
  intros Hne. induction m as [|[k0 v0] m IH]; cbn [Map_set Map_get].
  - destruct (String.eqb_spec k k'); [congruence|reflexivity].
  - destruct (String.eqb_spec k0 k) as [->|Hk0]; cbn [Map_get].
    + destruct (String.eqb_spec k k'); [congruence|reflexivity].
    + destruct (String.eqb_spec k0 k'); [reflexivity|exact IH].
Qed.

Lemma Map_get_set_kept {V} (m : Map V) k k' v d :
  Map_get m k = None -> Map_get m k' = Some d ->
  Map_get (Map_set m k v) k' = Some d.
Proof.
  intros Hk Hk'. rewrite Map_get_set_other; [exact Hk'|].
  intros ->. congruence.
Qed.

Lemma length_append (a b : string) :
  String.length (a ++ b) = (String.length a + String.length b)%nat.
Proof. induction a as [|c a IH]; cbn; [reflexivity|now rewrite IH]. Qed.

Section LoaderShapeFacts.

Variable Document : Type.
Variable network : list string -> string -> result (Response Document).
Variable metrics_of : Document -> option OptimizedMetrics.

Ltac run_shape :=
  unfold viewing_loader, fetching_loader, cached_or, try_catch, await,
    fetch, throw, ret, response_json, dataCache_set, console_error, sync,
    document_metrics;
  cbn [dataCache requests console fst snd].

Lemma grows_refl (w : World Document) : grows Document w w.
Proof.
  split; [auto|]. split.
  - exists []. split; [now rewrite List.app_nil_r|cbn; lia].
  - exists []. now rewrite List.app_nil_r.
Qed.

Variable cacheKey : string.
Variable url : string.
Variable label : string.
Variable message : Z -> string.

Lemma fetching_never_evicts :
  never_evicts Document
    (fetching_loader Document network cacheKey url label message).
Proof.
  intros w. run_shape.
  destruct (Map_get (dataCache _ w) cacheKey) as [cached|] eqn:Hkey;
    [apply grows_refl|].
  assert (Hsent : exists sent,
    requests _ w ++ [url] = requests _ w ++ sent /\
    (List.length sent <= 1)%nat) by (exists [url]; split; [reflexivity|cbn; lia]).
  destruct (network (requests _ w) url) as [response|e];
    [destruct (ok _ response); cbn [negb];
     [destruct (json _ response) as [data|e]|]|];
    cbn [dataCache requests console fst snd];
    (split; [|split; [exact Hsent|]]);
    try (intros key data' Hget; cbn [dataCache];
         first [exact Hget|now apply Map_get_set_kept]);
    first [ exists []; now rewrite List.app_nil_r
          | eexists; reflexivity ].
Qed.

Lemma fetching_returns_cached :
  returns_cached Document
    (fetching_loader Document network cacheKey url label message) cacheKey.
Proof.
  intros w data w'. run_shape.
  destruct (Map_get (dataCache _ w) cacheKey) as [cached|] eqn:Hkey.
  - intros H. injection H as <- <-. now rewrite Hkey.
  - destruct (network (requests _ w) url) as [response|e];
      [destruct (ok _ response); cbn [negb];
       [destruct (json _ response) as [fetched|e]|]|];
      intros H; try discriminate H.
    injection H as <- <-. cbn [dataCache].
    now rewrite Map_get_set_same.
Qed.

(** A raise of a loader that fetches leaves the cache as it was, sends
    one request and writes one line. *)
Lemma fetching_raise (w w' : World Document) (e : exn) :
  fetching_loader Document network cacheKey url label message w
  = (Throw e, w') ->
  Map_get (dataCache _ w) cacheKey = None /\
  dataCache _ w' = dataCache _ w /\
  requests _ w' = requests _ w ++ [url] /\
  console _ w' = console _ w ++ [(label, e)].
Proof.
  run_shape.
  destruct (Map_get (dataCache _ w) cacheKey) as [cached|] eqn:Hkey;
    [discriminate|].
  destruct (network (requests _ w) url) as [response|e'];
    [destruct (ok _ response); cbn [negb];
     [destruct (json _ response) as [fetched|e']|]|];
    intros H; try discriminate H;
    injection H as <- <-; repeat split.
Qed.

Lemma fetching_raises_logged :
  raises_logged Document
    (fetching_loader Document network cacheKey url label message)
    cacheKey label.
Proof.
  intros w e w' H.
  destruct (fetching_raise w w' e H) as (Hkey & Hcache & _ & Hconsole).
  split; [now rewrite Hcache|].
  exists []. exact Hconsole.
Qed.

(** A return of a loader that fetches. *)
Lemma fetching_return (w w' : World Document) (data : Document) :
  fetching_loader Document network cacheKey url label message w
  = (Ok data, w') ->
  (Map_get (dataCache _ w) cacheKey = Some data /\ w' = w) \/
  (Map_get (dataCache _ w) cacheKey = None /\
   dataCache _ w' = Map_set (dataCache _ w) cacheKey data /\
   requests _ w' = requests _ w ++ [url] /\
   console _ w' = console _ w).
Proof.
  run_shape.
  destruct (Map_get (dataCache _ w) cacheKey) as [cached|] eqn:Hkey.
  - intros H. injection H as <- <-. now left.
  - destruct (network (requests _ w) url) as [response|e'];
      [destruct (ok _ response); cbn [negb];
       [destruct (json _ response) as [fetched|e']|]|];
      intros H; try discriminate H.
    injection H as <- <-. right. repeat split.
Qed.

Variable viewKey : string.
Variable viewLabel : string.
Variable filter : OptimizedMetrics -> result OptimizedMetrics.
Variable view : Document -> OptimizedMetrics -> Document.

Let base_load :=
  fetching_loader Document network cacheKey url label message.

Let view_load :=
  viewing_loader Document metrics_of base_load viewKey viewLabel filter view.

Lemma viewing_never_evicts : never_evicts Document view_load.
Proof.
  intros w. unfold view_load, viewing_loader, cached_or.
  destruct (Map_get (dataCache _ w) viewKey) as [cached|] eqn:Hkey;
    [apply grows_refl|].
  destruct (fetching_never_evicts w) as (Hkeep & Hsent & (lines & Hlines)).
  fold base_load in Hkeep, Hsent, Hlines.
  unfold try_catch, await at 1.
  destruct (base_load w) as [[fullData|e] w1] eqn:Hrun;
    cbn [snd] in Hkeep, Hsent, Hlines.
  - unfold sync, await at 1.
    destruct (metrics <- document_metrics Document metrics_of fullData ;;
              filter metrics) as [filtered|e].
    + unfold await, dataCache_set, ret. cbn [snd].
      split; [|split]; cbn [dataCache requests console].
      * intros key data Hget.
        rewrite Map_get_set_other; [now apply Hkeep|].
        intros ->. congruence.
      * exact Hsent.
      * now exists lines.
    + unfold await, console_error, throw. cbn [snd].
      split; [|split]; cbn [dataCache requests console].
      * exact Hkeep.
      * exact Hsent.
      * eexists. rewrite Hlines, <- List.app_assoc. reflexivity.
  - unfold await, console_error, throw. cbn [snd].
    split; [|split]; cbn [dataCache requests console].
    + exact Hkeep.
    + exact Hsent.
    + eexists. rewrite Hlines, <- List.app_assoc. reflexivity.
Qed.

Lemma viewing_returns_cached : returns_cached Document view_load viewKey.
Proof.
  intros w data w'. unfold view_load, viewing_loader, cached_or.
  destruct (Map_get (dataCache _ w) viewKey) as [cached|] eqn:Hkey.
  - intros H. injection H as <- <-. now rewrite Hkey.
  - unfold try_catch, await at 1.
    destruct (base_load w) as [[fullData|e] w1].
    + unfold sync, await at 1.
      destruct (metrics <- document_metrics Document metrics_of fullData ;;
                filter metrics) as [filtered|e].
      * unfold await, dataCache_set, ret. intros H. injection H as <- <-.
        cbn [dataCache]. now rewrite Map_get_set_same.
      * unfold await, console_error, throw. discriminate.
    + unfold await, console_error, throw. discriminate.
Qed.

Lemma viewing_raises_logged :
  viewKey <> cacheKey ->
  raises_logged Document view_load viewKey viewLabel.
Proof.
  intros Hne w e w'. unfold view_load, viewing_loader, cached_or.
  destruct (Map_get (dataCache _ w) viewKey) as [cached|] eqn:Hkey;
    [discriminate|].
  unfold try_catch, await at 1.
  destruct (base_load w) as [[fullData|e0] w1] eqn:Hrun.
  - unfold sync, await at 1.
    destruct (metrics <- document_metrics Document metrics_of fullData ;;
              filter metrics) as [filtered|e1].
    + unfold await, dataCache_set, ret. discriminate.
    + unfold await, console_error, throw. intros H. injection H as <- <-.
      cbn [dataCache console].
      apply fetching_return in Hrun
        as [[_ ->]|(_ & Hcache & _ & Hconsole)].
      * split; [exact Hkey|]. now exists [].
      * split.
        -- rewrite Hcache, Map_get_set_other by exact Hne. exact Hkey.
        -- exists []. now rewrite Hconsole.
  - unfold await, console_error, throw. intros H. injection H as <- <-.
    cbn [dataCache console].
    apply fetching_raise in Hrun as (_ & Hcache & _ & Hconsole).
    split; [now rewrite Hcache|].
    exists [(label, e0)]. now rewrite Hconsole, <- List.app_assoc.
Qed.

Lemma viewing_cached_base :
  views_cached_base Document view_load viewKey cacheKey viewLabel
    (fun data =>
       metrics <- document_metrics Document metrics_of data ;;
       filtered <- filter metrics ;;
       Ok (view data filtered)).
Proof.
  intros w data Hkey Hbase.
  unfold view_load, viewing_loader, base_load, fetching_loader, cached_or.
  rewrite Hkey. unfold try_catch, await at 1. rewrite Hbase.
  unfold sync, await at 1.
  destruct (document_metrics Document metrics_of data) as [metrics|e];
    cbn [bind]; [destruct (filter metrics) as [filtered|e]|];
    reflexivity.
Qed.

(** After a view has been loaded and stored, the full document is in the
    cache. *)
Lemma viewing_leaves_base_cached (w w1 : World Document)
  (viewed : Document) :
  viewKey <> cacheKey ->
  Map_get (dataCache _ w) viewKey = None ->
  view_load w = (Ok viewed, w1) ->
  exists data, Map_get (dataCache _ w1) cacheKey = Some data.
Proof.
  intros Hne Hkey. unfold view_load, viewing_loader, cached_or.
  rewrite Hkey. unfold try_catch, await at 1.
  destruct (base_load w) as [[fullData|e0] w0] eqn:Hrun.
  - unfold sync, await at 1.
    destruct (metrics <- document_metrics Document metrics_of fullData ;;
              filter metrics) as [filtered|e1].
    + unfold await, dataCache_set, ret. intros H. injection H as _ <-.
      cbn [dataCache]. exists fullData.
      rewrite Map_get_set_other by (intros Heq; now apply Hne).
      apply fetching_return in Hrun as [[Hc ->]|(_ & -> & _)];
        [exact Hc|apply Map_get_set_same].
    + unfold await, console_error, throw. discriminate.
  - unfold await, console_error, throw. discriminate.
Qed.

(** A view of a document that is in the cache sends no request. *)
Lemma viewing_without_request (w : World Document) (data : Document) :
  Map_get (dataCache _ w) viewKey = None ->
  Map_get (dataCache _ w) cacheKey = Some data ->
  requests _ (snd (view_load w)) = requests _ w.
Proof.
  intros Hkey Hbase. rewrite (viewing_cached_base w data Hkey Hbase).
  destruct (metrics <- document_metrics Document metrics_of data ;;
            filtered <- filter metrics ;; Ok (view data filtered));
    reflexivity.
Qed.

End LoaderShapeFacts.

Section LoaderStateFacts.

Variable Document : Type.
Variable network : list string -> string -> result (Response Document).
Variable metrics_of : Document -> option OptimizedMetrics.
Variable country_view : Document -> OptimizedMetrics -> Document.
Variable state_view : Document -> OptimizedMetrics -> Document.

Lemma loadCountryData_shape :
  loadCountryData Document network
  = fetching_loader Document network
      "country" "/data/country.json" "Error loading country data:"
      (fun status =>
         "Failed to load country data: " ++ String_of_int status)%string.
Proof. reflexivity. Qed.

Lemma loadStatesIndex_shape :
  loadStatesIndex Document network
  = fetching_loader Document network
      "states-index" "/data/states.json" "Error loading states index:"
      (fun status =>
         "Failed to load states index: " ++ String_of_int status)%string.
Proof. reflexivity. Qed.

Lemma loadStateData_shape (state : string) :
  loadStateData Document network state
  = fetching_loader Document network
      ("state-" ++ state)%string
      ("/data/state_" ++ state ++ ".json")%string
      ("Error loading state data for " ++ state ++ ":")%string
      (fun status =>
         "Failed to load state data for " ++ state ++ ": " ++
         String_of_int status)%string.
Proof. reflexivity. Qed.

Lemma loadRTOData_shape (state rto : string) :
  loadRTOData Document network state rto
  = fetching_loader Document network
      ("rto-" ++ state ++ "-" ++ rto)%string
      ("/data/rto_" ++ state ++ "_" ++ rto ++ ".json")%string
      ("Error loading RTO data for " ++ state ++ "-" ++ rto ++ ":")%string
      (fun status =>
         "Failed to load RTO data for " ++ state ++ "-" ++ rto ++ ": " ++
         String_of_int status)%string.
Proof. reflexivity. Qed.

Lemma loadCountryYearData_shape (y : Z) :
  loadCountryYearData Document network metrics_of country_view y
  = viewing_loader Document metrics_of
      (fetching_loader Document network
         "country" "/data/country.json" "Error loading country data:"
         (fun status =>
            "Failed to load country data: " ++ String_of_int status)%string)
      ("country-year-" ++ String_of_int y)%string
      ("Error loading country year data for " ++ String_of_int y ++
       ":")%string
      (fun metrics => filterMetricsByYear metrics y)
      country_view.
Proof. reflexivity. Qed.

Lemma loadCountryMonthData_shape (y mo : Z) :
  loadCountryMonthData Document network metrics_of country_view y mo
  = viewing_loader Document metrics_of
      (fetching_loader Document network
         "country" "/data/country.json" "Error loading country data:"
         (fun status =>
            "Failed to load country data: " ++ String_of_int status)%string)
      ("country-month-" ++ String_of_int y ++ "-" ++
       String_of_int mo)%string
      ("Error loading country month data for " ++ String_of_int y ++ "-" ++
       String_of_int mo ++ ":")%string
      (fun metrics => filterMetricsByYearMonth metrics y mo)
      country_view.
Proof. reflexivity. Qed.

Lemma loadStateYearData_shape (state : string) (y : Z) :
  loadStateYearData Document network metrics_of state_view state y
  = viewing_loader Document metrics_of
      (fetching_loader Document network
         ("state-" ++ state)%string
         ("/data/state_" ++ state ++ ".json")%string
         ("Error loading state data for " ++ state ++ ":")%string
         (fun status =>
            "Failed to load state data for " ++ state ++ ": " ++
            String_of_int status)%string)
      ("state-year-" ++ state ++ "-" ++ String_of_int y)%string
      ("Error loading state year data for " ++ state ++ "-" ++
       String_of_int y ++ ":")%string
      (fun metrics => filterMetricsByYear metrics y)
      state_view.
Proof. reflexivity. Qed.

Lemma loadStateMonthData_shape (state : string) (y mo : Z) :
  loadStateMonthData Document network metrics_of state_view state y mo
  = viewing_loader Document metrics_of
      (fetching_loader Document network
         ("state-" ++ state)%string
         ("/data/state_" ++ state ++ ".json")%string
         ("Error loading state data for " ++ state ++ ":")%string
         (fun status =>
            "Failed to load state data for " ++ state ++ ": " ++
            String_of_int status)%string)
      ("state-month-" ++ state ++ "-" ++ String_of_int y ++ "-" ++
       String_of_int mo)%string
      ("Error loading state month data for " ++ state ++ "-" ++
       String_of_int y ++ "-" ++ String_of_int mo ++ ":")%string
      (fun metrics => filterMetricsByYearMonth metrics y mo)
      state_view.
Proof. reflexivity. Qed.

Lemma country_view_key (rest : string) :
  ("country-" ++ rest)%string <> "country"%string.
Proof. cbn [append]. discriminate. Qed.

Lemma state_view_key (kind state rest : string) :
  ("state-" ++ kind ++ "-" ++ state ++ "-" ++ rest)%string
  <> ("state-" ++ state)%string.
Proof.
  intros H. apply (f_equal String.length) in H.
  rewrite !length_append in H. cbn [String.length] in H. lia.
Qed.

Ltac loader_shapes :=
  rewrite ?loadCountryData_shape, ?loadStatesIndex_shape,
    ?loadStateData_shape, ?loadRTOData_shape, ?loadCountryYearData_shape,
    ?loadCountryMonthData_shape, ?loadStateYearData_shape,
    ?loadStateMonthData_shape.

(** X24.  No call of a loader removes a document from the cache or puts
    another in its place; a call sends one request at most, and the list
    of requests and the console only grow. *)
Theorem loaders_never_evict (state rto : string) (y mo : Z) :
  never_evicts Document (loadCountryData Document network) /\
  never_evicts Document (loadStatesIndex Document network) /\
  never_evicts Document (loadStateData Document network state) /\
  never_evicts Document (loadRTOData Document network state rto) /\
  never_evicts Document
    (loadCountryYearData Document network metrics_of country_view y) /\
  never_evicts Document
    (loadCountryMonthData Document network metrics_of country_view y mo) /\
  never_evicts Document
    (loadStateYearData Document network metrics_of state_view state y) /\
  never_evicts Document
    (loadStateMonthData Document network metrics_of state_view state y mo).
Proof.
  loader_shapes.
  repeat apply conj;
    first [apply fetching_never_evicts|apply viewing_never_evicts].
Qed.

(** X25.  Whenever a loader returns a document, the document is in the
    cache under the key of the loader, and the next call returns the same
    document and leaves the state as it is: no request, no line on the
    console. *)
Theorem loaders_return_what_is_cached (state rto : string) (y mo : Z) :
  returns_cached Document (loadCountryData Document network) "country" /\
  returns_cached Document (loadStatesIndex Document network)
    "states-index" /\
  returns_cached Document (loadStateData Document network state)
    ("state-" ++ state)%string /\
  returns_cached Document (loadRTOData Document network state rto)
    ("rto-" ++ state ++ "-" ++ rto)%string /\
  returns_cached Document
    (loadCountryYearData Document network metrics_of country_view y)
    ("country-year-" ++ String_of_int y)%string /\
  returns_cached Document
    (loadCountryMonthData Document network metrics_of country_view y mo)
    ("country-month-" ++ String_of_int y ++ "-" ++ String_of_int mo)%string /\
  returns_cached Document
    (loadStateYearData Document network metrics_of state_view state y)
    ("state-year-" ++ state ++ "-" ++ String_of_int y)%string /\
  returns_cached Document
    (loadStateMonthData Document network metrics_of state_view state y mo)
    ("state-month-" ++ state ++ "-" ++ String_of_int y ++ "-" ++
     String_of_int mo)%string.
Proof.
  loader_shapes.
  repeat apply conj;
    first [apply fetching_returns_cached|apply viewing_returns_cached].
Qed.

(** X26.  Whenever a loader raises an exception (the request failed, the
    response was not ok, its body did not parse, or the filter raised),
    the exception is the last line written to the console, under the
    label of the loader, and the cache holds nothing under its key. *)
Theorem loaders_log_what_they_raise (state rto : string) (y mo : Z) :
  raises_logged Document (loadCountryData Document network)
    "country" "Error loading country data:" /\
  raises_logged Document (loadStatesIndex Document network)
    "states-index" "Error loading states index:" /\
  raises_logged Document (loadStateData Document network state)
    ("state-" ++ state)%string
    ("Error loading state data for " ++ state ++ ":")%string /\
  raises_logged Document (loadRTOData Document network state rto)
    ("rto-" ++ state ++ "-" ++ rto)%string
    ("Error loading RTO data for " ++ state ++ "-" ++ rto ++ ":")%string /\
  raises_logged Document
    (loadCountryYearData Document network metrics_of country_view y)
    ("country-year-" ++ String_of_int y)%string
    ("Error loading country year data for " ++ String_of_int y ++
     ":")%string /\
  raises_logged Document
    (loadCountryMonthData Document network metrics_of country_view y mo)
    ("country-month-" ++ String_of_int y ++ "-" ++ String_of_int mo)%string
    ("Error loading country month data for " ++ String_of_int y ++ "-" ++
     String_of_int mo ++ ":")%string /\
  raises_logged Document
    (loadStateYearData Document network metrics_of state_view state y)
    ("state-year-" ++ state ++ "-" ++ String_of_int y)%string
    ("Error loading state year data for " ++ state ++ "-" ++
     String_of_int y ++ ":")%string /\
  raises_logged Document
    (loadStateMonthData Document network metrics_of state_view state y mo)
    ("state-month-" ++ state ++ "-" ++ String_of_int y ++ "-" ++
     String_of_int mo)%string
    ("Error loading state month data for " ++ state ++ "-" ++
     String_of_int y ++ "-" ++ String_of_int mo ++ ":")%string.
Proof.
  loader_shapes.
  repeat apply conj;
    first
      [ apply fetching_raises_logged
      | apply viewing_raises_logged;
        first
          [ apply (country_view_key ("year-" ++ String_of_int y))
          | apply (country_view_key
                     ("month-" ++ String_of_int y ++ "-" ++
                      String_of_int mo))
          | apply (state_view_key "year" state (String_of_int y))
          | apply (state_view_key "month" state
                     (String_of_int y ++ "-" ++ String_of_int mo)) ] ].
Qed.

(** X27.  A year or a month view of a document that is in the cache is
    built without a request: the view is stored under the key of the view
    and returned; if the document has no metrics, or a series that is not
    an array, the [TypeError] is written to the console and raised, and
    nothing is stored. *)
Theorem views_of_cached_documents (state : string) (y mo : Z) :
  views_cached_base Document
    (loadCountryYearData Document network metrics_of country_view y)
    ("country-year-" ++ String_of_int y)%string "country"
    ("Error loading country year data for " ++ String_of_int y ++
     ":")%string
    (fun data =>
       metrics <- document_metrics Document metrics_of data ;;
       filtered <- filterMetricsByYear metrics y ;;
       Ok (country_view data filtered)) /\
  views_cached_base Document
    (loadCountryMonthData Document network metrics_of country_view y mo)
    ("country-month-" ++ String_of_int y ++ "-" ++ String_of_int mo)%string
    "country"
    ("Error loading country month data for " ++ String_of_int y ++ "-" ++
     String_of_int mo ++ ":")%string
    (fun data =>
       metrics <- document_metrics Document metrics_of data ;;
       filtered <- filterMetricsByYearMonth metrics y mo ;;
       Ok (country_view data filtered)) /\
  views_cached_base Document
    (loadStateYearData Document network metrics_of state_view state y)
    ("state-year-" ++ state ++ "-" ++ String_of_int y)%string
    ("state-" ++ state)%string
    ("Error loading state year data for " ++ state ++ "-" ++
     String_of_int y ++ ":")%string
    (fun data =>
       metrics <- document_metrics Document metrics_of data ;;
       filtered <- filterMetricsByYear metrics y ;;
       Ok (state_view data filtered)) /\
  views_cached_base Document
    (loadStateMonthData Document network metrics_of state_view state y mo)
    ("state-month-" ++ state ++ "-" ++ String_of_int y ++ "-" ++
     String_of_int mo)%string
    ("state-" ++ state)%string
    ("Error loading state month data for " ++ state ++ "-" ++
     String_of_int y ++ "-" ++ String_of_int mo ++ ":")%string
    (fun data =>
       metrics <- document_metrics Document metrics_of data ;;
       filtered <- filterMetricsByYearMonth metrics y mo ;;
       Ok (state_view data filtered)).
Proof.
  loader_shapes.
  repeat apply conj; apply viewing_cached_base.
Qed.

(** X28.  One request serves all the views of a document: after a year
    view has been loaded, the views of other years and of months are built
    without a request, for the country and for a state alike. *)
Theorem views_share_one_request (state : string) (y y' mo' : Z)
  (w w1 : World Document) (viewed : Document) :
  (Map_get (dataCache _ w) ("country-year-" ++ String_of_int y)%string
   = None ->
   loadCountryYearData Document network metrics_of country_view y w
   = (Ok viewed, w1) ->
   (Map_get (dataCache _ w1) ("country-year-" ++ String_of_int y')%string
    = None ->
    requests _
      (snd (loadCountryYearData Document network metrics_of country_view
              y' w1))
    = requests _ w1) /\
   (Map_get (dataCache _ w1)
      ("country-month-" ++ String_of_int y' ++ "-" ++
       String_of_int mo')%string
    = None ->
    requests _
      (snd (loadCountryMonthData Document network metrics_of country_view
              y' mo' w1))
    = requests _ w1)) /\
  (Map_get (dataCache _ w)
     ("state-year-" ++ state ++ "-" ++ String_of_int y)%string
   = None ->
   loadStateYearData Document network metrics_of state_view state y w
   = (Ok viewed, w1) ->
   (Map_get (dataCache _ w1)
      ("state-year-" ++ state ++ "-" ++ String_of_int y')%string
    = None ->
    requests _
      (snd (loadStateYearData Document network metrics_of state_view
              state y' w1))
    = requests _ w1) /\
   (Map_get (dataCache _ w1)
      ("state-month-" ++ state ++ "-" ++ String_of_int y' ++ "-" ++
       String_of_int mo')%string
    = None ->
    requests _
      (snd (loadStateMonthData Document network metrics_of state_view
              state y' mo' w1))
    = requests _ w1)).
Proof.
  loader_shapes. split.
  - intros Hkey Hrun.
    apply viewing_leaves_base_cached in Hrun as [data Hbase];
      [|apply (country_view_key ("year-" ++ String_of_int y))|exact Hkey].
    split; intros Hkey'; now apply (viewing_without_request) with data.
  - intros Hkey Hrun.
    apply viewing_leaves_base_cached in Hrun as [data Hbase];
      [|apply (state_view_key "year" state (String_of_int y))|exact Hkey].
    split; intros Hkey'; now apply (viewing_without_request) with data.
Qed.

End LoaderStateFacts.

(** *** Keys of the cache *)

Lemma rto_key_parts (state rto state' rto' : string) :
  no_hyphen state = true -> no_hyphen state' = true ->
  (state ++ "-" ++ rto)%string = (state' ++ "-" ++ rto')%string ->
  state = state' /\ rto = rto'.
Proof.
  revert state'. induction state as [|c state IH]; intros state' Hs Hs' Heq.
  - destruct state' as [|c' state']; cbn in Heq.
    + now injection Heq as ->.
    + injection Heq as <- _. cbn in Hs'. discriminate.
  - destruct state' as [|c' state']; cbn in Heq.
    + injection Heq as -> _. cbn in Hs. discriminate.
    + injection Heq as -> Heq. cbn in Hs, Hs'.
      apply andb_true_iff in Hs as [_ Hs].
      apply andb_true_iff in Hs' as [_ Hs'].
      destruct (IH state' Hs Hs' Heq) as [-> ->]. now split.
Qed.

Section CacheKeyFacts.

Variable Document : Type.
Variable network : list string -> string -> result (Response Document).

Lemma fetching_uncached_requests (cacheKey url label : string)
  (message : Z -> string) (w : World Document) :
  Map_get (dataCache _ w) cacheKey = None ->
  requests _
    (snd (fetching_loader Document network cacheKey url label message w))
  = requests _ w ++ [url].
Proof.
  intros Hkey.
  unfold fetching_loader, cached_or, try_catch, await, fetch, throw, ret,
    response_json, dataCache_set, console_error.
  cbn [dataCache requests console]. rewrite Hkey.
  destruct (network (requests _ w) url) as [response|e];
    [destruct (ok _ response); cbn [negb];
     [destruct (json _ response)|]|];
    reflexivity.
Qed.

(** X29.  The documents of two offices are kept apart in the cache, when
    the codes of their states hold no hyphen: after the document of one
    office has been loaded, the first call for another office still sends
    its request. *)
Theorem rto_documents_kept_apart (state rto state' rto' : string)
  (w w1 : World Document) (data : Document) :
  no_hyphen state = true -> no_hyphen state' = true ->
  (state, rto) <> (state', rto') ->
  Map_get (dataCache _ w) ("rto-" ++ state' ++ "-" ++ rto')%string = None ->
  loadRTOData Document network state rto w = (Ok data, w1) ->
  requests _ (snd (loadRTOData Document network state' rto' w1))
  = requests _ w1 ++ ["/data/rto_" ++ state' ++ "_" ++ rto' ++ ".json"]%string.
Proof.
  intros Hs Hs' Hne Hkey Hrun.
  rewrite loadRTOData_shape in *.
  apply fetching_uncached_requests.
  apply fetching_return in Hrun as [[_ ->]|(_ & -> & _)]; [exact Hkey|].
  rewrite Map_get_set_other; [exact Hkey|].
  intros Heq. cbn [append] in Heq. injection Heq as Heq.
  apply rto_key_parts in Heq as [-> ->]; [|assumption..].
  now apply Hne.
Qed.

End CacheKeyFacts.

Lemma rto_documents_kept_apart_witness :
  let w1 := snd (loadRTOData string echo_network "KA" "1" empty_cache) in
  no_hyphen "KA" = true /\ no_hyphen "KA" = true /\
  ("KA", "1") <> ("KA", "2") /\
  loadRTOData string echo_network "KA" "1" empty_cache
  = (Ok "/data/rto_KA_1.json", w1) /\
  requests _ (snd (loadRTOData string echo_network "KA" "2" w1))
  = ["/data/rto_KA_1.json"; "/data/rto_KA_2.json"].
Proof.
  intros w1.
  assert (Hne : ("KA", "1") <> ("KA", "2")) by discriminate.
  split; [reflexivity|]. split; [reflexivity|]. split; [exact Hne|].
  split; [reflexivity|].
  exact (rto_documents_kept_apart string echo_network "KA" "1" "KA" "2"
           empty_cache w1 "/data/rto_KA_1.json"
           eq_refl eq_refl Hne eq_refl eq_refl).
Defined.

(** With a hyphen in the code of a state two offices share a key: the
    second call is answered from the cache with the document of the
    first. *)
Example rto_keys_with_hyphen :
  let w1 := snd (loadRTOData string echo_network "A-B" "C" empty_cache) in
  loadRTOData string echo_network "A" "B-C" w1
  = (Ok "/data/rto_A-B_C.json", w1).
Proof. reflexivity. Qed.

(** *** The loaders run *)

Lemma loaders_never_evict_witness :
  grows Z empty_world (snd (loadStateData Z flaky_network "KA" empty_world)) /\
  requests Z (snd (loadStateData Z flaky_network "KA" empty_world))
  = ["/data/state_KA.json"].
Proof.
  split; [|reflexivity].
  exact (proj1 (proj2 (proj2
    (loaders_never_evict Z flaky_network (fun _ => None)
       (fun d _ => d) (fun d _ => d) "KA" "1" 2022 1))) empty_world).
Defined.

Lemma loaders_return_what_is_cached_witness :
  let w1 := snd (loadStateData Z flaky_network "KA" empty_world) in
  let w2 := snd (loadStateData Z flaky_network "KA" w1) in
  loadStateData Z flaky_network "KA" w1 = (Ok 42, w2) /\
  Map_get (dataCache Z w2) "state-KA" = Some 42 /\
  loadStateData Z flaky_network "KA" w2 = (Ok 42, w2).
Proof.
  intros w1 w2. split; [reflexivity|].
  exact (proj1 (proj2 (proj2
    (loaders_return_what_is_cached Z flaky_network (fun _ => None)
       (fun d _ => d) (fun d _ => d) "KA" "1" 2022 1)))
    w1 42 w2 eq_refl).
Defined.

Lemma loaders_log_what_they_raise_witness :
  let w1 := snd (loadStateData Z flaky_network "KA" empty_world) in
  loadStateData Z flaky_network "KA" empty_world
  = (Throw (Error "Failed to load state data for KA: 404"), w1) /\
  Map_get (dataCache Z w1) "state-KA" = None /\
  exists lines,
    console Z w1
    = console Z empty_world ++ lines ++
      [("Error loading state data for KA:",
        Error "Failed to load state data for KA: 404")].
Proof.
  intros w1. split; [reflexivity|].
  exact (proj1 (proj2 (proj2
    (loaders_log_what_they_raise Z flaky_network (fun _ => None)
       (fun d _ => d) (fun d _ => d) "KA" "1" 2022 1)))
    empty_world _ w1 eq_refl).
Defined.

Lemma views_of_cached_documents_witness :
  Map_get (dataCache _ country_cached) "country-year-2022" = None /\
  Map_get (dataCache _ country_cached) "country" = Some scenario /\
  loadCountryYearData OptimizedMetrics scenario_network Some (fun _ m => m)
    2022 country_cached
  = (Ok [("Transaction",
          [("X", TimeSeries [point 2022 1 10; point 2022 2 20])])],
     {| dataCache :=
          [("country", scenario);
           ("country-year-2022",
            [("Transaction",
              [("X", TimeSeries [point 2022 1 10; point 2022 2 20])])])];
        requests := [];
        console := [] |}).
Proof.
  split; [reflexivity|]. split; [reflexivity|].
  rewrite (proj1
    (views_of_cached_documents OptimizedMetrics scenario_network Some
       (fun _ m => m) (fun _ m => m) "KA" 2022 1)
    country_cached scenario eq_refl eq_refl).
  reflexivity.
Defined.

Lemma views_share_one_request_witness :
  let w1 :=
    snd (loadCountryYearData OptimizedMetrics scenario_network Some
           (fun _ m => m) 2022 no_documents) in
  loadCountryYearData OptimizedMetrics scenario_network Some (fun _ m => m)
    2022 no_documents
  = (Ok [("Transaction",
          [("X", TimeSeries [point 2022 1 10; point 2022 2 20])])], w1) /\
  requests _ w1 = ["/data/country.json"] /\
  requests _
    (snd (loadCountryMonthData OptimizedMetrics scenario_network Some
            (fun _ m => m) 2023 1 w1))
  = ["/data/country.json"].
Proof.
  intros w1. split; [reflexivity|]. split; [reflexivity|].
  exact (proj2
    (proj1
       (views_share_one_request OptimizedMetrics scenario_network Some
          (fun _ m => m) (fun _ m => m) "KA" 2022 2023 1 no_documents w1 _)
       eq_refl eq_refl)
    eq_refl).
Defined.

(** ** Ranking and totals *)



Section RankingTotals.

Variable localeCompare : string -> string -> Z.

Hypothesis collation_total :
  forall a b, localeCompare a b <= 0 \/ localeCompare b a <= 0.
Hypothesis collation_trans :
  forall a b c,
    localeCompare a b <= 0 -> localeCompare b c <= 0 ->
    localeCompare a c <= 0.


End RankingTotals.


(** * The totals as numbers *)

(** ** Additions that are exact *)

Lemma shr_1_even (z : Z) :
  0 < z ->
  shr_1 {| shr_m := z * 2; shr_r := false; shr_s := false |}
  = {| shr_m := z; shr_r := false; shr_s := false |}.
Proof.
  intros Hz. destruct z as [|p|p]; try lia.
  rewrite Z.mul_comm. reflexivity.
Qed.

Lemma iter_shr_exact (k : positive) :
  forall z, 0 < z ->
  iter_pos shr_1 k
    {| shr_m := z * 2 ^ Z.pos k; shr_r := false; shr_s := false |}
  = {| shr_m := z; shr_r := false; shr_s := false |}.
Proof.
  induction k as [k IH|k IH|]; intros z Hz; cbn [iter_pos].
  - assert (Hpow : 0 < 2 ^ Z.pos k) by (apply Z.pow_pos_nonneg; lia).
    replace (z * 2 ^ Z.pos k~1) with (z * 2 ^ Z.pos k * 2 ^ Z.pos k * 2).
    + rewrite shr_1_even by nia. rewrite IH by nia. now apply IH.
    + change (Z.pos k~1) with (2 * Z.pos k + 1).
      rewrite Z.pow_add_r, Z.pow_mul_r by lia.
      change (2 ^ 1) with 2. change (2 ^ 2) with 4.
      replace 4 with (2 * 2) by reflexivity.
      rewrite Z.pow_mul_l. lia.
  - assert (Hpow : 0 < 2 ^ Z.pos k) by (apply Z.pow_pos_nonneg; lia).
    replace (z * 2 ^ Z.pos k~0) with (z * 2 ^ Z.pos k * 2 ^ Z.pos k).
    + rewrite IH by nia. now apply IH.
    + change (Z.pos k~0) with (2 * Z.pos k).
      rewrite Z.pow_mul_r by lia. change (2 ^ 2) with 4.
      replace 4 with (2 * 2) by reflexivity.
      rewrite Z.pow_mul_l. lia.
  - change (2 ^ 1) with 2. now apply shr_1_even.
Qed.

(** A mantissa of 53 digits followed by [k] zeros is shifted back to its
    53 digits, and nothing is rounded. *)
Lemma binary_round_aux_shifted (s : bool) (m : positive) (e : Z)
  (k : positive) :
  Z.pos (digits2_pos m) = 53 -> -1074 <= e <= 971 ->
  binary_round_aux 53 1024 s (Z.pos (Pos.iter xO m k)) (e - Z.pos k)
    loc_Exact
  = S754_finite s m e.
Proof.
  intros Hm He.
  assert (Hfirst :
    fexp 53 1024 (Z.pos (digits2_pos (Pos.iter xO m k)) + (e - Z.pos k))
    - (e - Z.pos k) = Z.pos k).
  { rewrite iter_xO_digits, Pos2Z.inj_add, Hm. unfold fexp, emin. lia. }
  assert (Hsecond : fexp 53 1024 (Z.pos (digits2_pos m) + e) - e = 0).
  { unfold fexp, emin. rewrite Hm. lia. }
  unfold binary_round_aux, shr_fexp.
  cbn [Zdigits2 shr_record_of_loc]. rewrite Hfirst.
  cbn [shr]. rewrite iter_xO_value, iter_shr_exact by lia.
  cbn [shr_m loc_of_shr_record round_nearest_even Zdigits2
       shr_record_of_loc].
  replace (e - Z.pos k + Z.pos k) with e by lia.
  rewrite Hsecond. cbn [shr shr_m].
  destruct (Z.leb_spec e (1024 - 53)); [reflexivity|lia].
Qed.

Lemma digits_shifted (p q : positive) (k : Z) :
  0 <= k -> Z.pos q = Z.pos p * 2 ^ k ->
  Z.pos (digits2_pos q) = Z.pos (digits2_pos p) + k.
Proof.
  intros Hk Hq. destruct k as [|k|k]; [| |lia].
  - assert (q = p) by (cbn in Hq; lia). subst. lia.
  - rewrite <- iter_xO_value in Hq. injection Hq as ->.
    rewrite iter_xO_digits. lia.
Qed.

(** Rounding [c * 2^(-e)] at the exponent [e] gives the number of the
    integer [c]: a sum of two such integers, formed at the smaller of
    their exponents, is rounded to itself. *)
Lemma binary_round_shifted (s : bool) (p q : positive) (e : Z) :
  Z.pos p < 2 ^ 53 -> -1074 <= e <= 0 ->
  Z.pos q = Z.pos p * 2 ^ (- e) ->
  binary_round 53 1024 s q e = binary_round 53 1024 s p 0.
Proof.
  intros Hp He Hq.
  destruct (binary_round_integer s p Hp) as (m & e' & -> & He' & Hm).
  pose proof (safe_digits p Hp) as Hd.
  pose proof (digits_shifted p q (- e) ltac:(lia) Hq) as Hdq.
  pose proof (digits_shifted p m (- e') ltac:(lia) Hm) as Hdm.
  unfold binary_round, shl_align.
  assert (Hexp : fexp 53 1024 (Z.pos (digits2_pos q) + e) = e').
  { unfold fexp, emin. lia. }
  rewrite Hexp.
  assert (Hpow : forall a b, 0 <= a -> 0 <= b -> 2 ^ (a + b) = 2 ^ a * 2 ^ b)
    by (intros; apply Z.pow_add_r; lia).
  destruct (e' - e) as [|k|k] eqn:Hshift.
  - assert (Hee : e = e') by lia. rewrite Hee in *.
    assert (q = m) by lia. subst q.
    apply binary_round_aux_exact; lia.
  - assert (Hqm : q = Pos.iter xO m k).
    { apply Pos2Z.inj. rewrite iter_xO_value, Hq, Hm.
      replace (- e) with (- e' + Z.pos k) by lia.
      rewrite Hpow by lia. lia. }
    subst q. replace e with (e' - Z.pos k) by lia.
    apply binary_round_aux_shifted; lia.
  - assert (Hqm : Pos.iter xO q k = m).
    { apply Pos2Z.inj. rewrite iter_xO_value, Hq, Hm.
      replace (- e') with (- e + Z.pos k) by lia.
      rewrite Hpow by lia. lia. }
    rewrite Hqm. apply binary_round_aux_exact; lia.
Qed.

Lemma binary_normalize_shifted (c e : Z) :
  - 2 ^ 53 < c < 2 ^ 53 -> -1074 <= e <= 0 ->
  binary_normalize 53 1024 (c * 2 ^ (- e)) e false = Number_of_Z c.
Proof.
  intros Hc He.
  assert (Hpow : 0 < 2 ^ (- e)) by (apply Z.pow_pos_nonneg; lia).
  unfold Number_of_Z, binary_normalize.
  destruct c as [|p|p].
  - reflexivity.
  - destruct (Z.pos p * 2 ^ (- e)) as [|q|q] eqn:Hq; try lia.
    apply binary_round_shifted; lia.
  - destruct (Z.neg p * 2 ^ (- e)) as [|q|q] eqn:Hq; try lia.
    apply binary_round_shifted; lia.
Qed.

Lemma shl_align_value (m : positive) (e e' : Z) :
  e' <= e ->
  Z.pos (fst (shl_align m e e')) = Z.pos m * 2 ^ (e - e').
Proof.
  intros Hle. unfold shl_align.
  destruct (e' - e) as [|d|d] eqn:Hd; try lia; cbn [fst].
  - replace (e - e') with 0 by lia. cbn. lia.
  - rewrite iter_xO_value. f_equal. f_equal. lia.
Qed.

(** The number of a safe integer: its sign, and a mantissa that is the
    integer shifted to an exponent between -52 and 0. *)
Lemma Number_of_Z_finite (z : Z) :
  - 2 ^ 53 < z < 2 ^ 53 -> z <> 0 ->
  exists m e,
    Number_of_Z z = S754_finite (z <? 0) m e /\
    -52 <= e <= 0 /\
    cond_Zopp (z <? 0) (Z.pos m) = z * 2 ^ (- e).
Proof.
  intros Hz Hne. pose proof (Number_of_Z_shape z Hz) as Hshape.
  destruct z as [|p|p]; [congruence| |];
    destruct Hshape as (m & e & Heq & He & Hm);
    pose proof (safe_digits p ltac:(lia)) as Hd;
    exists m, e; (split; [exact Heq|]); (split; [lia|]);
    cbn [Z.ltb Z.compare cond_Zopp]; lia.
Qed.

Lemma shifted_twice (z e ez : Z) :
  ez <= e <= 0 -> z * 2 ^ (- e) * 2 ^ (e - ez) = z * 2 ^ (- ez).
Proof.
  intros H. rewrite <- Z.mul_assoc, <- Z.pow_add_r by lia.
  f_equal. f_equal. lia.
Qed.

Lemma cond_Zopp_mul (s : bool) (a b : Z) :
  cond_Zopp s (a * b) = cond_Zopp s a * b.
Proof. destruct s; cbn [cond_Zopp]; lia. Qed.

Lemma aligned_value (z : Z) (m : positive) (e ez : Z) :
  ez <= e <= 0 ->
  cond_Zopp (z <? 0) (Z.pos m) = z * 2 ^ (- e) ->
  cond_Zopp (z <? 0) (Z.pos (fst (shl_align m e ez))) = z * 2 ^ (- ez).
Proof.
  intros He Hm.
  rewrite shl_align_value, cond_Zopp_mul, Hm by lia.
  now apply shifted_twice.
Qed.

(** Two integers whose sum a number holds exactly are added exactly. *)
Lemma Number_add_integers (a b : Z) :
  safe_integer a -> safe_integer b -> safe_integer (a + b) ->
  Binary64.Number_add (Number_of_Z a) (Number_of_Z b) = Number_of_Z (a + b).
Proof.
  unfold safe_integer, Binary64.Number_add. intros Ha Hb Hab.
  destruct (Z.eq_dec a 0) as [->|Hane].
  - cbn [Z.add].
    destruct (Z.eq_dec b 0) as [->|Hbne]; [reflexivity|].
    destruct (Number_of_Z_finite b Hb Hbne) as (m & e & -> & _).
    reflexivity.
  - destruct (Z.eq_dec b 0) as [->|Hbne].
    + rewrite Z.add_0_r.
      destruct (Number_of_Z_finite a Ha Hane) as (m & e & -> & _).
      reflexivity.
    + destruct (Number_of_Z_finite a Ha Hane) as (ma & ea & -> & Hea & Hma).
      destruct (Number_of_Z_finite b Hb Hbne) as (mb & eb & -> & Heb & Hmb).
      cbn [SFadd].
      rewrite (aligned_value a ma ea (Z.min ea eb)) by (lia || assumption).
      rewrite (aligned_value b mb eb (Z.min ea eb)) by (lia || assumption).
      rewrite <- Z.mul_add_distr_r.
      apply binary_normalize_shifted; lia.
Qed.

Lemma Number_of_Z_opp (z : Z) :
  safe_integer z -> SFopp (Number_of_Z z) = 
  match z with 0 => S754_zero true | _ => Number_of_Z (- z) end.
Proof.
  unfold safe_integer. intros Hz.
  pose proof (Number_of_Z_shape z Hz) as Hshape.
  pose proof (Number_of_Z_shape (- z) ltac:(lia)) as Hopp.
  destruct z as [|p|p]; [reflexivity| |]; cbn [Z.opp] in Hopp |- *;
    destruct Hshape as (m & e & -> & He & Hm);
    destruct Hopp as (m' & e' & -> & He' & Hm');
    cbn [SFopp Z.ltb Z.compare negb]; subst e e';
    assert (m = m') by lia; now subst.
Qed.

(** And so are they subtracted. *)
Lemma Number_sub_integers (a b : Z) :
  safe_integer a -> safe_integer b -> safe_integer (a - b) ->
  Binary64.Number_sub (Number_of_Z a) (Number_of_Z b) = Number_of_Z (a - b).
Proof.
  unfold Binary64.Number_sub. intros Ha Hb Hab.
  destruct (Z.eq_dec b 0) as [->|Hbne].
  - rewrite Z.sub_0_r.
    destruct (Z.eq_dec a 0) as [->|Hane]; [reflexivity|].
    destruct (Number_of_Z_finite a Ha Hane) as (m & e & -> & _).
    reflexivity.
  - pose proof (Number_of_Z_opp b Hb) as Hopp.
    destruct (Number_of_Z_finite b Hb Hbne) as (mb & eb & Hnb & Heb & Hmb).
    rewrite Hnb in *.
    destruct (Z.eq_dec a 0) as [->|Hane].
    + cbn [Z.sub Z.add SFsub Number_of_Z binary_normalize].
      change (binary_normalize 53 1024 0 0 false) with (S754_zero false).
      cbn [SFsub]. cbn [SFopp] in Hopp. rewrite Hopp.
      destruct b; [congruence|reflexivity|reflexivity].
    + destruct (Number_of_Z_finite a Ha Hane)
        as (ma & ea & -> & Hea & Hma).
      cbn [SFsub].
      rewrite (aligned_value a ma ea (Z.min ea eb)) by (lia || assumption).
      rewrite (aligned_value b mb eb (Z.min ea eb)) by (lia || assumption).
      rewrite <- Z.mul_sub_distr_r.
      apply binary_normalize_shifted; unfold safe_integer in *; lia.
Qed.

Lemma comparator_sign_integer (z : Z) :
  safe_integer z -> Binary64.comparator_sign (Number_of_Z z) = Z.sgn z.
Proof.
  intros Hz. pose proof (Number_of_Z_shape z Hz) as Hshape.
  destruct z as [|p|p]; [now rewrite Hshape| |];
    destruct Hshape as (m & e & -> & _); reflexivity.
Qed.

Lemma or_zero_integer (z : Z) :
  safe_integer z -> Binary64.or_zero (Some (Number_of_Z z)) = Number_of_Z z.
Proof.
  intros Hz. pose proof (Number_of_Z_shape z Hz) as Hshape.
  destruct z as [|p|p]; [now rewrite Hshape| |];
    destruct Hshape as (m & e & -> & _); reflexivity.
Qed.

(** Different safe integers are different numbers. *)
Lemma Number_of_Z_injective (a b : Z) :
  safe_integer a -> safe_integer b ->
  Number_of_Z a = Number_of_Z b -> a = b.
Proof.
  intros Ha Hb Heq.
  assert (Hsub : safe_integer (a - a)) by (unfold safe_integer; lia).
  destruct (Z.eq_dec a 0) as [->|Hane];
    destruct (Z.eq_dec b 0) as [->|Hbne]; try reflexivity.
  - destruct (Number_of_Z_finite b Hb Hbne) as (m & e & Hn & _).
    rewrite Hn in Heq. discriminate.
  - destruct (Number_of_Z_finite a Ha Hane) as (m & e & Hn & _).
    rewrite Hn in Heq. discriminate.
  - destruct (Number_of_Z_finite a Ha Hane) as (ma & ea & Hna & Hea & Hma).
    destruct (Number_of_Z_finite b Hb Hbne) as (mb & eb & Hnb & Heb & Hmb).
    rewrite Hna, Hnb in Heq. injection Heq as Hs -> ->.
    rewrite Hs, Hmb in Hma.
    assert (Hpow : 0 < 2 ^ (- eb)) by (apply Z.pow_pos_nonneg; lia).
    nia.
Qed.

(** ** Magnitudes *)

Lemma sum_abs_nonneg {A} (f : A -> Z) (l : list A) :
  0 <= sum_list (map (fun x => Z.abs (f x)) l).
Proof. induction l as [|x l IH]; cbn [map]; rewrite ?sum_list_cons; cbn; lia. Qed.

Lemma abs_sum_list {A} (f : A -> Z) (l : list A) :
  Z.abs (sum_list (map f l)) <= sum_list (map (fun x => Z.abs (f x)) l).
Proof.
  induction l as [|x l IH]; cbn [map]; rewrite ?sum_list_cons; [cbn; lia|].
  lia.
Qed.

Lemma sum_nonneg {A} (f : A -> Z) (l : list A) :
  (forall x, 0 <= f x) -> 0 <= sum_list (map f l).
Proof.
  intros Hf. induction l as [|x l IH]; cbn [map]; rewrite ?sum_list_cons;
    [cbn; lia|]. specialize (Hf x). lia.
Qed.

Lemma sum_member {A} (f : A -> Z) (l : list A) (x : A) :
  (forall y, 0 <= f y) -> In x l -> f x <= sum_list (map f l).
Proof.
  intros Hf. induction l as [|y l IH]; [intros []|];
    intros [<-|Hin]; cbn [map]; rewrite sum_list_cons.
  - pose proof (sum_nonneg f l Hf). lia.
  - specialize (Hf y). specialize (IH Hin). lia.
Qed.

Lemma magnitude_nonneg (s : Series) : 0 <= magnitude s.
Proof.
  destruct s as [a|o|n|]; cbn [magnitude]; try lia.
  - apply sum_abs_nonneg.
  - apply (sum_abs_nonneg (fun c => c)).
Qed.

Lemma names_magnitude_nonneg (names : Object Series) :
  0 <= names_magnitude names.
Proof. apply sum_nonneg, magnitude_nonneg. Qed.

Lemma series_total_bound (s : Series) : Z.abs (series_total s) <= magnitude s.
Proof.
  destruct s as [a|o|n|]; cbn [series_total magnitude]; try lia.
  - apply abs_sum_list.
  - rewrite <- (map_id (Object_values o)) at 1.
    apply (abs_sum_list (fun c => c)).
Qed.

Lemma names_total_bound (names : Object Series) :
  Z.abs (names_total names) <= names_magnitude names.
Proof.
  unfold names_total, names_magnitude.
  induction (Object_values names) as [|s l IH]; cbn [map];
    rewrite ?sum_list_cons; [cbn; lia|].
  pose proof (series_total_bound s). lia.
Qed.

Lemma names_in_model (m : OptimizedMetrics) (names : Object Series) :
  In names (Object_values m) -> names_magnitude names <= model_magnitude m.
Proof. apply sum_member, names_magnitude_nonneg. Qed.

Lemma Object_get_value {V} (o : Object V) k v :
  Object_get o k = Some v -> In v (Object_values o).
Proof.
  induction o as [|[k' v'] o IH]; cbn [Object_get Object_values map snd].
  - discriminate.
  - destruct (String.eqb k' k); [intros [= ->]; now left|].
    intros H. right. now apply IH.
Qed.

(** ** The totals within the safe range *)

Lemma fold_add_exact {A} (f : A -> Z) (l : list A) (total : Z) :
  Z.abs total + sum_list (map (fun x => Z.abs (f x)) l) < 2 ^ 53 ->
  fold_left (fun sum x => Binary64.Number_add sum (Number_of_Z (f x)))
    l (Number_of_Z total)
  = Number_of_Z (total + sum_list (map f l)).
Proof.
  revert total. induction l as [|x l IH]; intros total; cbn [map fold_left];
    rewrite ?sum_list_cons.
  - intros _. f_equal. cbn. lia.
  - intros Hsafe. pose proof (sum_abs_nonneg f l) as Hpos.
    rewrite Number_add_integers by (unfold safe_integer; lia).
    rewrite IH by lia. f_equal. lia.
Qed.

Lemma reduce_counts_exact (a : list MonthlyDataPoint) :
  magnitude (TimeSeries a) < 2 ^ 53 ->
  Binary64.reduce_counts a = Number_of_Z (series_total (TimeSeries a)).
Proof.
  intros Hsafe. unfold Binary64.reduce_counts.
  change Binary64.zero with (Number_of_Z 0).
  rewrite (fold_add_exact count) by (cbn [magnitude] in Hsafe; lia).
  reflexivity.
Qed.

Lemma reduce_values_exact (o : Object Z) :
  magnitude (MonthTotals o) < 2 ^ 53 ->
  Binary64.reduce_values o = Number_of_Z (series_total (MonthTotals o)).
Proof.
  intros Hsafe. unfold Binary64.reduce_values.
  change Binary64.zero with (Number_of_Z 0).
  rewrite (fold_add_exact (fun c => c)) by exact Hsafe.
  now rewrite map_id.
Qed.

(** One step of the loops that add up series. *)
Lemma add_series_exact (total : Z) (monthlyData : Series) :
  Z.abs total + magnitude monthlyData < 2 ^ 53 ->
  match monthlyData with
  | TimeSeries a =>
      Binary64.Number_add (Number_of_Z total) (Binary64.reduce_counts a)
  | MonthTotals o =>
      Binary64.Number_add (Number_of_Z total) (Binary64.reduce_values o)
  | Scalar n => Binary64.Number_add (Number_of_Z total) (Number_of_Z n)
  | OtherShape => Number_of_Z total
  end
  = Number_of_Z (total + series_total monthlyData).
Proof.
  intros Hsafe. pose proof (series_total_bound monthlyData) as Hb.
  pose proof (magnitude_nonneg monthlyData) as Hm.
  destruct monthlyData as [a|o|n|].
  - rewrite reduce_counts_exact by lia.
    apply Number_add_integers; unfold safe_integer; lia.
  - rewrite reduce_values_exact by lia.
    apply Number_add_integers; unfold safe_integer; lia.
  - apply Number_add_integers; unfold safe_integer;
      cbn [series_total magnitude] in *; lia.
  - cbn [series_total]. f_equal. lia.
Qed.

Lemma fold_series_exact (l : list Series) (total : Z) :
  Z.abs total + sum_list (map magnitude l) < 2 ^ 53 ->
  fold_left
    (fun total monthlyData =>
       match monthlyData with
       | TimeSeries a => Binary64.Number_add total (Binary64.reduce_counts a)
       | MonthTotals o => Binary64.Number_add total (Binary64.reduce_values o)
       | Scalar n => Binary64.Number_add total (Number_of_Z n)
       | OtherShape => total
       end) l (Number_of_Z total)
  = Number_of_Z (total + sum_list (map series_total l)).
Proof.
  revert total. induction l as [|s l IH]; intros total; cbn [map fold_left];
    rewrite ?sum_list_cons.
  - intros _. f_equal. cbn. lia.
  - intros Hsafe.
    pose proof (sum_nonneg magnitude l magnitude_nonneg) as Hpos.
    pose proof (series_total_bound s) as Hb.
    rewrite add_series_exact by lia.
    rewrite IH by lia. f_equal. lia.
Qed.

Lemma fold_selected_exact (sel : string -> bool)
  (l : list (string * Series)) (total : Z) :
  Z.abs total + names_magnitude l < 2 ^ 53 ->
  fold_left
    (fun total '(currentName, monthlyData) =>
       if sel currentName then
         match monthlyData with
         | TimeSeries a =>
             Binary64.Number_add total (Binary64.reduce_counts a)
         | MonthTotals o =>
             Binary64.Number_add total (Binary64.reduce_values o)
         | Scalar n => Binary64.Number_add total (Number_of_Z n)
         | OtherShape => total
         end
       else total) l (Number_of_Z total)
  = Number_of_Z
      (total +
       sum_list (map (fun e => series_total (snd e))
                   (List.filter (fun e => sel (fst e)) l))).
Proof.
  unfold names_magnitude, Object_values.
  revert total. induction l as [|[k s] l IH]; intros total;
    cbn [map fold_left List.filter fst snd]; rewrite ?sum_list_cons.
  - intros _. f_equal. cbn. lia.
  - intros Hsafe.
    pose proof (sum_nonneg magnitude (map snd l) magnitude_nonneg) as Hpos.
    pose proof (series_total_bound s) as Hb.
    pose proof (magnitude_nonneg s) as Hm.
    destruct (sel k).
    + rewrite add_series_exact by lia.
      rewrite IH by lia. cbn [map snd]. rewrite sum_list_cons.
      f_equal. lia.
    + rewrite IH by lia. reflexivity.
Qed.

Lemma calculateTotalRecords_bound (m : OptimizedMetrics) :
  Z.abs (calculateTotalRecords m) <= model_magnitude m.
Proof.
  rewrite calculateTotalRecords_sum. unfold model_magnitude.
  induction (Object_values m) as [|names l IH]; cbn [map];
    rewrite ?sum_list_cons; [cbn; lia|].
  pose proof (names_total_bound names). lia.
Qed.

(** Within the safe range the record total of the program is the number
    of the integer total. *)
Lemma calculateTotalRecords_exact (m : OptimizedMetrics) :
  safe_counts m ->
  Binary64.calculateTotalRecords m = Number_of_Z (calculateTotalRecords m).
Proof.
  unfold safe_counts, model_magnitude. intros Hsafe.
  rewrite calculateTotalRecords_sum.
  unfold Binary64.calculateTotalRecords.
  change Binary64.zero with (Number_of_Z 0).
  change (sum_list (map names_total (Object_values m)))
    with (0 + sum_list (map names_total (Object_values m))).
  assert (Hgen : forall total,
    Z.abs total + sum_list (map names_magnitude (Object_values m)) < 2 ^ 53 ->
    fold_left
      (fun total names =>
         fold_left
           (fun total monthlyData =>
              match monthlyData with
              | TimeSeries a =>
                  Binary64.Number_add total (Binary64.reduce_counts a)
              | MonthTotals o =>
                  Binary64.Number_add total (Binary64.reduce_values o)
              | Scalar n => Binary64.Number_add total (Number_of_Z n)
              | OtherShape => total
              end) (Object_values names) total)
      (Object_values m) (Number_of_Z total)
    = Number_of_Z (total + sum_list (map names_total (Object_values m)))).
  { induction (Object_values m) as [|names l IH]; intros total;
      cbn [map fold_left]; rewrite ?sum_list_cons.
    - intros _. f_equal. cbn. lia.
    - intros Hs.
      pose proof (sum_nonneg names_magnitude l names_magnitude_nonneg).
      pose proof (names_total_bound names).
      pose proof (names_magnitude_nonneg names).
      rewrite fold_series_exact by (unfold names_magnitude in *; lia).
      fold (names_total names). rewrite IH by lia. f_equal. lia. }
  apply Hgen. cbn [Z.abs]. lia.
Qed.

Lemma calculateTotalsByMetric_bound (m : OptimizedMetrics) (metric : string)
  (name : option string) :
  Z.abs (calculateTotalsByMetric m metric name) <= model_magnitude m.
Proof.
  rewrite calculateTotalsByMetric_selected.
  destruct (Object_get m metric) as [names|] eqn:Hget.
  - apply Object_get_value, names_in_model in Hget.
    enough (Z.abs
              (sum_list
                 (map (fun e => series_total (snd e))
                    (List.filter (fun e => selected name (fst e)) names)))
            <= names_magnitude names) by lia.
    clear Hget. unfold names_magnitude, Object_values.
    induction names as [|[k s] names IH]; cbn [map List.filter fst snd];
      rewrite ?sum_list_cons; [cbn; lia|].
    pose proof (series_total_bound s). pose proof (magnitude_nonneg s).
    destruct (selected name k); cbn [map snd]; rewrite ?sum_list_cons; lia.
  - cbn [Z.abs]. apply (sum_nonneg names_magnitude), names_magnitude_nonneg.
Qed.

Lemma calculateTotalsByMetric_exact (m : OptimizedMetrics) (metric : string)
  (name : option string) :
  safe_counts m ->
  Binary64.calculateTotalsByMetric m metric name
  = Number_of_Z (calculateTotalsByMetric m metric name).
Proof.
  unfold safe_counts. intros Hsafe.
  rewrite calculateTotalsByMetric_selected.
  unfold Binary64.calculateTotalsByMetric.
  destruct (Object_get m metric) as [names|] eqn:Hget; [|reflexivity].
  apply Object_get_value, names_in_model in Hget.
  change Binary64.zero with (Number_of_Z 0).
  unfold Object_entries.
  exact (fold_selected_exact (selected name) names 0
           ltac:(cbn [Z.abs]; lia)).
Qed.

(** ** Sorting numbers that are integers *)

Lemma sort_insert_map {A B} (f : A -> B) (compareA : A -> A -> Z)
  (compareB : B -> B -> Z) (x : A) (l : list A) :
  (forall y, In y l ->
     (compareB (f x) (f y) <=? 0) = (compareA x y <=? 0)) ->
  sort_insert compareB (f x) (map f l) = map f (sort_insert compareA x l).
Proof.
  induction l as [|y l IH]; intros Hsame; [reflexivity|].
  cbn [map sort_insert]. rewrite (Hsame y (or_introl eq_refl)).
  destruct (compareA x y <=? 0); [reflexivity|].
  cbn [map]. f_equal. apply IH. intros z Hz. apply Hsame. now right.
Qed.

(** A sort whose comparator reads, on the elements at hand, as another
    one does sorts as the other one does. *)
Lemma Array_sort_map {A B} (f : A -> B) (compareA : A -> A -> Z)
  (compareB : B -> B -> Z) (l : list A) :
  (forall x y, In x l -> In y l ->
     (compareB (f x) (f y) <=? 0) = (compareA x y <=? 0)) ->
  Array_sort compareB (map f l) = map f (Array_sort compareA l).
Proof.
  induction l as [|x l IH]; intros Hsame; [reflexivity|].
  cbn [map Array_sort fold_right].
  change (fold_right (sort_insert compareB) [] (map f l))
    with (Array_sort compareB (map f l)).
  change (fold_right (sort_insert compareA) [] l)
    with (Array_sort compareA l).
  rewrite IH by (intros a b Ha Hb; apply Hsame; now right).
  apply sort_insert_map. intros y Hy. apply Hsame; [now left|].
  right. eapply Permutation_in; [apply Array_sort_perm|exact Hy].
Qed.

(** Two totals of one table differ by less than the counts add up to. *)
Lemma difference_bound {A} (f : A -> Z) (l : list A) (x y : A) :
  In x l -> In y l ->
  Z.abs (f x - f y) <= sum_list (map (fun z => Z.abs (f z)) l).
Proof.
  assert (Hone : forall (l : list A) z, In z l ->
    Z.abs (f z) <= sum_list (map (fun z => Z.abs (f z)) l)).
  { intros l' z. apply (sum_member (fun z => Z.abs (f z))). intros; lia. }
  induction l as [|z l IH]; [intros []|].
  pose proof (sum_abs_nonneg f l) as Hpos.
  intros [<-|Hx] [<-|Hy]; cbn [map]; rewrite sum_list_cons.
  - lia.
  - specialize (Hone l y Hy). lia.
  - specialize (Hone l x Hx). lia.
  - specialize (IH Hx Hy). lia.
Qed.

Lemma compare_totals_exact (a b : Z) :
  safe_integer a -> safe_integer b -> safe_integer (b - a) ->
  (Binary64.comparator_sign
     (Binary64.Number_sub (Number_of_Z b) (Number_of_Z a)) <=? 0)
  = (b - a <=? 0).
Proof.
  intros Ha Hb Hab.
  rewrite Number_sub_integers, comparator_sign_integer by assumption.
  destruct (Z.leb_spec (b - a) 0), (Z.leb_spec (Z.sgn (b - a)) 0);
    try reflexivity; lia.
Qed.

(** ** The monthly trends within the safe range *)

Lemma Map_get_number (trendsMap : Map Z) (k : string) :
  Map_get (number_map trendsMap) k
  = option_map Number_of_Z (Map_get trendsMap k).
Proof.
  induction trendsMap as [|[k' v] tm IH]; [reflexivity|].
  cbn [number_map map Map_get]. destruct (String.eqb k' k); [reflexivity|].
  exact IH.
Qed.

Lemma Map_set_number (trendsMap : Map Z) (k : string) (v : Z) :
  Map_set (number_map trendsMap) k (Number_of_Z v)
  = number_map (Map_set trendsMap k v).
Proof.
  induction trendsMap as [|[k' v'] tm IH]; [reflexivity|].
  cbn [number_map map Map_set].
  destruct (String.eqb k' k); [reflexivity|].
  cbn [map]. f_equal. exact IH.
Qed.

Lemma map_value_bound (trendsMap : Map Z) (k : string) (v : Z) :
  Map_get trendsMap k = Some v -> Z.abs v <= map_magnitude trendsMap.
Proof.
  unfold map_magnitude.
  induction trendsMap as [|[k' v'] tm IH]; cbn [Map_get map snd];
    rewrite ?sum_list_cons; [discriminate|].
  pose proof (sum_abs_nonneg (fun e : string * Z => snd e) tm).
  destruct (String.eqb k' k); [intros [= ->]; lia|].
  intros Hget. specialize (IH Hget). lia.
Qed.

Lemma map_magnitude_set (trendsMap : Map Z) (k : string) (c : Z) :
  map_magnitude
    (Map_set trendsMap k
       (match Map_get trendsMap k with Some v => v | None => 0 end + c))
  <= map_magnitude trendsMap + Z.abs c.
Proof.
  unfold map_magnitude.
  induction trendsMap as [|[k' v'] tm IH]; cbn [Map_get Map_set map snd];
    rewrite ?sum_list_cons.
  - cbn. lia.
  - destruct (String.eqb k' k); cbn [map snd]; rewrite sum_list_cons; lia.
Qed.

Lemma add_to_trends_exact (trendsMap : Map Z) (data : MonthlyDataPoint) :
  map_magnitude trendsMap + Z.abs (count data) < 2 ^ 53 ->
  Binary64.add_to_trends (number_map trendsMap) data
  = number_map (add_to_trends trendsMap data).
Proof.
  intros Hsafe. unfold Binary64.add_to_trends, add_to_trends.
  rewrite Map_get_number, <- Map_set_number. f_equal.
  assert (Hpos : 0 <= map_magnitude trendsMap)
    by apply (sum_abs_nonneg (fun e : string * Z => snd e)).
  destruct (Map_get trendsMap (trend_key data)) as [v|] eqn:Hget;
    cbn [option_map].
  - pose proof (map_value_bound _ _ _ Hget) as Hv.
    rewrite or_zero_integer by (unfold safe_integer; lia).
    apply Number_add_integers; unfold safe_integer; lia.
  - change (Binary64.or_zero None) with (Number_of_Z 0).
    apply Number_add_integers; unfold safe_integer; lia.
Qed.

Lemma add_to_trends_magnitude (trendsMap : Map Z) (data : MonthlyDataPoint) :
  map_magnitude (add_to_trends trendsMap data)
  <= map_magnitude trendsMap + Z.abs (count data).
Proof. exact (map_magnitude_set trendsMap (trend_key data) (count data)). Qed.

Lemma fold_trends_magnitude (points : list MonthlyDataPoint)
  (trendsMap : Map Z) :
  map_magnitude (fold_left add_to_trends points trendsMap)
  <= map_magnitude trendsMap + points_magnitude points.
Proof.
  unfold points_magnitude.
  revert trendsMap. induction points as [|p points IH]; intros tm;
    cbn [fold_left map]; rewrite ?sum_list_cons; [cbn; lia|].
  specialize (IH (add_to_trends tm p)).
  pose proof (add_to_trends_magnitude tm p) as Hset. lia.
Qed.

Lemma fold_trends_exact (points : list MonthlyDataPoint)
  (trendsMap : Map Z) :
  map_magnitude trendsMap + points_magnitude points < 2 ^ 53 ->
  fold_left Binary64.add_to_trends points (number_map trendsMap)
  = number_map (fold_left add_to_trends points trendsMap).
Proof.
  unfold points_magnitude.
  revert trendsMap. induction points as [|p points IH]; intros tm;
    cbn [fold_left map]; rewrite ?sum_list_cons; [reflexivity|].
  intros Hsafe. pose proof (sum_abs_nonneg count points) as Hpos.
  rewrite add_to_trends_exact by lia.
  apply IH.
  pose proof (add_to_trends_magnitude tm p) as Hset. lia.
Qed.

Lemma trend_entries_number (trendsMap : Map Z) :
  map Binary64.trend_of_entry (number_map trendsMap)
  = map number_trend (map trend_of_entry trendsMap).
Proof.
  unfold number_map. rewrite !map_map. apply map_ext. now intros [k v].
Qed.

Lemma sort_trends_number (l : list MonthlyTrend) :
  Array_sort Binary64.compare_trends (map number_trend l)
  = map number_trend (Array_sort compare_trends l).
Proof. apply Array_sort_map. reflexivity. Qed.

Lemma points_magnitude_app (l1 l2 : list MonthlyDataPoint) :
  points_magnitude (l1 ++ l2) = points_magnitude l1 + points_magnitude l2.
Proof. unfold points_magnitude. now rewrite map_app, sum_list_app. Qed.

Lemma selected_points_magnitude (name : option string)
  (names : Object Series) :
  points_magnitude (selected_points name names) <= names_magnitude names.
Proof.
  unfold names_magnitude, Object_values.
  induction names as [|[k s] names IH]; [cbn; lia|].
  cbn [selected_points flat_map map snd]. rewrite sum_list_cons.
  rewrite points_magnitude_app.
  fold (selected_points name names).
  pose proof (magnitude_nonneg s).
  enough (points_magnitude
            (if selected name k
             then match s with TimeSeries a => a | _ => [] end
             else []) <= magnitude s) by lia.
  destruct (selected name k); [destruct s|];
    try (change (points_magnitude []) with 0; lia).
  unfold points_magnitude. cbn [magnitude]. lia.
Qed.

Lemma metric_points_magnitude (m : OptimizedMetrics) (metric : string)
  (name : option string) :
  points_magnitude (metric_points m metric name) <= model_magnitude m.
Proof.
  unfold metric_points.
  destruct (Object_get m metric) as [names|] eqn:Hget.
  - apply Object_get_value, names_in_model in Hget.
    pose proof (selected_points_magnitude name names). lia.
  - apply (sum_nonneg names_magnitude), names_magnitude_nonneg.
Qed.

Lemma all_points_magnitude (m : OptimizedMetrics) :
  points_magnitude (all_points m) <= model_magnitude m.
Proof.
  unfold model_magnitude, Object_values.
  induction m as [|[metric names] m IH]; [cbn; lia|].
  cbn [all_points flat_map map snd]. rewrite sum_list_cons.
  rewrite points_magnitude_app. fold (all_points m).
  pose proof (selected_points_magnitude None names). lia.
Qed.

(** The loop over the names, on numbers: the selected points added one by
    one. *)
Lemma number_trends_loop (name : option string) (names : Object Series)
  (trendsMap : Map spec_float) :
  fold_left
    (fun trendsMap '(currentName, monthlyData) =>
       if not_given name || same_name currentName name then
         match monthlyData with
         | TimeSeries a => fold_left Binary64.add_to_trends a trendsMap
         | MonthTotals _ => trendsMap
         | Scalar _ => trendsMap
         | OtherShape => trendsMap
         end
       else trendsMap)
    names trendsMap
  = fold_left Binary64.add_to_trends (selected_points name names) trendsMap.
Proof.
  revert trendsMap.
  induction names as [|[currentName s] names IH]; intros tm.
  - reflexivity.
  - cbn [fold_left selected_points flat_map]. rewrite fold_left_app.
    rewrite IH. f_equal. unfold selected.
    destruct (not_given name || same_name currentName name);
      [destruct s|]; reflexivity.
Qed.

(** Within the safe range the trend list of the program is the list of
    the integer totals, number for number. *)
Lemma getMonthlyTrendsByMetric_exact (m : OptimizedMetrics)
  (metric : string) (name : option string) :
  safe_counts m ->
  Binary64.getMonthlyTrendsByMetric m metric name
  = map number_trend (getMonthlyTrendsByMetric m metric name).
Proof.
  unfold safe_counts. intros Hsafe.
  pose proof (metric_points_magnitude m metric name) as Hpoints.
  rewrite getMonthlyTrendsByMetric_points.
  unfold Binary64.getMonthlyTrendsByMetric, metric_points in *.
  destruct (Object_get m metric) as [names|]; [|reflexivity].
  unfold Object_entries, Map_entries. rewrite number_trends_loop.
  change (@nil (string * spec_float)) with (number_map []).
  rewrite fold_trends_exact by (cbn; lia).
  now rewrite trend_entries_number, sort_trends_number.
Qed.

Lemma trend_totals_safe (points : list MonthlyDataPoint) :
  points_magnitude points < 2 ^ 53 ->
  Forall safe_integer
    (map total_count
       (map trend_of_entry (fold_left add_to_trends points []))).
Proof.
  intros Hsafe. pose proof (fold_trends_magnitude points []) as Hmag.
  change (map_magnitude []) with 0 in Hmag.
  rewrite map_map. apply Forall_forall. intros v Hv.
  apply in_map_iff in Hv as ([k v'] & <- & Hin).
  cbn [trend_of_entry total_count].
  assert (Hb : Z.abs v'
               <= map_magnitude (fold_left add_to_trends points [])).
  { apply (sum_member (fun e : string * Z => Z.abs (snd e)) _ (k, v'));
      [intros; lia|exact Hin]. }
  unfold safe_integer. lia.
Qed.

Lemma getMonthlyTrendsByMetric_safe (m : OptimizedMetrics)
  (metric : string) (name : option string) :
  safe_counts m ->
  Forall safe_integer
    (map total_count (getMonthlyTrendsByMetric m metric name)).
Proof.
  unfold safe_counts. intros Hsafe.
  pose proof (metric_points_magnitude m metric name) as Hpoints.
  rewrite getMonthlyTrendsByMetric_points.
  destruct (Object_get m metric) as [names|]; [|constructor].
  eapply Permutation_Forall.
  - apply Permutation_map, Permutation_sym, Array_sort_perm.
  - apply trend_totals_safe. lia.
Qed.

Lemma getAllMonthlyTrends_exact (m : OptimizedMetrics) :
  all_arrays m = true -> safe_counts m ->
  exists trends,
    getAllMonthlyTrends m = Some (Ok trends) /\
    Binary64.getAllMonthlyTrends m = Some (Ok (map number_trend trends)) /\
    Forall safe_integer (map total_count trends).
Proof.
  unfold safe_counts. intros Harr Hsafe.
  pose proof (all_points_magnitude m) as Hpoints.
  eexists. split; [|split].
  - unfold getAllMonthlyTrends.
    match goal with
    | |- and_then ?loop _ = _ =>
        replace loop
          with (Some (Ok (fold_left add_to_trends (all_points m) [])))
          by (symmetry; exact (model_loop_arrays add_to_trends m [] Harr))
    end.
    reflexivity.
  - unfold Binary64.getAllMonthlyTrends.
    match goal with
    | |- and_then ?loop _ = _ =>
        replace loop
          with (Some (Ok (fold_left Binary64.add_to_trends (all_points m)
                            (number_map []))))
          by (symmetry;
              exact (model_loop_arrays Binary64.add_to_trends m [] Harr))
    end.
    rewrite fold_trends_exact by (cbn; lia).
    cbn [and_then]. unfold Map_entries.
    now rewrite trend_entries_number, sort_trends_number.
  - unfold Map_entries. eapply Permutation_Forall.
    + apply Permutation_map, Permutation_sym, Array_sort_perm.
    + apply trend_totals_safe. lia.
Qed.

(** ** The tables within the safe range *)

Lemma series_value_exact (monthlyData : Series) :
  magnitude monthlyData < 2 ^ 53 ->
  match monthlyData with
  | TimeSeries a => Binary64.reduce_counts a
  | MonthTotals o => Binary64.reduce_values o
  | Scalar n => Number_of_Z n
  | OtherShape => Binary64.zero
  end
  = Number_of_Z (series_total monthlyData).
Proof.
  intros Hsafe. destruct monthlyData as [a|o|n|].
  - now apply reduce_counts_exact.
  - now apply reduce_values_exact.
  - reflexivity.
  - reflexivity.
Qed.

Lemma series_in_names (names : Object Series) k s :
  In (k, s) names -> magnitude s <= names_magnitude names.
Proof.
  intros Hin. apply (sum_member magnitude); [apply magnitude_nonneg|].
  unfold Object_values. now apply (in_map snd) in Hin.
Qed.

Lemma number_rows (m : OptimizedMetrics) (acc : list MetricData.t) :
  safe_counts m ->
  fold_left
    (fun flattened '(metric, names) =>
       fold_left
         (fun flattened '(name, monthlyData) =>
            let total_count :=
              match monthlyData with
              | TimeSeries a => Binary64.reduce_counts a
              | MonthTotals o => Binary64.reduce_values o
              | Scalar n => Number_of_Z n
              | OtherShape => Binary64.zero
              end in
            flattened ++
            [{| Binary64.MetricData.Metric := metric;
                Binary64.MetricData.Name := name;
                Binary64.MetricData.total_count := total_count |}])
         (Object_entries names) flattened)
    (Object_entries m) (map number_row acc)
  = map number_row (acc ++ metric_rows m).
Proof.
  unfold safe_counts, model_magnitude, Object_entries, Object_values.
  revert acc. induction m as [|[metric names] m IH]; intros acc.
  - intros _. cbn. now rewrite List.app_nil_r.
  - cbn [map snd fold_left metric_rows flat_map]. rewrite sum_list_cons.
    intros Hsafe.
    pose proof (sum_nonneg names_magnitude (map snd m)
                  names_magnitude_nonneg) as Hpos.
    assert (Hin : forall (l : Object Series) acc,
      (forall k s, In (k, s) l -> magnitude s < 2 ^ 53) ->
      fold_left
        (fun flattened '(name, monthlyData) =>
           let total_count :=
             match monthlyData with
             | TimeSeries a => Binary64.reduce_counts a
             | MonthTotals o => Binary64.reduce_values o
             | Scalar n => Number_of_Z n
             | OtherShape => Binary64.zero
             end in
           flattened ++
           [{| Binary64.MetricData.Metric := metric;
               Binary64.MetricData.Name := name;
               Binary64.MetricData.total_count := total_count |}])
        l (map number_row acc)
      = map number_row
          (acc ++
           map (fun '(name, monthlyData) =>
                  {| MetricData.Metric := metric;
                     MetricData.Name := name;
                     MetricData.total_count := series_total monthlyData |})
             l)).
    { induction l as [|[name s] l IHl]; intros acc' Hl.
      - cbn. now rewrite List.app_nil_r.
      - cbn [fold_left map]. cbv zeta.
        rewrite series_value_exact by (apply (Hl name); now left).
        change [{| Binary64.MetricData.Metric := metric;
                   Binary64.MetricData.Name := name;
                   Binary64.MetricData.total_count :=
                     Number_of_Z (series_total s) |}]
          with (map number_row
                  [{| MetricData.Metric := metric;
                      MetricData.Name := name;
                      MetricData.total_count := series_total s |}]).
        rewrite <- map_app, IHl by (intros k' s' H'; apply (Hl k'); now right).
        now rewrite <- List.app_assoc. }
    pose proof (names_magnitude_nonneg names) as Hnames.
    rewrite Hin.
    + rewrite IH by lia. now rewrite <- List.app_assoc.
    + intros k s Hks. pose proof (series_in_names names k s Hks). lia.
Qed.

Lemma rows_magnitude (m : OptimizedMetrics) :
  sum_list (map (fun row => Z.abs (MetricData.total_count row))
              (metric_rows m))
  <= model_magnitude m.
Proof.
  unfold model_magnitude, Object_values.
  induction m as [|[metric names] m IH]; [cbn; lia|].
  cbn [metric_rows flat_map map snd].
  rewrite map_app, sum_list_app, sum_list_cons.
  fold (metric_rows m).
  enough (sum_list
            (map (fun row => Z.abs (MetricData.total_count row))
               (map (fun '(name, monthlyData) =>
                       {| MetricData.Metric := metric;
                          MetricData.Name := name;
                          MetricData.total_count :=
                            series_total monthlyData |})
                  names))
          <= names_magnitude names) by lia.
  unfold names_magnitude, Object_values.
  clear IH. induction names as [|[name s] names IH]; [cbn; lia|].
  cbn [map snd MetricData.total_count]. rewrite !sum_list_cons.
  pose proof (series_total_bound s). lia.
Qed.

(** Within the safe range the flat table of the program is the table of
    the integer totals, number for number. *)
Lemma flattenMetrics_exact (m : OptimizedMetrics) :
  safe_counts m ->
  Binary64.flattenMetrics m = map number_row (flattenMetrics m).
Proof.
  intros Hsafe. rewrite flattened_rows.
  unfold Binary64.flattenMetrics.
  pose proof (number_rows m [] Hsafe) as Hfold.
  change (map number_row []) with (@nil Binary64.MetricData.t) in Hfold.
  cbn [List.app] in Hfold. cbv zeta in Hfold |- *. rewrite Hfold.
  apply Array_sort_map. intros a b Ha Hb.
  pose proof (rows_magnitude m) as Hrows.
  pose proof (difference_bound MetricData.total_count _ b a Hb Ha) as Hd.
  pose proof (difference_bound MetricData.total_count _ a a Ha Ha) as Hda.
  assert (Hone : forall row, In row (metric_rows m) ->
    Z.abs (MetricData.total_count row) <= model_magnitude m).
  { intros row Hrow. eapply Z.le_trans; [|exact Hrows].
    apply (sum_member (fun row => Z.abs (MetricData.total_count row)));
      [intros; lia|exact Hrow]. }
  pose proof (Hone a Ha). pose proof (Hone b Hb).
  unfold safe_counts in Hsafe.
  cbn [number_row Binary64.MetricData.total_count].
  apply compare_totals_exact; unfold safe_integer; lia.
Qed.

Lemma Map_set_magnitude (summaries : Map Z) (k : string) (v : Z) :
  map_magnitude (Map_set summaries k v) <= map_magnitude summaries + Z.abs v.
Proof.
  unfold map_magnitude.
  induction summaries as [|[k' v'] tm IH]; cbn [Map_set map snd];
    rewrite ?sum_list_cons.
  - cbn. lia.
  - destruct (String.eqb k' k); cbn [map snd]; rewrite sum_list_cons; lia.
Qed.

Lemma summaries_magnitude (m : OptimizedMetrics) (acc : Map Z) :
  map_magnitude
    (fold_left
       (fun summaries '(metric, names) =>
          Map_set summaries metric (names_total names))
       m acc)
  <= map_magnitude acc + model_magnitude m.
Proof.
  unfold model_magnitude, Object_values.
  revert acc. induction m as [|[metric names] m IH]; intros acc;
    cbn [fold_left map snd]; rewrite ?sum_list_cons; [cbn; lia|].
  specialize (IH (Map_set acc metric (names_total names))).
  pose proof (Map_set_magnitude acc metric (names_total names)).
  pose proof (names_total_bound names). lia.
Qed.

Lemma number_summaries (m : OptimizedMetrics) (acc : Map Z) :
  safe_counts m ->
  fold_left
    (fun summaries '(metric, names) =>
       let metricTotal :=
         fold_left
           (fun metricTotal monthlyData =>
              match monthlyData with
              | TimeSeries a =>
                  Binary64.Number_add metricTotal (Binary64.reduce_counts a)
              | MonthTotals o =>
                  Binary64.Number_add metricTotal (Binary64.reduce_values o)
              | Scalar n => Binary64.Number_add metricTotal (Number_of_Z n)
              | OtherShape => metricTotal
              end)
           (Object_values names) Binary64.zero in
       Map_set summaries metric metricTotal)
    (Object_entries m) (number_map acc)
  = number_map
      (fold_left
         (fun summaries '(metric, names) =>
            Map_set summaries metric (names_total names))
         m acc).
Proof.
  unfold safe_counts, model_magnitude, Object_entries, Object_values.
  revert acc. induction m as [|[metric names] m IH]; intros acc;
    cbn [fold_left map snd]; rewrite ?sum_list_cons; [reflexivity|].
  intros Hsafe. cbv zeta.
  pose proof (sum_nonneg names_magnitude (map snd m)
                names_magnitude_nonneg) as Hpos.
  pose proof (names_magnitude_nonneg names) as Hn.
  pose proof (fold_series_exact (map snd names) 0) as Hinner.
  change (Number_of_Z 0) with Binary64.zero in Hinner.
  assert (Hnames : Z.abs 0 + sum_list (map magnitude (map snd names))
                   < 2 ^ 53).
  { change (names_magnitude names)
      with (sum_list (map magnitude (map snd names))) in Hsafe, Hn.
    cbn [Z.abs]. lia. }
  rewrite (Hinner Hnames), Z.add_0_l.
  change (sum_list (map series_total (map snd names)))
    with (names_total names).
  rewrite Map_set_number. apply IH. lia.
Qed.

Lemma summaries_fold (m : OptimizedMetrics) (acc : Map Z) :
  fold_left
    (fun summaries '(metric, names) =>
       let metricTotal :=
         fold_left
           (fun metricTotal monthlyData =>
              match monthlyData with
              | TimeSeries a => metricTotal + reduce_counts a
              | MonthTotals o => metricTotal + reduce_values o
              | Scalar n => metricTotal + n
              | OtherShape => metricTotal
              end)
           (Object_values names) 0 in
       Map_set summaries metric metricTotal)
    m acc
  = fold_left
      (fun summaries '(metric, names) =>
         Map_set summaries metric (names_total names))
      m acc.
Proof.
  revert acc. induction m as [|[metric names] m IH]; intros acc;
    [reflexivity|].
  cbn [fold_left]. cbv zeta. rewrite metric_total_fold. apply IH.
Qed.

(** Within the safe range the summary table of the program is the table
    of the integer totals, number for number. *)
Lemma calculateMetricSummaries_exact (m : OptimizedMetrics) :
  safe_counts m ->
  Binary64.calculateMetricSummaries m
  = map number_summary (calculateMetricSummaries m).
Proof.
  intros Hsafe.
  unfold Binary64.calculateMetricSummaries, calculateMetricSummaries.
  pose proof (number_summaries m [] Hsafe) as Hfold.
  change (number_map []) with (@nil (string * spec_float)) in Hfold.
  pose proof (summaries_fold m []) as Hintegers.
  cbv zeta in Hfold, Hintegers |- *.
  rewrite Hfold. unfold Object_entries. rewrite Hintegers.
  clear Hfold Hintegers.
  pose proof (summaries_magnitude m []) as Hmag.
  change (map_magnitude []) with 0 in Hmag.
  set (summaries :=
         fold_left
           (fun (summaries : Map Z) '(metric, names) =>
              Map_set summaries metric (names_total names))
           m []) in *.
  unfold Map_entries.
  replace (map (fun '(Metric, total_count) =>
                  {| Binary64.MetricSummary.Metric := Metric;
                     Binary64.MetricSummary.total_count := total_count |})
             (number_map summaries))
    with (map number_summary
            (map (fun '(Metric, total_count) =>
                    {| MetricSummary.Metric := Metric;
                       MetricSummary.total_count := total_count |})
               summaries))
    by (unfold number_map; rewrite !map_map; apply map_ext; now intros [k v]).
  apply Array_sort_map. intros a b Ha Hb.
  assert (Hsum :
    sum_list
      (map (fun row => Z.abs (MetricSummary.total_count row))
         (map (fun '(Metric, total_count) =>
                 {| MetricSummary.Metric := Metric;
                    MetricSummary.total_count := total_count |})
            summaries))
    = map_magnitude summaries).
  { unfold map_magnitude. rewrite map_map. f_equal.
    apply map_ext. now intros [k v]. }
  pose proof (difference_bound MetricSummary.total_count _ b a Hb Ha) as Hd.
  assert (Hone : forall row,
    In row (map (fun '(Metric, total_count) =>
                   {| MetricSummary.Metric := Metric;
                      MetricSummary.total_count := total_count |})
              summaries) ->
    Z.abs (MetricSummary.total_count row) <= map_magnitude summaries).
  { intros row Hrow. rewrite <- Hsum.
    apply (sum_member (fun row => Z.abs (MetricSummary.total_count row)));
      [intros; lia|exact Hrow]. }
  pose proof (Hone a Ha). pose proof (Hone b Hb).
  unfold safe_counts in Hsafe.
  cbn [number_summary Binary64.MetricSummary.total_count].
  apply compare_totals_exact; unfold safe_integer; lia.
Qed.

(** ** The filtered models within the safe range *)

Lemma filter_magnitude callback (a : list MonthlyDataPoint) :
  points_magnitude (List.filter callback a) <= points_magnitude a.
Proof.
  unfold points_magnitude.
  induction a as [|p a IH]; cbn [List.filter map]; [lia|].
  destruct (callback p); cbn [map]; rewrite ?sum_list_cons; lia.
Qed.

Lemma keep_names_magnitude callback (names : Object Series) :
  names_magnitude (keep_names callback names) <= names_magnitude names.
Proof.
  induction names as [|[name s] names IH]; [cbn; lia|].
  change ((name, s) :: names) with ([(name, s)] ++ names).
  rewrite keep_names_app.
  unfold names_magnitude, Object_values in *.
  rewrite !map_app, !sum_list_app.
  enough (sum_list (map magnitude (map snd (keep_names callback [(name, s)])))
          <= sum_list (map magnitude (map snd [(name, s)]))) by lia.
  cbn [keep_names flat_map List.app map snd].
  pose proof (magnitude_nonneg s) as Hs.
  pose proof (filter_magnitude callback) as Hf.
  destruct s as [a| | |];
    try (cbn [List.app map snd sum_list fold_right] in *; lia).
  specialize (Hf a). unfold points_magnitude in Hf.
  destruct (List.filter callback a) as [|p kept] eqn:Hkept;
    cbn [List.app map snd magnitude] in *; rewrite ?sum_list_cons in *;
    cbn [sum_list fold_right] in *; lia.
Qed.

Lemma keep_metrics_magnitude callback (m : OptimizedMetrics) :
  model_magnitude (keep_metrics callback m) <= model_magnitude m.
Proof.
  induction m as [|[metric names] m IH]; [cbn; lia|].
  change ((metric, names) :: m) with ([(metric, names)] ++ m).
  rewrite keep_metrics_app.
  unfold model_magnitude, Object_values in *.
  rewrite !map_app, !sum_list_app.
  enough (sum_list
            (map names_magnitude
               (map snd (keep_metrics callback [(metric, names)])))
          <= sum_list (map names_magnitude (map snd [(metric, names)])))
    by lia.
  cbn [keep_metrics flat_map List.app map snd].
  pose proof (keep_names_magnitude callback names) as Hk.
  pose proof (names_magnitude_nonneg names) as Hn.
  destruct (keep_names callback names) as [|e inner];
    cbn [List.app map snd] in *; rewrite ?sum_list_cons;
    cbn [sum_list fold_right map] in *; lia.
Qed.

Lemma keep_metrics_safe callback (m : OptimizedMetrics) :
  safe_counts m -> safe_counts (keep_metrics callback m).
Proof.
  unfold safe_counts. pose proof (keep_metrics_magnitude callback m). lia.
Qed.

(** ** Sums of numbers that are integers *)

Lemma fold_left_mapped {A B C} (f : A -> B -> A) (g : C -> B) (l : list C)
  (a : A) :
  fold_left f (map g l) a = fold_left (fun a x => f a (g x)) l a.
Proof. revert a. induction l as [|x l IH]; intros a; [reflexivity|apply IH]. Qed.

(** Integers that stay in the safe range when they are added up without
    their signs are added exactly, one after the other. *)
Lemma Number_sum_exact (values : list Z) :
  sum_list (map Z.abs values) < 2 ^ 53 ->
  Number_sum (map Number_of_Z values) = Number_of_Z (sum_list values).
Proof.
  intros Hsafe. unfold Number_sum. rewrite fold_left_mapped.
  change Binary64.zero with (Number_of_Z 0).
  rewrite (fold_add_exact (fun z => z)) by exact Hsafe.
  now rewrite map_id.
Qed.

Lemma integers_of_map {A} (f : A -> spec_float) (g : A -> Z) (l : list A) :
  (forall x, In x l -> f x = Number_of_Z (g x)) ->
  (forall x, In x l -> safe_integer (g x)) ->
  integers (map f l) (map g l).
Proof.
  intros Hf Hg. split.
  - rewrite map_map. now apply map_ext_in.
  - apply Forall_forall. intros z Hz.
    apply in_map_iff in Hz as (x & <- & Hx). now apply Hg.
Qed.

Lemma safe_below (bound z : Z) :
  Z.abs z <= bound -> bound < 2 ^ 53 -> safe_integer z.
Proof. unfold safe_integer. lia. Qed.

Lemma metric_totals_magnitude (m : OptimizedMetrics) :
  unique_keys m ->
  sum_list
    (map Z.abs
       (map (fun metric => calculateTotalsByMetric m metric None)
          (Object_keys m)))
  <= model_magnitude m.
Proof.
  intros Hu. rewrite (metric_totals_of_keys m Hu).
  unfold model_magnitude.
  induction (Object_values m) as [|names l IH]; cbn [map];
    rewrite ?sum_list_cons; [cbn; lia|].
  pose proof (names_total_bound names). lia.
Qed.

(** C1 (amended).  On a document whose counts stay, added up without
    their signs, below 2^53, the record total that the program computes
    is the sum of the totals it computes for the metrics of the model,
    each taken without a name restriction, whatever the encodings of the
    series: the totals of the metrics are integers that the numbers hold
    exactly, the record total is the number of their sum, and it is also
    what adding the totals of the metrics as numbers gives. *)
Theorem record_total_is_sum_of_metric_totals (m : OptimizedMetrics) :
  unique_keys m ->
  safe_counts m ->
  exists totals,
    integers
      (map (fun metric => Binary64.calculateTotalsByMetric m metric None)
         (Object_keys m))
      totals /\
    integer (Binary64.calculateTotalRecords m) (sum_list totals) /\
    Binary64.calculateTotalRecords m
    = Number_sum
        (map (fun metric => Binary64.calculateTotalsByMetric m metric None)
           (Object_keys m)).
Proof.
  intros Hu Hsafe.
  exists (map (fun metric => calculateTotalsByMetric m metric None)
            (Object_keys m)).
  assert (Hnumbers :
    integers
      (map (fun metric => Binary64.calculateTotalsByMetric m metric None)
         (Object_keys m))
      (map (fun metric => calculateTotalsByMetric m metric None)
         (Object_keys m))).
  { apply integers_of_map; intros metric _.
    - now apply calculateTotalsByMetric_exact.
    - apply (safe_below (model_magnitude m)); [|exact Hsafe].
      apply calculateTotalsByMetric_bound. }
  split; [exact Hnumbers|].
  rewrite <- (record_total_sum m Hu). split.
  - split; [now apply calculateTotalRecords_exact|].
    apply (safe_below (model_magnitude m)); [|exact Hsafe].
    apply calculateTotalRecords_bound.
  - rewrite (proj1 Hnumbers), Number_sum_exact.
    + rewrite <- (record_total_sum m Hu).
      now apply calculateTotalRecords_exact.
    + pose proof (metric_totals_magnitude m Hu). unfold safe_counts in Hsafe.
      lia.
Qed.

Lemma mixed_model_safe : safe_counts mixed_model.
Proof. unfold safe_counts. vm_compute. reflexivity. Qed.

Lemma record_total_is_sum_of_metric_totals_witness :
  unique_keys mixed_model /\ safe_counts mixed_model /\
  Binary64.calculateTotalRecords mixed_model = Number_of_Z 1047 /\
  map (fun metric => Binary64.calculateTotalsByMetric mixed_model metric None)
    (Object_keys mixed_model)
  = [Number_of_Z 47; Number_of_Z 1000] /\
  exists totals,
    integers
      (map (fun metric =>
              Binary64.calculateTotalsByMetric mixed_model metric None)
         (Object_keys mixed_model))
      totals /\
    integer (Binary64.calculateTotalRecords mixed_model) (sum_list totals) /\
    Binary64.calculateTotalRecords mixed_model
    = Number_sum
        (map (fun metric =>
                Binary64.calculateTotalsByMetric mixed_model metric None)
           (Object_keys mixed_model)).
Proof.
  split; [exact mixed_model_unique|]. split; [exact mixed_model_safe|].
  split; [reflexivity|]. split; [reflexivity|].
  exact (record_total_is_sum_of_metric_totals mixed_model
           mixed_model_unique mixed_model_safe).
Defined.

(** C1, as stated, fails beyond 2^53, where a number no longer holds every
    integer: with one count of 2^53 under the metric A and two counts of 1
    under the metric B, the record total is 2^53 (each 1 added to 2^53 is
    rounded away), while the totals of the metrics are 2^53 and 2, whose
    sum, 2^53 + 2, is a number and is larger. *)
Lemma record_total_rounds_beyond_safe_counts :
  unique_keys beyond_safe_counts /\
  Binary64.calculateTotalRecords beyond_safe_counts = Number_of_Z (2 ^ 53) /\
  map (fun metric =>
         Binary64.calculateTotalsByMetric beyond_safe_counts metric None)
    (Object_keys beyond_safe_counts)
  = [Number_of_Z (2 ^ 53); Number_of_Z 2] /\
  Number_sum [Number_of_Z (2 ^ 53); Number_of_Z 2]
  = Number_of_Z (2 ^ 53 + 2) /\
  SFcompare (Binary64.calculateTotalRecords beyond_safe_counts)
    (Number_of_Z (2 ^ 53 + 2)) = Some Lt /\
  Binary64.calculateTotalRecords beyond_safe_counts
  <> Number_sum
       (map (fun metric =>
               Binary64.calculateTotalsByMetric beyond_safe_counts metric
                 None)
          (Object_keys beyond_safe_counts)).
Proof.
  split.
  { unfold unique_keys. simpl.
    repeat (apply NoDup_cons; [simpl; intuition discriminate|]).
    apply NoDup_nil. }
  split; [vm_compute; reflexivity|]. split; [vm_compute; reflexivity|].
  split; [vm_compute; reflexivity|]. split; [vm_compute; reflexivity|].
  vm_compute. discriminate.
Qed.

(** ** The totals of a year *)

Lemma filter_number_trends (f : Z -> bool) (l : list MonthlyTrend) :
  List.filter (fun t => f (Binary64.trend_year t)) (map number_trend l)
  = map number_trend (List.filter (fun t => f (trend_year t)) l).
Proof.
  induction l as [|t l IH]; [reflexivity|].
  cbn [map List.filter number_trend Binary64.trend_year].
  destruct (f (trend_year t)); cbn [map]; now rewrite IH.
Qed.

Lemma number_trend_totals (l : list MonthlyTrend) :
  map Binary64.total_count (map number_trend l)
  = map Number_of_Z (map total_count l).
Proof. rewrite !map_map. reflexivity. Qed.

Lemma Forall_filter {A} (P : A -> Prop) (f : A -> bool) (l : list A) :
  Forall P l -> Forall P (List.filter f l).
Proof.
  intros H. apply Forall_forall. intros x Hx.
  apply filter_In in Hx as [Hx _]. revert x Hx. now apply Forall_forall.
Qed.

Lemma Forall_map_filter {A} (P : Z -> Prop) (g : A -> Z) (f : A -> bool)
  (l : list A) :
  Forall P (map g l) -> Forall P (map g (List.filter f l)).
Proof.
  rewrite !Forall_map. apply Forall_filter.
Qed.

Lemma sum_abs_filter {A} (g : A -> Z) (f : A -> bool) (l : list A) :
  sum_list (map Z.abs (map g (List.filter f l)))
  <= sum_list (map Z.abs (map g l)).
Proof.
  induction l as [|x l IH]; cbn [List.filter map]; [lia|].
  destruct (f x); cbn [map]; rewrite ?sum_list_cons; lia.
Qed.

Lemma trend_totals_magnitude (trendsMap : Map Z) :
  sum_list (map Z.abs (map total_count (map trend_of_entry trendsMap)))
  = map_magnitude trendsMap.
Proof.
  unfold map_magnitude. rewrite !map_map. f_equal.
  apply map_ext. now intros [k v].
Qed.

Lemma getMonthlyTrendsByMetric_magnitude (m : OptimizedMetrics)
  (metric : string) (name : option string) :
  sum_list
    (map Z.abs (map total_count (getMonthlyTrendsByMetric m metric name)))
  <= model_magnitude m.
Proof.
  pose proof (metric_points_magnitude m metric name) as Hpoints.
  rewrite getMonthlyTrendsByMetric_points.
  destruct (Object_get m metric) as [names|].
  - rewrite (sum_list_perm _ _
               (Permutation_map Z.abs
                  (Permutation_map total_count (Array_sort_perm _ _)))).
    rewrite trend_totals_magnitude.
    pose proof (fold_trends_magnitude (metric_points m metric name) []) as H.
    change (map_magnitude []) with 0 in H.
    unfold metric_points in *.
    destruct (Object_get m metric); lia.
  - cbn [map sum_list fold_right].
    apply (sum_nonneg names_magnitude), names_magnitude_nonneg.
Qed.

(** C5 (amended).  On a model whose series are all arrays and whose
    counts stay, added up without their signs, below 2^53, filtering by a
    year returns a model, and the total that the program computes for a
    metric in it is the sum of the totals of the metric's monthly trend
    entries of that year: the entries' totals are integers that the
    numbers hold exactly, the total of the year is the number of their
    sum, and it is also what adding the entries' totals as numbers gives.
    This is stated for the points whose key is read back under the year it
    was made of, as the keys of the years that are not negative are; what
    the trend function makes of the others is left out. *)
Theorem year_total_is_sum_of_year_trends
  (m : OptimizedMetrics) (y : Z) (metric : string) :
  wf_metrics m ->
  all_arrays m = true ->
  safe_counts m ->
  unsigned_years (metric_points m metric None) ->
  exists r totals,
    filterMetricsByYear m y = Ok r /\
    integers
      (map Binary64.total_count
         (List.filter (fun t => Binary64.trend_year t =? y)
            (Binary64.getMonthlyTrendsByMetric m metric None)))
      totals /\
    integer (Binary64.calculateTotalsByMetric r metric None)
      (sum_list totals) /\
    Binary64.calculateTotalsByMetric r metric None
    = Number_sum
        (map Binary64.total_count
           (List.filter (fun t => Binary64.trend_year t =? y)
              (Binary64.getMonthlyTrendsByMetric m metric None))).
Proof.
  intros Hwf Harr Hsafe Hpos.
  destruct (year_total_sum m y metric Hwf Harr Hpos) as [Hrun Hsum].
  pose proof (keep_metrics_safe (in_year y) m Hsafe) as Hkept.
  exists (keep_metrics (in_year y) m).
  exists (map total_count
            (List.filter (fun t => trend_year t =? y)
               (getMonthlyTrendsByMetric m metric None))).
  assert (Hnumbers :
    map Binary64.total_count
      (List.filter (fun t => Binary64.trend_year t =? y)
         (Binary64.getMonthlyTrendsByMetric m metric None))
    = map Number_of_Z
        (map total_count
           (List.filter (fun t => trend_year t =? y)
              (getMonthlyTrendsByMetric m metric None)))).
  { rewrite (getMonthlyTrendsByMetric_exact m metric None Hsafe).
    rewrite (filter_number_trends (fun z => z =? y)).
    apply number_trend_totals. }
  split; [exact Hrun|]. split; [|split].
  - split; [exact Hnumbers|].
    apply Forall_map_filter.
    now apply getMonthlyTrendsByMetric_safe.
  - rewrite <- Hsum. split.
    + now apply calculateTotalsByMetric_exact.
    + apply (safe_below (model_magnitude (keep_metrics (in_year y) m)));
        [|exact Hkept].
      apply calculateTotalsByMetric_bound.
  - rewrite Hnumbers, Number_sum_exact.
    + rewrite <- Hsum. now apply calculateTotalsByMetric_exact.
    + pose proof (sum_abs_filter total_count (fun t => trend_year t =? y)
                    (getMonthlyTrendsByMetric m metric None)).
      pose proof (getMonthlyTrendsByMetric_magnitude m metric None).
      unfold safe_counts in Hsafe. lia.
Qed.

Lemma scenario_safe : safe_counts scenario.
Proof. unfold safe_counts. vm_compute. reflexivity. Qed.

Lemma year_total_is_sum_of_year_trends_witness :
  wf_metrics scenario /\
  all_arrays scenario = true /\
  safe_counts scenario /\
  unsigned_years (metric_points scenario "Transaction" None) /\
  map Binary64.total_count
    (List.filter (fun t => Binary64.trend_year t =? 2022)
       (Binary64.getMonthlyTrendsByMetric scenario "Transaction" None))
  = [Number_of_Z 10; Number_of_Z 20] /\
  exists r totals,
    filterMetricsByYear scenario 2022 = Ok r /\
    integers
      (map Binary64.total_count
         (List.filter (fun t => Binary64.trend_year t =? 2022)
            (Binary64.getMonthlyTrendsByMetric scenario "Transaction" None)))
      totals /\
    integer (Binary64.calculateTotalsByMetric r "Transaction" None)
      (sum_list totals) /\
    Binary64.calculateTotalsByMetric r "Transaction" None
    = Number_sum
        (map Binary64.total_count
           (List.filter (fun t => Binary64.trend_year t =? 2022)
              (Binary64.getMonthlyTrendsByMetric scenario "Transaction"
                 None))).
Proof.
  assert (Hw : wf_metrics scenario) by solve_unique.
  assert (Ha : all_arrays scenario = true) by reflexivity.
  assert (Hy : unsigned_years (metric_points scenario "Transaction" None)).
  { repeat constructor; simpl; lia. }
  split; [exact Hw|]. split; [exact Ha|]. split; [exact scenario_safe|].
  split; [exact Hy|]. split; [reflexivity|].
  exact (year_total_is_sum_of_year_trends scenario 2022 "Transaction"
           Hw Ha scenario_safe Hy).
Defined.

(** C5, as stated, fails in two ways.  On a model with a bare number the
    filter raises, so the filtered total does not exist.  And beyond 2^53
    the two sides add the same counts in different groups and round
    differently: with 2^53 in March under one name and 1 in January and in
    February under two others, the total of the year is 2^53, while the
    trend entries of the year are 1, 1 and 2^53, whose sum is 2^53 + 2. *)
Lemma year_total_differs_from_year_trends :
  filterMetricsByYear scenario_with_scalar 2022 = Throw TypeError /\
  (exists r,
     filterMetricsByYear beyond_safe_year 2022 = Ok r /\
     Binary64.calculateTotalsByMetric r "A" None = Number_of_Z (2 ^ 53) /\
     map Binary64.total_count
       (List.filter (fun t => Binary64.trend_year t =? 2022)
          (Binary64.getMonthlyTrendsByMetric beyond_safe_year "A" None))
     = [Number_of_Z 1; Number_of_Z 1; Number_of_Z (2 ^ 53)] /\
     Number_sum [Number_of_Z 1; Number_of_Z 1; Number_of_Z (2 ^ 53)]
     = Number_of_Z (2 ^ 53 + 2) /\
     SFcompare (Binary64.calculateTotalsByMetric r "A" None)
       (Number_of_Z (2 ^ 53 + 2)) = Some Lt).
Proof.
  split; [reflexivity|].
  eexists. split; [reflexivity|].
  split; [vm_compute; reflexivity|]. split; [vm_compute; reflexivity|].
  split; vm_compute; reflexivity.
Qed.

(** C10.  The claim fails on a signed year.  [getMonthlyTrendsByMetric]
    writes the year -5 and the month 3 into the key ["-5-3"] and reads the
    key back, split at every hyphen, as year 0 and month 5: the points
    (-5, 3) and (0, 5) come back as two entries of the same year and
    month, which the claim says are pairwise distinct.  The functions
    beside it keep the year as it is: [getAvailableYears] lists -5, and
    [filterMetricsByYear] returns its point. *)
Theorem monthly_trends_signed_year_repeats :
  let m := [("Transaction",
             [("X", TimeSeries [point (-5) 3 1; point 0 5 2])])] in
  getMonthlyTrendsByMetric m "Transaction" None =
    [ {| trend_year := 0; trend_month := 5; total_count := 1 |};
      {| trend_year := 0; trend_month := 5; total_count := 2 |} ] /\
  ~ NoDup (map year_month (getMonthlyTrendsByMetric m "Transaction" None)) /\
  map (fun t => (Binary64.trend_year t, Binary64.trend_month t))
    (Binary64.getMonthlyTrendsByMetric m "Transaction" None)
  = [(0, 5); (0, 5)] /\
  getAvailableYears m = Some (Ok [0; -5]) /\
  filterMetricsByYear m (-5)
  = Ok [("Transaction", [("X", TimeSeries [point (-5) 3 1])])].
Proof.
  split; [reflexivity|]. split.
  - intros H. vm_compute in H.
    inversion H as [|? ? Hnotin _]; subst. apply Hnotin. now left.
  - split; [reflexivity|]. split; reflexivity.
Qed.

(** ** The tables and the record total *)

Lemma number_row_totals (l : list MetricData.t) :
  map Binary64.MetricData.total_count (map number_row l)
  = map Number_of_Z (map MetricData.total_count l).
Proof. rewrite !map_map. reflexivity. Qed.

Lemma number_summary_totals (l : list MetricSummary.t) :
  map Binary64.MetricSummary.total_count (map number_summary l)
  = map Number_of_Z (map MetricSummary.total_count l).
Proof. rewrite !map_map. reflexivity. Qed.

Lemma Forall_safe_below (bound : Z) (l : list Z) :
  sum_list (map Z.abs l) <= bound -> bound < 2 ^ 53 ->
  Forall safe_integer l.
Proof.
  intros Hsum Hbound. apply Forall_forall. intros z Hz.
  apply (safe_below bound); [|exact Hbound].
  pose proof (sum_member Z.abs l z ltac:(intros; lia) Hz). lia.
Qed.

Lemma flattened_totals_magnitude (m : OptimizedMetrics) :
  sum_list (map Z.abs (map MetricData.total_count (flattenMetrics m)))
  <= model_magnitude m.
Proof.
  rewrite flattened_rows.
  rewrite (sum_list_perm _ _
             (Permutation_map Z.abs
                (Permutation_map MetricData.total_count
                   (Array_sort_perm _ (metric_rows m))))).
  rewrite map_map. apply rows_magnitude.
Qed.

Lemma summaries_totals_magnitude (m : OptimizedMetrics) :
  sum_list
    (map Z.abs (map MetricSummary.total_count (calculateMetricSummaries m)))
  <= model_magnitude m.
Proof.
  unfold calculateMetricSummaries.
  pose proof (summaries_fold m []) as Hfold. cbv zeta in Hfold |- *.
  unfold Object_entries, Map_entries. rewrite Hfold.
  rewrite (sum_list_perm _ _
             (Permutation_map Z.abs
                (Permutation_map MetricSummary.total_count
                   (Array_sort_perm _ _)))).
  pose proof (summaries_magnitude m []) as Hmag.
  change (map_magnitude []) with 0 in Hmag.
  unfold map_magnitude in Hmag. rewrite !map_map.
  erewrite map_ext; [exact Hmag|]. now intros [k v].
Qed.

(** X1.  On a document whose counts stay, added up without their signs,
    below 2^53, the flat table and the summary table that the program
    computes are the tables of the integer totals, number for number, and
    the totals of the rows of either table are integers that add up to the
    record total the program computes. *)
Theorem table_totals_add_up (m : OptimizedMetrics) :
  unique_keys m ->
  safe_counts m ->
  Binary64.flattenMetrics m = map number_row (flattenMetrics m) /\
  Binary64.calculateMetricSummaries m
  = map number_summary (calculateMetricSummaries m) /\
  (exists totals,
     integers
       (map Binary64.MetricData.total_count (Binary64.flattenMetrics m))
       totals /\
     integer (Binary64.calculateTotalRecords m) (sum_list totals)) /\
  (exists totals,
     integers
       (map Binary64.MetricSummary.total_count
          (Binary64.calculateMetricSummaries m))
       totals /\
     integer (Binary64.calculateTotalRecords m) (sum_list totals)).
Proof.
  intros Hu Hsafe.
  assert (Htotal : forall z, z = calculateTotalRecords m ->
    integer (Binary64.calculateTotalRecords m) z).
  { intros z ->. split; [now apply calculateTotalRecords_exact|].
    apply (safe_below (model_magnitude m)); [|exact Hsafe].
    apply calculateTotalRecords_bound. }
  split; [now apply flattenMetrics_exact|].
  split; [now apply calculateMetricSummaries_exact|]. split.
  - exists (map MetricData.total_count (flattenMetrics m)). split.
    + split.
      * rewrite (flattenMetrics_exact m Hsafe). apply number_row_totals.
      * apply (Forall_safe_below (model_magnitude m)); [|exact Hsafe].
        apply flattened_totals_magnitude.
    + apply Htotal, flattened_totals_sum.
  - exists (map MetricSummary.total_count (calculateMetricSummaries m)).
    split.
    + split.
      * rewrite (calculateMetricSummaries_exact m Hsafe).
        apply number_summary_totals.
      * apply (Forall_safe_below (model_magnitude m)); [|exact Hsafe].
        apply summaries_totals_magnitude.
    + apply Htotal. now apply summaries_totals_sum.
Qed.

Lemma table_totals_add_up_witness :
  unique_keys mixed_model /\ safe_counts mixed_model /\
  map Binary64.MetricData.total_count (Binary64.flattenMetrics mixed_model)
  = [Number_of_Z 1000; Number_of_Z 35; Number_of_Z 7; Number_of_Z 5;
     Number_of_Z 0] /\
  Binary64.calculateTotalRecords mixed_model = Number_of_Z 1047 /\
  exists totals,
    integers
      (map Binary64.MetricData.total_count
         (Binary64.flattenMetrics mixed_model))
      totals /\
    integer (Binary64.calculateTotalRecords mixed_model) (sum_list totals).
Proof.
  split; [exact mixed_model_unique|]. split; [exact mixed_model_safe|].
  split; [reflexivity|]. split; [reflexivity|].
  exact (proj1 (proj2 (proj2
    (table_totals_add_up mixed_model mixed_model_unique mixed_model_safe)))).
Defined.

(** ** The totals of the names and of the months *)

(** X7.  On a document whose counts stay, added up without their signs,
    below 2^53, the totals that the program computes for the names of a
    metric are integers that add up to the total it computes for the
    metric, when no name is the empty string. *)
Theorem calculateTotalsByMetric_names_add_up (m : OptimizedMetrics)
  (metric : string) (names : Object Series) :
  Object_get m metric = Some names ->
  unique_keys names ->
  ~ In "" (Object_keys names) ->
  safe_counts m ->
  exists totals,
    integers
      (map (fun name => Binary64.calculateTotalsByMetric m metric (Some name))
         (Object_keys names))
      totals /\
    integer (Binary64.calculateTotalsByMetric m metric None)
      (sum_list totals).
Proof.
  intros Hget Hu Hne Hsafe.
  exists (map (fun name => calculateTotalsByMetric m metric (Some name))
            (Object_keys names)).
  split.
  - apply integers_of_map; intros name _.
    + now apply calculateTotalsByMetric_exact.
    + apply (safe_below (model_magnitude m)); [|exact Hsafe].
      apply calculateTotalsByMetric_bound.
  - rewrite (name_totals_sum m metric names Hget Hu Hne). split.
    + now apply calculateTotalsByMetric_exact.
    + apply (safe_below (model_magnitude m)); [|exact Hsafe].
      apply calculateTotalsByMetric_bound.
Qed.

Lemma calculateTotalsByMetric_names_add_up_witness :
  let names :=
    [("X", TimeSeries [point 2022 1 10; point 2022 2 20; point 2023 1 5]);
     ("Y", Scalar 5);
     ("Z", MonthTotals [("2022-1", 3); ("2022-2", 4)])] in
  Object_get mixed_model "Transaction" = Some names /\
  unique_keys names /\
  ~ In "" (Object_keys names) /\
  safe_counts mixed_model /\
  map (fun name =>
         Binary64.calculateTotalsByMetric mixed_model "Transaction"
           (Some name))
    (Object_keys names)
  = [Number_of_Z 35; Number_of_Z 5; Number_of_Z 7] /\
  Binary64.calculateTotalsByMetric mixed_model "Transaction" None
  = Number_of_Z 47 /\
  exists totals,
    integers
      (map (fun name =>
              Binary64.calculateTotalsByMetric mixed_model "Transaction"
                (Some name))
         (Object_keys names))
      totals /\
    integer (Binary64.calculateTotalsByMetric mixed_model "Transaction" None)
      (sum_list totals).
Proof.
  intros names.
  assert (Hu : unique_keys names).
  { unfold unique_keys. simpl.
    repeat (apply NoDup_cons; [simpl; intuition discriminate|]).
    apply NoDup_nil. }
  assert (Hne : ~ In "" (Object_keys names))
    by (simpl; intuition discriminate).
  split; [reflexivity|]. split; [exact Hu|]. split; [exact Hne|].
  split; [exact mixed_model_safe|].
  split; [reflexivity|]. split; [reflexivity|].
  exact (calculateTotalsByMetric_names_add_up mixed_model "Transaction"
           names eq_refl Hu Hne mixed_model_safe).
Defined.

(** X8.  On a model of arrays whose counts stay, added up without their
    signs, below 2^53, the totals of the monthly trend entries that the
    program computes for a metric are integers that add up to the total
    it computes for the metric, for every choice of name; no sign of a
    year or a month matters to it. *)
Theorem monthly_trends_add_up (m : OptimizedMetrics) (metric : string)
  (name : option string) :
  all_arrays m = true ->
  safe_counts m ->
  exists totals,
    integers
      (map Binary64.total_count
         (Binary64.getMonthlyTrendsByMetric m metric name))
      totals /\
    integer (Binary64.calculateTotalsByMetric m metric name)
      (sum_list totals).
Proof.
  intros Harr Hsafe.
  exists (map total_count (getMonthlyTrendsByMetric m metric name)).
  split.
  - split.
    + rewrite (getMonthlyTrendsByMetric_exact m metric name Hsafe).
      apply number_trend_totals.
    + now apply getMonthlyTrendsByMetric_safe.
  - rewrite (trend_totals_sum m metric name Harr). split.
    + now apply calculateTotalsByMetric_exact.
    + apply (safe_below (model_magnitude m)); [|exact Hsafe].
      apply calculateTotalsByMetric_bound.
Qed.

Lemma monthly_trends_add_up_witness :
  all_arrays scenario = true /\
  safe_counts scenario /\
  map Binary64.total_count
    (Binary64.getMonthlyTrendsByMetric scenario "Transaction" None)
  = [Number_of_Z 10; Number_of_Z 20; Number_of_Z 5] /\
  Binary64.calculateTotalsByMetric scenario "Transaction" None
  = Number_of_Z 35 /\
  exists totals,
    integers
      (map Binary64.total_count
         (Binary64.getMonthlyTrendsByMetric scenario "Transaction" None))
      totals /\
    integer (Binary64.calculateTotalsByMetric scenario "Transaction" None)
      (sum_list totals).
Proof.
  split; [reflexivity|]. split; [exact scenario_safe|].
  split; [reflexivity|]. split; [reflexivity|].
  exact (monthly_trends_add_up scenario "Transaction" None eq_refl
           scenario_safe).
Defined.

(** ** The views and the record total *)

Lemma year_view_kept (m r : OptimizedMetrics) (y : Z) :
  wf_metrics m -> all_arrays m = true ->
  filterMetricsByYear m y = Ok r -> r = keep_metrics (in_year y) m.
Proof.
  intros Hwf Harr.
  rewrite filterMetricsByYear_loop, filter_loop_keep, Harr by assumption.
  now intros [= <-].
Qed.

Lemma month_view_kept (m r : OptimizedMetrics) (y mo : Z) :
  wf_metrics m -> all_arrays m = true ->
  filterMetricsByYearMonth m y mo = Ok r ->
  r = keep_metrics (in_year_month y mo) m.
Proof.
  intros Hwf Harr.
  rewrite filterMetricsByYearMonth_loop, filter_loop_keep, Harr
    by assumption.
  now intros [= <-].
Qed.

Lemma views_safe {A} (view : A -> OptimizedMetrics -> Prop)
  (keys : list A) (views : list OptimizedMetrics) :
  (forall key r, view key r -> safe_counts r) ->
  Forall2 view keys views -> Forall safe_counts views.
Proof.
  intros Hsafe. induction 1 as [|key r keys views Hview _ IH];
    constructor; [now apply (Hsafe key)|exact IH].
Qed.

Lemma record_totals_integers (views : list OptimizedMetrics) :
  Forall safe_counts views ->
  integers (map Binary64.calculateTotalRecords views)
    (map calculateTotalRecords views).
Proof.
  intros Hsafe. rewrite Forall_forall in Hsafe.
  apply integers_of_map; intros r Hr.
  - now apply calculateTotalRecords_exact, Hsafe.
  - apply (safe_below (model_magnitude r)); [|now apply Hsafe].
    apply calculateTotalRecords_bound.
Qed.

Lemma record_total_integer (m : OptimizedMetrics) :
  safe_counts m ->
  integer (Binary64.calculateTotalRecords m) (calculateTotalRecords m).
Proof.
  intros Hsafe. split; [now apply calculateTotalRecords_exact|].
  apply (safe_below (model_magnitude m)); [|exact Hsafe].
  apply calculateTotalRecords_bound.
Qed.

(** X16.  On a model of arrays whose counts stay, added up without their
    signs, below 2^53, the year views, taken for the years that
    [getAvailableYears] returns, share out the records: the record totals
    that the program computes for them are integers that add up to the
    record total it computes for the model.  In the same way the month
    views of a year, for the months that [getAvailableMonths] returns,
    share out the records of the year view. *)
Theorem views_share_out_the_records (m : OptimizedMetrics) (y : Z) :
  wf_metrics m ->
  all_arrays m = true ->
  safe_counts m ->
  (exists years views totals,
     getAvailableYears m = Some (Ok years) /\
     Forall2 (fun y r => filterMetricsByYear m y = Ok r) years views /\
     integers (map Binary64.calculateTotalRecords views) totals /\
     integer (Binary64.calculateTotalRecords m) (sum_list totals)) /\
  (exists months views r totals,
     getAvailableMonths m y = Some (Ok months) /\
     Forall2 (fun mo r => filterMetricsByYearMonth m y mo = Ok r)
       months views /\
     filterMetricsByYear m y = Ok r /\
     integers (map Binary64.calculateTotalRecords views) totals /\
     integer (Binary64.calculateTotalRecords r) (sum_list totals)).
Proof.
  intros Hwf Harr Hsafe.
  destruct (views_partition_records m y Hwf Harr)
    as [(years & views & Hyears & Hviews & Hsum)
        (months & mviews & r & Hmonths & Hmviews & Hr & Hmsum)].
  split.
  - exists years, views, (map calculateTotalRecords views).
    split; [exact Hyears|]. split; [exact Hviews|]. split.
    + apply record_totals_integers.
      apply (views_safe _ _ _ (fun y' r' Hv =>
               eq_ind_r safe_counts
                 (keep_metrics_safe (in_year y') m Hsafe)
                 (year_view_kept m r' y' Hwf Harr Hv)) Hviews).
    + rewrite Hsum. now apply record_total_integer.
  - exists months, mviews, r, (map calculateTotalRecords mviews).
    split; [exact Hmonths|]. split; [exact Hmviews|].
    split; [exact Hr|]. split.
    + apply record_totals_integers.
      apply (views_safe _ _ _ (fun mo r' Hv =>
               eq_ind_r safe_counts
                 (keep_metrics_safe (in_year_month y mo) m Hsafe)
                 (month_view_kept m r' y mo Hwf Harr Hv)) Hmviews).
    + rewrite Hmsum. apply record_total_integer.
      rewrite (year_view_kept m r y Hwf Harr Hr).
      now apply keep_metrics_safe.
Qed.

Lemma views_share_out_the_records_witness :
  wf_metrics scenario /\ all_arrays scenario = true /\
  safe_counts scenario /\
  (exists years views totals,
     getAvailableYears scenario = Some (Ok years) /\
     Forall2 (fun y r => filterMetricsByYear scenario y = Ok r)
       years views /\
     integers (map Binary64.calculateTotalRecords views) totals /\
     integer (Binary64.calculateTotalRecords scenario) (sum_list totals)) /\
  (exists months views r totals,
     getAvailableMonths scenario 2022 = Some (Ok months) /\
     Forall2 (fun mo r => filterMetricsByYearMonth scenario 2022 mo = Ok r)
       months views /\
     filterMetricsByYear scenario 2022 = Ok r /\
     integers (map Binary64.calculateTotalRecords views) totals /\
     integer (Binary64.calculateTotalRecords r) (sum_list totals)).
Proof.
  split; [exact scenario_wf|]. split; [reflexivity|].
  split; [exact scenario_safe|].
  exact (views_share_out_the_records scenario 2022 scenario_wf eq_refl
           scenario_safe).
Defined.

(** ** All the monthly trends *)

Lemma number_trends_sorted (l : list MonthlyTrend) :
  StronglySorted trend_le l ->
  StronglySorted number_trend_le (map number_trend l).
Proof.
  induction 1 as [|t l Hs IH Ht]; cbn [map]; constructor; [exact IH|].
  rewrite Forall_map. eapply Forall_impl; [|exact Ht].
  intros t' Hle. exact Hle.
Qed.

(** X17.  On a model of arrays whose counts stay, added up without their
    signs, below 2^53, [getAllMonthlyTrends] returns a list sorted by year
    and month whose totals are integers that add up to the record total
    the program computes; and when no year or month is negative, it holds
    an entry for a month exactly when the model has a point in that month,
    with the sum of the counts of the points of the month. *)
Theorem getAllMonthlyTrends_of_arrays (m : OptimizedMetrics) :
  all_arrays m = true ->
  safe_counts m ->
  exists trends totals,
    Binary64.getAllMonthlyTrends m = Some (Ok trends) /\
    StronglySorted number_trend_le trends /\
    integers (map Binary64.total_count trends) totals /\
    integer (Binary64.calculateTotalRecords m) (sum_list totals) /\
    (unsigned_dates (all_points m) ->
     forall t,
       In t trends <->
       exists p,
         In p (all_points m) /\
         Binary64.trend_year t = year p /\
         Binary64.trend_month t = month p /\
         Binary64.total_count t
         = Number_of_Z
             (sum_list
                (map count
                   (List.filter (in_year_month (year p) (month p))
                      (all_points m))))).
Proof.
  intros Harr Hsafe.
  destruct (all_trends_of_arrays m Harr)
    as (trends & Hrun & Hsorted & Hsum & Hentries).
  destruct (getAllMonthlyTrends_exact m Harr Hsafe)
    as (trends' & Hrun' & Hnumbers & Hbound).
  rewrite Hrun in Hrun'. injection Hrun' as <-.
  exists (map number_trend trends), (map total_count trends).
  split; [exact Hnumbers|]. split; [now apply number_trends_sorted|].
  split; [split; [apply number_trend_totals|exact Hbound]|].
  split; [rewrite Hsum; now apply record_total_integer|].
  intros Hpos t. specialize (Hentries Hpos). split.
  - intros Ht. apply in_map_iff in Ht as (t0 & <- & Ht0).
    apply Hentries in Ht0 as (p & Hp & Hy & Hmo & Htotal).
    exists p. cbn [number_trend Binary64.trend_year Binary64.trend_month
                   Binary64.total_count].
    rewrite Htotal. now repeat split.
  - intros (p & Hp & Hy & Hmo & Htotal).
    apply in_map_iff.
    exists {| trend_year := year p; trend_month := month p;
              total_count :=
                sum_list
                  (map count
                     (List.filter (in_year_month (year p) (month p))
                        (all_points m))) |}.
    split.
    + destruct t as [ty tm tc]. cbn in Hy, Hmo, Htotal. subst.
      reflexivity.
    + apply Hentries. exists p. now repeat split.
Qed.

Lemma getAllMonthlyTrends_of_arrays_witness :
  all_arrays scenario = true /\
  safe_counts scenario /\
  Binary64.getAllMonthlyTrends scenario
  = Some (Ok [{| Binary64.trend_year := 2022; Binary64.trend_month := 1;
                 Binary64.total_count := Number_of_Z 10 |};
              {| Binary64.trend_year := 2022; Binary64.trend_month := 2;
                 Binary64.total_count := Number_of_Z 20 |};
              {| Binary64.trend_year := 2023; Binary64.trend_month := 1;
                 Binary64.total_count := Number_of_Z 5 |}]) /\
  Binary64.calculateTotalRecords scenario = Number_of_Z 35 /\
  exists trends totals,
    Binary64.getAllMonthlyTrends scenario = Some (Ok trends) /\
    integers (map Binary64.total_count trends) totals /\
    integer (Binary64.calculateTotalRecords scenario) (sum_list totals).
Proof.
  split; [reflexivity|]. split; [exact scenario_safe|].
  split; [reflexivity|]. split; [reflexivity|].
  destruct (getAllMonthlyTrends_of_arrays scenario eq_refl scenario_safe)
    as (trends & totals & Hrun & _ & Hnumbers & Htotal & _).
  exists trends, totals. exact (conj Hrun (conj Hnumbers Htotal)).
Defined.
